(** * P7_SCOREDATA: substitution scores, extension bounds and window weights

    A shallow embedding of [p7_scoredata.c] (HMMER 3.1b2): the five
    functions of the file, over an explicit heap of [malloc]'ed blocks, and
    the properties of the arrays they build.

    Conventions.
    - C [float] values are kept abstract ([FloatOps]); two instances are
      given, IEEE-754 binary32 ([Binary32], on the Standard Library's
      [SpecFloat]) and exact rationals ([Exact]).
    - C [int] values that index arrays are [nat]; a subtraction whose C
      value would be negative is undefined behaviour ([idx_sub]).
    - A cell that was allocated and never written is indeterminate
      ([None] for numbers, [Indet] for pointers). *)

From Stdlib Require Import ZArith Bool Lia.
From Stdlib Require Import QArith Qcanon Qpower.
From Stdlib Require Import Floats.SpecFloat.
From stdpp Require Import base option list gmap.

Local Open Scope nat_scope.

(** ** Scalars *)

(** The operations of C [float] that the file uses: the constant [0],
    [+] (also as [+=]), [/] (as [/=]) and [>]; [f_le] is C's [<=], used
    only to state orderings. *)
Class FloatOps (F : Type) : Type := {
  f_zero : F;
  f_add : F -> F -> F;
  f_div : F -> F -> F;
  f_gt : F -> F -> bool;
  f_le : F -> F -> bool
}.

(** What the order statements need of the arithmetic.  [f_wf] singles out
    the values a profile may hold, [f_nonneg] the well-formed values that
    are at least [0]. *)
Class FloatOrder (F : Type) `{FloatOps F} : Type := {
  f_wf : F -> Prop;
  f_nonneg : F -> Prop;
  f_nonneg_zero : f_nonneg f_zero;
  f_gt_nonneg : forall v m, f_wf v -> f_nonneg m -> f_gt v m = true -> f_nonneg v;
  f_add_nonneg : forall a b, f_nonneg a -> f_nonneg b -> f_nonneg (f_add a b);
  f_add_le : forall a b, f_nonneg a -> f_nonneg b -> f_le a (f_add a b) = true;
  f_le_refl : forall a, f_nonneg a -> f_le a a = true;
  f_nonneg_le : forall a, f_nonneg a -> f_le f_zero a = true
}.

(** ** Arrays *)

(** [a - b] on C ints used as indices: undefined when negative. *)
Definition idx_sub (a b : nat) : option nat :=
  if decide (b <= a) then Some (a - b) else None.

(** [l[i]] as an rvalue: the index is in range and the cell was written. *)
Definition aget {A} (l : list (option A)) (i : nat) : option A :=
  l !! i ≫= id.

(** [l[i] = v]: the index is in range. *)
Definition aset {A} (l : list (option A)) (i : nat) (v : A) : option (list (option A)) :=
  if decide (i < length l) then Some (<[i := Some v]> l) else None.

Arguments idx_sub : simpl never.
Arguments aget : simpl never.
Arguments aset : simpl never.

(** [for (i = lo; i < hi; i++) body], threading the variables the body
    assigns. *)
Fixpoint for_iter {St} (n i : nat) (body : nat -> St -> option St) (s : St) : option St :=
  match n with
  | 0 => Some s
  | S n' => s' ← body i s; for_iter n' (S i) body s'
  end.

Definition for_range {St} (lo hi : nat) (body : nat -> St -> option St) (s : St) : option St :=
  for_iter (hi - lo) lo body s.

(** [for (i = hi; i >= lo; i--) body], for [lo >= 1]. *)
Fixpoint for_down_iter {St} (n i : nat) (body : nat -> St -> option St) (s : St) : option St :=
  match n with
  | 0 => Some s
  | S n' => s' ← body i s; for_down_iter n' (i - 1) body s'
  end.

Definition for_down {St} (hi lo : nat) (body : nat -> St -> option St) (s : St) : option St :=
  for_down_iter (S hi - lo) hi body s.

(** ** The profiles the file reads *)

(** [ESL_ALPHABET]: [K] canonical residues, [Kp] symbols in all. *)
Record ESL_ALPHABET := { abc_K : nat; abc_Kp : nat }.

(** [P7_PROFILE]: [gm_rsc j n] is [gm->rsc[j][n]]. *)
Record P7_PROFILE (F : Type) := { gm_rsc : nat -> nat -> F }.
Arguments gm_rsc {F} _ _ _.

(** Modelled from the spec: the optimized profile ([P7_OPROFILE], built in
    impl_sse, not among the sources here), as the three tables its fill
    operations report: the byte emission score, the float emission score
    (position, symbol) and the float transition score (category,
    position). *)
Record P7_OPROFILE (F : Type) := {
  om_M : nat;
  om_abc : ESL_ALPHABET;
  om_ssv_score : nat -> nat -> Byte.byte;
  om_fwd_score : nat -> nat -> F;
  om_fwd_trans : nat -> nat -> F
}.
Arguments om_M {F} _.
Arguments om_abc {F} _.
Arguments om_ssv_score {F} _ _ _.
Arguments om_fwd_score {F} _ _ _.
Arguments om_fwd_trans {F} _ _ _.

(** Constants and macros of headers that are not among the sources. *)
Record Config (F : Type) := {
  (** [esl_abc_XIsResidue(abc, x)] *)
  esl_abc_XIsResidue : ESL_ALPHABET -> nat -> bool;
  (** row stride and match-score offset of [gm->rsc[x]] *)
  p7P_NR : nat;
  p7P_MSC : nat;
  (** number of transition categories, and the two the window weights read *)
  p7O_NTRANS : nat;
  p7O_MI : nat;
  p7O_II : nat;
  (** the value of [2 + (int)(log(p7_DEFAULT_WINDOW_BETA / t_mi) / log(t_ii))]
      converted to [float], as a function of [t_mi] and [t_ii] *)
  window_length : F -> F -> F
}.
Arguments esl_abc_XIsResidue {F} _ _ _.
Arguments p7P_NR {F} _.
Arguments p7P_MSC {F} _.
Arguments p7O_NTRANS {F} _.
Arguments p7O_MI {F} _.
Arguments p7O_II {F} _.
Arguments window_length {F} _ _ _.

(** ** The loops over arrays *)

Section Loops.
Context {F : Type} `{FloatOps F}.
Variable cfg : Config F.

Local Abbreviation farray := (list (option F)).

(** *** scoredata_GetSSVScoreArrays, lines 78-86 *)
Section EmissionScan.
Variable om : P7_OPROFILE F.
Variable gm : P7_PROFILE F.

Let K := abc_Kp (om_abc om).

(** body of the loop over [j] *)
Definition emission_cell (i j : nat) (st : farray * farray) : option (farray * farray) :=
  let '(scores, max_scores) := st in
  if esl_abc_XIsResidue cfg (om_abc om) j then
    scores ← aset scores (i * K + j) (gm_rsc gm j (i * p7P_NR cfg + p7P_MSC cfg));
    v ← aget scores (i * K + j);
    m ← aget max_scores i;
    if f_gt v m then
      v' ← aget scores (i * K + j);
      max_scores ← aset max_scores i v';
      Some (scores, max_scores)
    else Some (scores, max_scores)
  else Some (scores, max_scores).

(** body of the loop over [i] *)
Definition emission_row (i : nat) (st : farray * farray) : option (farray * farray) :=
  let '(scores, max_scores) := st in
  max_scores ← aset max_scores i f_zero;
  for_range 0 K (emission_cell i) (scores, max_scores).

Definition emission_scan (st : farray * farray) : option (farray * farray) :=
  for_range 1 (S (om_M om)) emission_row st.

(** The maximum the scan tracks at position [i], as a value: it starts
    at [0] and is raised by every residue score above it. *)
Definition raise_max (i : nat) (m : F) (j : nat) : F :=
  if esl_abc_XIsResidue cfg (om_abc om) j then
    let v := gm_rsc gm j (i * p7P_NR cfg + p7P_MSC cfg) in
    if f_gt v m then v else m
  else m.

Definition tracked_max (i : nat) : F :=
  fold_left (raise_max i) (seq 0 K) f_zero.
End EmissionScan.

(** *** scoredata_GetSSVScoreArrays, lines 97-110: one pass of the loop
    over [i], on the rows [opt_ext_fwd[i]] and [opt_ext_rev[M-i]] *)
Section ExtensionRows.
Variable M : nat.
Variable max_scores : farray.

(** [for (j=0; j<10 && i+j+1<=M; j++)]; returns [j] at exit.  The fuel
    bounds the number of passes; running out of it is not a result. *)
Fixpoint ext_accumulate (fuel i j : nat) (sc_fwd sc_rev : F) (rows : farray * farray)
  : option (nat * (farray * farray)) :=
  match fuel with
  | 0 => None
  | S fuel' =>
      if (j <? 10) && (i + j + 1 <=? M) then
        let '(fwd_i, rev_Mi) := rows in
        m ← aget max_scores (i + j + 1);
        let sc_fwd := f_add sc_fwd m in
        fwd_i ← aset fwd_i j sc_fwd;
        n ← idx_sub M (i + j);
        m' ← aget max_scores n;
        let sc_rev := f_add sc_rev m' in
        rev_Mi ← aset rev_Mi j sc_rev;
        ext_accumulate fuel' i (S j) sc_fwd sc_rev (fwd_i, rev_Mi)
      else Some (j, rows)
  end.

(** [for ( ; j<10; j++)], the fill of the slots past the model end *)
Definition ext_fill_cell (j : nat) (rows : farray * farray) : option (farray * farray) :=
  let '(fwd_i, rev_Mi) := rows in
  j1 ← idx_sub j 1;
  v ← aget fwd_i j1;
  fwd_i ← aset fwd_i j v;
  w ← aget rev_Mi j1;
  rev_Mi ← aset rev_Mi j w;
  Some (fwd_i, rev_Mi).

Definition ext_rows (i : nat) (rows : farray * farray) : option (farray * farray) :=
  '(j, rows) ← ext_accumulate 11 i 0 f_zero f_zero rows;
  for_range j 10 ext_fill_cell rows.
End ExtensionRows.

(** *** p7_hmm_ScoreDataComputeRest, lines 341-356 *)
Section WindowWeights.
Variable M : nat.
Variables t_mis t_iis : farray.

Definition raw_length_step (i : nat) (st : farray * F) : option (farray * F) :=
  let '(prefix_lengths, sum) := st in
  mi ← aget t_mis i;
  ii ← aget t_iis i;
  prefix_lengths ← aset prefix_lengths i (window_length cfg mi ii);
  p ← aget prefix_lengths i;
  Some (prefix_lengths, f_add sum p).

Definition normalize_step (sum : F) (i : nat) (prefix_lengths : farray) : option farray :=
  p ← aget prefix_lengths i;
  aset prefix_lengths i (f_div p sum).

Definition suffix_step (prefix_lengths : farray) (i : nat) (suffix_lengths : farray)
  : option farray :=
  s ← aget suffix_lengths (i + 1);
  i1 ← idx_sub i 1;
  p ← aget prefix_lengths i1;
  aset suffix_lengths i (f_add s p).

Definition cumulate_step (i : nat) (prefix_lengths : farray) : option farray :=
  p ← aget prefix_lengths i;
  i1 ← idx_sub i 1;
  q ← aget prefix_lengths i1;
  aset prefix_lengths i (f_add p q).

(** lines 341-350: the prefix weights before the cumulation *)
Definition normalized_weights (prefix_lengths : farray) : option farray :=
  '(prefix_lengths, sum) ← for_range 1 M raw_length_step (prefix_lengths, f_zero);
  prefix_lengths ← aset prefix_lengths M f_zero;
  v ← aget prefix_lengths M;
  prefix_lengths ← aset prefix_lengths 0 v;
  for_range 1 M (normalize_step sum) prefix_lengths.

(** lines 352-354 *)
Definition suffix_weights (prefix_lengths suffix_lengths : farray) : option farray :=
  m1 ← idx_sub M 1;
  p ← aget prefix_lengths m1;
  suffix_lengths ← aset suffix_lengths M p;
  for_down (M - 1) 1 (suffix_step prefix_lengths) suffix_lengths.

(** lines 355-356 *)
Definition cumulate (prefix_lengths : farray) : option farray :=
  for_range 2 M cumulate_step prefix_lengths.

Definition window_weights (arrays : farray * farray) : option (farray * farray) :=
  let '(prefix_lengths, suffix_lengths) := arrays in
  prefix_lengths ← normalized_weights prefix_lengths;
  suffix_lengths ← suffix_weights prefix_lengths suffix_lengths;
  prefix_lengths ← cumulate prefix_lengths;
  Some (prefix_lengths, suffix_lengths).
End WindowWeights.
End Loops.

(** ** Memory *)

(** A pointer value: indeterminate (never assigned), [NULL], or the address
    of a block. *)
Inductive pointer := Indet | Null | Ptr (a : nat).

#[global] Instance pointer_eq_dec : EqDecision pointer.
Proof. solve_decision. Defined.

(** [enum p7_scoredatatype_e] *)
Inductive p7_scoredatatype_e := p7_sd_std | p7_sd_fm.

(** Status codes of easel. *)
Inductive status := eslOK | eslEMEM.

(** [P7_SCOREDATA].  [sd_type] and [sd_M] are the members [type] and [M];
    [None] is an indeterminate [int]. *)
Record P7_SCOREDATA := {
  sd_type : option p7_scoredatatype_e;
  sd_M : option nat;
  ssv_scores : pointer;
  ssv_scores_f : pointer;
  prefix_lengths : pointer;
  suffix_lengths : pointer;
  fwd_scores : pointer;
  fwd_transitions : pointer;
  opt_ext_fwd : pointer;
  opt_ext_rev : pointer
}.

(** The struct as [malloc] returns it. *)
Definition sd_indet : P7_SCOREDATA :=
  Build_P7_SCOREDATA None None Indet Indet Indet Indet Indet Indet Indet Indet.

(** How the struct declaration (in hmmer.h, not among the sources) lays
    out the two score-table pointers: as the two members of one anonymous
    union, or as two members of the struct. *)
Inductive table_layout := OneSlot | TwoSlots.

Section Assign.
Variable layout : table_layout.

Definition set_type (t : p7_scoredatatype_e) (d : P7_SCOREDATA) : P7_SCOREDATA :=
  let 'Build_P7_SCOREDATA _ m s sf pl sl fs ft ef er := d in
  Build_P7_SCOREDATA (Some t) m s sf pl sl fs ft ef er.
Definition set_M (n : nat) (d : P7_SCOREDATA) : P7_SCOREDATA :=
  let 'Build_P7_SCOREDATA t _ s sf pl sl fs ft ef er := d in
  Build_P7_SCOREDATA t (Some n) s sf pl sl fs ft ef er.
Definition set_ssv_scores (p : pointer) (d : P7_SCOREDATA) : P7_SCOREDATA :=
  let 'Build_P7_SCOREDATA t m _ sf pl sl fs ft ef er := d in
  Build_P7_SCOREDATA t m p (match layout with OneSlot => p | TwoSlots => sf end)
    pl sl fs ft ef er.
Definition set_ssv_scores_f (p : pointer) (d : P7_SCOREDATA) : P7_SCOREDATA :=
  let 'Build_P7_SCOREDATA t m s _ pl sl fs ft ef er := d in
  Build_P7_SCOREDATA t m (match layout with OneSlot => p | TwoSlots => s end) p
    pl sl fs ft ef er.
Definition set_prefix_lengths (p : pointer) (d : P7_SCOREDATA) : P7_SCOREDATA :=
  let 'Build_P7_SCOREDATA t m s sf _ sl fs ft ef er := d in
  Build_P7_SCOREDATA t m s sf p sl fs ft ef er.
Definition set_suffix_lengths (p : pointer) (d : P7_SCOREDATA) : P7_SCOREDATA :=
  let 'Build_P7_SCOREDATA t m s sf pl _ fs ft ef er := d in
  Build_P7_SCOREDATA t m s sf pl p fs ft ef er.
Definition set_fwd_scores (p : pointer) (d : P7_SCOREDATA) : P7_SCOREDATA :=
  let 'Build_P7_SCOREDATA t m s sf pl sl _ ft ef er := d in
  Build_P7_SCOREDATA t m s sf pl sl p ft ef er.
Definition set_fwd_transitions (p : pointer) (d : P7_SCOREDATA) : P7_SCOREDATA :=
  let 'Build_P7_SCOREDATA t m s sf pl sl fs _ ef er := d in
  Build_P7_SCOREDATA t m s sf pl sl fs p ef er.
Definition set_opt_ext_fwd (p : pointer) (d : P7_SCOREDATA) : P7_SCOREDATA :=
  let 'Build_P7_SCOREDATA t m s sf pl sl fs ft _ er := d in
  Build_P7_SCOREDATA t m s sf pl sl fs ft p er.
Definition set_opt_ext_rev (p : pointer) (d : P7_SCOREDATA) : P7_SCOREDATA :=
  let 'Build_P7_SCOREDATA t m s sf pl sl fs ft ef _ := d in
  Build_P7_SCOREDATA t m s sf pl sl fs ft ef p.
End Assign.

(** A [malloc]'ed block, by the type it is used at. *)
Inductive block (F : Type) :=
  | Bytes (l : list (option Byte.byte))
  | Floats (l : list (option F))
  | Pointers (l : list pointer)
  | Struct (d : P7_SCOREDATA).
Arguments Bytes {F} l.
Arguments Floats {F} l.
Arguments Pointers {F} l.
Arguments Struct {F} d.

(** The state of the process: the live blocks, the number of [malloc]
    calls made so far (the next fresh address), and which calls succeed. *)
Record state (F : Type) := {
  heap : gmap nat (block F);
  allocs : nat;
  alloc_ok : nat -> bool
}.
Arguments heap {F} _.
Arguments allocs {F} _.
Arguments alloc_ok {F} _ _.
Arguments Build_state {F} _ _ _.

Definition with_heap {F} (h : gmap nat (block F)) (s : state F) : state F :=
  Build_state h (allocs s) (alloc_ok s).

(** The result of running a piece of code: it completes, it jumps to the
    [ERROR] label of the enclosing function, or its behaviour is
    undefined. *)
Inductive res (F A : Type) :=
  | Done (a : A) (s : state F)
  | Error (e : status) (s : state F)
  | Undef.
Arguments Done {F A} a s.
Arguments Error {F A} e s.
Arguments Undef {F A}.

Definition M (F A : Type) : Type := state F -> res F A.

Section Monad.
Context {F : Type}.

Definition ret {A} (a : A) : M F A := fun s => Done a s.
Definition bind {A B} (m : M F A) (k : A -> M F B) : M F B :=
  fun s => match m s with
           | Done a s' => k a s'
           | Error e s' => Error e s'
           | Undef => Undef
           end.
Definition undef {A} : M F A := fun _ => Undef.
Definition goto_ERROR {A} (e : status) : M F A := fun s => Error e s.
(** the code after the [ERROR:] label *)
Definition on_ERROR {A} (m : M F A) (h : status -> M F A) : M F A :=
  fun s => match m s with
           | Error e s' => h e s'
           | r => r
           end.
Definition of_option {A} (o : option A) : M F A :=
  match o with Some a => ret a | None => undef end.
End Monad.

#[global] Instance M_ret {F} : MRet (M F) := @ret F.
#[global] Instance M_bind {F} : MBind (M F) := fun A B k m => bind m k.

(** ** The C library and easel *)

Section Primitives.
Context {F : Type}.

Local Abbreviation farray := (list (option F)).

(** [malloc]: the call numbered [allocs s] succeeds when [alloc_ok s]
    says so, and then returns a fresh block with indeterminate
    contents [b]. *)
Definition malloc (b : block F) : M F pointer := fun s =>
  let n := allocs s in
  if alloc_ok s n
  then Done (Ptr n) (Build_state (<[n := b]> (heap s)) (S n) (alloc_ok s))
  else Done Null (Build_state (heap s) (S n) (alloc_ok s)).

(** [free(p)]: nothing for [NULL]; [p] must be a live block. *)
Definition free (p : pointer) : M F unit :=
  match p with
  | Null => ret tt
  | Ptr a => fun s =>
      match heap s !! a with
      | Some _ => Done tt (with_heap (delete a (heap s)) s)
      | None => Undef
      end
  | Indet => undef
  end.

(** [ESL_ALLOC(p, size)] of easel.h: [p = malloc(size)], and on [NULL]
    [status = eslEMEM; goto ERROR] (the exception handler is taken to
    return).  [assign] stores into the lvalue [p]. *)
Definition ESL_ALLOC (assign : pointer -> M F unit) (b : block F) : M F pointer :=
  p ← malloc b;
  assign p;;
  match p with
  | Ptr _ => ret p
  | _ => goto_ERROR eslEMEM
  end.

(** [p == NULL], for a pointer that has a value *)
Definition is_null (p : pointer) : M F bool :=
  match p with
  | Null => ret true
  | Ptr _ => ret false
  | Indet => undef
  end.

Definition get_block (p : pointer) : M F (block F) :=
  match p with
  | Ptr a => fun s =>
      match heap s !! a with
      | Some b => Done b s
      | None => Undef
      end
  | _ => undef
  end.

(** overwrite the contents of the live block [p] *)
Definition put_block (p : pointer) (b : block F) : M F unit :=
  match p with
  | Ptr a => fun s =>
      match heap s !! a with
      | Some _ => Done tt (with_heap (<[a := b]> (heap s)) s)
      | None => Undef
      end
  | _ => undef
  end.

(** [*data], and [data->member = ...] through a setter *)
Definition load_data (data : pointer) : M F P7_SCOREDATA :=
  b ← get_block data;
  match b with Struct d => ret d | _ => undef end.

Definition assign_data (data : pointer) (set : P7_SCOREDATA -> P7_SCOREDATA) : M F unit :=
  d ← load_data data;
  put_block data (Struct (set d)).

(** the contents of a [float] array, and their replacement *)
Definition load_floats (p : pointer) : M F farray :=
  b ← get_block p;
  match b with Floats l => ret l | _ => undef end.

Definition store_floats (p : pointer) (l : farray) : M F unit :=
  l0 ← load_floats p;
  if decide (length l = length l0) then put_block p (Floats l) else undef.

(** Run a loop that works in place on two [float] arrays: on two distinct
    blocks (two names for one block are outside the model). *)
Definition with_floats2 (p q : pointer) (f : farray * farray -> option (farray * farray))
  : M F unit :=
  if decide (p = q) then undef
  else
    lp ← load_floats p;
    lq ← load_floats q;
    '(lp', lq') ← of_option (f (lp, lq));
    store_floats p lp';;
    store_floats q lq'.

(** [p[i]] and [p[i] = q] on an array of pointers *)
Definition load_ptr (p : pointer) (i : nat) : M F pointer :=
  b ← get_block p;
  match b with Pointers l => of_option (l !! i) | _ => undef end.

Definition store_ptr (p : pointer) (i : nat) (q : pointer) : M F unit :=
  b ← get_block p;
  match b with
  | Pointers l => if decide (i < length l) then put_block p (Pointers (<[i := q]> l)) else undef
  | _ => undef
  end.

(** [memcpy(dst, src, n * sizeof(elt))] between two arrays of one element
    type, both at least [n] long. *)
Definition copy_cells {A} (n : nat) (src dst : list A) : option (list A) :=
  if decide (n <= length src /\ n <= length dst)
  then Some (take n src ++ drop n dst) else None.

Definition memcpy (dst src : pointer) (n : nat) : M F unit :=
  if decide (dst = src) then undef
  else
    bs ← get_block src;
    bd ← get_block dst;
    match bs, bd with
    | Bytes ls, Bytes ld => l ← of_option (copy_cells n ls ld); put_block dst (Bytes l)
    | Floats ls, Floats ld => l ← of_option (copy_cells n ls ld); put_block dst (Floats l)
    | _, _ => undef
    end.

(** [for (i = lo; i < hi; i++) body] *)
Fixpoint for_each (n i : nat) (body : nat -> M F unit) : M F unit :=
  match n with
  | 0 => ret tt
  | S n' => body i;; for_each n' (S i) body
  end.

Definition for_loop (lo hi : nat) (body : nat -> M F unit) : M F unit :=
  for_each (hi - lo) lo body.

(** *** The fill operations of the optimized profile *)

(** Modelled from the spec: an operation of the optimized profile (in
    impl_sse, not among the sources here) "fills a caller-provided buffer
    with per-position emission scores": the cell of position [i] in
    [1..M] and symbol [x] is cell [i * Kp + x], and row [0] is left as
    it is. *)
Definition fill_table {A} (Mlen Kp : nat) (score : nat -> nat -> A)
    (l : list (option A)) : option (list (option A)) :=
  if decide ((Mlen + 1) * Kp <= length l)
  then Some (imap (fun n c =>
               if decide (Kp <= n < (Mlen + 1) * Kp)
               then Some (score (n / Kp) (n mod Kp)) else c) l)
  else None.

Definition p7_oprofile_GetSSVEmissionScoreArray (om : P7_OPROFILE F) (arr : pointer)
  : M F unit :=
  b ← get_block arr;
  match b with
  | Bytes l =>
      l' ← of_option (fill_table (om_M om) (abc_Kp (om_abc om)) (om_ssv_score om) l);
      put_block arr (Bytes l')
  | _ => undef
  end.

Definition p7_oprofile_GetFwdEmissionScoreArray (om : P7_OPROFILE F) (arr : pointer)
  : M F unit :=
  l ← load_floats arr;
  l' ← of_option (fill_table (om_M om) (abc_Kp (om_abc om)) (om_fwd_score om) l);
  put_block arr (Floats l').

(** Modelled from the spec: the operation that "fills a caller-provided
    buffer with a named transition-score array by category" (in impl_sse,
    not among the sources here): cell [i] in [1..M] receives the score of
    the category at position [i]. *)
Definition fill_row {A} (Mlen : nat) (score : nat -> A)
    (l : list (option A)) : option (list (option A)) :=
  if decide (Mlen + 1 <= length l)
  then Some (imap (fun n c => if decide (1 <= n <= Mlen) then Some (score n) else c) l)
  else None.

Definition p7_oprofile_GetFwdTransitionArray (om : P7_OPROFILE F) (type : nat)
    (arr : pointer) : M F unit :=
  l ← load_floats arr;
  l' ← of_option (fill_row (om_M om) (om_fwd_trans om type) l);
  put_block arr (Floats l').
End Primitives.

(** ** The functions of p7_scoredata.c *)

Section ScoreData.
Context {F : Type} `{FloatOps F}.
Variable cfg : Config F.
Variable layout : table_layout.

(** [data->member] as an rvalue *)
Definition member {A} (data : pointer) (f : P7_SCOREDATA -> A) : M F A :=
  d ← load_data data; mret (f d).

Definition int_member (data : pointer) (f : P7_SCOREDATA -> option nat) : M F nat :=
  d ← load_data data; of_option (f d).

(** [for (i = lo; i < hi; i++) free(rows[i]);] *)
Definition free_rows (rows : pointer) (lo hi : nat) : M F unit :=
  for_loop lo hi (fun i => p ← load_ptr rows i; free p).

(** [if (p != NULL) body] *)
Definition unless_null (p : pointer) (body : M F unit) : M F unit :=
  b ← is_null p; if b : bool then mret tt else body.

(** *** scoredata_GetSSVScoreArrays *)
Definition scoredata_GetSSVScoreArrays (om : P7_OPROFILE F) (gm : option (P7_PROFILE F))
    (data : pointer) : M F status :=
  let K := abc_Kp (om_abc om) in
  let Mlen := om_M om in
  on_ERROR
    (assign_data data (set_M Mlen);;
     match gm with
     | None =>
         assign_data data (set_type p7_sd_std);;
         ESL_ALLOC (fun p => assign_data data (set_ssv_scores layout p))
                   (Bytes (replicate ((Mlen + 1) * K) None));;
         arr ← member data ssv_scores;
         p7_oprofile_GetSSVEmissionScoreArray om arr
     | Some gm =>
         assign_data data (set_type p7_sd_fm);;
         ESL_ALLOC (fun p => assign_data data (set_ssv_scores_f layout p))
                   (Floats (replicate ((Mlen + 1) * K) None));;
         max_scores ← ESL_ALLOC (fun _ => mret tt) (Floats (replicate (Mlen + 1) None));
         scores ← member data ssv_scores_f;
         with_floats2 scores max_scores (emission_scan cfg om gm);;
         ESL_ALLOC (fun p => assign_data data (set_opt_ext_fwd p))
                   (Pointers (replicate (Mlen + 1) Indet));;
         ESL_ALLOC (fun p => assign_data data (set_opt_ext_rev p))
                   (Pointers (replicate (Mlen + 1) Indet));;
         for_loop 1 Mlen (fun i =>
           fwd ← member data opt_ext_fwd;
           ESL_ALLOC (store_ptr fwd i) (Floats (replicate 10 None));;
           rev ← member data opt_ext_rev;
           ESL_ALLOC (store_ptr rev i) (Floats (replicate 10 None));;
           mret tt);;
         for_loop 1 Mlen (fun i =>
           fwd ← member data opt_ext_fwd;
           fwd_i ← load_ptr fwd i;
           rev ← member data opt_ext_rev;
           Mi ← of_option (idx_sub Mlen i);
           rev_Mi ← load_ptr rev Mi;
           maxs ← load_floats max_scores;
           with_floats2 fwd_i rev_Mi (ext_rows Mlen maxs i));;
         free max_scores
     end;;
     mret eslOK)
    (fun _ => mret eslEMEM).

(** *** p7_hmm_ScoreDataDestroy *)
Definition p7_hmm_ScoreDataDestroy (data : pointer) : M F unit :=
  unless_null data
    (d ← load_data data;
     unless_null (ssv_scores d) (free (ssv_scores d));;
     unless_null (prefix_lengths d) (free (prefix_lengths d));;
     unless_null (suffix_lengths d) (free (suffix_lengths d));;
     unless_null (fwd_scores d) (free (fwd_scores d));;
     unless_null (fwd_transitions d)
       (free_rows (fwd_transitions d) 0 (p7O_NTRANS cfg);;
        free (fwd_transitions d));;
     unless_null (opt_ext_fwd d)
       (Mlen ← int_member data sd_M;
        free_rows (opt_ext_fwd d) 1 Mlen;;
        free (opt_ext_fwd d));;
     unless_null (opt_ext_rev d)
       (Mlen ← int_member data sd_M;
        free_rows (opt_ext_rev d) 1 Mlen;;
        free (opt_ext_rev d));;
     free data).

(** *** p7_hmm_ScoreDataCreate

    [data] is [NULL] whenever [ERROR] is reached: the only jump to it is
    from the allocation of [data] itself.  The status that
    [scoredata_GetSSVScoreArrays] returns is dropped, as in the source. *)
Definition p7_hmm_ScoreDataCreate (om : P7_OPROFILE F) (gm : option (P7_PROFILE F))
    : M F pointer :=
  on_ERROR
    (data ← ESL_ALLOC (fun _ => mret tt) (Struct sd_indet);
     assign_data data (set_ssv_scores layout Null);;
     assign_data data (set_ssv_scores_f layout Null);;
     assign_data data (set_opt_ext_fwd Null);;
     assign_data data (set_opt_ext_rev Null);;
     assign_data data (set_prefix_lengths Null);;
     assign_data data (set_suffix_lengths Null);;
     assign_data data (set_fwd_scores Null);;
     assign_data data (set_fwd_transitions Null);;
     _ ← scoredata_GetSSVScoreArrays om gm data;
     mret data)
    (fun _ => p7_hmm_ScoreDataDestroy Null;; mret Null).

(** *** p7_hmm_ScoreDataClone *)

(** [if (src->f != NULL) { ESL_ALLOC(new->f, n * sizeof(float)); memcpy(...); }] *)
Definition clone_floats (src new : pointer) (f : P7_SCOREDATA -> pointer)
    (set : pointer -> P7_SCOREDATA -> P7_SCOREDATA) (n : nat) : M F unit :=
  from ← member src f;
  unless_null from
    (to ← ESL_ALLOC (fun p => assign_data new (set p)) (Floats (replicate n None));
     memcpy to from n).

(** [if (src->f != NULL)]: the spine of [len] pointers, then the rows
    [lo..hi-1] of [n] floats each *)
Definition clone_rows (src new : pointer) (f : P7_SCOREDATA -> pointer)
    (set : pointer -> P7_SCOREDATA -> P7_SCOREDATA) (len lo hi n : nat) : M F unit :=
  from ← member src f;
  unless_null from
    (to ← ESL_ALLOC (fun p => assign_data new (set p)) (Pointers (replicate len Indet));
     for_loop lo hi (fun i =>
       row ← ESL_ALLOC (store_ptr to i) (Floats (replicate n None));
       from_i ← load_ptr from i;
       memcpy row from_i n)).

Definition p7_hmm_ScoreDataClone (src : pointer) (Kp : nat) : M F pointer :=
  b ← is_null src;
  if b : bool then mret Null
  else
    on_ERROR
      (new ← ESL_ALLOC (fun _ => mret tt) (Struct sd_indet);
       Mlen ← int_member src sd_M;
       assign_data new (set_M Mlen);;
       type ← member src sd_type;
       type ← of_option type;
       assign_data new (set_type type);;
       assign_data new (set_ssv_scores layout Null);;
       assign_data new (set_opt_ext_fwd Null);;
       assign_data new (set_opt_ext_rev Null);;
       assign_data new (set_prefix_lengths Null);;
       assign_data new (set_suffix_lengths Null);;
       assign_data new (set_fwd_scores Null);;
       assign_data new (set_fwd_transitions Null);;
       match type with
       | p7_sd_std =>
           to ← ESL_ALLOC (fun p => assign_data new (set_ssv_scores layout p))
                          (Bytes (replicate ((Mlen + 1) * Kp) None));
           from ← member src ssv_scores;
           memcpy to from ((Mlen + 1) * Kp)
       | p7_sd_fm =>
           to ← ESL_ALLOC (fun p => assign_data new (set_ssv_scores_f layout p))
                          (Floats (replicate ((Mlen + 1) * Kp) None));
           from ← member src ssv_scores_f;
           memcpy to from ((Mlen + 1) * Kp)
       end;;
       clone_floats src new prefix_lengths set_prefix_lengths (Mlen + 1);;
       clone_floats src new suffix_lengths set_suffix_lengths (Mlen + 1);;
       clone_floats src new fwd_scores set_fwd_scores (Mlen + 1);;
       clone_rows src new opt_ext_fwd set_opt_ext_fwd (Mlen + 1) 1 Mlen 10;;
       clone_rows src new opt_ext_rev set_opt_ext_rev (Mlen + 1) 1 Mlen 10;;
       clone_rows src new fwd_transitions set_fwd_transitions
                  (p7O_NTRANS cfg) 0 (p7O_NTRANS cfg) (Mlen + 1);;
       mret new)
      (fun _ => mret Null).

(** *** p7_hmm_ScoreDataComputeRest *)
Definition p7_hmm_ScoreDataComputeRest (om : P7_OPROFILE F) (data : pointer) : M F status :=
  let Mlen := om_M om in
  on_ERROR
    (fs ← ESL_ALLOC (fun p => assign_data data (set_fwd_scores p))
                    (Floats (replicate (abc_Kp (om_abc om) * (Mlen + 1)) None));
     p7_oprofile_GetFwdEmissionScoreArray om fs;;
     ESL_ALLOC (fun p => assign_data data (set_fwd_transitions p))
               (Pointers (replicate (p7O_NTRANS cfg) Indet));;
     for_loop 0 (p7O_NTRANS cfg) (fun i =>
       ft ← member data fwd_transitions;
       row ← ESL_ALLOC (store_ptr ft i) (Floats (replicate (Mlen + 1) None));
       p7_oprofile_GetFwdTransitionArray om i row);;
     ft ← member data fwd_transitions;
     t_mis ← load_ptr ft (p7O_MI cfg);
     t_iis ← load_ptr ft (p7O_II cfg);
     ESL_ALLOC (fun p => assign_data data (set_prefix_lengths p))
               (Floats (replicate (Mlen + 1) None));;
     ESL_ALLOC (fun p => assign_data data (set_suffix_lengths p))
               (Floats (replicate (Mlen + 1) None));;
     mis ← load_floats t_mis;
     iis ← load_floats t_iis;
     pl ← member data prefix_lengths;
     sl ← member data suffix_lengths;
     with_floats2 pl sl (window_weights cfg Mlen mis iis);;
     mret eslOK)
    (fun _ => p7_hmm_ScoreDataDestroy data;; mret eslEMEM).
End ScoreData.

(** ** What a caller reads from a state *)

Section Readers.
Context {F : Type}.

Local Abbreviation farray := (list (option F)).

Definition block_at (s : state F) (p : pointer) : option (block F) :=
  match p with Ptr a => heap s !! a | _ => None end.

Definition data_at (s : state F) (data : pointer) : option P7_SCOREDATA :=
  match block_at s data with Some (Struct d) => Some d | _ => None end.

Definition floats_at (s : state F) (p : pointer) : option farray :=
  match block_at s p with Some (Floats l) => Some l | _ => None end.

Definition bytes_at (s : state F) (p : pointer) : option (list (option Byte.byte)) :=
  match block_at s p with Some (Bytes l) => Some l | _ => None end.

Definition pointers_at (s : state F) (p : pointer) : option (list pointer) :=
  match block_at s p with Some (Pointers l) => Some l | _ => None end.

(** the array [data->f] *)
Definition float_array (s : state F) (data : pointer) (f : P7_SCOREDATA -> pointer)
  : option farray :=
  d ← data_at s data; floats_at s (f d).

Definition byte_array (s : state F) (data : pointer) (f : P7_SCOREDATA -> pointer)
  : option (list (option Byte.byte)) :=
  d ← data_at s data; bytes_at s (f d).

(** the row [data->f[i]] *)
Definition float_row (s : state F) (data : pointer) (f : P7_SCOREDATA -> pointer) (i : nat)
  : option farray :=
  d ← data_at s data; rows ← pointers_at s (f d); p ← rows !! i; floats_at s p.

(** [data->f[i]] and [data->f[i][k]], when written *)
Definition float_cell (s : state F) (data : pointer) (f : P7_SCOREDATA -> pointer) (i : nat)
  : option F :=
  l ← float_array s data f; aget l i.

Definition byte_cell (s : state F) (data : pointer) (f : P7_SCOREDATA -> pointer) (i : nat)
  : option Byte.byte :=
  l ← byte_array s data f; aget l i.

Definition row_cell (s : state F) (data : pointer) (f : P7_SCOREDATA -> pointer) (i k : nat)
  : option F :=
  l ← float_row s data f i; aget l k.

(** A state whose blocks all lie below the next fresh address. *)
Definition fresh_above (s : state F) : Prop :=
  forall a, allocs s <= a -> heap s !! a = None.

(** Every [malloc] from this state on succeeds. *)
Definition never_fails (s : state F) : Prop :=
  forall n, allocs s <= n -> alloc_ok s n = true.
End Readers.

(** ** Two arithmetics *)

(** IEEE-754 binary32, the [float] of the platforms HMMER runs on, with
    round to nearest even. *)
Module Binary32.
Definition prec : Z := 24.
Definition emax : Z := 128.
Definition of_Z (z : Z) : spec_float := binary_normalize prec emax z 0 false.

#[global] Instance ops : FloatOps spec_float := {|
  f_zero := S754_zero false;
  f_add := SFadd prec emax;
  f_div := SFdiv prec emax;
  f_gt := fun x y => SFltb y x;
  f_le := SFleb
|}.
End Binary32.

(** Exact rational arithmetic: what the float code computes when no
    operation rounds. *)
Module Exact.
#[global] Instance ops : FloatOps Qc := {|
  f_zero := 0%Qc;
  f_add := Qcplus;
  f_div := Qcdiv;
  f_gt := fun x y => bool_decide (y < x)%Qc;
  f_le := fun x y => bool_decide (x ≤ y)%Qc
|}.
End Exact.

(** ** The extension bounds, in the words of the specification *)

Section Bounds.
Context {F : Type} `{FloatOps F}.

(** The sum of the maxima [mx] at the listed positions, accumulated from
    [0] in the order of the list. *)
Definition cumulative_sum (mx : nat -> F) (positions : list nat) : F :=
  fold_left (fun acc p => f_add acc (mx p)) positions f_zero.

(** Positions [i+1, i+2, ..., i+k+1], stopping at the model end [M]. *)
Definition fwd_positions (M i k : nat) : list nat :=
  seq (i + 1) (min (k + 1) (M - i)).

(** Positions [r, r-1, ..., r-k], stopping at the first position [1]. *)
Definition rev_positions (r k : nat) : list nat :=
  map (fun t => r - t) (seq 0 (min (k + 1) r)).

Definition spec_extFwd (mx : nat -> F) (M i k : nat) : F :=
  cumulative_sum mx (fwd_positions M i k).

Definition spec_extRev (mx : nat -> F) (r k : nat) : F :=
  cumulative_sum mx (rev_positions r k).

(** The maxima read end for end: position [p] takes the place of
    position [M + 1 - p]. *)
Definition mirror (M : nat) (mx : nat -> F) (p : nat) : F := mx (M + 1 - p).
End Bounds.

(** * Invariants and closed forms

    What the loops establish, and what the heap looks like while the
    buffer is built.  The proofs below are stated with these. *)

Section ExtRowsDone.
Context {F : Type} `{FloatOps F}.
Local Abbreviation farray := (list (option F)).

(** entry [k] of both rows is what the specification says *)
Definition rows_done (mx : nat -> F) (M i n : nat) (rows : farray * farray) : Prop :=
  length rows.1 = 10 /\ length rows.2 = 10 /\
  forall k, k < n ->
    aget rows.1 k = Some (spec_extFwd mx M i k) /\
    aget rows.2 k = Some (spec_extRev mx (M - i) k).
End ExtRowsDone.

Section EmissionScanInv.
Context {F : Type} `{FloatOps F}.
Local Abbreviation farray := (list (option F)).
Variable cfg : Config F.
Variable om : P7_OPROFILE F.
Variable gm : P7_PROFILE F.

Local Abbreviation K := (abc_Kp (om_abc om)).
Local Abbreviation is_res := (esl_abc_XIsResidue cfg (om_abc om)).
Local Abbreviation msc i j := (gm_rsc gm j (i * p7P_NR cfg + p7P_MSC cfg)).

(** the cell of position [i] and symbol [j] after the scan of row [i] *)
Definition scanned_cell (old : option (option F)) (i j : nat) : option (option F) :=
  if is_res j then Some (Some (msc i j)) else old.

(** the arrays while row [i] is scanned, columns [0..j-1] done *)
Definition row_inv (i : nat) (sc mx : farray) (j : nat) (st : farray * farray) : Prop :=
  length st.1 = length sc /\ length st.2 = length mx /\
  (forall n, st.1 !! n =
             if decide (i * K <= n < i * K + j)
             then scanned_cell (sc !! n) i (n - i * K) else sc !! n) /\
  (forall i', st.2 !! i' =
              if decide (i' = i)
              then Some (Some (fold_left (raise_max cfg om gm i) (seq 0 j) f_zero))
              else mx !! i').

(** the arrays once rows [1..i-1] are scanned *)
Definition scan_inv (sc mx : farray) (i : nat) (st : farray * farray) : Prop :=
  length st.1 = length sc /\ length st.2 = length mx /\
  (forall i' j, 1 <= i' < i -> j < K ->
     st.1 !! (i' * K + j) = scanned_cell (sc !! (i' * K + j)) i' j) /\
  (forall n, n < K \/ i * K <= n -> st.1 !! n = sc !! n) /\
  (forall i', 1 <= i' < i -> aget st.2 i' = Some (tracked_max cfg om gm i')) /\
  (forall i', i' = 0 \/ i <= i' -> st.2 !! i' = mx !! i').
End EmissionScanInv.

Section WeightsClosedForm.
Context {F : Type} `{FloatOps F}.
Variable cfg : Config F.
Variable M : nat.
Variables mi ii : nat -> F.

(** the raw window length of position [i] and their total *)
Definition raw_of (i : nat) : F := window_length cfg (mi i) (ii i).
Definition raw_total : F := cumulative_sum raw_of (seq 1 (M - 1)).
(** the weight of position [i] before the cumulation *)
Definition weight_of (i : nat) : F :=
  if decide (1 <= i < M) then f_div (raw_of i) raw_total else f_zero.
(** [suffix_lengths[M - n]] *)
Fixpoint suffix_back (n : nat) : F :=
  match n with
  | 0 => weight_of (M - 1)
  | S n' => f_add (suffix_back n') (weight_of (M - S n' - 1))
  end.
(** [prefix_lengths[i]] after the cumulation *)
Fixpoint cumulated (i : nat) : F :=
  match i with
  | 0 => weight_of 0
  | S i' => if decide (2 <= S i' < M) then f_add (weight_of (S i')) (cumulated i')
            else weight_of (S i')
  end.
End WeightsClosedForm.

Section Runs.
Context {F : Type}.

(** [m] completes from [s], and the result and final state satisfy [Q] *)
Definition runs {A} (m : M F A) (s : state F) (Q : A -> state F -> Prop) : Prop :=
  exists r s', m s = Done r s' /\ Q r s'.
End Runs.

(** the struct of a standard-mode buffer built at address [c] *)
Definition std_data (layout : table_layout) (c Mlen : nat) : P7_SCOREDATA :=
  Build_P7_SCOREDATA (Some p7_sd_std) (Some Mlen) (Ptr (c + 1))
    (match layout with OneSlot => Ptr (c + 1) | TwoSlots => Null end)
    Null Null Null Null Null Null.

(** the spine of a ragged table whose rows [1..n-1] are allocated, row [t]
    at address [base + 2 * t] *)
Definition spine_upto (base Mlen n : nat) : list pointer :=
  map (fun t => if decide (1 <= t < n) then Ptr (base + 2 * t) else Indet) (seq 0 (Mlen + 1)).

(** the struct of a float-mode buffer built at address [c] *)
Definition fm_data (layout : table_layout) (c Mlen : nat) : P7_SCOREDATA :=
  Build_P7_SCOREDATA (Some p7_sd_fm) (Some Mlen)
    (match layout with OneSlot => Ptr (c + 1) | TwoSlots => Null end) (Ptr (c + 1))
    Null Null Null Null (Ptr (c + 3)) (Ptr (c + 4)).

Section FmShape.
Context {F : Type} `{FloatOps F}.
Local Abbreviation farray := (list (option F)).

(** the rows of the two tables as the specification has them *)
Definition fwd_row (mx : nat -> F) (Mlen i : nat) : farray :=
  map (fun k => Some (spec_extFwd mx Mlen i k)) (seq 0 10).
Definition rev_row (mx : nat -> F) (r : nat) : farray :=
  map (fun k => Some (spec_extRev mx r k)) (seq 0 10).
Definition blank_row : farray := replicate 10 None.

(** The blocks of a float-mode buffer under construction at address [c]
    of a state that started as [s0]: the struct, the score table, the
    scratch maxima (while they live), the two spines with rows [1..n-1]
    allocated, and nothing else changed. *)
Record fm_shape (s0 : state F) (c Mlen : nat) (d : P7_SCOREDATA) (tbl : farray)
    (maxs : option farray) (n : nat) (rf rr : nat -> farray) (s : state F) : Prop := {
  fm_below : forall x, x < c -> heap s !! x = heap s0 !! x;
  fm_struct : heap s !! c = Some (Struct d);
  fm_table : heap s !! (c + 1) = Some (Floats tbl);
  fm_maxs : heap s !! (c + 2) = Floats <$> maxs;
  fm_spine_f : heap s !! (c + 3) = Some (Pointers (spine_upto (c + 3) Mlen n));
  fm_spine_r : heap s !! (c + 4) = Some (Pointers (spine_upto (c + 4) Mlen n));
  fm_rows_f : forall t, 1 <= t < n -> heap s !! (c + 3 + 2 * t) = Some (Floats (rf t));
  fm_rows_r : forall t, 1 <= t < n -> heap s !! (c + 4 + 2 * t) = Some (Floats (rr t));
  fm_above : forall x, c + 3 + 2 * n <= x -> heap s !! x = heap s0 !! x;
  fm_allocs : allocs s = c + 3 + 2 * n;
  fm_alloc_ok : alloc_ok s = alloc_ok s0
}.
End FmShape.

Section RowsUpto.
Context {F : Type} `{FloatOps F}.
Local Abbreviation farray := (list (option F)).

(** rows [1..i-1] of the forward table and rows [M-i+1..M-1] of the
    reverse table are filled *)
Definition fwd_rows_upto (mx : nat -> F) (Mlen i t : nat) : farray :=
  if decide (t < i) then fwd_row mx Mlen t else blank_row.
Definition rev_rows_upto (mx : nat -> F) (Mlen i r : nat) : farray :=
  if decide (Mlen - r < i) then rev_row mx r else blank_row.
End RowsUpto.

(** the spine of the transition table with rows [0..n-1] allocated, row [t]
    at address [base + t] *)
Definition trans_spine_upto (base ntrans n : nat) : list pointer :=
  map (fun t => if decide (t < n) then Ptr (base + t) else Indet) (seq 0 ntrans).

Section RestShape.
Context {F : Type} `{FloatOps F}.
Local Abbreviation farray := (list (option F)).

(** what the two fill operations leave in a fresh array *)
Definition filled_table (Mlen Kp : nat) (score : nat -> nat -> F) : farray :=
  imap (fun n c => if decide (Kp <= n < (Mlen + 1) * Kp)
                   then Some (score (n / Kp) (n mod Kp)) else c)
       (replicate (Kp * (Mlen + 1)) None).
Definition filled_row (Mlen : nat) (score : nat -> F) : farray :=
  imap (fun n c => if decide (1 <= n <= Mlen) then Some (score n) else c)
       (replicate (Mlen + 1) None).

(** The blocks that p7_hmm_ScoreDataComputeRest adds to a buffer at
    address [a], from a state [s0] whose next fresh address is [b]. *)
Record rest_shape (cfg : Config F) (om : P7_OPROFILE F) (s0 : state F) (a : nat)
    (d : P7_SCOREDATA) (n : nat) (tail : list (option farray)) (s : state F) : Prop := {
  rs_below : forall x, x < allocs s0 -> x <> a -> heap s !! x = heap s0 !! x;
  rs_struct : heap s !! a = Some (Struct d);
  rs_fwd_scores :
    heap s !! allocs s0
    = Some (Floats (filled_table (om_M om) (abc_Kp (om_abc om)) (om_fwd_score om)));
  rs_spine :
    heap s !! (allocs s0 + 1)
    = Some (Pointers (trans_spine_upto (allocs s0 + 2) (p7O_NTRANS cfg) n));
  rs_rows : forall t, t < n ->
    heap s !! (allocs s0 + 2 + t) = Some (Floats (filled_row (om_M om) (om_fwd_trans om t)));
  rs_tail : forall k, k < length tail ->
    heap s !! (allocs s0 + 2 + n + k) = Floats <$> (tail !! k ≫= id);
  rs_above : forall x, allocs s0 + 2 + n + length tail <= x -> heap s !! x = heap s0 !! x;
  rs_allocs : allocs s = allocs s0 + 2 + n + length tail;
  rs_alloc_ok : alloc_ok s = alloc_ok s0
}.
End RestShape.

Section RestData.
Context {F : Type}.
Variable cfg : Config F.
Variable s0 : state F.
Local Abbreviation b := (allocs s0).
Local Abbreviation NT := (p7O_NTRANS cfg).

(** the struct once the four members are assigned *)
Definition rest_data (d : P7_SCOREDATA) : P7_SCOREDATA :=
  set_suffix_lengths (Ptr (b + 3 + NT))
    (set_prefix_lengths (Ptr (b + 2 + NT))
       (set_fwd_transitions (Ptr (b + 1)) (set_fwd_scores (Ptr b) d))).
End RestData.

Section Footprint.
Context {F : Type}.

(** the block a pointer member owns *)
Definition owned_block (p : pointer) : option (list nat) :=
  match p with
  | Null => Some []
  | Ptr a => Some [a]
  | Indet => None
  end.

(** the blocks of rows [i .. i+n-1] of a spine *)
Fixpoint owned_rows_from (spine : list pointer) (n i : nat) : option (list nat) :=
  match n with
  | 0 => Some []
  | S n' =>
      q ← spine !! i;
      r ← owned_block q;
      rest ← owned_rows_from spine n' (S i);
      Some (r ++ rest)
  end.

(** a ragged table: its rows [lo .. hi-1], then its spine *)
Definition owned_rows (s : state F) (p : pointer) (lo hi : nat) : option (list nat) :=
  match p with
  | Null => Some []
  | Ptr a =>
      spine ← pointers_at s p;
      rows ← owned_rows_from spine (hi - lo) lo;
      Some (rows ++ [a])
  | Indet => None
  end.

(** the score table of the buffer's mode *)
Definition score_table (d : P7_SCOREDATA) : pointer :=
  match sd_type d with
  | Some p7_sd_fm => ssv_scores_f d
  | _ => ssv_scores d
  end.

(** Every block reachable from the buffer [data]: the score table, the
    four flat arrays, the three ragged tables with their rows, and the
    struct itself. *)
Definition footprint (cfg : Config F) (s : state F) (data : pointer) : option (list nat) :=
  match data with
  | Null => Some []
  | Indet => None
  | Ptr a =>
      d ← data_at s data;
      Mlen ← sd_M d;
      t ← owned_block (score_table d);
      pl ← owned_block (prefix_lengths d);
      sl ← owned_block (suffix_lengths d);
      fs ← owned_block (fwd_scores d);
      ft ← owned_rows s (fwd_transitions d) 0 (p7O_NTRANS cfg);
      ef ← owned_rows s (opt_ext_fwd d) 1 Mlen;
      er ← owned_rows s (opt_ext_rev d) 1 Mlen;
      Some (t ++ pl ++ sl ++ fs ++ ft ++ ef ++ er ++ [a])
  end.

(** [s'] is [s] with exactly the blocks [l] released *)
Definition released (l : list nat) (s s' : state F) : Prop :=
  (forall x, heap s' !! x = if decide (x ∈ l) then None else heap s !! x) /\
  allocs s' = allocs s /\ alloc_ok s' = alloc_ok s.
End Footprint.

(** the blocks of a float-mode buffer built at address [c]: the table, the
    rows and the spine of each extension table, and the struct *)
Definition fm_blocks (c Mlen : nat) : list nat :=
  [c + 1] ++ (map (fun t => c + 3 + 2 * t) (seq 1 (Mlen - 1)) ++ [c + 3])
          ++ (map (fun t => c + 4 + 2 * t) (seq 1 (Mlen - 1)) ++ [c + 4]) ++ [c].

(** the blocks that ComputeRest adds, from the fresh address [b] on *)
Definition rest_blocks (b NT : nat) : list nat :=
  [b + 2 + NT] ++ [b + 3 + NT] ++ [b] ++ (map (fun t => b + 2 + t) (seq 0 NT) ++ [b + 1]).

(** The buffer [data] of state [s] was built from state [s0]: its blocks
    [l] are distinct, live and were not live in [s0]; nothing else differs
    from [s0]. *)
Record built {F : Type} (cfg : Config F) (s0 s : state F) (data : pointer) (l : list nat)
    : Prop := {
  built_footprint : footprint cfg s data = Some l;
  built_NoDup : NoDup l;
  built_slot : forall d, data_at s data = Some d -> ssv_scores d = score_table d;
  built_live : forall x, x ∈ l ->
    is_Some (heap s !! x) /\ heap s0 !! x = None /\ x < allocs s;
  built_rest : forall x, x ∉ l -> heap s !! x = heap s0 !! x
}.

(** ** Binary32 values that are well formed, and those at least [0] *)

Module Binary32Order.
Import Binary32.
Local Open Scope Z_scope.

(** how a rounding ends: the mantissa [m] and exponent [e] that are left *)
Definition finish (m e : Z) : spec_float :=
  match m with
  | 0 => S754_zero false
  | Zpos q => if e <=? emax - prec then S754_finite false q e else S754_infinity false
  | Zneg _ => S754_nan
  end.

(** a value with a canonical mantissa and an exponent in range *)
Definition wf32 (x : spec_float) : Prop := valid_binary prec emax x = true.

(** a well-formed value that is a zero, [+inf], or finite and positive *)
Definition nonneg32 (x : spec_float) : Prop :=
  match x with
  | S754_zero _ => True
  | S754_infinity s => s = false
  | S754_finite s m e => s = false /\ bounded prec emax m e = true
  | S754_nan => False
  end.

Definition finite32 (x : spec_float) : Prop :=
  match x with
  | S754_zero _ | S754_finite _ _ _ => True
  | _ => False
  end.

Definition nonzero32 (x : spec_float) : Prop :=
  match x with
  | S754_zero _ => False
  | _ => True
  end.
End Binary32Order.

(** ** The value of a binary32 number *)

Module Binary32Value.
Import Binary32.

(** the value of a finite number in units of [2^-149], the smallest
    positive binary32 number: an integer, for an exponent that is at
    least [-149] *)
Definition scaled (x : spec_float) : Z :=
  match x with
  | S754_finite s m e => cond_Zopp s (Zpos m * 2 ^ (e + 149))%Z
  | _ => 0%Z
  end.

(** the value [m * 2^e] of a finite number as a rational; [0] for the
    zeros (and for what has no finite value) *)
Definition value32 (x : spec_float) : Q :=
  match x with
  | S754_finite s m e => (inject_Z (cond_Zopp s (Zpos m)) * (2 # 1) ^ e)%Q
  | _ => 0%Q
  end.

(** the exact sum of the values of [w] at the listed positions *)
Definition sum_values (w : nat -> spec_float) (positions : list nat) : Q :=
  fold_right (fun p acc => (value32 (w p) + acc)%Q) 0%Q positions.

(** the same sum in units of [2^-149] *)
Definition sum_scaled (w : nat -> spec_float) (positions : list nat) : Z :=
  fold_right (fun p acc => scaled (w p) + acc)%Z 0%Z positions.
End Binary32Value.

(** ** Scenarios *)

Section Scenarios.
Context {F : Type} `{FloatOps F}.
Variable cfg : Config F.
Variable layout : table_layout.

(** the empty heap, with every allocation succeeding *)
Definition initial_state : state F := Build_state ∅ 0 (fun _ => true).

(** the empty heap, with only the first [n] allocations succeeding *)
Definition starved_state (n : nat) : state F := Build_state ∅ 0 (fun k => k <? n).

(** Create, then the window weights *)
Definition create_windowed (om : P7_OPROFILE F) (gm : option (P7_PROFILE F)) : M F pointer :=
  data ← p7_hmm_ScoreDataCreate cfg layout om gm;
  _ ← p7_hmm_ScoreDataComputeRest cfg om data;
  mret data.

(** ... then a clone of the result *)
Definition clone_windowed (om : P7_OPROFILE F) (gm : option (P7_PROFILE F))
  : M F (pointer * pointer) :=
  data ← create_windowed om gm;
  new ← p7_hmm_ScoreDataClone cfg layout data (abc_Kp (om_abc om));
  mret (data, new).

(** Create, then Destroy *)
Definition create_destroy (om : P7_OPROFILE F) (gm : option (P7_PROFILE F)) : M F unit :=
  data ← p7_hmm_ScoreDataCreate cfg layout om gm;
  p7_hmm_ScoreDataDestroy cfg data.

(** Create, the window weights, Clone, then Destroy of both buffers *)
Definition lifecycle (om : P7_OPROFILE F) (gm : option (P7_PROFILE F)) : M F unit :=
  '(data, new) ← clone_windowed om gm;
  p7_hmm_ScoreDataDestroy cfg data;;
  p7_hmm_ScoreDataDestroy cfg new.

(** the state a program ends in *)
Definition final_state {A} (m : M F A) (s : state F) : state F :=
  match m s with
  | Done _ s' => s'
  | Error _ s' => s'
  | Undef => s
  end.
End Scenarios.

(** Three residues and one degenerate code. *)
Definition example_abc : ESL_ALPHABET := {| abc_K := 3; abc_Kp := 4 |}.

Module Binary32Example.
Import Binary32.

(** [2^e] *)
Definition pow2 (e : Z) : spec_float := S754_finite false 8388608 (e - 23).

(** The values of [(int)(log(1e-7 / t_mi) / log(t_ii))] for
    [t_ii = 0.5] at the three [t_mi] the example uses:
    [2^-23] gives [(int) 0.2535 = 0], [2^-19] gives [(int) 4.2535 = 4],
    [2^-30] gives [(int) -6.7465 = -6]. *)
Definition log_ratio (t_mi : spec_float) : Z :=
  if SFeqb t_mi (pow2 (-23)) then 0
  else if SFeqb t_mi (pow2 (-30)) then -6
  else 4.

(** the constants as HMMER has them; the window length of the three
    [t_mi] above *)
Definition cfg : Config spec_float := {|
  esl_abc_XIsResidue := fun abc x => x <? abc_K abc;
  p7P_NR := 2; p7P_MSC := 0;
  p7O_NTRANS := 8; p7O_MI := 5; p7O_II := 6;
  window_length := fun t_mi _ => of_Z (2 + log_ratio t_mi)
|}.

(** Model length 4, with match-to-insert probabilities [2^-23], [2^-19]
    and [2^-30] at positions 1, 2 and 3 and insert-to-insert probability
    [0.5] everywhere. *)
Definition om : P7_OPROFILE spec_float := {|
  om_M := 4;
  om_abc := example_abc;
  om_ssv_score := fun i x => if x =? 0 then Byte.x0c else Byte.x03;
  om_fwd_score := fun i x => of_Z (Z.of_nat (i + x));
  om_fwd_trans := fun t i =>
    if t =? 5 then
      match i with 1 => pow2 (-23) | 3 => pow2 (-30) | _ => pow2 (-19) end
    else pow2 (-1)
|}.

(** Residue 0 scores [2, 0, 3, 1] at positions [1..4]; the other
    residues score [-1] everywhere. *)
Definition gm : P7_PROFILE spec_float := {|
  gm_rsc := fun j n =>
    if j =? 0 then of_Z (nth (n / 2) [0; 2; 0; 3; 1]%Z 0%Z) else of_Z (-1)
|}.

(** the same profile with match-to-insert probability [2^-19] at
    position 3: the raw lengths are [2, 6, 6] *)
Definition om_pos : P7_OPROFILE spec_float := {|
  om_M := 4;
  om_abc := example_abc;
  om_ssv_score := om_ssv_score om;
  om_fwd_score := om_fwd_score om;
  om_fwd_trans := fun t i =>
    if t =? 5 then match i with 1 => pow2 (-23) | _ => pow2 (-19) end else pow2 (-1)
|}.

(** the same profile with a single position *)
Definition om1 : P7_OPROFILE spec_float := {|
  om_M := 1;
  om_abc := example_abc;
  om_ssv_score := om_ssv_score om;
  om_fwd_score := om_fwd_score om;
  om_fwd_trans := om_fwd_trans om
|}.

Definition s0 : state spec_float := initial_state.

(** the state after Create in standard mode *)
Definition s1 : state spec_float :=
  final_state (p7_hmm_ScoreDataCreate cfg OneSlot om None) s0.

(** the state after Create in float mode and the window weights *)
Definition s2 : state spec_float :=
  final_state (create_windowed cfg OneSlot om (Some gm)) s0.

(** the state after Create in standard mode and the window weights *)
Definition s3 : state spec_float := final_state (create_windowed cfg OneSlot om None) s0.
End Binary32Example.

(** A second profile, with insert-to-insert probability [1 - 2^-24],
    the largest float below [1], at every position. *)
Module Binary32Wide.
Import Binary32.

(** [1 - 2^-24], bits [0x3f7fffff] *)
Definition t_ii : spec_float := S754_finite false 16777215 (-24).

(** the three match-to-insert probabilities: bits [0x33d6bf9c]
    (about [1.00000051e-07]), [0x3491e4f0] (about [2.71749286e-07]) and
    [0x331e0c7d] (about [3.67985997e-08]) *)
Definition t_mi1 : spec_float := S754_finite false 14073756 (-47).
Definition t_mi2 : spec_float := S754_finite false 9561328 (-45).
Definition t_mi3 : spec_float := S754_finite false 10357885 (-48).

(** The values of [(int)(log(1e-7 / t_mi) / log(t_ii))] for this [t_ii]
    at the three [t_mi]: [(int) 8.5407 = 8],
    [(int) 16772345.2971 = 16772345] and
    [(int) -16772356.6933 = -16772356]. *)
Definition log_ratio (t_mi : spec_float) : Z :=
  if SFeqb t_mi t_mi1 then 8
  else if SFeqb t_mi t_mi2 then 16772345
  else -16772356.

(** the constants as HMMER has them; the window length of the three
    [t_mi] above *)
Definition cfg : Config spec_float := {|
  esl_abc_XIsResidue := fun abc x => x <? abc_K abc;
  p7P_NR := 2; p7P_MSC := 0;
  p7O_NTRANS := 8; p7O_MI := 5; p7O_II := 6;
  window_length := fun t_mi _ => of_Z (2 + log_ratio t_mi)
|}.

(** Model length 4: the raw lengths are [10, 16772347, -16772354]. *)
Definition om : P7_OPROFILE spec_float := {|
  om_M := 4;
  om_abc := example_abc;
  om_ssv_score := fun i x => if x =? 0 then Byte.x0c else Byte.x03;
  om_fwd_score := fun i x => of_Z (Z.of_nat (i + x));
  om_fwd_trans := fun t i =>
    if t =? 5 then match i with 1 => t_mi1 | 2 => t_mi2 | _ => t_mi3 end else t_ii
|}.
End Binary32Wide.

(** ** Error paths, the blocks of a clone, and edge inputs *)

Section RowPointer.
Context {F : Type}.

(** the pointer [data->f[i]] of a ragged table, as it is stored *)
Definition row_pointer (s : state F) (data : pointer) (f : P7_SCOREDATA -> pointer) (i : nat)
  : option pointer :=
  d ← data_at s data; rows ← pointers_at s (f d); rows !! i.
End RowPointer.

Section Reaches.
Context {F : Type}.

(** [m] from [s] either has undefined behaviour, or completes with a
    result and a state that satisfy [Q] *)
Definition reaches {A} (m : M F A) (s : state F) (Q : A -> state F -> Prop) : Prop :=
  match m s with
  | Done r s' => Q r s'
  | Error _ _ => False
  | Undef => True
  end.

(** every block of [s'] is a block of [s], unchanged *)
Definition shrinks (s s' : state F) : Prop :=
  forall x, heap s' !! x = None \/ heap s' !! x = heap s !! x.
End Reaches.

Section Retains.
Context {F : Type}.

(** [s'] was reached from [s] without releasing a block: the blocks of
    [s] and the blocks allocated since are live in [s'] *)
Definition retains (s s' : state F) : Prop :=
  allocs s <= allocs s' /\ alloc_ok s' = alloc_ok s /\
  (forall x, is_Some (heap s !! x) -> is_Some (heap s' !! x)) /\
  (forall x, allocs s <= x < allocs s' -> alloc_ok s x = true -> is_Some (heap s' !! x)).

(** [m] releases no block, whether it completes or jumps to [ERROR] *)
Definition never_frees {A} (m : M F A) : Prop :=
  forall s, match m s with
            | Done _ s' | Error _ s' => retains s s'
            | Undef => True
            end.
End Retains.

Section Jumps.
Context {F : Type}.

(** [m] jumps to [ERROR] only after a [malloc] of its own has failed *)
Definition jumps_on_failure {A} (m : M F A) : Prop :=
  forall s, match m s with
            | Error _ s' => exists n, allocs s <= n < allocs s' /\ alloc_ok s n = false
            | _ => True
            end.

(** what [m] returns, when it completes, satisfies [P] *)
Definition returns {A} (P : A -> Prop) (m : M F A) : Prop :=
  forall s r s', m s = Done r s' -> P r.
End Jumps.

Section CloneSource.
Context {F : Type}.

(** [p] points at an array of at least [n] floats *)
Definition floats_ok (s : state F) (p : pointer) (n : nat) : bool :=
  match floats_at s p with
  | Some l => bool_decide (n <= length l)
  | None => false
  end.

(** an optional flat member: null, or an array of at least [n] floats *)
Definition flat_ok (s : state F) (p : pointer) (n : nat) : bool :=
  match p with
  | Null => true
  | _ => floats_ok s p n
  end.

(** an optional ragged member: null, or a spine whose rows [lo..hi-1] are
    arrays of at least [n] floats *)
Definition ragged_ok (s : state F) (p : pointer) (lo hi n : nat) : bool :=
  match p with
  | Null => true
  | _ =>
      match pointers_at s p with
      | Some sp =>
          forallb (fun i => match sp !! i with
                            | Some q => floats_ok s q n
                            | None => false
                            end) (seq lo (hi - lo))
      | None => false
      end
  end.

(** the score table of the buffer's mode has at least [n] cells *)
Definition table_ok (s : state F) (d : P7_SCOREDATA) (n : nat) : bool :=
  match sd_type d with
  | Some p7_sd_std =>
      match bytes_at s (ssv_scores d) with
      | Some l => bool_decide (n <= length l)
      | None => false
      end
  | Some p7_sd_fm => floats_ok s (ssv_scores_f d) n
  | None => false
  end.

(** What Clone reads of a buffer, for the alphabet size [Kp]: every
    member that is not null is an array, or a table of arrays, at least as
    long as the copy that Clone makes of it. *)
Definition clone_source (cfg : Config F) (s : state F) (d : P7_SCOREDATA) (Kp : nat) : bool :=
  match sd_M d with
  | Some Mlen =>
      table_ok s d ((Mlen + 1) * Kp)
      && flat_ok s (prefix_lengths d) (Mlen + 1)
      && flat_ok s (suffix_lengths d) (Mlen + 1)
      && flat_ok s (fwd_scores d) (Mlen + 1)
      && ragged_ok s (opt_ext_fwd d) 1 Mlen 10
      && ragged_ok s (opt_ext_rev d) 1 Mlen 10
      && ragged_ok s (fwd_transitions d) 0 (p7O_NTRANS cfg) (Mlen + 1)
  | None => false
  end.

(** row [i] of the ragged table at [p] *)
Definition row_at (s : state F) (p : pointer) (i : nat) : option (list (option F)) :=
  rows ← pointers_at s p; q ← rows !! i; floats_at s q.

(** the member of the clone for a member that is [p] in the source, when
    [q] is the next fresh address *)
Definition cloned (p : pointer) (q : nat) : pointer :=
  match p with
  | Null => Null
  | _ => Ptr q
  end.

(** the number of blocks Clone allocates for a flat member, and for a
    ragged member of [rows] rows *)
Definition flat_blocks (p : pointer) : nat :=
  match p with
  | Null => 0
  | _ => 1
  end.
Definition ragged_blocks (p : pointer) (rows : nat) : nat :=
  match p with
  | Null => 0
  | _ => 1 + rows
  end.

(** The state [s] of a call of Clone that started in [s0], with the new
    struct holding [dn]: the blocks of [s0] are as they were, and every
    address allocated since holds a block. *)
Record cloning (s0 s : state F) (dn : P7_SCOREDATA) : Prop := {
  cl_old : forall x, x < allocs s0 -> heap s !! x = heap s0 !! x;
  cl_struct : heap s !! allocs s0 = Some (Struct dn);
  cl_allocs : allocs s0 < allocs s;
  cl_live : forall x, allocs s0 <= x < allocs s -> is_Some (heap s !! x);
  cl_fresh : fresh_above s;
  cl_ok : alloc_ok s = alloc_ok s0
}.

(** The ragged member [p] of [s0] has its copy in [s]: the spine at
    address [q], row [i] at address [q + 1 + (i - lo)] with the first [n]
    floats of the source row. *)
Definition rows_copied (s0 s : state F) (p : pointer) (q lo hi n : nat) : Prop :=
  match p with
  | Null => True
  | _ =>
      exists sp, heap s !! q = Some (Pointers sp) /\
        forall i, lo <= i < hi ->
          sp !! i = Some (Ptr (q + 1 + (i - lo))) /\
          floats_at s (Ptr (q + 1 + (i - lo))) = take n <$> row_at s0 p i
  end.
End CloneSource.

Section CloneShape.
Context {F : Type}.

(** the two score-table pointers of a clone whose table is at address [q] *)
Definition clone_table_slots (layout : table_layout) (t : p7_scoredatatype_e) (q : nat)
  : pointer * pointer :=
  match layout, t with
  | OneSlot, _ => (Ptr q, Ptr q)
  | TwoSlots, p7_sd_std => (Ptr q, Indet)
  | TwoSlots, p7_sd_fm => (Null, Ptr q)
  end.

(** The blocks of a clone of the buffer [d], in the order Clone allocates
    them from the fresh address [c] on: the struct, the score table, the
    three flat members and the three ragged members that [d] has. *)
Record clone_layout := {
  at_prefix : nat;
  at_suffix : nat;
  at_fwd_scores : nat;
  at_ext_fwd : nat;
  at_ext_rev : nat;
  at_transitions : nat;
  at_end : nat
}.

Definition clone_addresses (cfg : Config F) (d : P7_SCOREDATA) (Mlen c : nat) : clone_layout :=
  let a2 := c + 2 in
  let a3 := a2 + flat_blocks (prefix_lengths d) in
  let a4 := a3 + flat_blocks (suffix_lengths d) in
  let a5 := a4 + flat_blocks (fwd_scores d) in
  let a6 := a5 + ragged_blocks (opt_ext_fwd d) (Mlen - 1) in
  let a7 := a6 + ragged_blocks (opt_ext_rev d) (Mlen - 1) in
  {| at_prefix := a2; at_suffix := a3; at_fwd_scores := a4; at_ext_fwd := a5;
     at_ext_rev := a6; at_transitions := a7;
     at_end := a7 + ragged_blocks (fwd_transitions d) (p7O_NTRANS cfg) |}.

(** the struct of the clone *)
Definition clone_data (cfg : Config F) (layout : table_layout) (d : P7_SCOREDATA)
    (t : p7_scoredatatype_e) (Mlen c : nat) : P7_SCOREDATA :=
  let w := clone_addresses cfg d Mlen c in
  {| sd_type := Some t;
     sd_M := Some Mlen;
     ssv_scores := (clone_table_slots layout t (c + 1)).1;
     ssv_scores_f := (clone_table_slots layout t (c + 1)).2;
     prefix_lengths := cloned (prefix_lengths d) (at_prefix w);
     suffix_lengths := cloned (suffix_lengths d) (at_suffix w);
     fwd_scores := cloned (fwd_scores d) (at_fwd_scores w);
     fwd_transitions := cloned (fwd_transitions d) (at_transitions w);
     opt_ext_fwd := cloned (opt_ext_fwd d) (at_ext_fwd w);
     opt_ext_rev := cloned (opt_ext_rev d) (at_ext_rev w) |}.

(** The state [s'] that Clone of the buffer [d] leaves, from the state
    [s]. *)
Record clone_shape (cfg : Config F) (layout : table_layout) (s s' : state F)
    (d : P7_SCOREDATA) (t : p7_scoredatatype_e) (Mlen Kp : nat) : Prop := {
  cs_cloning : cloning s s' (clone_data cfg layout d t Mlen (allocs s));
  cs_allocs : allocs s' = at_end (clone_addresses cfg d Mlen (allocs s));
  cs_table :
    match t with
    | p7_sd_std =>
        bytes_at s' (Ptr (allocs s + 1)) = take ((Mlen + 1) * Kp) <$> bytes_at s (ssv_scores d)
    | p7_sd_fm =>
        floats_at s' (Ptr (allocs s + 1))
        = take ((Mlen + 1) * Kp) <$> floats_at s (ssv_scores_f d)
    end;
  cs_prefix :
    floats_at s' (cloned (prefix_lengths d) (at_prefix (clone_addresses cfg d Mlen (allocs s))))
    = take (Mlen + 1) <$> floats_at s (prefix_lengths d);
  cs_suffix :
    floats_at s' (cloned (suffix_lengths d) (at_suffix (clone_addresses cfg d Mlen (allocs s))))
    = take (Mlen + 1) <$> floats_at s (suffix_lengths d);
  cs_fwd_scores :
    floats_at s'
      (cloned (fwd_scores d) (at_fwd_scores (clone_addresses cfg d Mlen (allocs s))))
    = take (Mlen + 1) <$> floats_at s (fwd_scores d);
  cs_ext_fwd :
    rows_copied s s' (opt_ext_fwd d)
      (at_ext_fwd (clone_addresses cfg d Mlen (allocs s))) 1 Mlen 10;
  cs_ext_rev :
    rows_copied s s' (opt_ext_rev d)
      (at_ext_rev (clone_addresses cfg d Mlen (allocs s))) 1 Mlen 10;
  cs_transitions :
    rows_copied s s' (fwd_transitions d)
      (at_transitions (clone_addresses cfg d Mlen (allocs s))) 0 (p7O_NTRANS cfg) (Mlen + 1)
}.
End CloneShape.

Section CloneBlocks.
(** the blocks of the copy of a flat member and of a ragged member with
    [rows] rows, allocated from address [q] on *)
Definition flat_list (p : pointer) (q : nat) : list nat :=
  match p with
  | Null => []
  | _ => [q]
  end.
Definition ragged_list (p : pointer) (q rows : nat) : list nat :=
  match p with
  | Null => []
  | _ => seq (q + 1) rows ++ [q]
  end.

(** the blocks of the clone of [d] built at address [c], in the order
    Destroy releases them *)
Definition clone_blocks {F} (cfg : Config F) (d : P7_SCOREDATA) (Mlen c : nat) : list nat :=
  let w := clone_addresses cfg d Mlen c in
  [c + 1] ++ flat_list (prefix_lengths d) (at_prefix w)
          ++ flat_list (suffix_lengths d) (at_suffix w)
          ++ flat_list (fwd_scores d) (at_fwd_scores w)
          ++ ragged_list (fwd_transitions d) (at_transitions w) (p7O_NTRANS cfg)
          ++ ragged_list (opt_ext_fwd d) (at_ext_fwd w) (Mlen - 1)
          ++ ragged_list (opt_ext_rev d) (at_ext_rev w) (Mlen - 1)
          ++ [c].
End CloneBlocks.

Section TableLength.
Context {F : Type}.

(** the number of cells of the score table of the buffer's mode *)
Definition table_length (s : state F) (d : P7_SCOREDATA) : option nat :=
  match sd_type d with
  | Some p7_sd_std => length <$> bytes_at s (ssv_scores d)
  | Some p7_sd_fm => length <$> floats_at s (ssv_scores_f d)
  | None => None
  end.
End TableLength.

(** Profiles and states at the edges: no position at all, and heaps on
    which an allocation fails. *)
Module EdgeExamples.
Import Binary32 Binary32Example.

(** the same profile with no position *)
Definition om_empty : P7_OPROFILE spec_float := {|
  om_M := 0;
  om_abc := example_abc;
  om_ssv_score := om_ssv_score om;
  om_fwd_score := om_fwd_score om;
  om_fwd_trans := om_fwd_trans om
|}.

(** the state after Create in standard mode, when only the first [n]
    allocations of the program succeed *)
Definition created_std (n : nat) : state spec_float :=
  final_state (p7_hmm_ScoreDataCreate cfg OneSlot om None) (starved_state n).
End EdgeExamples.

(** * Proofs *)

#[local] Arguments Nat.min : simpl never.
#[local] Set Warnings "-clear-no-such-hyp".

(** ** Tactics *)

Ltac heap_lookup :=
  cbn [heap with_heap allocs alloc_ok];
  repeat first [rewrite lookup_insert_eq | rewrite lookup_insert_ne by lia];
  first [reflexivity | eassumption | by eexists].

Ltac alloc_side :=
  cbn [heap with_heap allocs alloc_ok];
  first [ assumption
        | match goal with H : never_fails _ |- _ => apply H; cbn [allocs]; lia end
        | match goal with H : alloc_ok _ = alloc_ok _ |- _ => rewrite H end;
          first [ assumption
                | match goal with H : never_fails _ |- _ => apply H; cbn [allocs]; lia end ] ].

Ltac sd_simpl :=
  cbn [heap with_heap allocs alloc_ok
       sd_type sd_M ssv_scores ssv_scores_f prefix_lengths suffix_lengths fwd_scores
       fwd_transitions opt_ext_fwd opt_ext_rev
       set_type set_M set_ssv_scores set_ssv_scores_f set_prefix_lengths
       set_suffix_lengths set_fwd_scores set_fwd_transitions set_opt_ext_fwd
       set_opt_ext_rev sd_indet].

Ltac read_simpl :=
  cbn [mbind option_bind id fm_data std_data
       sd_type sd_M ssv_scores ssv_scores_f prefix_lengths suffix_lengths fwd_scores
       fwd_transitions opt_ext_fwd opt_ext_rev].

(** * Arrays and loops *)

Lemma idx_sub_Some a b : b <= a -> idx_sub a b = Some (a - b).
Proof. intros. unfold idx_sub. by rewrite decide_True. Qed.

Lemma aget_Some {A} (l : list (option A)) i v :
  aget l i = Some v <-> l !! i = Some (Some v).
Proof.
  unfold aget. destruct (l !! i) as [[x|]|]; simpl; split; intros; simplify_eq; done.
Qed.

Lemma aset_Some {A} (l : list (option A)) i v :
  i < length l -> aset l i v = Some (<[i := Some v]> l).
Proof. intros. unfold aset. by rewrite decide_True. Qed.

Lemma aget_insert_eq {A} (l : list (option A)) i v :
  i < length l -> aget (<[i := Some v]> l) i = Some v.
Proof. intros. unfold aget. by rewrite list_lookup_insert_eq. Qed.

Lemma aget_insert_ne {A} (l : list (option A)) i j v :
  i <> j -> aget (<[i := Some v]> l) j = aget l j.
Proof. intros. unfold aget. by rewrite list_lookup_insert_ne. Qed.

Lemma for_iter_inv {St} (Inv : nat -> St -> Prop) (body : nat -> St -> option St) n lo s :
  Inv lo s ->
  (forall i s, lo <= i < lo + n -> Inv i s -> exists s', body i s = Some s' /\ Inv (S i) s') ->
  exists s', for_iter n lo body s = Some s' /\ Inv (lo + n) s'.
Proof.
  revert lo s. induction n as [|n IH]; intros lo s H0 Hstep; simpl.
  - exists s. by rewrite Nat.add_0_r.
  - destruct (Hstep lo s) as (s1 & -> & H1); [lia | done |]. simpl.
    destruct (IH (S lo) s1) as (s2 & -> & H2); [done | |].
    + intros i s' Hi. apply Hstep. lia.
    + exists s2. split; [done |]. by replace (lo + S n) with (S lo + n) by lia.
Qed.

Lemma for_range_inv {St} (Inv : nat -> St -> Prop) (body : nat -> St -> option St) lo hi s :
  lo <= hi ->
  Inv lo s ->
  (forall i s, lo <= i < hi -> Inv i s -> exists s', body i s = Some s' /\ Inv (S i) s') ->
  exists s', for_range lo hi body s = Some s' /\ Inv hi s'.
Proof.
  intros Hle H0 Hstep. unfold for_range.
  destruct (for_iter_inv Inv body (hi - lo) lo s) as (s' & ? & ?); [done | |].
  - intros i s' Hi. apply Hstep. lia.
  - exists s'. split; [done |]. by replace hi with (lo + (hi - lo)) by lia.
Qed.

Lemma for_range_empty {St} (body : nat -> St -> option St) lo hi s :
  hi <= lo -> for_range lo hi body s = Some s.
Proof. intros. unfold for_range. by replace (hi - lo) with 0 by lia. Qed.

(** descending: the invariant is indexed by the number of passes made *)
Lemma for_down_inv {St} (Inv : nat -> St -> Prop) (body : nat -> St -> option St) hi lo s :
  1 <= lo -> lo <= S hi ->
  Inv (S hi) s ->
  (forall i s, lo <= i <= hi -> Inv (S i) s -> exists s', body i s = Some s' /\ Inv i s') ->
  exists s', for_down hi lo body s = Some s' /\ Inv lo s'.
Proof.
  intros Hlo Hle H0 Hstep. unfold for_down.
  remember (S hi - lo) as n eqn:Hn.
  revert hi s Hle H0 Hstep Hn. induction n as [|n IH]; intros hi s Hle H0 Hstep Hn; simpl.
  - exists s. split; [done |]. by replace lo with (S hi) by lia.
  - destruct (Hstep hi s) as (s1 & -> & H1); [lia | done |]. simpl.
    destruct hi as [|hi]; [lia |].
    replace (S hi - 1) with hi by lia.
    apply IH; [lia | done | | lia].
    intros i s' Hi. apply Hstep. lia.
Qed.

(** * The extension rows *)

Section ExtRows.
Context {F : Type} `{FloatOps F}.
Local Abbreviation farray := (list (option F)).

Lemma cumulative_sum_snoc (mx : nat -> F) l p :
  cumulative_sum mx (l ++ [p]) = f_add (cumulative_sum mx l) (mx p).
Proof. unfold cumulative_sum. by rewrite fold_left_app. Qed.

Lemma spec_extFwd_inside (mx : nat -> F) M i k :
  i + k + 1 <= M -> spec_extFwd mx M i k = cumulative_sum mx (seq (i + 1) (k + 1)).
Proof. intros. unfold spec_extFwd, fwd_positions. by rewrite Nat.min_l by lia. Qed.

Lemma spec_extFwd_saturated (mx : nat -> F) M i k :
  M <= i + k + 1 -> spec_extFwd mx M i k = cumulative_sum mx (seq (i + 1) (M - i)).
Proof. intros. unfold spec_extFwd, fwd_positions. by rewrite Nat.min_r by lia. Qed.

Lemma spec_extRev_inside (mx : nat -> F) r k :
  k + 1 <= r ->
  spec_extRev mx r k = cumulative_sum mx (map (fun t => r - t) (seq 0 (k + 1))).
Proof. intros. unfold spec_extRev, rev_positions. by rewrite Nat.min_l by lia. Qed.

Lemma spec_extRev_saturated (mx : nat -> F) r k :
  r <= k + 1 ->
  spec_extRev mx r k = cumulative_sum mx (map (fun t => r - t) (seq 0 r)).
Proof. intros. unfold spec_extRev, rev_positions. by rewrite Nat.min_r by lia. Qed.

Variable mx : nat -> F.
Variable M : nat.
Variable max_scores : farray.
Hypothesis max_scores_written : forall p, 1 <= p <= M -> aget max_scores p = Some (mx p).

Lemma ext_accumulate_spec i fuel j rows :
  1 <= i ->
  j <= min 10 (M - i) ->
  min 10 (M - i) - j < fuel ->
  rows_done mx M i j rows ->
  exists rows',
    ext_accumulate M max_scores fuel i j
      (cumulative_sum mx (seq (i + 1) j))
      (cumulative_sum mx (map (fun t => M - i - t) (seq 0 j))) rows
    = Some (min 10 (M - i), rows') /\
    rows_done mx M i (min 10 (M - i)) rows'.
Proof.
  intros Hi. revert j rows.
  induction fuel as [|fuel IH]; intros j [rf rr] Hj Hfuel Hdone; [lia |].
  simpl. destruct (decide (j < min 10 (M - i))) as [Hlt | Hge].
  - replace ((j <? 10) && (i + j + 1 <=? M)) with true
      by (symmetry; apply andb_true_iff; split;
          [apply Nat.ltb_lt | apply Nat.leb_le]; lia).
    destruct Hdone as (Lf & Lr & Hcells); simpl in Lf, Lr, Hcells.
    rewrite max_scores_written by lia. simpl.
    rewrite aset_Some by lia. simpl.
    rewrite idx_sub_Some by lia. simpl.
    rewrite max_scores_written by lia. simpl.
    rewrite aset_Some by lia. simpl.
    replace (f_add (cumulative_sum mx (seq (i + 1) j)) (mx (i + j + 1)))
      with (cumulative_sum mx (seq (i + 1) (S j))).
    2:{ rewrite seq_S, cumulative_sum_snoc. do 2 f_equal. lia. }
    replace (f_add (cumulative_sum mx (map (fun t => M - i - t) (seq 0 j))) (mx (M - (i + j))))
      with (cumulative_sum mx (map (fun t => M - i - t) (seq 0 (S j)))).
    2:{ rewrite seq_S, map_app. simpl. rewrite cumulative_sum_snoc. do 2 f_equal. lia. }
    apply IH; [lia | lia |].
    unfold rows_done; simpl. rewrite !length_insert.
    split; [done | split; [done |]]. intros k Hk. destruct (decide (k = j)) as [-> | Hne].
    + rewrite !aget_insert_eq by lia.
      rewrite spec_extFwd_inside, spec_extRev_inside by lia.
      by replace (j + 1) with (S j) by lia.
    + rewrite !aget_insert_ne by done. apply Hcells. lia.
  - replace ((j <? 10) && (i + j + 1 <=? M)) with false.
    2:{ symmetry. apply andb_false_iff.
        destruct (decide (j < 10)); [right; apply Nat.leb_gt | left; apply Nat.ltb_ge]; lia. }
    replace (min 10 (M - i)) with j by lia. by exists (rf, rr).
Qed.

Lemma ext_fill_spec i rows :
  1 <= i < M ->
  rows_done mx M i (min 10 (M - i)) rows ->
  exists rows',
    for_range (min 10 (M - i)) 10 (ext_fill_cell) rows = Some rows' /\
    rows_done mx M i 10 rows'.
Proof.
  intros Hi Hdone.
  apply (for_range_inv (fun j rows => rows_done mx M i j rows)); [lia | done |].
  intros j [rf rr] Hj (Lf & Lr & Hcells); simpl in Lf, Lr, Hcells.
  unfold ext_fill_cell.
  rewrite idx_sub_Some by lia. simpl.
  destruct (Hcells (j - 1)) as [Hf Hr]; [lia |].
  rewrite Hf. simpl. rewrite aset_Some by lia. simpl.
  rewrite Hr. simpl. rewrite aset_Some by lia. simpl.
  eexists. split; [done |].
  unfold rows_done; simpl. rewrite !length_insert.
  split; [done | split; [done |]]. intros k Hk. destruct (decide (k = j)) as [-> | Hne].
  - rewrite !aget_insert_eq by lia.
    rewrite (spec_extFwd_saturated mx M i j), (spec_extFwd_saturated mx M i (j - 1)) by lia.
    by rewrite (spec_extRev_saturated mx (M - i) j),
               (spec_extRev_saturated mx (M - i) (j - 1)) by lia.
  - rewrite !aget_insert_ne by done. apply Hcells. lia.
Qed.

Lemma ext_rows_spec i rf rr :
  1 <= i < M -> length rf = 10 -> length rr = 10 ->
  exists rows',
    ext_rows M max_scores i (rf, rr) = Some rows' /\ rows_done mx M i 10 rows'.
Proof.
  intros Hi Lf Lr. unfold ext_rows.
  destruct (ext_accumulate_spec i 11 0 (rf, rr)) as (rows1 & Hacc & Hdone1);
    [lia | lia | lia | |].
  { split; [done | split; [done |]]. intros k Hk. lia. }
  change (ext_accumulate M max_scores 11 i 0 f_zero f_zero (rf, rr)
          = Some (min 10 (M - i), rows1)) in Hacc.
  rewrite Hacc. simpl. by apply ext_fill_spec.
Qed.
End ExtRows.

(** * The emission scan *)

Section EmissionScanSpec.
Context {F : Type} `{FloatOps F}.
Local Abbreviation farray := (list (option F)).
Variable cfg : Config F.
Variable om : P7_OPROFILE F.
Variable gm : P7_PROFILE F.

Local Abbreviation K := (abc_Kp (om_abc om)).
Local Abbreviation Mlen := (om_M om).
Local Abbreviation is_res := (esl_abc_XIsResidue cfg (om_abc om)).
Local Abbreviation msc i j := (gm_rsc gm j (i * p7P_NR cfg + p7P_MSC cfg)).

Lemma emission_cell_step i sc mx j st :
  i * K + K <= length sc -> i < length mx -> j < K ->
  row_inv cfg om gm i sc mx j st ->
  exists st', emission_cell cfg om gm i j st = Some st' /\ row_inv cfg om gm i sc mx (S j) st'.
Proof.
  intros Hsc Hmx Hj. destruct st as [s m]. intros (Ls & Lm & Hs & Hm); simpl in *.
  unfold emission_cell.
  assert (Hmi : aget m i = Some (fold_left (raise_max cfg om gm i) (seq 0 j) f_zero)).
  { apply aget_Some. rewrite Hm. by rewrite decide_True. }
  assert (Hfold : fold_left (raise_max cfg om gm i) (seq 0 (S j)) f_zero
                  = raise_max cfg om gm i
                      (fold_left (raise_max cfg om gm i) (seq 0 j) f_zero) j).
  { by rewrite seq_S, fold_left_app. }
  assert (Hraise : forall m, raise_max cfg om gm i m j
                   = if is_res j then if f_gt (msc i j) m then msc i j else m else m)
    by done.
  rewrite Hraise in Hfold. clear Hraise.
  destruct (is_res j) eqn:Hres.
  - rewrite aset_Some by lia. simpl.
    rewrite aget_insert_eq by lia. simpl.
    rewrite Hmi. simpl.
    destruct (f_gt (msc i j) _) eqn:Hgt.
    + rewrite aset_Some by lia. simpl.
      eexists. split; [done |].
      unfold row_inv; cbn [fst snd]. rewrite !length_insert.
      split; [done | split; [done | split]].
      * intros n. destruct (decide (n = i * K + j)) as [-> | Hne].
        -- rewrite list_lookup_insert_eq by lia. rewrite decide_True by lia.
           unfold scanned_cell. replace (i * K + j - i * K) with j by lia.
           by rewrite Hres.
        -- rewrite list_lookup_insert_ne by done. rewrite Hs.
           repeat case_decide; try done; lia.
      * intros i'. destruct (decide (i' = i)) as [-> | Hne].
        -- rewrite list_lookup_insert_eq by lia. by rewrite Hfold.
        -- rewrite list_lookup_insert_ne by done. rewrite Hm. by rewrite decide_False.
    + eexists. split; [done |].
      unfold row_inv; cbn [fst snd]. rewrite !length_insert.
      split; [done | split; [done | split]].
      * intros n. destruct (decide (n = i * K + j)) as [-> | Hne].
        -- rewrite list_lookup_insert_eq by lia. rewrite decide_True by lia.
           unfold scanned_cell. replace (i * K + j - i * K) with j by lia.
           by rewrite Hres.
        -- rewrite list_lookup_insert_ne by done. rewrite Hs.
           repeat case_decide; try done; lia.
      * intros i'. rewrite Hm. case_decide; [by rewrite Hfold | done].
  - eexists. split; [done |].
    unfold row_inv; cbn [fst snd].
    split; [done | split; [done | split]].
    + intros n. rewrite Hs. destruct (decide (n = i * K + j)) as [-> | Hne].
      * rewrite decide_False by lia. rewrite decide_True by lia.
        unfold scanned_cell. replace (i * K + j - i * K) with j by lia.
        by rewrite Hres.
      * repeat case_decide; try done; lia.
    + intros i'. rewrite Hm. case_decide; [by rewrite Hfold | done].
Qed.

Lemma emission_row_spec i sc mx :
  i * K + K <= length sc -> i < length mx ->
  exists st', emission_row cfg om gm i (sc, mx) = Some st' /\ row_inv cfg om gm i sc mx K st'.
Proof.
  intros Hsc Hmx. unfold emission_row.
  rewrite aset_Some by done. simpl.
  destruct (for_range_inv (row_inv cfg om gm i sc mx) (emission_cell cfg om gm i) 0 K
              (sc, <[i := Some f_zero]> mx)) as (st' & Hrun & Hinv); [lia | | | by exists st'].
  - unfold row_inv; cbn [fst snd]. rewrite length_insert.
    split; [done | split; [done | split]].
    + intros n. by rewrite decide_False by lia.
    + intros i'. destruct (decide (i' = i)) as [-> | Hne].
      * by rewrite list_lookup_insert_eq.
      * by rewrite list_lookup_insert_ne.
  - intros j st Hj Hinv. apply emission_cell_step; [done | done | lia | done].
Qed.

Lemma emission_scan_spec sc mx :
  length sc = (Mlen + 1) * K -> length mx = Mlen + 1 ->
  exists st', emission_scan cfg om gm (sc, mx) = Some st' /\ scan_inv cfg om gm sc mx (S Mlen) st'.
Proof.
  intros Lsc Lmx. unfold emission_scan.
  apply (for_range_inv (scan_inv cfg om gm sc mx)); [lia | |].
  - unfold scan_inv; cbn [fst snd]. repeat split; try done; intros; lia.
  - intros i [s m] Hi (Ls & Lm & Hdone & Hrest & Hmax & Hmrest); simpl in *.
    destruct (emission_row_spec i s m) as ([s' m'] & Hrun & Ls' & Lm' & Hs' & Hm');
      [nia | lia |]. simpl in *.
    exists (s', m'). split; [done |].
    unfold scan_inv; cbn [fst snd].
    split; [congruence | split; [congruence | split; [| split; [| split]]]].
    + intros i' j Hi' Hj. rewrite Hs'.
      destruct (decide (i' = i)) as [-> | Hne].
      * rewrite decide_True by lia. replace (i * K + j - i * K) with j by lia.
        by rewrite Hrest by lia.
      * rewrite decide_False by nia. apply Hdone; lia.
    + intros n Hn. rewrite Hs'. rewrite decide_False by nia. apply Hrest. nia.
    + intros i' Hi'. destruct (decide (i' = i)) as [-> | Hne].
      * apply aget_Some. rewrite Hm'. by rewrite decide_True.
      * unfold aget. rewrite Hm'. rewrite decide_False by done. apply Hmax. lia.
    + intros i' Hi'. rewrite Hm'. rewrite decide_False by lia. apply Hmrest. lia.
Qed.
End EmissionScanSpec.

(** * The window weights *)

Section WindowSpec.
Context {F : Type} `{FloatOps F}.
Local Abbreviation farray := (list (option F)).
Variable cfg : Config F.
Variable M : nat.
Variables t_mis t_iis : farray.
Variables mi ii : nat -> F.
Hypothesis M_pos : 1 <= M.
Hypothesis t_mis_written : forall i, 1 <= i <= M -> aget t_mis i = Some (mi i).
Hypothesis t_iis_written : forall i, 1 <= i <= M -> aget t_iis i = Some (ii i).

Lemma raw_lengths_spec p0 :
  length p0 = M + 1 ->
  exists p1,
    for_range 1 M (raw_length_step cfg t_mis t_iis) (p0, f_zero) = Some (p1, raw_total cfg M mi ii) /\
    length p1 = M + 1 /\
    forall i, 1 <= i < M -> aget p1 i = Some (raw_of cfg mi ii i).
Proof.
  intros L0.
  destruct (for_range_inv
    (fun i (st : farray * F) =>
       length st.1 = M + 1 /\ st.2 = cumulative_sum (raw_of cfg mi ii) (seq 1 (i - 1)) /\
       forall i', 1 <= i' < i -> aget st.1 i' = Some (raw_of cfg mi ii i'))
    (raw_length_step cfg t_mis t_iis) 1 M (p0, f_zero)) as ([p1 s1] & Hrun & L1 & Hs & Hc);
    [lia | | |].
  - cbn [fst snd]. split; [done | split; [done |]]. intros; lia.
  - intros i [p s] Hi (L & Hs & Hc); cbn [fst snd] in *.
    unfold raw_length_step.
    rewrite t_mis_written, t_iis_written by lia. simpl.
    rewrite aset_Some by lia. simpl.
    rewrite aget_insert_eq by lia. simpl.
    eexists. split; [done |]. cbn [fst snd]. rewrite length_insert.
    split; [done | split].
    + replace (i - 0) with (S (i - 1)) by lia.
      rewrite seq_S, cumulative_sum_snoc, Hs. unfold raw_of. do 3 f_equal; lia.
    + intros i' Hi'. destruct (decide (i' = i)) as [-> | Hne].
      * by rewrite aget_insert_eq by lia.
      * rewrite aget_insert_ne by done. apply Hc. lia.
  - cbn [fst snd] in *. subst s1. by exists p1.
Qed.

Lemma normalized_weights_spec p0 :
  length p0 = M + 1 ->
  exists pw,
    normalized_weights cfg M t_mis t_iis p0 = Some pw /\
    length pw = M + 1 /\
    forall i, i <= M -> aget pw i = Some (weight_of cfg M mi ii i).
Proof.
  intros L0. unfold normalized_weights.
  destruct (raw_lengths_spec p0 L0) as (p1 & -> & L1 & Hraw). simpl.
  rewrite aset_Some by lia. simpl.
  rewrite aget_insert_eq by lia. simpl.
  rewrite aset_Some by (rewrite length_insert; lia). simpl.
  set (p2 := <[0 := Some f_zero]> (<[M := Some f_zero]> p1)).
  assert (L2 : length p2 = M + 1) by (unfold p2; by rewrite !length_insert).
  assert (H2 : forall i, i <= M ->
             aget p2 i = Some (if decide (1 <= i < M) then raw_of cfg mi ii i else f_zero)).
  { intros i Hi. unfold p2. destruct (decide (i = 0)) as [-> | H0].
    - rewrite aget_insert_eq by (rewrite length_insert; lia). by rewrite decide_False by lia.
    - rewrite aget_insert_ne by done. destruct (decide (i = M)) as [-> | HM].
      + rewrite aget_insert_eq by lia. by rewrite decide_False by lia.
      + rewrite aget_insert_ne by done. rewrite decide_True by lia. apply Hraw. lia. }
  destruct (for_range_inv
    (fun i (p : farray) =>
       length p = M + 1 /\
       forall i', i' <= M ->
         aget p i' = Some (if decide (i' < i) then weight_of cfg M mi ii i'
                           else if decide (1 <= i' < M) then raw_of cfg mi ii i' else f_zero))
    (normalize_step (raw_total cfg M mi ii)) 1 M p2) as (pw & Hrun & Lw & Hw); [lia | | |].
  - split; [done |]. intros i' Hi'. rewrite H2 by done.
    destruct (decide (i' < 1)); [| done].
    unfold weight_of. by rewrite !decide_False by lia.
  - intros i p Hi (L & Hc). unfold normalize_step.
    rewrite Hc by lia. rewrite decide_False by lia. rewrite decide_True by lia. simpl.
    rewrite aset_Some by lia.
    eexists. split; [done |]. rewrite length_insert. split; [done |].
    intros i' Hi'. destruct (decide (i' = i)) as [-> | Hne].
    + rewrite aget_insert_eq by lia. rewrite decide_True by lia.
      unfold weight_of. by rewrite decide_True by lia.
    + rewrite aget_insert_ne by done. rewrite Hc by done.
      repeat case_decide; try done; lia.
  - exists pw. split; [done | split; [done |]].
    intros i Hi. rewrite Hw by done. destruct (decide (i < M)); [done |].
    unfold weight_of. by rewrite !decide_False by lia.
Qed.

Lemma suffix_weights_spec pw s0 :
  length pw = M + 1 -> length s0 = M + 1 ->
  (forall i, i <= M -> aget pw i = Some (weight_of cfg M mi ii i)) ->
  exists sw,
    suffix_weights M pw s0 = Some sw /\
    length sw = M + 1 /\
    (forall i, 1 <= i <= M -> aget sw i = Some (suffix_back cfg M mi ii (M - i))) /\
    sw !! 0 = s0 !! 0.
Proof.
  intros Lw L0 Hw. unfold suffix_weights.
  rewrite idx_sub_Some by lia. simpl.
  rewrite Hw by lia. simpl.
  rewrite aset_Some by lia. simpl.
  destruct (for_down_inv
    (fun k (s : farray) =>
       length s = M + 1 /\
       (forall i, k <= i <= M -> aget s i = Some (suffix_back cfg M mi ii (M - i))) /\
       s !! 0 = s0 !! 0)
    (suffix_step pw) (M - 1) 1 (<[M := Some (weight_of cfg M mi ii (M - 1))]> s0))
    as (sw & Hrun & Lsw & Hsw & Hsw0); [lia | lia | | |].
  - rewrite length_insert. split; [done | split].
    + intros i Hi. replace i with M by lia.
      rewrite aget_insert_eq by lia. by replace (M - M) with 0 by lia.
    + by rewrite list_lookup_insert_ne by lia.
  - intros i s Hi (L & Hc & H0). unfold suffix_step.
    rewrite Hc by lia. simpl.
    rewrite idx_sub_Some by lia. simpl.
    rewrite Hw by lia. simpl.
    rewrite aset_Some by lia.
    eexists. split; [done |]. rewrite length_insert. split; [done | split].
    + intros i' Hi'. destruct (decide (i' = i)) as [-> | Hne].
      * rewrite aget_insert_eq by lia.
        replace (M - i) with (S (M - (i + 1))) by lia. simpl.
        do 3 f_equal. lia.
      * rewrite aget_insert_ne by done. apply Hc. lia.
    + rewrite list_lookup_insert_ne by lia. done.
  - exists sw. done.
Qed.

Lemma cumulate_spec pw :
  length pw = M + 1 ->
  (forall i, i <= M -> aget pw i = Some (weight_of cfg M mi ii i)) ->
  exists cw,
    cumulate M pw = Some cw /\
    length cw = M + 1 /\
    forall i, i <= M -> aget cw i = Some (cumulated cfg M mi ii i).
Proof.
  intros Lw Hw. unfold cumulate.
  assert (Hlow : forall i, i < 2 -> cumulated cfg M mi ii i = weight_of cfg M mi ii i).
  { intros [|[|i]] Hi; [done | | lia]. cbn [cumulated]. by rewrite decide_False by lia. }
  assert (Hhigh : forall i, M <= i -> 1 <= i -> cumulated cfg M mi ii i = weight_of cfg M mi ii i).
  { intros [|i] Hi Hi1; [lia |]. cbn [cumulated]. by rewrite decide_False by lia. }
  assert (Hmid : forall i, 2 <= i < M ->
                   cumulated cfg M mi ii i = f_add (weight_of cfg M mi ii i) (cumulated cfg M mi ii (i - 1))).
  { intros [|i] Hi; [lia |]. cbn [cumulated]. rewrite decide_True by lia.
    by replace (S i - 1) with i by lia. }
  destruct (decide (2 <= M)) as [HM | HM].
  2:{ rewrite for_range_empty by lia. exists pw. split; [done | split; [done |]].
      intros i Hi. rewrite Hw by done. f_equal. symmetry. apply Hlow. lia. }
  destruct (for_range_inv
    (fun i (p : farray) =>
       length p = M + 1 /\
       forall i', i' <= M ->
         aget p i' = Some (if decide (i' < i) then cumulated cfg M mi ii i' else weight_of cfg M mi ii i'))
    cumulate_step 2 M pw) as (cw & Hrun & Lc & Hc); [lia | | |].
  - split; [done |]. intros i' Hi'. rewrite Hw by done.
    destruct (decide (i' < 2)); [| done]. by rewrite Hlow.
  - intros i p Hi (L & Hc). unfold cumulate_step.
    rewrite Hc by lia. rewrite decide_False by lia. simpl.
    rewrite idx_sub_Some by lia. simpl.
    rewrite Hc by lia. rewrite decide_True by lia. simpl.
    rewrite aset_Some by lia.
    eexists. split; [done |]. rewrite length_insert. split; [done |].
    intros i' Hi'. destruct (decide (i' = i)) as [-> | Hne].
    + rewrite aget_insert_eq by lia. rewrite decide_True by lia.
      by rewrite (Hmid i) by lia.
    + rewrite aget_insert_ne by done. rewrite Hc by done.
      repeat case_decide; try done; lia.
  - exists cw. split; [done | split; [done |]].
    intros i Hi. rewrite Hc by done. destruct (decide (i < M)); [done |].
    symmetry. f_equal. apply Hhigh; lia.
Qed.

Lemma window_weights_spec p0 s0 :
  length p0 = M + 1 -> length s0 = M + 1 ->
  exists cw sw,
    window_weights cfg M t_mis t_iis (p0, s0) = Some (cw, sw) /\
    length cw = M + 1 /\ length sw = M + 1 /\
    (forall i, i <= M -> aget cw i = Some (cumulated cfg M mi ii i)) /\
    (forall i, 1 <= i <= M -> aget sw i = Some (suffix_back cfg M mi ii (M - i))) /\
    sw !! 0 = s0 !! 0.
Proof.
  intros Lp Ls. unfold window_weights.
  destruct (normalized_weights_spec p0 Lp) as (pw & -> & Lw & Hw). simpl.
  destruct (suffix_weights_spec pw s0 Lw Ls Hw) as (sw & -> & Lsw & Hsw & Hsw0). simpl.
  destruct (cumulate_spec pw Lw Hw) as (cw & -> & Lc & Hc). simpl.
  by exists cw, sw.
Qed.
End WindowSpec.

(** * Running code: weakest preconditions for completed runs *)

Section Runs.
Context {F : Type}.
Implicit Types (s : state F) (p : pointer) (a : nat).

Lemma runs_ret {A} (r : A) s (Q : A -> state F -> Prop) : Q r s -> runs (mret r) s Q.
Proof. intros. by exists r, s. Qed.

Lemma runs_bind {A B} (m : M F A) (k : A -> M F B) s (Q : B -> state F -> Prop) :
  runs m s (fun r s' => runs (k r) s' Q) -> runs (m ≫= k) s Q.
Proof.
  intros (r & s' & Hm & r' & s'' & Hk & HQ). exists r', s''. split; [| done].
  unfold mbind, M_bind, bind. by rewrite Hm.
Qed.

Lemma runs_mono {A} (m : M F A) s (Q Q' : A -> state F -> Prop) :
  runs m s Q -> (forall r s', Q r s' -> Q' r s') -> runs m s Q'.
Proof. intros (r & s' & Hm & HQ) HQQ. exists r, s'. auto. Qed.

Lemma runs_on_ERROR {A} (m : M F A) h s (Q : A -> state F -> Prop) :
  runs m s Q -> runs (on_ERROR m h) s Q.
Proof. intros (r & s' & Hm & HQ). exists r, s'. unfold on_ERROR. by rewrite Hm. Qed.

Lemma runs_of_option {A} (o : option A) (r : A) s (Q : A -> state F -> Prop) :
  o = Some r -> Q r s -> runs (of_option o) s Q.
Proof. intros Ho HQ. exists r, s. by rewrite Ho. Qed.

Lemma runs_malloc (b : block F) s (Q : pointer -> state F -> Prop) :
  alloc_ok s (allocs s) = true ->
  Q (Ptr (allocs s)) (Build_state (<[allocs s := b]> (heap s)) (S (allocs s)) (alloc_ok s)) ->
  runs (malloc b) s Q.
Proof. intros Hok HQ. eexists _, _. unfold malloc. rewrite Hok. done. Qed.

Lemma runs_ESL_ALLOC (assign : pointer -> M F unit) (b : block F) s
    (Q : pointer -> state F -> Prop) :
  alloc_ok s (allocs s) = true ->
  runs (assign (Ptr (allocs s)))
       (Build_state (<[allocs s := b]> (heap s)) (S (allocs s)) (alloc_ok s))
       (fun _ s' => Q (Ptr (allocs s)) s') ->
  runs (ESL_ALLOC assign b) s Q.
Proof.
  intros Hok Hassign. unfold ESL_ALLOC.
  apply runs_bind, runs_malloc; [done |].
  apply runs_bind. eapply runs_mono; [exact Hassign |].
  intros [] s' HQ. by apply runs_ret.
Qed.

Lemma runs_free a s (Q : unit -> state F -> Prop) :
  is_Some (heap s !! a) ->
  Q tt (with_heap (delete a (heap s)) s) ->
  runs (free (Ptr a)) s Q.
Proof. intros [b Hb] HQ. eexists tt, _. simpl. rewrite Hb. done. Qed.

Lemma runs_get_block a b s (Q : block F -> state F -> Prop) :
  heap s !! a = Some b -> Q b s -> runs (get_block (Ptr a)) s Q.
Proof. intros Hb HQ. exists b, s. simpl. by rewrite Hb. Qed.

Lemma runs_put_block a b s (Q : unit -> state F -> Prop) :
  is_Some (heap s !! a) ->
  Q tt (with_heap (<[a := b]> (heap s)) s) ->
  runs (put_block (Ptr a) b) s Q.
Proof. intros [b0 Hb] HQ. eexists tt, _. simpl. rewrite Hb. done. Qed.

Lemma runs_load_data a d s (Q : P7_SCOREDATA -> state F -> Prop) :
  heap s !! a = Some (Struct d) -> Q d s -> runs (load_data (Ptr a)) s Q.
Proof.
  intros Hb HQ. unfold load_data. eapply runs_bind, runs_get_block; [done |].
  by apply runs_ret.
Qed.

Lemma runs_member {A} a d (f : P7_SCOREDATA -> A) s (Q : A -> state F -> Prop) :
  heap s !! a = Some (Struct d) -> Q (f d) s -> runs (member (Ptr a) f) s Q.
Proof.
  intros Hb HQ. unfold member. eapply runs_bind, runs_load_data; [done |].
  by apply runs_ret.
Qed.

Lemma runs_int_member a d (f : P7_SCOREDATA -> option nat) n s (Q : nat -> state F -> Prop) :
  heap s !! a = Some (Struct d) -> f d = Some n -> Q n s ->
  runs (int_member (Ptr a) f) s Q.
Proof.
  intros Hb Hf HQ. unfold int_member. eapply runs_bind, runs_load_data; [done |].
  by eapply runs_of_option.
Qed.

Lemma runs_assign_data a d set s (Q : unit -> state F -> Prop) :
  heap s !! a = Some (Struct d) ->
  Q tt (with_heap (<[a := Struct (set d)]> (heap s)) s) ->
  runs (assign_data (Ptr a) set) s Q.
Proof.
  intros Hb HQ. unfold assign_data. eapply runs_bind, runs_load_data; [done |].
  apply runs_put_block; [by eexists | done].
Qed.

Lemma runs_load_floats a l s (Q : list (option F) -> state F -> Prop) :
  heap s !! a = Some (Floats l) -> Q l s -> runs (load_floats (Ptr a)) s Q.
Proof.
  intros Hb HQ. unfold load_floats. eapply runs_bind, runs_get_block; [done |].
  by apply runs_ret.
Qed.

Lemma runs_store_floats a l0 l s (Q : unit -> state F -> Prop) :
  heap s !! a = Some (Floats l0) -> length l = length l0 ->
  Q tt (with_heap (<[a := Floats l]> (heap s)) s) ->
  runs (store_floats (Ptr a) l) s Q.
Proof.
  intros Hb HL HQ. unfold store_floats. eapply runs_bind, runs_load_floats; [done |].
  cbv beta. rewrite decide_True by done. apply runs_put_block; [by eexists | done].
Qed.

Lemma runs_with_floats2 a1 a2 l1 l2 l1' l2' f s (Q : unit -> state F -> Prop) :
  a1 <> a2 ->
  heap s !! a1 = Some (Floats l1) -> heap s !! a2 = Some (Floats l2) ->
  f (l1, l2) = Some (l1', l2') ->
  length l1' = length l1 -> length l2' = length l2 ->
  Q tt (with_heap (<[a2 := Floats l2']> (<[a1 := Floats l1']> (heap s))) s) ->
  runs (with_floats2 (Ptr a1) (Ptr a2) f) s Q.
Proof.
  intros Hne H1 H2 Hf L1 L2 HQ. unfold with_floats2.
  rewrite decide_False by congruence.
  eapply runs_bind, runs_load_floats; [done |].
  eapply runs_bind, runs_load_floats; [done |].
  eapply runs_bind, runs_of_option; [done |].
  eapply runs_bind, runs_store_floats; [done | done |].
  eapply runs_store_floats; [| done | done].
  simpl. by rewrite lookup_insert_ne.
Qed.

Lemma runs_load_ptr a l i q s (Q : pointer -> state F -> Prop) :
  heap s !! a = Some (Pointers l) -> l !! i = Some q -> Q q s ->
  runs (load_ptr (Ptr a) i) s Q.
Proof.
  intros Hb Hi HQ. unfold load_ptr. eapply runs_bind, runs_get_block; [done |].
  by eapply runs_of_option.
Qed.

Lemma runs_store_ptr a l i q s (Q : unit -> state F -> Prop) :
  heap s !! a = Some (Pointers l) -> i < length l ->
  Q tt (with_heap (<[a := Pointers (<[i := q]> l)]> (heap s)) s) ->
  runs (store_ptr (Ptr a) i q) s Q.
Proof.
  intros Hb Hi HQ. unfold store_ptr. eapply runs_bind, runs_get_block; [done |].
  cbv beta iota. rewrite decide_True by done. apply runs_put_block; [by eexists | done].
Qed.

Lemma runs_for_each (Inv : nat -> state F -> Prop) n lo (body : nat -> M F unit) s :
  Inv lo s ->
  (forall i s, lo <= i < lo + n -> Inv i s -> runs (body i) s (fun _ s' => Inv (S i) s')) ->
  runs (for_each n lo body) s (fun _ s' => Inv (lo + n) s').
Proof.
  revert lo s. induction n as [|n IH]; intros lo s H0 Hstep; simpl.
  - apply runs_ret. by rewrite Nat.add_0_r.
  - apply runs_bind. eapply runs_mono; [apply Hstep; [lia | done] |].
    intros [] s1 H1. simpl in H1.
    replace (lo + S n) with (S lo + n) by lia.
    apply IH; [done |]. intros i s' Hi. apply Hstep. lia.
Qed.

Lemma runs_for_loop (Inv : nat -> state F -> Prop) lo hi (body : nat -> M F unit) s
    (Q : unit -> state F -> Prop) :
  lo <= hi -> Inv lo s ->
  (forall i s, lo <= i < hi -> Inv i s -> runs (body i) s (fun _ s' => Inv (S i) s')) ->
  (forall s', Inv hi s' -> Q tt s') ->
  runs (for_loop lo hi body) s Q.
Proof.
  intros Hle H0 Hstep HQ. unfold for_loop.
  eapply runs_mono; [apply (runs_for_each Inv); [done |] |].
  - intros i s' Hi. apply Hstep. lia.
  - intros [] s' Hinv. apply HQ. by replace hi with (lo + (hi - lo)) by lia.
Qed.
End Runs.

Ltac run_step :=
  cbv beta; sd_simpl; rewrite ?insert_insert_eq;
  lazymatch goal with
  | |- runs (on_ERROR _ _) _ _ => apply runs_on_ERROR
  | |- runs (mret _) _ _ => apply runs_ret
  | |- runs (_ ≫= _) _ _ => apply runs_bind
  | |- runs (ESL_ALLOC _ _) _ _ =>
      apply runs_ESL_ALLOC; [alloc_side | cbn [heap with_heap allocs alloc_ok]]
  | |- runs (assign_data (Ptr _) _) _ _ => eapply runs_assign_data; [heap_lookup |]
  | |- runs (member (Ptr _) _) _ _ => eapply runs_member; [heap_lookup |]
  | |- runs (int_member (Ptr _) _) _ _ => eapply runs_int_member; [heap_lookup | reflexivity |]
  | |- runs (load_floats (Ptr _)) _ _ => eapply runs_load_floats; [heap_lookup |]
  | |- runs (of_option (idx_sub _ _)) _ _ =>
      eapply runs_of_option; [apply idx_sub_Some; lia |]
  end.

Lemma fill_table_spec {A} (Mlen Kp : nat) (score : nat -> nat -> A) (l : list (option A)) :
  (Mlen + 1) * Kp <= length l ->
  exists l', fill_table Mlen Kp score l = Some l' /\
    length l' = length l /\
    (forall i x, 1 <= i <= Mlen -> x < Kp -> aget l' (i * Kp + x) = Some (score i x)) /\
    (forall n, n < Kp \/ (Mlen + 1) * Kp <= n -> l' !! n = l !! n).
Proof.
  intros HL. unfold fill_table. rewrite decide_True by done.
  eexists. split; [done |]. split; [by rewrite length_imap | split].
  - intros i x Hi Hx. apply aget_Some. rewrite list_lookup_imap.
    destruct (lookup_lt_is_Some_2 l (i * Kp + x)) as [c Hc]; [nia |].
    assert (Hd : (i * Kp + x) / Kp = i)
      by (rewrite Nat.div_add_l by lia; rewrite Nat.div_small by done; lia).
    assert (Hm : (i * Kp + x) mod Kp = x)
      by (rewrite (Nat.add_comm (i * Kp)), Nat.Div0.mod_add; by apply Nat.mod_small).
    rewrite Hc. simpl. rewrite decide_True by nia. by rewrite Hd, Hm.
  - intros n Hn. rewrite list_lookup_imap.
    destruct (l !! n); [| done]. simpl. by rewrite decide_False by lia.
Qed.

Lemma fill_row_spec {A} (Mlen : nat) (score : nat -> A) (l : list (option A)) :
  Mlen + 1 <= length l ->
  exists l', fill_row Mlen score l = Some l' /\
    length l' = length l /\
    (forall i, 1 <= i <= Mlen -> aget l' i = Some (score i)) /\
    (forall n, n = 0 \/ Mlen < n -> l' !! n = l !! n).
Proof.
  intros HL. unfold fill_row. rewrite decide_True by done.
  eexists. split; [done |]. split; [by rewrite length_imap | split].
  - intros i Hi. apply aget_Some. rewrite list_lookup_imap.
    destruct (lookup_lt_is_Some_2 l i) as [c Hc]; [lia |].
    rewrite Hc. simpl. by rewrite decide_True by lia.
  - intros n Hn. rewrite list_lookup_imap.
    destruct (l !! n); [| done]. simpl. by rewrite decide_False by lia.
Qed.

Section CreateStd.
Context {F : Type} `{FloatOps F}.
Variable cfg : Config F.
Variable layout : table_layout.
Variable om : P7_OPROFILE F.

Local Abbreviation K := (abc_Kp (om_abc om)).
Local Abbreviation Mlen := (om_M om).

Lemma GetSSVEmission_runs a l l' s (Q : unit -> state F -> Prop) :
  heap s !! a = Some (Bytes l) ->
  fill_table Mlen K (om_ssv_score om) l = Some l' ->
  Q tt (with_heap (<[a := Bytes l']> (heap s)) s) ->
  runs (p7_oprofile_GetSSVEmissionScoreArray om (Ptr a)) s Q.
Proof.
  intros Hb Hfill HQ. unfold p7_oprofile_GetSSVEmissionScoreArray.
  eapply runs_bind, runs_get_block; [done |]. cbv beta iota.
  eapply runs_bind, runs_of_option; [done |].
  apply runs_put_block; [by eexists | done].
Qed.

Lemma create_std_runs s :
  alloc_ok s (allocs s) = true ->
  alloc_ok s (S (allocs s)) = true ->
  runs (p7_hmm_ScoreDataCreate cfg layout om None) s (fun r s' =>
    r = Ptr (allocs s) /\
    allocs s' = allocs s + 2 /\ alloc_ok s' = alloc_ok s /\
    exists tbl,
      fill_table Mlen K (om_ssv_score om) (replicate ((Mlen + 1) * K) None) = Some tbl /\
      forall x, heap s' !! x =
        if decide (x = allocs s) then Some (Struct (std_data layout (allocs s) Mlen))
        else if decide (x = allocs s + 1) then Some (Bytes tbl)
        else heap s !! x).
Proof.
  intros Hok0 Hok1. unfold p7_hmm_ScoreDataCreate.
  repeat run_step.
  unfold scoredata_GetSSVScoreArrays.
  repeat run_step. sd_simpl.
  destruct (fill_table_spec Mlen K (om_ssv_score om) (replicate ((Mlen + 1) * K) None))
    as (tbl & Hfill & Ltbl & Hcells & Hrest); [by rewrite length_replicate |].
  eapply GetSSVEmission_runs; [| exact Hfill |].
  { destruct layout; heap_lookup. }
  repeat run_step.
  split; [done |]. cbn [heap with_heap allocs alloc_ok].
  split; [lia | split; [done |]].
  exists tbl. split; [done |]. intros x.
  replace (allocs s + 1) with (S (allocs s)) by lia.
  destruct (decide (x = allocs s)) as [-> | Hx].
  - rewrite lookup_insert_ne by lia. rewrite lookup_insert_eq.
    unfold std_data. replace (allocs s + 1) with (S (allocs s)) by lia.
    by destruct layout.
  - destruct (decide (x = S (allocs s))) as [-> | Hx'].
    + by rewrite lookup_insert_eq.
    + by rewrite !lookup_insert_ne by lia.
Qed.
End CreateStd.

Lemma spine_upto_length base Mlen n : length (spine_upto base Mlen n) = Mlen + 1.
Proof. unfold spine_upto. by rewrite length_map, length_seq. Qed.

Lemma spine_upto_lookup base Mlen n t :
  t <= Mlen ->
  spine_upto base Mlen n !! t = Some (if decide (1 <= t < n) then Ptr (base + 2 * t) else Indet).
Proof.
  intros Ht. unfold spine_upto. rewrite list_lookup_fmap, lookup_seq_lt by lia. done.
Qed.

Lemma spine_upto_first base Mlen : spine_upto base Mlen 1 = replicate (Mlen + 1) Indet.
Proof.
  apply list_eq. intros t. destruct (decide (t <= Mlen)).
  - rewrite spine_upto_lookup by done. rewrite lookup_replicate_2 by lia.
    by rewrite decide_False by lia.
  - rewrite !lookup_ge_None_2; [done | rewrite length_replicate; lia
                               | rewrite spine_upto_length; lia].
Qed.

Lemma spine_upto_insert base Mlen n :
  1 <= n <= Mlen ->
  <[n := Ptr (base + 2 * n)]> (spine_upto base Mlen n) = spine_upto base Mlen (S n).
Proof.
  intros Hn. apply list_eq. intros t. destruct (decide (t <= Mlen)).
  - rewrite (spine_upto_lookup _ _ (S n)) by done.
    destruct (decide (t = n)) as [-> | Hne].
    + rewrite list_lookup_insert_eq by (rewrite spine_upto_length; lia).
      by rewrite decide_True by lia.
    + rewrite list_lookup_insert_ne by done. rewrite spine_upto_lookup by done.
      repeat case_decide; try done; lia.
  - rewrite !lookup_ge_None_2; [done | rewrite spine_upto_length; lia
                               | rewrite length_insert, spine_upto_length; lia].
Qed.

Section CreateFm.
Context {F : Type} `{FloatOps F}.
Local Abbreviation farray := (list (option F)).
Variable cfg : Config F.
Variable layout : table_layout.
Variable om : P7_OPROFILE F.
Variable gm : P7_PROFILE F.
Variable s0 : state F.

Local Abbreviation K := (abc_Kp (om_abc om)).
Local Abbreviation Mlen := (om_M om).
Local Abbreviation c := (allocs s0).

Hypothesis M_pos : 1 <= Mlen.
Hypothesis Hnever : never_fails s0.

Lemma alloc_rows_runs d tbl maxs s :
  opt_ext_fwd d = Ptr (c + 3) -> opt_ext_rev d = Ptr (c + 4) ->
  fm_shape s0 c Mlen d tbl (Some maxs) 1 (fun _ => blank_row) (fun _ => blank_row) s ->
  runs (for_loop 1 Mlen (fun i =>
          fwd ← member (Ptr c) opt_ext_fwd;
          ESL_ALLOC (store_ptr fwd i) (Floats (replicate 10 None));;
          rev ← member (Ptr c) opt_ext_rev;
          ESL_ALLOC (store_ptr rev i) (Floats (replicate 10 None));;
          mret tt)) s
    (fun _ s' =>
       fm_shape s0 c Mlen d tbl (Some maxs) Mlen (fun _ => blank_row) (fun _ => blank_row) s').
Proof.
  intros Hf Hr Hshape.
  apply (runs_for_loop (fun i s' =>
    fm_shape s0 c Mlen d tbl (Some maxs) i (fun _ => blank_row) (fun _ => blank_row) s'));
    [done | done | | done].
  intros i [h n ok] Hi [Hbelow Hstruct Htable Hmaxs Hsf Hsr Hrf Hrr Habove Hallocs Hok].
  cbn [heap allocs alloc_ok] in *. subst n ok.
  run_step. run_step. rewrite Hf.
  run_step. run_step.
  eapply runs_store_ptr; [heap_lookup | rewrite spine_upto_length; lia |].
  rewrite (spine_upto_insert (c + 3) Mlen i) by lia.
  run_step. run_step. rewrite Hr.
  run_step. run_step.
  replace (S (c + 3 + 2 * i)) with (c + 4 + 2 * i) by lia.
  eapply runs_store_ptr; [heap_lookup | rewrite spine_upto_length; lia |].
  rewrite (spine_upto_insert (c + 4) Mlen i) by lia.
  run_step. split; sd_simpl.
  - intros x Hx. rewrite !lookup_insert_ne by lia. by apply Hbelow.
  - by rewrite !lookup_insert_ne by lia.
  - by rewrite !lookup_insert_ne by lia.
  - by rewrite !lookup_insert_ne by lia.
  - rewrite !lookup_insert_ne by lia. by rewrite lookup_insert_eq.
  - by rewrite lookup_insert_eq.
  - intros t Ht. destruct (decide (t = i)) as [-> | Hne].
    + rewrite !lookup_insert_ne by lia. by rewrite lookup_insert_eq.
    + rewrite !lookup_insert_ne by lia. apply Hrf. lia.
  - intros t Ht. destruct (decide (t = i)) as [-> | Hne].
    + rewrite !lookup_insert_ne by lia. by rewrite lookup_insert_eq.
    + rewrite !lookup_insert_ne by lia. apply Hrr. lia.
  - intros x Hx. rewrite !lookup_insert_ne by lia. apply Habove. lia.
  - lia.
  - done.
Qed.

Lemma rows_done_eq (mx : nat -> F) i (rows : farray * farray) :
  rows_done mx Mlen i 10 rows ->
  rows.1 = fwd_row mx Mlen i /\ rows.2 = rev_row mx (Mlen - i).
Proof.
  intros (Lf & Lr & Hcells). split; apply list_eq; intros k.
  - destruct (decide (k < 10)) as [Hk | Hk].
    + destruct (Hcells k Hk) as [Hf _]. apply aget_Some in Hf. rewrite Hf.
      unfold fwd_row. by rewrite list_lookup_fmap, lookup_seq_lt.
    + rewrite !lookup_ge_None_2; [done | unfold fwd_row; rewrite length_map, length_seq; lia
                                  | lia].
  - destruct (decide (k < 10)) as [Hk | Hk].
    + destruct (Hcells k Hk) as [_ Hr]. apply aget_Some in Hr. rewrite Hr.
      unfold rev_row. by rewrite list_lookup_fmap, lookup_seq_lt.
    + rewrite !lookup_ge_None_2; [done | unfold rev_row; rewrite length_map, length_seq; lia
                                  | lia].
Qed.

Lemma fm_shape_rows_ext d tbl maxs n rf rr rf' rr' s :
  (forall t, 1 <= t < n -> rf t = rf' t) ->
  (forall t, 1 <= t < n -> rr t = rr' t) ->
  fm_shape s0 c Mlen d tbl maxs n rf rr s ->
  fm_shape s0 c Mlen d tbl maxs n rf' rr' s.
Proof.
  intros Hf Hr [Hbelow Hstruct Htable Hmaxs Hsf Hsr Hrf Hrr Habove Hallocs Hok].
  split; try done.
  - intros t Ht. rewrite <- Hf by done. by apply Hrf.
  - intros t Ht. rewrite <- Hr by done. by apply Hrr.
Qed.

Lemma fill_rows_runs d tbl maxs (mx : nat -> F) s :
  (forall p, 1 <= p <= Mlen -> aget maxs p = Some (mx p)) ->
  opt_ext_fwd d = Ptr (c + 3) -> opt_ext_rev d = Ptr (c + 4) ->
  fm_shape s0 c Mlen d tbl (Some maxs) Mlen (fun _ => blank_row) (fun _ => blank_row) s ->
  runs (for_loop 1 Mlen (fun i =>
          fwd ← member (Ptr c) opt_ext_fwd;
          fwd_i ← load_ptr fwd i;
          rev ← member (Ptr c) opt_ext_rev;
          Mi ← of_option (idx_sub Mlen i);
          rev_Mi ← load_ptr rev Mi;
          maxs ← load_floats (Ptr (c + 2));
          with_floats2 fwd_i rev_Mi (ext_rows Mlen maxs i))) s
    (fun _ s' =>
       fm_shape s0 c Mlen d tbl (Some maxs) Mlen (fwd_row mx Mlen) (rev_row mx) s').
Proof.
  intros Hmx Hf Hr Hshape.
  apply (runs_for_loop (fun i s' =>
    fm_shape s0 c Mlen d tbl (Some maxs) Mlen (fwd_rows_upto mx Mlen i) (rev_rows_upto mx Mlen i) s'));
    [done | | |].
  - eapply fm_shape_rows_ext; [| | exact Hshape].
    + intros t Ht. unfold fwd_rows_upto. by rewrite decide_False by lia.
    + intros t Ht. unfold rev_rows_upto. by rewrite decide_False by lia.
  - intros i [h n ok] Hi [Hbelow Hstruct Htable Hmaxs Hsf Hsr Hrf Hrr Habove Hallocs Hok].
    cbn [heap allocs alloc_ok] in *. subst n ok.
    run_step. run_step. rewrite Hf.
    run_step.
    eapply runs_load_ptr; [heap_lookup | apply spine_upto_lookup; lia |].
    rewrite decide_True by lia.
    run_step. run_step. rewrite Hr.
    run_step. run_step. run_step.
    eapply runs_load_ptr; [heap_lookup | apply spine_upto_lookup; lia |].
    rewrite decide_True by lia.
    run_step. run_step.
    destruct (ext_rows_spec mx Mlen maxs Hmx i blank_row blank_row)
      as ([rowf rowr] & Hrows & Hdone); [lia | done | done |].
    destruct (rows_done_eq mx i _ Hdone) as [Ef Er]. cbn [fst snd] in Ef, Er. subst rowf rowr.
    eapply runs_with_floats2; [lia | | | exact Hrows | | |].
    + cbn [heap]. rewrite Hrf by lia. unfold fwd_rows_upto. by rewrite decide_False by lia.
    + cbn [heap]. rewrite Hrr by lia. unfold rev_rows_upto. by rewrite decide_False by lia.
    + unfold fwd_row, blank_row. by rewrite length_map, length_seq, length_replicate.
    + unfold rev_row, blank_row. by rewrite length_map, length_seq, length_replicate.
    + split; sd_simpl.
      * intros x Hx. rewrite !lookup_insert_ne by lia. by apply Hbelow.
      * by rewrite !lookup_insert_ne by lia.
      * by rewrite !lookup_insert_ne by lia.
      * by rewrite !lookup_insert_ne by lia.
      * by rewrite !lookup_insert_ne by lia.
      * by rewrite !lookup_insert_ne by lia.
      * intros t Ht. unfold fwd_rows_upto. destruct (decide (t = i)) as [-> | Hne].
        -- rewrite lookup_insert_ne by lia. rewrite lookup_insert_eq.
           by rewrite decide_True by lia.
        -- rewrite !lookup_insert_ne by lia. rewrite Hrf by done.
           unfold fwd_rows_upto. repeat case_decide; try done; lia.
      * intros t Ht. unfold rev_rows_upto. destruct (decide (t = Mlen - i)) as [-> | Hne].
        -- rewrite lookup_insert_eq. by rewrite decide_True by lia.
        -- rewrite !lookup_insert_ne by lia. rewrite Hrr by done.
           unfold rev_rows_upto. repeat case_decide; try done; lia.
      * intros x Hx. rewrite !lookup_insert_ne by lia. apply Habove. lia.
      * lia.
      * done.
  - intros s' Hs'. eapply fm_shape_rows_ext; [| | exact Hs'].
    + intros t Ht. unfold fwd_rows_upto. by rewrite decide_True by lia.
    + intros t Ht. unfold rev_rows_upto. by rewrite decide_True by lia.
Qed.

Lemma create_fm_runs :
  runs (p7_hmm_ScoreDataCreate cfg layout om (Some gm)) s0 (fun r s' =>
    r = Ptr c /\
    exists tbl maxs,
      emission_scan cfg om gm (replicate ((Mlen + 1) * K) None, replicate (Mlen + 1) None)
        = Some (tbl, maxs) /\
      fm_shape s0 c Mlen (fm_data layout c Mlen) tbl None Mlen
        (fwd_row (tracked_max cfg om gm) Mlen) (rev_row (tracked_max cfg om gm)) s').
Proof.
  unfold p7_hmm_ScoreDataCreate.
  repeat run_step.
  unfold scoredata_GetSSVScoreArrays.
  repeat run_step.
  destruct (emission_scan_spec cfg om gm (replicate ((Mlen + 1) * K) None)
              (replicate (Mlen + 1) None))
    as ([tbl maxs] & Hscan & Ltbl & Lmaxs & _ & _ & Hmx & _);
    [by rewrite length_replicate | by rewrite length_replicate |].
  cbn [fst snd] in Ltbl, Lmaxs, Hmx.
  eapply runs_with_floats2; [lia | heap_lookup | heap_lookup | exact Hscan | done | done |].
  repeat run_step.
  replace (S (S (S (S c)))) with (c + 4) by lia.
  replace (S (S (S c))) with (c + 3) by lia.
  replace (S (S c)) with (c + 2) by lia.
  replace (S c) with (c + 1) by lia.
  set (d := Build_P7_SCOREDATA _ _ _ _ _ _ _ _ _ _).
  assert (Ed : d = fm_data layout c Mlen) by (unfold d, fm_data; by destruct layout).
  clearbody d. subst d.
  eapply runs_mono.
  { apply (alloc_rows_runs (fm_data layout c Mlen) tbl maxs); [done | done |].
    split; sd_simpl; rewrite ?spine_upto_first.
    - intros x Hx. heap_lookup.
    - heap_lookup.
    - heap_lookup.
    - heap_lookup.
    - heap_lookup.
    - heap_lookup.
    - intros t Ht. lia.
    - intros t Ht. lia.
    - intros x Hx. heap_lookup.
    - lia.
    - done. }
  intros [] s1 Hs1. cbv beta.
  run_step.
  eapply runs_mono.
  { apply (fill_rows_runs (fm_data layout c Mlen) tbl maxs (tracked_max cfg om gm));
      [| done | done | exact Hs1].
    intros p Hp. apply Hmx. lia. }
  intros [] s2 [Hbelow Hstruct Htable Hmaxs Hsf Hsr Hrf Hrr Habove Hallocs Hok]. cbv beta.
  destruct s2 as [h2 n2 ok2]. cbn [heap allocs alloc_ok] in *. subst n2 ok2.
  eapply runs_free; [sd_simpl; by rewrite Hmaxs |].
  repeat run_step.
  split; [done |]. exists tbl, maxs. split; [done |].
  split; sd_simpl.
  - intros x Hx. rewrite lookup_delete_ne by lia. by apply Hbelow.
  - by rewrite lookup_delete_ne by lia.
  - by rewrite lookup_delete_ne by lia.
  - by rewrite lookup_delete_eq.
  - by rewrite lookup_delete_ne by lia.
  - by rewrite lookup_delete_ne by lia.
  - intros t Ht. rewrite lookup_delete_ne by lia. by apply Hrf.
  - intros t Ht. rewrite lookup_delete_ne by lia. by apply Hrr.
  - intros x Hx. rewrite lookup_delete_ne by lia. by apply Habove.
  - done.
  - done.
Qed.
End CreateFm.

Lemma trans_spine_upto_length base ntrans n : length (trans_spine_upto base ntrans n) = ntrans.
Proof. unfold trans_spine_upto. by rewrite length_map, length_seq. Qed.

Lemma trans_spine_upto_lookup base ntrans n t :
  t < ntrans ->
  trans_spine_upto base ntrans n !! t = Some (if decide (t < n) then Ptr (base + t) else Indet).
Proof.
  intros Ht. unfold trans_spine_upto. by rewrite list_lookup_fmap, lookup_seq_lt by lia.
Qed.

Lemma trans_spine_upto_first base ntrans : trans_spine_upto base ntrans 0 = replicate ntrans Indet.
Proof.
  apply list_eq. intros t. destruct (decide (t < ntrans)).
  - rewrite trans_spine_upto_lookup by done. rewrite lookup_replicate_2 by lia.
    by rewrite decide_False by lia.
  - rewrite !lookup_ge_None_2; [done | rewrite length_replicate; lia
                               | rewrite trans_spine_upto_length; lia].
Qed.

Lemma trans_spine_upto_insert base ntrans n :
  n < ntrans ->
  <[n := Ptr (base + n)]> (trans_spine_upto base ntrans n) = trans_spine_upto base ntrans (S n).
Proof.
  intros Hn. apply list_eq. intros t. destruct (decide (t < ntrans)).
  - rewrite (trans_spine_upto_lookup _ _ (S n)) by done.
    destruct (decide (t = n)) as [-> | Hne].
    + rewrite list_lookup_insert_eq by (rewrite trans_spine_upto_length; lia).
      by rewrite decide_True by lia.
    + rewrite list_lookup_insert_ne by done. rewrite trans_spine_upto_lookup by done.
      repeat case_decide; try done; lia.
  - rewrite !lookup_ge_None_2; [done | rewrite trans_spine_upto_length; lia
                               | rewrite length_insert, trans_spine_upto_length; lia].
Qed.

Section ComputeRest.
Context {F : Type} `{FloatOps F}.
Local Abbreviation farray := (list (option F)).
Variable cfg : Config F.
Variable om : P7_OPROFILE F.

Local Abbreviation K := (abc_Kp (om_abc om)).
Local Abbreviation Mlen := (om_M om).
Local Abbreviation NT := (p7O_NTRANS cfg).

Lemma fill_table_fresh (score : nat -> nat -> F) :
  fill_table Mlen K score (replicate (K * (Mlen + 1)) None)
  = Some (filled_table Mlen K score).
Proof.
  unfold fill_table. rewrite decide_True; [done |]. rewrite length_replicate. lia.
Qed.

Lemma fill_row_fresh (score : nat -> F) :
  fill_row Mlen score (replicate (Mlen + 1) None) = Some (filled_row Mlen score).
Proof.
  unfold fill_row. rewrite decide_True; [done |]. by rewrite length_replicate.
Qed.

Lemma filled_row_length (score : nat -> F) : length (filled_row Mlen score) = Mlen + 1.
Proof. unfold filled_row. by rewrite length_imap, length_replicate. Qed.

Lemma filled_row_written (score : nat -> F) i :
  1 <= i <= Mlen -> aget (filled_row Mlen score) i = Some (score i).
Proof.
  intros Hi.
  destruct (fill_row_spec Mlen score (replicate (Mlen + 1) None))
    as (l' & Hfill & _ & Hcells & _); [by rewrite length_replicate |].
  rewrite fill_row_fresh in Hfill. injection Hfill as <-. by apply Hcells.
Qed.

Lemma GetFwdEmission_runs a l l' s (Q : unit -> state F -> Prop) :
  heap s !! a = Some (Floats l) ->
  fill_table Mlen K (om_fwd_score om) l = Some l' ->
  Q tt (with_heap (<[a := Floats l']> (heap s)) s) ->
  runs (p7_oprofile_GetFwdEmissionScoreArray om (Ptr a)) s Q.
Proof.
  intros Hb Hfill HQ. unfold p7_oprofile_GetFwdEmissionScoreArray.
  eapply runs_bind, runs_load_floats; [done |].
  eapply runs_bind, runs_of_option; [done |].
  apply runs_put_block; [by eexists | done].
Qed.

Lemma GetFwdTransition_runs type a l l' s (Q : unit -> state F -> Prop) :
  heap s !! a = Some (Floats l) ->
  fill_row Mlen (om_fwd_trans om type) l = Some l' ->
  Q tt (with_heap (<[a := Floats l']> (heap s)) s) ->
  runs (p7_oprofile_GetFwdTransitionArray om type (Ptr a)) s Q.
Proof.
  intros Hb Hfill HQ. unfold p7_oprofile_GetFwdTransitionArray.
  eapply runs_bind, runs_load_floats; [done |].
  eapply runs_bind, runs_of_option; [done |].
  apply runs_put_block; [by eexists | done].
Qed.

Variable s0 : state F.
Variable a : nat.
Local Abbreviation b := (allocs s0).
Hypothesis Hnever : never_fails s0.
Hypothesis Ha : a < b.

Lemma alloc_transitions_runs d s :
  fwd_transitions d = Ptr (b + 1) ->
  rest_shape cfg om s0 a d 0 [] s ->
  runs (for_loop 0 NT (fun i =>
          ft ← member (Ptr a) fwd_transitions;
          row ← ESL_ALLOC (store_ptr ft i) (Floats (replicate (Mlen + 1) None));
          p7_oprofile_GetFwdTransitionArray om i row)) s
    (fun _ s' => rest_shape cfg om s0 a d NT [] s').
Proof.
  intros Hft Hshape.
  apply (runs_for_loop (fun i s' => rest_shape cfg om s0 a d i [] s'));
    [lia | done | | done].
  intros i [h n ok] Hi [Hbelow Hstruct Hfs Hspine Hrows Htail Habove Hallocs Hok].
  cbn [heap allocs alloc_ok length] in *. subst n ok.
  replace (b + 2 + i + 0) with (b + 2 + i) in * by lia.
  run_step. run_step. rewrite Hft.
  run_step. run_step.
  eapply runs_store_ptr; [heap_lookup | rewrite trans_spine_upto_length; lia |].
  rewrite (trans_spine_upto_insert (b + 2) NT i) by lia.
  cbv beta. sd_simpl.
  eapply GetFwdTransition_runs; [heap_lookup | apply fill_row_fresh |].
  split; sd_simpl.
  - intros x Hx Hxa. rewrite !lookup_insert_ne by lia. by apply Hbelow.
  - by rewrite !lookup_insert_ne by lia.
  - by rewrite !lookup_insert_ne by lia.
  - rewrite !lookup_insert_ne by lia. by rewrite lookup_insert_eq.
  - intros t Ht. destruct (decide (t = i)) as [-> | Hne].
    + by rewrite lookup_insert_eq.
    + rewrite !lookup_insert_ne by lia. apply Hrows. lia.
  - intros k Hk. simpl in Hk. lia.
  - intros x Hx. simpl in Hx. rewrite !lookup_insert_ne by lia. apply Habove. lia.
  - simpl. lia.
  - done.
Qed.

Lemma compute_rest_runs d :
  heap s0 !! a = Some (Struct d) ->
  1 <= Mlen -> p7O_MI cfg < NT -> p7O_II cfg < NT ->
  runs (p7_hmm_ScoreDataComputeRest cfg om (Ptr a)) s0 (fun r s' =>
    r = eslOK /\
    exists cw sw,
      window_weights cfg Mlen (filled_row Mlen (om_fwd_trans om (p7O_MI cfg)))
                     (filled_row Mlen (om_fwd_trans om (p7O_II cfg)))
                     (replicate (Mlen + 1) None, replicate (Mlen + 1) None)
      = Some (cw, sw) /\
      length cw = Mlen + 1 /\ length sw = Mlen + 1 /\
      rest_shape cfg om s0 a (rest_data cfg s0 d) NT [Some cw; Some sw] s').
Proof.
  intros Hd HM HMI HII. unfold p7_hmm_ScoreDataComputeRest.
  repeat run_step.
  eapply GetFwdEmission_runs; [heap_lookup | apply fill_table_fresh |].
  repeat run_step.
  replace (S b) with (b + 1) by lia.
  eapply runs_mono.
  { apply (alloc_transitions_runs (set_fwd_transitions (Ptr (b + 1)) (set_fwd_scores (Ptr b) d)));
      [by destruct d |].
    split; sd_simpl; rewrite ?trans_spine_upto_first.
    - intros x Hx Hxa. heap_lookup.
    - heap_lookup.
    - heap_lookup.
    - heap_lookup.
    - intros t Ht. lia.
    - intros k Hk. simpl in Hk. lia.
    - intros x Hx. simpl in Hx. heap_lookup.
    - simpl. lia.
    - done. }
  intros [] [h n ok] [Hbelow Hstruct Hfs Hspine Hrows Htail Habove Hallocs Hok]. cbv beta.
  cbn [heap allocs alloc_ok length] in *. subst n ok.
  replace (b + 2 + NT + 0) with (b + 2 + NT) in * by lia.
  run_step. run_step.
  replace (fwd_transitions _) with (Ptr (b + 1)) by (by destruct d).
  run_step.
  eapply runs_load_ptr; [heap_lookup | by apply trans_spine_upto_lookup |].
  rewrite decide_True by done.
  run_step.
  eapply runs_load_ptr; [heap_lookup | by apply trans_spine_upto_lookup |].
  rewrite decide_True by done.
  repeat run_step.
  eapply runs_load_floats;
    [sd_simpl; rewrite !lookup_insert_ne by lia; by apply Hrows |].
  repeat run_step.
  eapply runs_load_floats;
    [sd_simpl; rewrite !lookup_insert_ne by lia; by apply Hrows |].
  repeat run_step.
  destruct (window_weights_spec cfg Mlen
              (filled_row Mlen (om_fwd_trans om (p7O_MI cfg)))
              (filled_row Mlen (om_fwd_trans om (p7O_II cfg)))
              (om_fwd_trans om (p7O_MI cfg)) (om_fwd_trans om (p7O_II cfg)) HM
              (filled_row_written _) (filled_row_written _)
              (replicate (Mlen + 1) None) (replicate (Mlen + 1) None))
    as (cw & sw & Hww & Lcw & Lsw & _); [by rewrite length_replicate ..|].
  replace (set_suffix_lengths _ _) with (rest_data cfg s0 d).
  2:{ unfold rest_data. destruct d. sd_simpl. do 2 f_equal; lia. }
  replace (prefix_lengths (rest_data cfg s0 d)) with (Ptr (b + 2 + NT)) by (by destruct d).
  replace (suffix_lengths (rest_data cfg s0 d)) with (Ptr (b + 3 + NT)) by (by destruct d).
  replace (S (b + 2 + NT)) with (b + 3 + NT) by lia.
  eapply runs_with_floats2; [lia | heap_lookup | heap_lookup | exact Hww | | |].
  { by rewrite Lcw, length_replicate. }
  { by rewrite Lsw, length_replicate. }
  repeat run_step.
  split; [done |]. exists cw, sw. split; [done |]. split; [done |]. split; [done |].
  split; sd_simpl.
  - intros x Hx Hxa. rewrite !lookup_insert_ne by lia. by apply Hbelow.
  - heap_lookup.
  - by rewrite !lookup_insert_ne by lia.
  - by rewrite !lookup_insert_ne by lia.
  - intros t Ht. rewrite !lookup_insert_ne by lia. by apply Hrows.
  - intros k Hk. simpl in Hk. destruct k as [|[|k]]; [| | lia]; simpl.
    + replace (b + 2 + NT + 0) with (b + 2 + NT) by lia. heap_lookup.
    + replace (b + 2 + NT + 1) with (b + 3 + NT) by lia. heap_lookup.
  - intros x Hx. simpl in Hx. rewrite !lookup_insert_ne by lia. apply Habove. lia.
  - simpl. lia.
  - done.
Qed.
End ComputeRest.

Section Destroy.
Context {F : Type} `{FloatOps F}.
Variable cfg : Config F.
Implicit Types (s : state F) (l r pre : list nat).

Lemma released_nil s : released [] s s.
Proof. split; [| done]. intros x. by rewrite decide_False by set_solver. Qed.

Lemma released_app_nil pre s0 s : released pre s0 s -> released (pre ++ []) s0 s.
Proof. by rewrite app_nil_r. Qed.

Lemma released_lookup pre s0 s x :
  released pre s0 s -> x ∉ pre -> heap s !! x = heap s0 !! x.
Proof. intros [Hh _] Hx. rewrite Hh. by rewrite decide_False. Qed.

Lemma released_free pre s0 s x :
  released pre s0 s ->
  released (pre ++ [x]) s0 (with_heap (delete x (heap s)) s).
Proof.
  intros (Hh & Ha & Hok). split; [| done]. intros y. cbn [heap with_heap].
  destruct (decide (y = x)) as [-> | Hne].
  - rewrite lookup_delete_eq. by rewrite decide_True by set_solver.
  - rewrite lookup_delete_ne by done. rewrite Hh.
    destruct (decide (y ∈ pre)).
    + by rewrite decide_True by set_solver.
    + by rewrite decide_False by set_solver.
Qed.

Lemma runs_unless_null_Null (body : M F unit) s (Q : unit -> state F -> Prop) :
  Q tt s -> runs (unless_null Null body) s Q.
Proof. intros HQ. by exists tt, s. Qed.

Lemma runs_unless_null_Ptr a (body : M F unit) s (Q : unit -> state F -> Prop) :
  runs body s Q -> runs (unless_null (Ptr a) body) s Q.
Proof. intros (r & s' & Hb & HQ). exists r, s'. split; [| done]. exact Hb. Qed.

(** [if (p != NULL) free(p);] *)
Lemma free_member_released p r pre s0 s :
  owned_block p = Some r ->
  released pre s0 s ->
  (forall x, x ∈ r -> (x ∉ pre) /\ is_Some (heap s0 !! x)) ->
  runs (unless_null p (free p)) s (fun _ s' => released (pre ++ r) s0 s').
Proof.
  intros Hp Hrel Hr. destruct p as [| | a]; simplify_eq/=.
  - apply runs_unless_null_Null. by apply released_app_nil.
  - apply runs_unless_null_Ptr. destruct (Hr a) as [Hpre Hlive]; [set_solver |].
    apply runs_free; [by rewrite (released_lookup pre s0) | by apply released_free].
Qed.

(** [for (i = ...) free(rows[i]);] *)
Lemma free_rows_released a spine n : forall i r pre s0 s,
  owned_rows_from spine n i = Some r ->
  released pre s0 s ->
  heap s0 !! a = Some (Pointers spine) -> a ∉ pre -> a ∉ r ->
  NoDup r ->
  (forall x, x ∈ r -> (x ∉ pre) /\ is_Some (heap s0 !! x)) ->
  runs (for_each n i (fun i => (p ← load_ptr (Ptr a) i; free p))) s
       (fun _ s' => released (pre ++ r) s0 s').
Proof.
  induction n as [|n IH]; intros i r pre s0 s Hown Hrel Hsp Hapre Har Hnd Hr.
  - simpl in Hown. simplify_eq. apply runs_ret. by apply released_app_nil.
  - simpl in Hown.
    destruct (spine !! i) as [q|] eqn:Hq; [| done]. simpl in Hown.
    destruct (owned_block q) as [rq|] eqn:Hrq; [| done]. simpl in Hown.
    destruct (owned_rows_from spine n (S i)) as [rest|] eqn:Hrest; [| done].
    simpl in Hown. simplify_eq.
    apply NoDup_app in Hnd as (Hnd1 & Hdisj & Hnd2).
    simpl. apply runs_bind. apply runs_bind.
    eapply runs_load_ptr; [by rewrite (released_lookup pre s0) | done |].
    assert (Hfree : runs (free q) s (fun _ s' => released (pre ++ rq) s0 s')).
    { destruct q as [| | x]; simplify_eq/=.
      - apply runs_ret. by apply released_app_nil.
      - destruct (Hr x) as [Hx Hlive]; [set_solver |].
        apply runs_free; [by rewrite (released_lookup pre s0) | by apply released_free]. }
    eapply runs_mono; [exact Hfree |]. intros [] s1 Hs1. cbv beta.
    eapply runs_mono.
    { apply (IH (S i) rest (pre ++ rq) s0 s1);
        [done | done | done | set_solver | set_solver | done |].
      intros x Hx. destruct (Hr x) as [Hxpre Hlive]; [set_solver |].
      split; [| done]. intros [Hin | Hin]%elem_of_app; [done |]. by apply (Hdisj x). }
    intros [] s2 Hs2. cbv beta. by rewrite (assoc (++)).
Qed.

(** [for (...) free(p[i]); free(p);] *)
Lemma free_table_body_released a lo hi r pre s0 s :
  owned_rows s0 (Ptr a) lo hi = Some r ->
  released pre s0 s ->
  NoDup r ->
  (forall x, x ∈ r -> (x ∉ pre) /\ is_Some (heap s0 !! x)) ->
  runs (free_rows (Ptr a) lo hi;; free (Ptr a)) s
       (fun _ s' => released (pre ++ r) s0 s').
Proof.
  intros Hown Hrel Hnd Hr.
  unfold owned_rows, pointers_at, block_at in Hown.
  destruct (heap s0 !! a) as [[| |spine|]|] eqn:Ha; try done. simpl in Hown.
  destruct (owned_rows_from spine (hi - lo) lo) as [rows|] eqn:Hrows; [| done].
  simpl in Hown. injection Hown as <-.
  apply NoDup_app in Hnd as (Hnd1 & Hdisj & Hnd2).
  destruct (Hr a) as [Hapre _]; [set_solver |].
  apply runs_bind. unfold free_rows, for_loop.
  eapply runs_mono.
  { eapply (free_rows_released a spine); [done | done | done | done | | done |].
    - intros Hin. apply (Hdisj a Hin). set_solver.
    - intros x Hx. apply Hr. set_solver. }
  intros [] s1 Hs1. cbv beta.
  apply runs_free.
  - rewrite (released_lookup (pre ++ rows) s0 s1); [by rewrite Ha | done |].
    intros [Hin | Hin]%elem_of_app; [done |]. apply (Hdisj a Hin). set_solver.
  - rewrite (assoc (++)). by apply released_free.
Qed.

(** [if (p != NULL) { for (...) free(p[i]); free(p); }] *)
Lemma free_table_released p lo hi r pre s0 s :
  owned_rows s0 p lo hi = Some r ->
  released pre s0 s ->
  NoDup r ->
  (forall x, x ∈ r -> (x ∉ pre) /\ is_Some (heap s0 !! x)) ->
  runs (unless_null p (free_rows p lo hi;; free p)) s
       (fun _ s' => released (pre ++ r) s0 s').
Proof.
  intros Hown Hrel Hnd Hr. destruct p as [| | a]; [done | |].
  - injection Hown as <-. apply runs_unless_null_Null. by apply released_app_nil.
  - apply runs_unless_null_Ptr. by apply free_table_body_released.
Qed.

(** the same, with the row count read from [data->M] *)
Lemma free_ext_released data d Mlen p r pre s0 s :
  heap s !! data = Some (Struct d) -> sd_M d = Some Mlen ->
  owned_rows s0 p 1 Mlen = Some r ->
  released pre s0 s ->
  NoDup r ->
  (forall x, x ∈ r -> (x ∉ pre) /\ is_Some (heap s0 !! x)) ->
  runs (unless_null p
          (Mlen ← int_member (Ptr data) sd_M; free_rows p 1 Mlen;; free p)) s
       (fun _ s' => released (pre ++ r) s0 s').
Proof.
  intros Hd HM Hown Hrel Hnd Hr. destruct p as [| | a]; [done | |].
  - injection Hown as <-. apply runs_unless_null_Null. by apply released_app_nil.
  - apply runs_unless_null_Ptr.
    eapply runs_bind, runs_int_member; [done | done |].
    by apply free_table_body_released.
Qed.

Lemma released_same s s' : released [] s s' -> s' = s.
Proof.
  intros (Hh & Ha & Hok). destruct s as [h n ok], s' as [h' n' ok'].
  cbn [heap allocs alloc_ok] in *. subst.
  f_equal. apply map_eq. intros x. rewrite Hh. by rewrite decide_False by set_solver.
Qed.

Lemma destroy_footprint_runs s data l :
  footprint cfg s data = Some l ->
  NoDup l ->
  (forall x, x ∈ l -> is_Some (heap s !! x)) ->
  (forall d, data_at s data = Some d -> ssv_scores d = score_table d) ->
  runs (p7_hmm_ScoreDataDestroy cfg data) s (fun _ s' => released l s s').
Proof.
  intros Hfp Hnd Hlive Hslot. destruct data as [| | a]; [done | |].
  { injection Hfp as <-. apply runs_unless_null_Null. apply released_nil. }
  unfold footprint in Hfp.
  destruct (data_at s (Ptr a)) as [d|] eqn:Hd; [| done]. simpl in Hfp.
  destruct (sd_M d) as [Mlen|] eqn:HM; [| done]. simpl in Hfp.
  destruct (owned_block (score_table d)) as [t|] eqn:Ht; [| done]. simpl in Hfp.
  destruct (owned_block (prefix_lengths d)) as [pl|] eqn:Hpl; [| done]. simpl in Hfp.
  destruct (owned_block (suffix_lengths d)) as [sl|] eqn:Hsl; [| done]. simpl in Hfp.
  destruct (owned_block (fwd_scores d)) as [fs|] eqn:Hfs; [| done]. simpl in Hfp.
  destruct (owned_rows s (fwd_transitions d) 0 (p7O_NTRANS cfg)) as [ft|] eqn:Hft; [| done].
  simpl in Hfp.
  destruct (owned_rows s (opt_ext_fwd d) 1 Mlen) as [ef|] eqn:Hef; [| done]. simpl in Hfp.
  destruct (owned_rows s (opt_ext_rev d) 1 Mlen) as [er|] eqn:Her; [| done]. simpl in Hfp.
  injection Hfp as <-.
  assert (Hda : heap s !! a = Some (Struct d)).
  { unfold data_at, block_at in Hd. by destruct (heap s !! a) as [[]|]; simplify_eq. }
  rewrite <- (Hslot d eq_refl) in Ht.
  apply NoDup_app in Hnd as (Nt & Dt & Hnd).
  apply NoDup_app in Hnd as (Npl & Dpl & Hnd).
  apply NoDup_app in Hnd as (Nsl & Dsl & Hnd).
  apply NoDup_app in Hnd as (Nfs & Dfs & Hnd).
  apply NoDup_app in Hnd as (Nft & Dft & Hnd).
  apply NoDup_app in Hnd as (Nef & Def & Hnd).
  apply NoDup_app in Hnd as (Ner & Der & _).
  unfold p7_hmm_ScoreDataDestroy.
  apply runs_unless_null_Ptr.
  eapply runs_bind, runs_load_data; [done |].
  apply runs_bind. eapply runs_mono.
  { apply (free_member_released _ t [] s s Ht (released_nil s)).
    intros x Hx. split; [set_solver | apply Hlive; set_solver]. }
  intros [] s1 Hs1. cbv beta.
  apply runs_bind. eapply runs_mono.
  { apply (free_member_released _ pl _ s s1 Hpl Hs1).
    intros x Hx. split; [| apply Hlive; set_solver].
    intros Hin. apply (Dt x); set_solver. }
  intros [] s2 Hs2. cbv beta.
  apply runs_bind. eapply runs_mono.
  { apply (free_member_released _ sl _ s s2 Hsl Hs2).
    intros x Hx. split; [| apply Hlive; set_solver].
    intros [Hin | Hin]%elem_of_app; [apply (Dt x) | apply (Dpl x)]; set_solver. }
  intros [] s3 Hs3. cbv beta.
  apply runs_bind. eapply runs_mono.
  { apply (free_member_released _ fs _ s s3 Hfs Hs3).
    intros x Hx. split; [| apply Hlive; set_solver].
    intros [[Hin | Hin]%elem_of_app | Hin]%elem_of_app;
      [apply (Dt x) | apply (Dpl x) | apply (Dsl x)]; set_solver. }
  intros [] s4 Hs4. cbv beta.
  apply runs_bind. eapply runs_mono.
  { apply (free_table_released _ _ _ ft _ s s4 Hft Hs4 Nft).
    intros x Hx. split; [| apply Hlive; set_solver].
    intros [[[Hin | Hin]%elem_of_app | Hin]%elem_of_app | Hin]%elem_of_app;
      [apply (Dt x) | apply (Dpl x) | apply (Dsl x) | apply (Dfs x)]; set_solver. }
  intros [] s5 Hs5. cbv beta.
  assert (Hkeep : forall pre s', released pre s s' -> a ∉ pre ->
                                 heap s' !! a = Some (Struct d)).
  { intros pre s' Hrel Hpre. by rewrite (released_lookup pre s s'). }
  apply runs_bind. eapply runs_mono.
  { refine (free_ext_released a d Mlen _ ef _ s s5 _ HM Hef Hs5 Nef _).
    - apply (Hkeep _ _ Hs5).
      intros [[[[Hin | Hin]%elem_of_app | Hin]%elem_of_app | Hin]%elem_of_app
             | Hin]%elem_of_app;
        [apply (Dt a) | apply (Dpl a) | apply (Dsl a) | apply (Dfs a) | apply (Dft a)];
        set_solver.
    - intros x Hx. split; [| apply Hlive; set_solver].
      intros [[[[Hin | Hin]%elem_of_app | Hin]%elem_of_app | Hin]%elem_of_app
             | Hin]%elem_of_app;
        [apply (Dt x) | apply (Dpl x) | apply (Dsl x) | apply (Dfs x) | apply (Dft x)];
        set_solver. }
  intros [] s6 Hs6. cbv beta.
  apply runs_bind. eapply runs_mono.
  { refine (free_ext_released a d Mlen _ er _ s s6 _ HM Her Hs6 Ner _).
    - apply (Hkeep _ _ Hs6).
      intros [[[[[Hin | Hin]%elem_of_app | Hin]%elem_of_app | Hin]%elem_of_app
             | Hin]%elem_of_app | Hin]%elem_of_app;
        [apply (Dt a) | apply (Dpl a) | apply (Dsl a) | apply (Dfs a) | apply (Dft a)
         | apply (Def a)]; set_solver.
    - intros x Hx. split; [| apply Hlive; set_solver].
      intros [[[[[Hin | Hin]%elem_of_app | Hin]%elem_of_app | Hin]%elem_of_app
             | Hin]%elem_of_app | Hin]%elem_of_app;
        [apply (Dt x) | apply (Dpl x) | apply (Dsl x) | apply (Dfs x) | apply (Dft x)
         | apply (Def x)]; set_solver. }
  intros [] s7 Hs7. cbv beta.
  apply runs_free.
  - rewrite (Hkeep _ _ Hs7); [done |].
    intros [[[[[[Hin | Hin]%elem_of_app | Hin]%elem_of_app | Hin]%elem_of_app
           | Hin]%elem_of_app | Hin]%elem_of_app | Hin]%elem_of_app;
      [apply (Dt a) | apply (Dpl a) | apply (Dsl a) | apply (Dfs a) | apply (Dft a)
       | apply (Def a) | apply (Der a)]; set_solver.
  - apply (released_free _ s s7 a) in Hs7. simpl in Hs7.
    by rewrite <- !(assoc (++)) in Hs7.
Qed.
End Destroy.

(** * Order properties of the bounds *)

Section BoundsOrder.
Context {F : Type} `{FloatOrder F}.
Variable mx : nat -> F.
Hypothesis mx_nonneg : forall p, f_nonneg (mx p).

Lemma cumulative_sum_nonneg l : f_nonneg (cumulative_sum mx l).
Proof.
  induction l as [|p l IH] using rev_ind.
  - apply f_nonneg_zero.
  - rewrite cumulative_sum_snoc. by apply f_add_nonneg.
Qed.

Lemma spec_extFwd_next Mlen i k :
  i + k + 2 <= Mlen ->
  spec_extFwd mx Mlen i (k + 1) = f_add (spec_extFwd mx Mlen i k) (mx (i + k + 2)).
Proof.
  intros Hk. rewrite !spec_extFwd_inside by lia.
  replace (k + 1 + 1) with (S (k + 1)) by lia.
  rewrite seq_S, cumulative_sum_snoc. do 2 f_equal. lia.
Qed.

Lemma spec_extFwd_stays Mlen i k :
  Mlen <= i + k + 1 -> spec_extFwd mx Mlen i (k + 1) = spec_extFwd mx Mlen i k.
Proof. intros Hk. by rewrite !spec_extFwd_saturated by lia. Qed.

Lemma spec_extFwd_mono Mlen i k :
  f_le (spec_extFwd mx Mlen i k) (spec_extFwd mx Mlen i (k + 1)) = true.
Proof.
  destruct (decide (i + k + 2 <= Mlen)).
  - rewrite spec_extFwd_next by done.
    apply f_add_le; [apply cumulative_sum_nonneg | apply mx_nonneg].
  - rewrite spec_extFwd_stays by lia. apply f_le_refl, cumulative_sum_nonneg.
Qed.

Lemma spec_extRev_next r k :
  k + 2 <= r ->
  spec_extRev mx r (k + 1) = f_add (spec_extRev mx r k) (mx (r - (k + 1))).
Proof.
  intros Hk. rewrite !spec_extRev_inside by lia.
  replace (k + 1 + 1) with (S (k + 1)) by lia.
  rewrite seq_S, map_app. cbn [map]. by rewrite cumulative_sum_snoc.
Qed.

Lemma spec_extRev_stays r k :
  r <= k + 1 -> spec_extRev mx r (k + 1) = spec_extRev mx r k.
Proof. intros Hk. by rewrite !spec_extRev_saturated by lia. Qed.

Lemma spec_extRev_mono r k :
  f_le (spec_extRev mx r k) (spec_extRev mx r (k + 1)) = true.
Proof.
  destruct (decide (k + 2 <= r)).
  - rewrite spec_extRev_next by done.
    apply f_add_le; [apply cumulative_sum_nonneg | apply mx_nonneg].
  - rewrite spec_extRev_stays by lia. apply f_le_refl, cumulative_sum_nonneg.
Qed.
End BoundsOrder.

Section Mirror.
Context {F : Type} `{FloatOps F}.

Lemma cumulative_sum_map (mx : nat -> F) (g : nat -> nat) l :
  cumulative_sum mx (map g l) = cumulative_sum (fun p => mx (g p)) l.
Proof.
  unfold cumulative_sum. generalize f_zero.
  induction l as [|p l IH]; intros acc; [done |]. simpl. apply IH.
Qed.

Lemma cumulative_sum_ext (mx mx' : nat -> F) l :
  (forall p, p ∈ l -> mx p = mx' p) -> cumulative_sum mx l = cumulative_sum mx' l.
Proof.
  unfold cumulative_sum. generalize f_zero.
  induction l as [|p l IH]; intros acc Heq; [done |]. simpl.
  rewrite Heq by set_solver. apply IH. intros q Hq. apply Heq. set_solver.
Qed.

Lemma cumulative_sum_seq_shift (mx : nat -> F) a n :
  cumulative_sum mx (seq a n) = cumulative_sum (fun t => mx (a + t)) (seq 0 n).
Proof.
  induction n as [|n IH]; [done |].
  by rewrite !seq_S, !cumulative_sum_snoc, IH.
Qed.

(** the reverse bound of row [M - i] is the forward bound of row [i] on
    the maxima read end for end *)
Lemma spec_extRev_mirror (mx : nat -> F) Mlen i k :
  i <= Mlen ->
  spec_extRev mx (Mlen - i) k = spec_extFwd (mirror Mlen mx) Mlen i k.
Proof.
  intros Hi. unfold spec_extRev, spec_extFwd, rev_positions, fwd_positions.
  rewrite cumulative_sum_map, (cumulative_sum_seq_shift _ (i + 1)).
  apply cumulative_sum_ext. intros t Ht%elem_of_seq.
  unfold mirror. f_equal. lia.
Qed.
End Mirror.

Section TrackedMax.
Context {F : Type} `{FloatOps F}.
Variable cfg : Config F.
Variable om : P7_OPROFILE F.
Variable gm : P7_PROFILE F.

(** no residue score above [0]: the tracked maximum stays at [0] *)
Lemma tracked_max_clamped i :
  (forall j, j < abc_Kp (om_abc om) ->
     esl_abc_XIsResidue cfg (om_abc om) j = true ->
     f_gt (gm_rsc gm j (i * p7P_NR cfg + p7P_MSC cfg)) f_zero = false) ->
  tracked_max cfg om gm i = f_zero.
Proof.
  intros Hneg. unfold tracked_max.
  assert (Hfold : forall n, n <= abc_Kp (om_abc om) ->
            fold_left (raise_max cfg om gm i) (seq 0 n) f_zero = f_zero).
  { induction n as [|n IH]; intros Hn; [done |].
    rewrite seq_S, fold_left_app, IH by lia. simpl. unfold raise_max.
    destruct (esl_abc_XIsResidue cfg (om_abc om) n) eqn:Hres; [| done].
    by rewrite Hneg by (done || lia). }
  by apply Hfold.
Qed.
End TrackedMax.

Section TrackedMaxOrder.
Context {F : Type} `{FloatOrder F}.
Variable cfg : Config F.
Variable om : P7_OPROFILE F.
Variable gm : P7_PROFILE F.
Hypothesis scores_wf : forall j n, f_wf (gm_rsc gm j n).

Lemma tracked_max_nonneg i : f_nonneg (tracked_max cfg om gm i).
Proof.
  unfold tracked_max. generalize (abc_Kp (om_abc om)). intros n.
  induction n as [|n IH]; [apply f_nonneg_zero |].
  rewrite seq_S, fold_left_app. simpl. unfold raise_max at 1.
  destruct (esl_abc_XIsResidue cfg (om_abc om) n); [| done].
  destruct (f_gt _ _) eqn:Hgt; [| done].
  eapply f_gt_nonneg; [apply scores_wf | exact IH | exact Hgt].
Qed.
End TrackedMaxOrder.

Section FmReads.
Context {F : Type} `{FloatOps F}.
Local Abbreviation farray := (list (option F)).
Variable layout : table_layout.
Variables (s0 s : state F) (Mlen : nat) (tbl : farray) (maxs : option farray).
Variables (rf rr : nat -> farray).
Local Abbreviation c := (allocs s0).
Hypothesis shape : fm_shape s0 c Mlen (fm_data layout c Mlen) tbl maxs Mlen rf rr s.

Lemma fm_data_at : data_at s (Ptr c) = Some (fm_data layout c Mlen).
Proof. unfold data_at, block_at. by rewrite (fm_struct _ _ _ _ _ _ _ _ _ _ shape). Qed.

Lemma fm_table_at : float_array s (Ptr c) ssv_scores_f = Some tbl.
Proof.
  unfold float_array. rewrite fm_data_at. read_simpl. unfold floats_at, block_at.
  by rewrite (fm_table _ _ _ _ _ _ _ _ _ _ shape).
Qed.

Lemma fm_fwd_row_at i : 1 <= i < Mlen -> float_row s (Ptr c) opt_ext_fwd i = Some (rf i).
Proof.
  intros Hi. unfold float_row. rewrite fm_data_at. read_simpl. unfold pointers_at, block_at.
  rewrite (fm_spine_f _ _ _ _ _ _ _ _ _ _ shape). read_simpl.
  rewrite spine_upto_lookup by lia. rewrite decide_True by lia. read_simpl.
  unfold floats_at, block_at. by rewrite (fm_rows_f _ _ _ _ _ _ _ _ _ _ shape).
Qed.

Lemma fm_rev_row_at r : 1 <= r < Mlen -> float_row s (Ptr c) opt_ext_rev r = Some (rr r).
Proof.
  intros Hr. unfold float_row. rewrite fm_data_at. read_simpl. unfold pointers_at, block_at.
  rewrite (fm_spine_r _ _ _ _ _ _ _ _ _ _ shape). read_simpl.
  rewrite spine_upto_lookup by lia. rewrite decide_True by lia. read_simpl.
  unfold floats_at, block_at. by rewrite (fm_rows_r _ _ _ _ _ _ _ _ _ _ shape).
Qed.
End FmReads.

Section RowValues.
Context {F : Type} `{FloatOps F}.

Lemma fwd_row_length (mx : nat -> F) Mlen i : length (fwd_row mx Mlen i) = 10.
Proof. unfold fwd_row. by rewrite length_map, length_seq. Qed.

Lemma rev_row_length (mx : nat -> F) r : length (rev_row mx r) = 10.
Proof. unfold rev_row. by rewrite length_map, length_seq. Qed.

Lemma fwd_row_cell (mx : nat -> F) Mlen i k :
  k < 10 -> aget (fwd_row mx Mlen i) k = Some (spec_extFwd mx Mlen i k).
Proof.
  intros Hk. apply aget_Some. unfold fwd_row.
  by rewrite list_lookup_fmap, lookup_seq_lt.
Qed.

Lemma rev_row_cell (mx : nat -> F) r k :
  k < 10 -> aget (rev_row mx r) k = Some (spec_extRev mx r k).
Proof.
  intros Hk. apply aget_Some. unfold rev_row.
  by rewrite list_lookup_fmap, lookup_seq_lt.
Qed.
End RowValues.

Section FloatModeClaims.
Context {F : Type} `{FloatOps F}.
Variable cfg : Config F.
Variable layout : table_layout.
Variable om : P7_OPROFILE F.
Variable gm : P7_PROFILE F.

Local Abbreviation Kp := (abc_Kp (om_abc om)).
Local Abbreviation Mlen := (om_M om).
Local Abbreviation mx := (tracked_max cfg om gm).

(** Float mode: the buffer that Create returns, and what a caller reads
    from it. *)
Lemma create_fm_reads (s : state F) :
  1 <= Mlen -> never_fails s ->
  exists data s',
    p7_hmm_ScoreDataCreate cfg layout om (Some gm) s = Done data s' /\
    (exists d, data_at s' data = Some d /\
               sd_type d = Some p7_sd_fm /\ sd_M d = Some Mlen) /\
    (forall i, 1 <= i < Mlen ->
       float_row s' data opt_ext_fwd i = Some (fwd_row mx Mlen i)) /\
    (forall r, 1 <= r < Mlen ->
       float_row s' data opt_ext_rev r = Some (rev_row mx r)) /\
    (exists tbl,
       float_array s' data ssv_scores_f = Some tbl /\
       length tbl = (Mlen + 1) * Kp /\
       forall i j, 1 <= i <= Mlen -> j < Kp ->
         tbl !! (i * Kp + j) =
           if esl_abc_XIsResidue cfg (om_abc om) j
           then Some (Some (gm_rsc gm j (i * p7P_NR cfg + p7P_MSC cfg)))
           else Some None).
Proof.
  intros HM Hnever.
  destruct (create_fm_runs cfg layout om gm s HM Hnever)
    as (data & s' & Hrun & -> & tbl & maxs & Hscan & Hshape).
  exists (Ptr (allocs s)), s'. split; [done |].
  split; [| split; [| split]].
  - exists (fm_data layout (allocs s) Mlen). split; [| done].
    eapply fm_data_at, Hshape.
  - intros i Hi. eapply fm_fwd_row_at; [exact Hshape | done].
  - intros r Hr. eapply fm_rev_row_at; [exact Hshape | done].
  - exists tbl. split; [eapply fm_table_at, Hshape |].
    destruct (emission_scan_spec cfg om gm (replicate ((Mlen + 1) * Kp) None)
                (replicate (Mlen + 1) None))
      as (st' & Hscan' & Ltbl & _ & Hcells & _);
      [by rewrite length_replicate | by rewrite length_replicate |].
    rewrite Hscan in Hscan'. injection Hscan' as <-. cbn [fst snd] in *.
    rewrite length_replicate in Ltbl. split; [done |].
    intros i j Hi Hj. rewrite Hcells by lia. unfold scanned_cell.
    destruct (esl_abc_XIsResidue cfg (om_abc om) j); [done |].
    apply lookup_replicate_2. nia.
Qed.
End FloatModeClaims.

Section FloatModeTheorems.
Context {F : Type} `{FloatOrder F}.
Variable cfg : Config F.
Variable layout : table_layout.
Variable om : P7_OPROFILE F.
Variable gm : P7_PROFILE F.

Local Abbreviation Kp := (abc_Kp (om_abc om)).
Local Abbreviation Mlen := (om_M om).
Local Abbreviation mx := (tracked_max cfg om gm).

(** Claim C1.  In float mode, for a model of length [M >= 2], every
    interior position [i] in [1..M-1] gets a forward row of exactly 10
    entries; entry [k] is the sum of the per-position maxima at
    positions [i+1 .. min (i+k+1) M]; once [i+k+1] exceeds [M] the
    entries repeat the last valid sum, entry [M-i-1]; and the row is
    non-decreasing from each entry to the next. *)
Theorem extFwd_saturating_cumulative_sum (s : state F) :
  2 <= Mlen -> never_fails s ->
  (forall j n, f_wf (gm_rsc gm j n)) ->
  exists data s',
    p7_hmm_ScoreDataCreate cfg layout om (Some gm) s = Done data s' /\
    forall i, 1 <= i < Mlen ->
      (exists row, float_row s' data opt_ext_fwd i = Some row /\ length row = 10) /\
      (forall k, k < 10 ->
         row_cell s' data opt_ext_fwd i k = Some (spec_extFwd mx Mlen i k)) /\
      (forall k, k < 10 -> Mlen <= i + k + 1 ->
         row_cell s' data opt_ext_fwd i k
         = row_cell s' data opt_ext_fwd i (Mlen - i - 1)) /\
      (forall k, k < 9 ->
         exists x y,
           row_cell s' data opt_ext_fwd i k = Some x /\
           row_cell s' data opt_ext_fwd i (k + 1) = Some y /\
           f_le x y = true).
Proof.
  intros HM Hnever Hwf.
  destruct (create_fm_reads cfg layout om gm s) as (data & s' & Hrun & _ & Hfwd & _);
    [lia | done |].
  exists data, s'. split; [done |]. intros i Hi.
  assert (Hcell : forall k, k < 10 ->
            row_cell s' data opt_ext_fwd i k = Some (spec_extFwd mx Mlen i k)).
  { intros k Hk. unfold row_cell. rewrite Hfwd by done. cbn [mbind option_bind].
    by apply fwd_row_cell. }
  split; [| split; [| split]].
  - exists (fwd_row mx Mlen i). split; [by apply Hfwd | apply fwd_row_length].
  - done.
  - intros k Hk Hsat. rewrite !Hcell by lia. f_equal.
    by rewrite !spec_extFwd_saturated by lia.
  - intros k Hk. eexists _, _. split; [by apply Hcell; lia |].
    split; [by apply Hcell; lia |].
    apply spec_extFwd_mono. intros p. by apply tracked_max_nonneg.
Qed.

(** Claim C2.  In float mode, for a model of length [M >= 2] and every
    interior position [i], reverse row [M-i] has exactly 10 entries;
    entry [k] is the sum of the per-position maxima taken backward from
    position [M-i], stopping at position 1, which is the forward bound of
    row [i] on the model read end for end; with the same saturating fill
    and the same order between neighbours. *)
Theorem extRev_mirrors_extFwd (s : state F) :
  2 <= Mlen -> never_fails s ->
  (forall j n, f_wf (gm_rsc gm j n)) ->
  exists data s',
    p7_hmm_ScoreDataCreate cfg layout om (Some gm) s = Done data s' /\
    forall i, 1 <= i < Mlen ->
      (exists row, float_row s' data opt_ext_rev (Mlen - i) = Some row /\ length row = 10) /\
      (forall k, k < 10 ->
         row_cell s' data opt_ext_rev (Mlen - i) k = Some (spec_extRev mx (Mlen - i) k) /\
         spec_extRev mx (Mlen - i) k = spec_extFwd (mirror Mlen mx) Mlen i k) /\
      (forall k, k < 10 -> Mlen <= i + k + 1 ->
         row_cell s' data opt_ext_rev (Mlen - i) k
         = row_cell s' data opt_ext_rev (Mlen - i) (Mlen - i - 1)) /\
      (forall k, k < 9 ->
         exists x y,
           row_cell s' data opt_ext_rev (Mlen - i) k = Some x /\
           row_cell s' data opt_ext_rev (Mlen - i) (k + 1) = Some y /\
           f_le x y = true).
Proof.
  intros HM Hnever Hwf.
  destruct (create_fm_reads cfg layout om gm s) as (data & s' & Hrun & _ & _ & Hrev & _);
    [lia | done |].
  exists data, s'. split; [done |]. intros i Hi.
  assert (Hcell : forall k, k < 10 ->
            row_cell s' data opt_ext_rev (Mlen - i) k
            = Some (spec_extRev mx (Mlen - i) k)).
  { intros k Hk. unfold row_cell. rewrite Hrev by lia. cbn [mbind option_bind].
    by apply rev_row_cell. }
  split; [| split; [| split]].
  - exists (rev_row mx (Mlen - i)). split; [apply Hrev; lia | apply rev_row_length].
  - intros k Hk. split; [by apply Hcell |]. apply spec_extRev_mirror. lia.
  - intros k Hk Hsat. rewrite !Hcell by lia. f_equal.
    by rewrite !spec_extRev_saturated by lia.
  - intros k Hk. eexists _, _. split; [by apply Hcell; lia |].
    split; [by apply Hcell; lia |].
    apply spec_extRev_mono. intros p. by apply tracked_max_nonneg.
Qed.

(** Claim C10.  In float mode the tracked maximum of a position starts
    at [0] and is only raised: it is at least [0], it is [0] when no
    residue score of the position is above [0], and so every entry of
    both extension tables is at least [0]. *)
Theorem tracked_maximum_clamped_at_zero (s : state F) :
  1 <= Mlen -> never_fails s ->
  (forall j n, f_wf (gm_rsc gm j n)) ->
  (exists tbl maxs,
     emission_scan cfg om gm (replicate ((Mlen + 1) * Kp) None, replicate (Mlen + 1) None)
     = Some (tbl, maxs) /\
     forall i, 1 <= i <= Mlen ->
       aget maxs i = Some (mx i) /\
       f_le f_zero (mx i) = true /\
       ((forall j, j < Kp -> esl_abc_XIsResidue cfg (om_abc om) j = true ->
           f_gt (gm_rsc gm j (i * p7P_NR cfg + p7P_MSC cfg)) f_zero = false) ->
        mx i = f_zero)) /\
  (exists data s',
     p7_hmm_ScoreDataCreate cfg layout om (Some gm) s = Done data s' /\
     forall i k, 1 <= i < Mlen -> k < 10 ->
       exists x y,
         row_cell s' data opt_ext_fwd i k = Some x /\
         row_cell s' data opt_ext_rev i k = Some y /\
         f_le f_zero x = true /\ f_le f_zero y = true).
Proof.
  intros HM Hnever Hwf. split.
  - destruct (emission_scan_spec cfg om gm (replicate ((Mlen + 1) * Kp) None)
                (replicate (Mlen + 1) None))
      as ([tbl maxs] & Hscan & _ & _ & _ & _ & Hmx & _);
      [by rewrite length_replicate | by rewrite length_replicate |].
    exists tbl, maxs. split; [done |]. intros i Hi. cbn [fst snd] in Hmx.
    split; [apply Hmx; lia |].
    split; [by apply f_nonneg_le, tracked_max_nonneg | apply tracked_max_clamped].
  - destruct (create_fm_reads cfg layout om gm s) as (data & s' & Hrun & _ & Hfwd & Hrev & _);
      [lia | done |].
    exists data, s'. split; [done |]. intros i k Hi Hk.
    exists (spec_extFwd mx Mlen i k), (spec_extRev mx i k).
    unfold row_cell. rewrite Hfwd, Hrev by done. cbn [mbind option_bind].
    split; [by apply fwd_row_cell |]. split; [by apply rev_row_cell |].
    split; apply f_nonneg_le, cumulative_sum_nonneg; intros p; by apply tracked_max_nonneg.
Qed.
End FloatModeTheorems.

Section FloatTable.
Context {F : Type} `{FloatOps F}.
Variable cfg : Config F.
Variable layout : table_layout.
Variable om : P7_OPROFILE F.
Variable gm : P7_PROFILE F.

Local Abbreviation Kp := (abc_Kp (om_abc om)).
Local Abbreviation Mlen := (om_M om).

(** Claim C9.  In float mode, for every position [i] in [1..M] and
    every residue symbol [j], cell [i * Kp + j] of the float table holds
    the match score [gm->rsc[j][i * p7P_NR + p7P_MSC]] itself; the cells
    of the other symbols are never written. *)
Theorem float_table_holds_match_scores (s : state F) :
  1 <= Mlen -> never_fails s ->
  exists data s',
    p7_hmm_ScoreDataCreate cfg layout om (Some gm) s = Done data s' /\
    (exists d, data_at s' data = Some d /\ sd_type d = Some p7_sd_fm) /\
    forall i j, 1 <= i <= Mlen -> j < Kp ->
      float_cell s' data ssv_scores_f (i * Kp + j) =
        if esl_abc_XIsResidue cfg (om_abc om) j
        then Some (gm_rsc gm j (i * p7P_NR cfg + p7P_MSC cfg))
        else None.
Proof.
  intros HM Hnever.
  destruct (create_fm_reads cfg layout om gm s HM Hnever)
    as (data & s' & Hrun & (d & Hd & Ht & _) & _ & _ & tbl & Htbl & _ & Hcells).
  exists data, s'. split; [done |]. split; [by exists d |].
  intros i j Hi Hj. unfold float_cell. rewrite Htbl. cbn [mbind option_bind].
  unfold aget. rewrite Hcells by done.
  by destruct (esl_abc_XIsResidue cfg (om_abc om) j).
Qed.
End FloatTable.

Section StdTheorem.
Context {F : Type} `{FloatOps F}.
Variable cfg : Config F.
Variable layout : table_layout.
Variable om : P7_OPROFILE F.

Local Abbreviation Kp := (abc_Kp (om_abc om)).
Local Abbreviation Mlen := (om_M om).

(** Claim C8.  In standard mode (no profile), Create returns a buffer
    of type [p7_sd_std] and length [M] whose byte table has
    [(M+1) * Kp] cells, and the cell of every position [i] in [1..M] and
    symbol [x] is the byte the optimized profile reports for them. *)
Theorem quantized_table_holds_byte_scores (s : state F) :
  never_fails s ->
  exists data s',
    p7_hmm_ScoreDataCreate cfg layout om None s = Done data s' /\
    (exists d, data_at s' data = Some d /\
               sd_type d = Some p7_sd_std /\ sd_M d = Some Mlen) /\
    (exists tbl, byte_array s' data ssv_scores = Some tbl /\
                 length tbl = (Mlen + 1) * Kp) /\
    forall i x, 1 <= i <= Mlen -> x < Kp ->
      byte_cell s' data ssv_scores (i * Kp + x) = Some (om_ssv_score om i x).
Proof.
  intros Hnever.
  destruct (create_std_runs cfg layout om s)
    as (data & s' & Hrun & -> & _ & _ & tbl & Hfill & Hheap);
    [apply Hnever; lia | apply Hnever; lia |].
  destruct (fill_table_spec Mlen Kp (om_ssv_score om) (replicate ((Mlen + 1) * Kp) None))
    as (tbl' & Hfill' & Ltbl & Hcells & _); [by rewrite length_replicate |].
  rewrite Hfill in Hfill'. injection Hfill' as <-. rewrite length_replicate in Ltbl.
  assert (Hd : data_at s' (Ptr (allocs s)) = Some (std_data layout (allocs s) Mlen)).
  { unfold data_at, block_at. rewrite Hheap. by rewrite decide_True. }
  assert (Htbl : byte_array s' (Ptr (allocs s)) ssv_scores = Some tbl).
  { unfold byte_array. rewrite Hd. read_simpl. unfold bytes_at, block_at.
    rewrite Hheap. rewrite decide_False by lia. by rewrite decide_True. }
  exists (Ptr (allocs s)), s'. split; [done |].
  split; [by eexists |]. split; [by exists tbl |].
  intros i x Hi Hx. unfold byte_cell. rewrite Htbl. cbn [mbind option_bind].
  by apply Hcells.
Qed.
End StdTheorem.

Section RestReads.
Context {F : Type} `{FloatOps F}.
Local Abbreviation farray := (list (option F)).
Variable cfg : Config F.
Variable om : P7_OPROFILE F.
Variables (s0 s : state F) (a : nat) (d : P7_SCOREDATA) (cw sw : farray).
Hypothesis shape :
  rest_shape cfg om s0 a (rest_data cfg s0 d) (p7O_NTRANS cfg) [Some cw; Some sw] s.

Lemma rest_data_at : data_at s (Ptr a) = Some (rest_data cfg s0 d).
Proof. unfold data_at, block_at. by rewrite (rs_struct _ _ _ _ _ _ _ _ shape). Qed.

Lemma rest_prefix_at : float_array s (Ptr a) prefix_lengths = Some cw.
Proof.
  unfold float_array. rewrite rest_data_at. cbn [mbind option_bind].
  replace (prefix_lengths (rest_data cfg s0 d))
    with (Ptr (allocs s0 + 2 + p7O_NTRANS cfg + 0)).
  2:{ destruct d. unfold rest_data. sd_simpl. f_equal. lia. }
  unfold floats_at, block_at.
  by rewrite (rs_tail _ _ _ _ _ _ _ _ shape 0) by (simpl; lia).
Qed.

Lemma rest_suffix_at : float_array s (Ptr a) suffix_lengths = Some sw.
Proof.
  unfold float_array. rewrite rest_data_at. cbn [mbind option_bind].
  replace (suffix_lengths (rest_data cfg s0 d))
    with (Ptr (allocs s0 + 2 + p7O_NTRANS cfg + 1)).
  2:{ destruct d. unfold rest_data. sd_simpl. f_equal. lia. }
  unfold floats_at, block_at.
  by rewrite (rs_tail _ _ _ _ _ _ _ _ shape 1) by (simpl; lia).
Qed.
End RestReads.

Section RestTheorems.
Context {F : Type} `{FloatOps F}.
Local Abbreviation farray := (list (option F)).
Variable cfg : Config F.
Variable om : P7_OPROFILE F.

Local Abbreviation Mlen := (om_M om).
Local Abbreviation t_mis := (filled_row Mlen (om_fwd_trans om (p7O_MI cfg))).
Local Abbreviation t_iis := (filled_row Mlen (om_fwd_trans om (p7O_II cfg))).
Local Abbreviation w :=
  (weight_of cfg Mlen (om_fwd_trans om (p7O_MI cfg)) (om_fwd_trans om (p7O_II cfg))).

(** What ComputeRest leaves in the two weight arrays, in closed form. *)
Lemma compute_rest_reads (s : state F) (a : nat) (d : P7_SCOREDATA) :
  heap s !! a = Some (Struct d) -> a < allocs s -> never_fails s ->
  1 <= Mlen -> p7O_MI cfg < p7O_NTRANS cfg -> p7O_II cfg < p7O_NTRANS cfg ->
  exists s' pw cw sw,
    p7_hmm_ScoreDataComputeRest cfg om (Ptr a) s = Done eslOK s' /\
    normalized_weights cfg Mlen t_mis t_iis (replicate (Mlen + 1) None) = Some pw /\
    suffix_weights Mlen pw (replicate (Mlen + 1) None) = Some sw /\
    cumulate Mlen pw = Some cw /\
    float_array s' (Ptr a) prefix_lengths = Some cw /\
    float_array s' (Ptr a) suffix_lengths = Some sw /\
    (forall i, i <= Mlen -> aget pw i = Some (w i)) /\
    (forall i, i <= Mlen ->
       aget cw i = Some (cumulated cfg Mlen (om_fwd_trans om (p7O_MI cfg))
                                   (om_fwd_trans om (p7O_II cfg)) i)) /\
    (forall i, 1 <= i <= Mlen ->
       aget sw i = Some (suffix_back cfg Mlen (om_fwd_trans om (p7O_MI cfg))
                                     (om_fwd_trans om (p7O_II cfg)) (Mlen - i))).
Proof.
  intros Hd Ha Hnever HM HMI HII.
  destruct (compute_rest_runs cfg om s a Hnever Ha d Hd HM HMI HII)
    as (r & s' & Hrun & -> & cw & sw & Hww & _ & _ & Hshape).
  pose proof (filled_row_written om (om_fwd_trans om (p7O_MI cfg))) as Hmi.
  pose proof (filled_row_written om (om_fwd_trans om (p7O_II cfg))) as Hii.
  destruct (normalized_weights_spec cfg Mlen t_mis t_iis _ _ HM Hmi Hii
              (replicate (Mlen + 1) None)) as (pw & Hnorm & Lpw & Hpw);
    [by rewrite length_replicate |].
  destruct (suffix_weights_spec cfg Mlen (om_fwd_trans om (p7O_MI cfg))
              (om_fwd_trans om (p7O_II cfg)) HM pw (replicate (Mlen + 1) None) Lpw)
    as (sw' & Hsuf & _ & Hsw & _); [by rewrite length_replicate | exact Hpw |].
  destruct (cumulate_spec cfg Mlen (om_fwd_trans om (p7O_MI cfg))
              (om_fwd_trans om (p7O_II cfg)) HM pw Lpw Hpw) as (cw' & Hcum & _ & Hcw).
  unfold window_weights in Hww. rewrite Hnorm in Hww. cbn [mbind option_bind] in Hww.
  rewrite Hsuf in Hww. cbn [mbind option_bind] in Hww.
  rewrite Hcum in Hww. cbn [mbind option_bind] in Hww.
  injection Hww as <- <-.
  exists s', pw, cw', sw'.
  split; [done |]. split; [done |]. split; [done |]. split; [done |].
  split; [eapply rest_prefix_at, Hshape |].
  split; [eapply rest_suffix_at, Hshape |]. done.
Qed.

(** Claim C3.  After ComputeRest, [suffix_lengths[M]] is the weight
    [w[M-1]] and, for [i = M-1] down to [1], [suffix_lengths[i]] is
    [suffix_lengths[i+1] + w[i-1]], where [w] is the array of normalized
    weights as it stands before the cumulation of [prefix_lengths]; the
    cumulated [prefix_lengths] is computed from that same [w]. *)
Theorem suffix_built_from_pre_cumulation_weights (s : state F) (a : nat)
    (d : P7_SCOREDATA) :
  heap s !! a = Some (Struct d) -> a < allocs s -> never_fails s ->
  1 <= Mlen -> p7O_MI cfg < p7O_NTRANS cfg -> p7O_II cfg < p7O_NTRANS cfg ->
  exists s' pw,
    p7_hmm_ScoreDataComputeRest cfg om (Ptr a) s = Done eslOK s' /\
    normalized_weights cfg Mlen t_mis t_iis (replicate (Mlen + 1) None) = Some pw /\
    (exists wlast, aget pw (Mlen - 1) = Some wlast /\
                   float_cell s' (Ptr a) suffix_lengths Mlen = Some wlast) /\
    (forall i, 1 <= i < Mlen ->
       exists next wprev,
         float_cell s' (Ptr a) suffix_lengths (i + 1) = Some next /\
         aget pw (i - 1) = Some wprev /\
         float_cell s' (Ptr a) suffix_lengths i = Some (f_add next wprev)) /\
    float_array s' (Ptr a) prefix_lengths = cumulate Mlen pw.
Proof.
  intros Hd Ha Hnever HM HMI HII.
  destruct (compute_rest_reads s a d Hd Ha Hnever HM HMI HII)
    as (s' & pw & cw & sw & Hrun & Hnorm & Hsuf & Hcum & Hpre & Hsufa & Hpw & Hcw & Hsw).
  exists s', pw. split; [done |]. split; [done |].
  unfold float_cell. rewrite Hsufa. cbn [mbind option_bind].
  split; [| split].
  - exists (w (Mlen - 1)). split; [apply Hpw; lia |].
    rewrite Hsw by lia. by replace (Mlen - Mlen) with 0 by lia.
  - intros i Hi. eexists _, _.
    split; [apply Hsw; lia |]. split; [apply Hpw; lia |].
    rewrite Hsw by lia. replace (Mlen - i) with (S (Mlen - (i + 1))) by lia.
    cbn [suffix_back]. do 3 f_equal. lia.
  - by rewrite Hpre, Hcum.
Qed.
End RestTheorems.

Module ExactOrder.
Import Exact.
Local Open Scope Qc_scope.

Lemma Qc_add_nonneg_le (a b : Qc) : 0 <= b -> a <= a + b.
Proof.
  intros Hb. rewrite <- (Qcplus_0_r a) at 1.
  apply Qcplus_le_compat; [apply Qcle_refl | done].
Qed.

Lemma Qc_add_nonneg (a b : Qc) : 0 <= a -> 0 <= b -> 0 <= a + b.
Proof. intros Ha Hb. eapply Qcle_trans; [exact Ha | by apply Qc_add_nonneg_le]. Qed.

Lemma Qc_gt_nonneg (v m : Qc) : True -> 0 <= m -> f_gt v m = true -> 0 <= v.
Proof.
  intros _ Hm Hgt. simpl in Hgt. apply bool_decide_eq_true in Hgt.
  apply Qclt_le_weak. eapply Qcle_lt_trans; [exact Hm | exact Hgt].
Qed.

Lemma Qc_add_le (a b : Qc) : 0 <= a -> 0 <= b -> f_le a (f_add a b) = true.
Proof. intros _ Hb. simpl. apply bool_decide_eq_true. by apply Qc_add_nonneg_le. Qed.

Lemma Qc_le_refl (a : Qc) : 0 <= a -> f_le a a = true.
Proof. intros _. simpl. apply bool_decide_eq_true. apply Qcle_refl. Qed.

Lemma Qc_nonneg_le (a : Qc) : 0 <= a -> f_le f_zero a = true.
Proof. intros Ha. simpl. by apply bool_decide_eq_true. Qed.

(** exact arithmetic satisfies the order laws *)
#[global] Instance order : FloatOrder Qc := {|
  f_wf := fun _ => True;
  f_nonneg := fun x => 0 <= x;
  f_nonneg_zero := Qcle_refl 0;
  f_gt_nonneg := Qc_gt_nonneg;
  f_add_nonneg := Qc_add_nonneg;
  f_add_le := Qc_add_le;
  f_le_refl := Qc_le_refl;
  f_nonneg_le := Qc_nonneg_le
|}.
End ExactOrder.

(** * The order laws of binary32

    Addition of two finite positive values aligns the mantissas, adds them
    as integers and rounds the sum to nearest even; the lemmas follow the
    mantissa and the exponent through the two shifts of the rounding. *)

Module Binary32Laws.
Import Binary32 Binary32Order.
Local Open Scope Z_scope.

(** the number of binary digits of a non-negative integer *)
Lemma digits2_pos_size m : digits2_pos m = Pos.size m.
Proof. induction m as [m IH | m IH |]; simpl; by rewrite ?IH. Qed.

Lemma digits2_pos_bounds m :
  2 ^ (Zpos (digits2_pos m) - 1) <= Zpos m < 2 ^ Zpos (digits2_pos m).
Proof.
  rewrite digits2_pos_size. split.
  - pose proof (Pos.size_le m) as Hle.
    assert (H2 : 2 ^ Zpos (Pos.size m) <= 2 * Zpos m).
    { change 2 with (Zpos 2) at 1. rewrite <- Pos2Z.inj_pow. change (2 * Zpos m) with (Zpos m~0).
      by apply Pos2Z.pos_le_pos. }
    replace (Zpos (Pos.size m)) with (Z.succ (Zpos (Pos.size m) - 1)) in H2 by lia.
    rewrite Z.pow_succ_r in H2 by lia. lia.
  - pose proof (Pos.size_gt m) as Hgt.
    change 2 with (Zpos 2). rewrite <- Pos2Z.inj_pow. by apply Pos2Z.pos_lt_pos.
Qed.

Lemma Zdigits2_bounds z :
  0 < z -> 2 ^ (Zdigits2 z - 1) <= z < 2 ^ Zdigits2 z.
Proof. destruct z as [| m | m]; [lia | | lia]. intros _. apply digits2_pos_bounds. Qed.

Lemma Zdigits2_pos z : 0 < z -> 0 < Zdigits2 z.
Proof. destruct z; simpl; lia. Qed.

Lemma Zdigits2_unique z d :
  2 ^ (d - 1) <= z < 2 ^ d -> 0 < d -> Zdigits2 z = d.
Proof.
  intros [Hlo Hhi] Hd.
  assert (Hz : 0 < z). { pose proof (Z.pow_pos_nonneg 2 (d - 1)). lia. }
  destruct (Zdigits2_bounds z Hz) as [Hlo' Hhi'].
  pose proof (Zdigits2_pos z Hz) as Hpos.
  assert (H1 : d - 1 < Zdigits2 z).
  { apply (Z.pow_lt_mono_r_iff 2); [lia | lia | lia]. }
  assert (H2 : Zdigits2 z - 1 < d).
  { apply (Z.pow_lt_mono_r_iff 2); [lia | lia | lia]. }
  lia.
Qed.

Lemma Zdigits2_le x y : 0 < x -> x <= y -> Zdigits2 x <= Zdigits2 y.
Proof.
  intros Hx Hxy.
  destruct (Zdigits2_bounds x Hx) as [Hlo _].
  destruct (Zdigits2_bounds y) as [_ Hhi]; [lia |].
  pose proof (Zdigits2_pos y ltac:(lia)).
  assert (Zdigits2 x - 1 < Zdigits2 y); [| lia].
  apply (Z.pow_lt_mono_r_iff 2); lia.
Qed.

Lemma Zdigits2_mul_pow2 z n : 0 < z -> 0 <= n -> Zdigits2 (z * 2 ^ n) = Zdigits2 z + n.
Proof.
  intros Hz Hn. destruct (Zdigits2_bounds z Hz) as [Hlo Hhi].
  pose proof (Zdigits2_pos z Hz).
  apply Zdigits2_unique; [| lia]. split.
  - replace (Zdigits2 z + n - 1) with (Zdigits2 z - 1 + n) by lia.
    rewrite Z.pow_add_r by lia. apply Z.mul_le_mono_nonneg_r; [apply Z.pow_nonneg |]; lia.
  - rewrite Z.pow_add_r by lia. apply Z.mul_lt_mono_pos_r; [apply Z.pow_pos_nonneg |]; lia.
Qed.

Lemma Zdigits2_div_pow2 z n :
  0 <= n -> 2 ^ n <= z -> Zdigits2 (z / 2 ^ n) = Zdigits2 z - n.
Proof.
  intros Hn Hz.
  assert (Hp : 0 < 2 ^ n) by (apply Z.pow_pos_nonneg; lia).
  destruct (Zdigits2_bounds z ltac:(lia)) as [Hlo Hhi].
  assert (Hd : n < Zdigits2 z).
  { apply (Z.pow_lt_mono_r_iff 2); [lia | | lia].
    pose proof (Zdigits2_pos z ltac:(lia)). lia. }
  apply Zdigits2_unique; [| lia]. split.
  - apply Z.div_le_lower_bound; [lia |].
    rewrite <- Z.pow_add_r by lia. by replace (n + (Zdigits2 z - n - 1)) with (Zdigits2 z - 1) by lia.
  - apply Z.div_lt_upper_bound; [lia |].
    rewrite <- Z.pow_add_r by lia. by replace (n + (Zdigits2 z - n)) with (Zdigits2 z) by lia.
Qed.

(** shifting right *)
Lemma shr_1_m mrs : 0 <= shr_m mrs -> shr_m (shr_1 mrs) = shr_m mrs / 2.
Proof.
  destruct mrs as [m r s]. cbn [shr_m]. intros Hm.
  destruct m as [| [p | p |] | p]; cbn [shr_1 shr_m]; try lia; try reflexivity.
  - apply (Z.div_unique_pos _ _ _ 1); lia.
  - apply (Z.div_unique_pos _ _ _ 0); lia.
Qed.

Lemma iter_pos_shr_1_m n : forall mrs,
  0 <= shr_m mrs -> shr_m (SpecFloat.iter_pos shr_1 n mrs) = shr_m mrs / 2 ^ Zpos n.
Proof.
  induction n as [n IH | n IH |]; intros mrs Hm; cbn [SpecFloat.iter_pos].
  - assert (Hp : 0 < 2 ^ Zpos n) by (apply Z.pow_pos_nonneg; lia).
    assert (H1 : 0 <= shr_m (shr_1 mrs)).
    { rewrite shr_1_m by done. apply Z.div_pos; lia. }
    assert (H2 : 0 <= shr_m (SpecFloat.iter_pos shr_1 n (shr_1 mrs))).
    { rewrite IH by done. by apply Z.div_pos. }
    rewrite IH, IH, shr_1_m by done.
    rewrite !Z.div_div by lia.
    replace (Zpos n~1) with (1 + Zpos n + Zpos n) by lia.
    rewrite !Z.pow_add_r, Z.pow_1_r by lia. f_equal; lia.
  - assert (Hp : 0 < 2 ^ Zpos n) by (apply Z.pow_pos_nonneg; lia).
    assert (H2 : 0 <= shr_m (SpecFloat.iter_pos shr_1 n mrs)).
    { rewrite IH by done. by apply Z.div_pos. }
    rewrite IH, IH by done.
    rewrite !Z.div_div by lia.
    replace (Zpos n~0) with (Zpos n + Zpos n) by lia.
    rewrite !Z.pow_add_r by lia. f_equal; lia.
  - rewrite shr_1_m by done. by rewrite Z.pow_1_r.
Qed.

(** [shr] by any amount [n >= 0] on a record with a non-negative mantissa *)
Lemma shr_m_div mrs e n :
  0 <= shr_m mrs -> 0 <= n ->
  shr_m (fst (shr mrs e n)) = shr_m mrs / 2 ^ n /\ snd (shr mrs e n) = e + n.
Proof.
  intros Hm Hn. destruct n as [| n | n]; [| | lia]; cbn [shr fst snd].
  - rewrite Z.pow_0_r, Z.div_1_r. split; [done | lia].
  - split; [by apply iter_pos_shr_1_m | done].
Qed.

Lemma shr_m_neg mrs e n : n <= 0 -> shr mrs e n = (mrs, e).
Proof. intros Hn. destruct n as [| n | n]; [done | lia | done]. Qed.

Lemma shr_record_of_loc_m m l : shr_m (shr_record_of_loc m l) = m.
Proof. by destruct l as [| []]. Qed.

Lemma round_nearest_even_bounds m l : m <= round_nearest_even m l <= m + 1.
Proof. destruct l as [| []]; cbn [round_nearest_even]; try lia. destruct (Z.even m); lia. Qed.

Lemma pos_iter_xO m d : Zpos (Pos.iter xO m d) = Zpos m * 2 ^ Zpos d.
Proof.
  revert m. induction d as [| d IH] using Pos.peano_ind; intros m.
  - cbn [Pos.iter]. rewrite Z.pow_1_r. lia.
  - rewrite Pos.iter_succ. rewrite Pos2Z.inj_xO, IH, Pos2Z.inj_succ, Z.pow_succ_r by lia. lia.
Qed.

Lemma shl_align_spec m e e' :
  let '(m', e'') := shl_align m e e' in
  e'' = Z.min e e' /\ Zpos m' = Zpos m * 2 ^ (e - e'').
Proof.
  unfold shl_align. destruct (e' - e) as [| d | d] eqn:Ed.
  - split; [lia |]. rewrite Z.sub_diag, Z.pow_0_r. lia.
  - split; [lia |]. rewrite Z.sub_diag, Z.pow_0_r. lia.
  - split; [lia |]. rewrite pos_iter_xO. f_equal. f_equal. lia.
Qed.

Lemma shr_m_max mrs e n :
  0 <= shr_m mrs ->
  shr_m (fst (shr mrs e n)) = shr_m mrs / 2 ^ Z.max n 0 /\ snd (shr mrs e n) = e + Z.max n 0.
Proof.
  intros Hm. destruct (Z.le_gt_cases n 0) as [Hn | Hn].
  - rewrite shr_m_neg by done. cbn [fst snd]. rewrite Z.max_r by done.
    rewrite Z.pow_0_r, Z.div_1_r. split; [done | lia].
  - rewrite Z.max_l by lia. apply shr_m_div; [done | lia].
Qed.

Lemma fexp_eq e : fexp prec emax e = Z.max (e - 24) (-149).
Proof. reflexivity. Qed.

Lemma binary_round_aux_nonneg mz ez l :
  0 <= mz ->
  ez <= fexp prec emax (Zdigits2 mz + ez) ->
  exists m2 e2,
    binary_round_aux prec emax false mz ez l = finish m2 e2 /\
    0 <= m2 /\
    ((e2 = fexp prec emax (Zdigits2 mz + ez) /\
      mz / 2 ^ (fexp prec emax (Zdigits2 mz + ez) - ez) <= m2) \/
     (e2 = fexp prec emax (Zdigits2 mz + ez) + 1 /\ 0 < m2)) /\
    (0 < mz / 2 ^ (fexp prec emax (Zdigits2 mz + ez) - ez) -> 0 < m2) /\
    (0 < m2 -> fexp prec emax (Zdigits2 m2 + e2) = e2).
Proof.
  intros Hmz Hez.
  set (dz := Zdigits2 mz) in *.
  set (f := fexp prec emax (dz + ez)) in *.
  set (m1 := mz / 2 ^ (f - ez)).
  assert (Hf : f = Z.max (dz + ez - 24) (-149)) by apply fexp_eq.
  assert (Hdz : 0 <= dz) by (unfold dz; destruct mz; simpl; lia).
  assert (Hp1 : 0 < 2 ^ (f - ez)) by (apply Z.pow_pos_nonneg; lia).
  assert (Hm1 : 0 <= m1) by (apply Z.div_pos; lia).
  (* the first shift *)
  unfold binary_round_aux, shr_fexp. fold dz. fold f.
  destruct (shr_m_max (shr_record_of_loc mz l) ez (f - ez)) as [Hs1 He1];
    [rewrite shr_record_of_loc_m; lia |].
  destruct (shr (shr_record_of_loc mz l) ez (f - ez)) as [mrs1 e1].
  cbn [fst snd] in Hs1, He1. rewrite Z.max_l in Hs1, He1 by lia.
  rewrite shr_record_of_loc_m in Hs1. fold m1 in Hs1.
  replace (ez + (f - ez)) with f in He1 by lia. subst e1.
  pose proof (round_nearest_even_bounds (shr_m mrs1) (loc_of_shr_record mrs1)) as Hr.
  set (m' := round_nearest_even (shr_m mrs1) (loc_of_shr_record mrs1)) in *.
  rewrite Hs1 in Hr.
  (* the second shift *)
  set (n2 := fexp prec emax (Zdigits2 m' + f) - f).
  assert (Hn2 : n2 = Z.max (Zdigits2 m' + f - 24) (-149) - f) by (unfold n2; by rewrite fexp_eq).
  destruct (shr_m_max (shr_record_of_loc m' loc_Exact) f n2) as [Hs2 He2];
    [rewrite shr_record_of_loc_m; lia |].
  destruct (shr (shr_record_of_loc m' loc_Exact) f n2) as [mrs2 e2].
  cbn [fst snd] in Hs2, He2. rewrite shr_record_of_loc_m in Hs2.
  exists (shr_m mrs2), e2. split; [reflexivity |].
  (* the digits of [m1] *)
  assert (Hd1 : m1 = 0 /\ f = -149 \/ 0 < m1 /\ Zdigits2 m1 = dz + ez - f).
  { destruct (Z.eq_dec mz 0) as [Ez | Hnz].
    { left. assert (Edz : dz = 0) by (unfold dz; by rewrite Ez).
      split; [| lia]. unfold m1. rewrite Ez. apply Z.div_0_l. lia. }
    destruct (Zdigits2_bounds mz) as [Hzlo Hzhi]; [lia |]. fold dz in Hzlo, Hzhi.
    destruct (Z.le_gt_cases dz (f - ez)) as [Hbig | Hsmall].
    - left. split; [| lia]. apply Z.div_small. split; [lia |].
      eapply Z.lt_le_trans; [exact Hzhi |]. apply Z.pow_le_mono_r; lia.
    - right.
      assert (Hle : 2 ^ (f - ez) <= mz).
      { etrans; [| exact Hzlo]. apply Z.pow_le_mono_r; lia. }
      split.
      + apply Z.div_str_pos. lia.
      + unfold m1. rewrite Zdigits2_div_pow2 by lia. fold dz. lia. }
  destruct (Z.eq_dec m' 0) as [Hz | Hnz].
  - (* everything was shifted out *)
    rewrite Hz in *. cbn [Zdigits2] in Hn2.
    rewrite Z.max_r in Hs2, He2 by lia. rewrite Z.pow_0_r, Z.div_1_r in Hs2.
    rewrite Hs2. split; [lia |]. split; [left; lia |]. split; lia.
  - assert (Hm' : 0 < m') by lia.
    destruct (Zdigits2_bounds m' Hm') as [Hlo' Hhi'].
    pose proof (Zdigits2_pos m' Hm') as Hd'.
    destruct Hd1 as [[Hm10 Hfmin] | [Hm1pos Hdig1]].
    + (* the smallest subnormal *)
      assert (Em' : m' = 1) by lia. rewrite Em' in *. cbn [Zdigits2 digits2_pos] in Hn2.
      rewrite Z.max_r in Hs2, He2 by lia. rewrite Z.pow_0_r, Z.div_1_r in Hs2.
      rewrite Hs2. split; [lia |]. split; [left; lia |]. split; [lia |].
      intros _. rewrite fexp_eq. cbn [Zdigits2 digits2_pos]. lia.
    + destruct (Zdigits2_bounds m1 Hm1pos) as [Hlo1 Hhi1]. rewrite Hdig1 in Hlo1, Hhi1.
      assert (Hd1pos : 0 < dz + ez - f) by (rewrite <- Hdig1; by apply Zdigits2_pos).
      destruct (Z.lt_ge_cases m' (2 ^ (dz + ez - f))) as [Hsame | Hcarry].
      * (* no carry into a new digit *)
        assert (Ed' : Zdigits2 m' = dz + ez - f).
        { apply Zdigits2_unique; [| lia]. split; [lia | done]. }
        rewrite Ed' in Hn2.
        rewrite Z.max_r in Hs2, He2 by lia. rewrite Z.pow_0_r, Z.div_1_r in Hs2.
        rewrite Hs2. split; [lia |]. split; [left; lia |]. split; [lia |].
        intros _. rewrite fexp_eq, Ed'. lia.
      * (* the carry makes a power of two *)
        assert (Em' : m' = 2 ^ (dz + ez - f)) by lia.
        assert (Ed' : Zdigits2 m' = dz + ez - f + 1).
        { apply Zdigits2_unique; [| lia]. rewrite Em'. split.
          - apply Z.pow_le_mono_r; lia.
          - apply Z.pow_lt_mono_r; lia. }
        rewrite Ed' in Hn2.
        destruct (Z.le_gt_cases n2 0) as [Hn0 | Hn1].
        -- rewrite Z.max_r in Hs2, He2 by lia. rewrite Z.pow_0_r, Z.div_1_r in Hs2.
           rewrite Hs2. split; [lia |]. split; [left; lia |]. split; [lia |].
           intros _. rewrite fexp_eq, Ed'. lia.
        -- assert (En2 : n2 = 1) by lia.
           rewrite En2 in Hs2, He2. rewrite Z.max_l in Hs2, He2 by lia.
           assert (Em2 : shr_m mrs2 = 2 ^ (dz + ez - f - 1)).
           { rewrite Hs2, Em'. rewrite Z.pow_1_r.
             replace (dz + ez - f) with (Z.succ (dz + ez - f - 1)) at 1 by lia.
             rewrite Z.pow_succ_r by lia. rewrite Z.mul_comm, Z.div_mul by lia. done. }
           assert (Hpos2 : 0 < shr_m mrs2) by (rewrite Em2; apply Z.pow_pos_nonneg; lia).
           split; [lia |]. split; [right; lia |]. split; [lia |].
           intros _.
           assert (Ed2 : Zdigits2 (shr_m mrs2) = dz + ez - f).
           { apply Zdigits2_unique; [| lia]. rewrite Em2. split; [lia |].
             apply Z.pow_lt_mono_r; lia. }
           rewrite fexp_eq, Ed2. lia.
Qed.

Lemma binary_round_pos q e0 :
  exists m2 e2,
    binary_round prec emax false q e0 = finish m2 e2 /\
    0 <= m2 /\
    (0 < m2 -> fexp prec emax (Zdigits2 m2 + e2) = e2) /\
    (forall ma ea,
       fexp prec emax (Zdigits2 (Zpos ma) + ea) = ea ->
       e0 <= ea -> Zpos ma * 2 ^ (ea - e0) <= Zpos q ->
       (ea < e2 /\ 0 < m2) \/ (ea = e2 /\ Zpos ma <= m2)).
Proof.
  unfold binary_round.
  pose proof (shl_align_spec q e0 (fexp prec emax (Zpos (digits2_pos q) + e0))) as Hal.
  destruct (shl_align q e0 (fexp prec emax (Zpos (digits2_pos q) + e0))) as [mz ez].
  destruct Hal as [Eez Emz].
  change (Zpos (digits2_pos q)) with (Zdigits2 (Zpos q)) in *.
  set (dq := Zdigits2 (Zpos q)) in *.
  assert (Hdq : 0 < dq) by (apply Zdigits2_pos; lia).
  assert (Edz : Zdigits2 (Zpos mz) = dq + (e0 - ez)).
  { rewrite Emz. apply Zdigits2_mul_pow2; lia. }
  assert (ED : Zdigits2 (Zpos mz) + ez = dq + e0) by lia.
  destruct (binary_round_aux_nonneg (Zpos mz) ez loc_Exact)
    as (m2 & e2 & Hres & Hm2 & Hcase & Hpos & Hcan); [lia | |].
  { rewrite ED. lia. }
  rewrite ED in Hcase, Hpos.
  set (f := fexp prec emax (dq + e0)) in *.
  assert (Hf : f = Z.max (dq + e0 - 24) (-149)) by apply fexp_eq.
  exists m2, e2. split; [done |]. split; [done |]. split; [done |].
  intros ma ea Hcana He0 Hle.
  rewrite fexp_eq in Hcana.
  assert (Hda : 0 < Zdigits2 (Zpos ma)) by (apply Zdigits2_pos; lia).
  assert (HD : Zdigits2 (Zpos ma) + ea <= dq + e0).
  { assert (Zdigits2 (Zpos ma * 2 ^ (ea - e0)) <= dq).
    { apply Zdigits2_le; [| done]. apply Z.mul_pos_pos; [lia | apply Z.pow_pos_nonneg; lia]. }
    rewrite Zdigits2_mul_pow2 in * by lia. lia. }
  assert (Hfea : ea <= f) by lia.
  assert (Hp : 0 < 2 ^ (f - ez)) by (apply Z.pow_pos_nonneg; lia).
  destruct (Z.eq_dec f ea) as [Efa | Hne].
  - (* the same exponent: the mantissa can only grow *)
    assert (Hm1 : Zpos ma <= Zpos mz / 2 ^ (f - ez)).
    { apply Z.div_le_lower_bound; [done |].
      rewrite Emz, Efa.
      replace (ea - ez) with ((ea - e0) + (e0 - ez)) by lia.
      rewrite Z.pow_add_r by lia.
      assert (0 < 2 ^ (e0 - ez)) by (apply Z.pow_pos_nonneg; lia).
      nia. }
    destruct Hcase as [[-> Hge] | [-> Hgt]]; [right; split; lia | left; split; lia].
  - (* a larger exponent: the result is normal *)
    assert (Hm1 : 0 < Zpos mz / 2 ^ (f - ez)).
    { apply Z.div_str_pos. split; [done |].
      destruct (Zdigits2_bounds (Zpos mz)) as [Hlo _]; [lia |].
      etrans; [| exact Hlo]. apply Z.pow_le_mono_r; lia. }
    left. destruct Hcase as [[-> Hge] | [-> Hgt]]; split; lia.
Qed.

Lemma bounded_iff m e :
  bounded prec emax m e = true <->
  fexp prec emax (Zdigits2 (Zpos m) + e) = e /\ e <= emax - prec.
Proof.
  unfold bounded, canonical_mantissa. rewrite andb_true_iff, Z.eqb_eq, Z.leb_le. done.
Qed.

Lemma finish_nonneg m e :
  0 <= m -> (0 < m -> fexp prec emax (Zdigits2 m + e) = e) -> nonneg32 (finish m e).
Proof.
  intros Hm Hcan. destruct m as [| q | q]; [done | | lia]. cbn [finish].
  destruct (e <=? emax - prec) eqn:Ee; [| done].
  split; [done |]. apply bounded_iff. split; [apply Hcan; lia | by apply Z.leb_le].
Qed.

Lemma SFadd_finite ma ea mb eb :
  exists q,
    SFadd prec emax (S754_finite false ma ea) (S754_finite false mb eb)
    = binary_round prec emax false q (Z.min ea eb) /\
    Zpos ma * 2 ^ (ea - Z.min ea eb) <= Zpos q /\
    Zpos mb * 2 ^ (eb - Z.min ea eb) <= Zpos q.
Proof.
  cbn [SFadd cond_Zopp].
  pose proof (shl_align_spec ma ea (Z.min ea eb)) as Ha.
  pose proof (shl_align_spec mb eb (Z.min ea eb)) as Hb.
  destruct (shl_align ma ea (Z.min ea eb)) as [ma' ea'].
  destruct (shl_align mb eb (Z.min ea eb)) as [mb' eb'].
  destruct Ha as [-> Ea], Hb as [-> Eb]. cbn [fst].
  exists (ma' + mb')%positive. split; [done |].
  replace (Z.min ea (Z.min ea eb)) with (Z.min ea eb) in Ea by lia.
  replace (Z.min eb (Z.min ea eb)) with (Z.min ea eb) in Eb by lia.
  rewrite <- Ea, <- Eb. lia.
Qed.

Lemma SFleb_finite ma ea m2 e2 :
  0 <= m2 ->
  (ea < e2 /\ 0 < m2) \/ (ea = e2 /\ Zpos ma <= m2) ->
  SFleb (S754_finite false ma ea) (finish m2 e2) = true.
Proof.
  intros Hm2 Hcase.
  destruct m2 as [| q | q]; [lia | | lia]. cbn [finish].
  destruct (e2 <=? emax - prec); [| done].
  unfold SFleb. cbn [SFcompare].
  destruct Hcase as [[Hlt _] | [-> Hle]].
  - by rewrite (proj2 (Z.compare_lt_iff ea e2) Hlt).
  - rewrite Z.compare_refl. rewrite Pos.compare_cont_spec. cbn [Pos.switch_Eq].
    destruct (Pos.compare_spec ma q) as [| |Hgt]; [done | done | lia].
Qed.

Lemma SFadd_nonneg a b : nonneg32 a -> nonneg32 b -> nonneg32 (SFadd prec emax a b).
Proof.
  destruct a as [sa | sa | | sa ma ea], b as [sb | sb | | sb mb eb];
    cbn [nonneg32]; try done; intros Ha Hb.
  - destruct sa, sb; exact I.
  - subst. reflexivity.
  - destruct Ha as [-> Ha], Hb as [-> Hb].
    destruct (SFadd_finite ma ea mb eb) as (q & -> & _).
    destruct (binary_round_pos q (Z.min ea eb)) as (m2 & e2 & -> & Hm2 & Hcan & _).
    by apply finish_nonneg.
Qed.

Lemma SFleb_refl a : nonneg32 a -> SFleb a a = true.
Proof.
  destruct a as [sa | sa | | sa ma ea]; cbn [nonneg32]; try done.
  - by intros ->.
  - intros [-> _]. unfold SFleb. cbn [SFcompare].
    by rewrite Z.compare_refl, Pos.compare_cont_refl.
Qed.

Lemma SFadd_le a b : nonneg32 a -> nonneg32 b -> SFleb a (SFadd prec emax a b) = true.
Proof.
  destruct a as [sa | sa | | sa ma ea], b as [sb | sb | | sb mb eb];
    cbn [nonneg32]; try done; intros Ha Hb; subst.
  all: repeat match goal with H : _ = false /\ _ |- _ => destruct H as [-> H] end.
  all: try reflexivity.
  - destruct sa, sb; reflexivity.
  - cbn [SFadd]. by apply SFleb_refl.
  - destruct (SFadd_finite ma ea mb eb) as (q & -> & Hqa & _).
    destruct (binary_round_pos q (Z.min ea eb)) as (m2 & e2 & -> & Hm2 & _ & Hmono).
    apply SFleb_finite; [done |].
    apply Hmono; [by apply bounded_iff in Ha as [? _] | lia | done].
Qed.

Lemma SFltb_nonneg v m : wf32 v -> nonneg32 m -> SFltb m v = true -> nonneg32 v.
Proof.
  unfold wf32.
  destruct m as [sm | sm | | sm mm em], v as [sv | sv | | sv mv ev];
    cbn [nonneg32 valid_binary]; try done; unfold SFltb; cbn [SFcompare];
    intros Hv Hm Hlt; subst.
  all: repeat match goal with H : _ = false /\ _ |- _ => destruct H as [-> H] end.
  all: by destruct sv.
Qed.

Lemma SFleb_zero a : nonneg32 a -> SFleb (S754_zero false) a = true.
Proof.
  destruct a as [sa | sa | | sa ma ea]; cbn [nonneg32]; try done.
  - by intros ->.
  - by intros [-> _].
Qed.

Lemma SFdiv_core_spec m1 e1 m2 e2 :
  let '(q, e', l) := SFdiv_core_binary prec emax (Zpos m1) e1 (Zpos m2) e2 in
  0 <= q /\ e' <= fexp prec emax (Zdigits2 q + e').
Proof.
  unfold SFdiv_core_binary.
  set (d1 := Zdigits2 (Zpos m1)). set (d2 := Zdigits2 (Zpos m2)).
  set (e' := Z.min (fexp prec emax (d1 + e1 - (d2 + e2))) (e1 - e2)).
  assert (He' : e' = Z.min (Z.max (d1 + e1 - (d2 + e2) - 24) (-149)) (e1 - e2))
    by (unfold e'; by rewrite fexp_eq).
  set (s := e1 - e2 - e').
  assert (Hs : 0 <= s) by lia.
  set (m' := match s with Zpos _ => Z.shiftl (Zpos m1) s | 0 => Zpos m1 | Zneg _ => 0 end).
  assert (Em' : m' = Zpos m1 * 2 ^ s).
  { unfold m'. destruct s as [| p | p]; [lia | | lia]. by rewrite Z.shiftl_mul_pow2. }
  assert (Hq : fst (Z.div_eucl m' (Zpos m2)) = m' / Zpos m2) by reflexivity.
  destruct (Z.div_eucl m' (Zpos m2)) as [q r]. cbn [fst] in Hq. subst q.
  assert (Hp : 0 < 2 ^ s) by (apply Z.pow_pos_nonneg; lia).
  assert (Hq0 : 0 <= m' / Zpos m2) by (apply Z.div_pos; nia).
  split; [done |]. rewrite fexp_eq.
  destruct (Z.le_gt_cases e' (-149)) as [Hlow | Hhigh]; [lia |].
  assert (Hs24 : 24 - d1 + d2 <= s) by lia.
  destruct (Zdigits2_bounds (Zpos m1)) as [Hlo1 _]; [lia |]. fold d1 in Hlo1.
  destruct (Zdigits2_bounds (Zpos m2)) as [_ Hhi2]; [lia |]. fold d2 in Hhi2.
  assert (Hd1 : 0 < d1) by (apply Zdigits2_pos; lia).
  assert (Hd2 : 0 < d2) by (apply Zdigits2_pos; lia).
  assert (Hbig : 2 ^ 23 <= m' / Zpos m2).
  { apply Z.div_le_lower_bound; [lia |].
    assert (H1 : 2 ^ (d2 + 23) <= m').
    { rewrite Em'.
      assert (2 ^ (d2 + 23) <= 2 ^ (d1 - 1) * 2 ^ s).
      { rewrite <- Z.pow_add_r by lia. apply Z.pow_le_mono_r; lia. }
      nia. }
    rewrite Z.pow_add_r in H1 by lia. nia. }
  assert (Hdq : 24 <= Zdigits2 (m' / Zpos m2)).
  { change 24 with (Zdigits2 (2 ^ 23)). apply Zdigits2_le; [reflexivity | done]. }
  lia.
Qed.

Lemma SFdiv_nonneg a b :
  nonneg32 a -> nonneg32 b -> finite32 a -> nonzero32 b -> nonneg32 (SFdiv prec emax a b).
Proof.
  destruct a as [sa | sa | | sa ma ea], b as [sb | sb | | sb mb eb];
    cbn [nonneg32 finite32 nonzero32]; try done; intros Ha Hb _ _.
  - destruct Ha as [-> Ha], Hb as [-> Hb]. cbn [SFdiv xorb].
    pose proof (SFdiv_core_spec ma ea mb eb) as Hcore.
    destruct (SFdiv_core_binary prec emax (Zpos ma) ea (Zpos mb) eb) as [[q e'] l].
    destruct Hcore as [Hq He'].
    destruct (binary_round_aux_nonneg q e' l Hq He') as (m2 & e2 & -> & Hm2 & _ & _ & Hcan).
    by apply finish_nonneg.
Qed.

Lemma SFadd_le_r a b : nonneg32 a -> nonneg32 b -> SFleb b (SFadd prec emax a b) = true.
Proof.
  destruct a as [sa | sa | | sa ma ea], b as [sb | sb | | sb mb eb];
    cbn [nonneg32]; try done; intros Ha Hb; subst.
  all: repeat match goal with H : _ = false /\ _ |- _ => destruct H as [-> H] end.
  all: try reflexivity.
  - destruct sa, sb; reflexivity.
  - cbn [SFadd]. by apply SFleb_refl.
  - destruct (SFadd_finite ma ea mb eb) as (q & -> & _ & Hqb).
    destruct (binary_round_pos q (Z.min ea eb)) as (m2 & e2 & -> & Hm2 & _ & Hmono).
    apply SFleb_finite; [done |].
    apply Hmono; [by apply bounded_iff in Hb as [? _] | lia | done].
Qed.

(** binary32 satisfies the order laws *)
#[global] Instance order : FloatOrder spec_float := {|
  f_wf := wf32;
  f_nonneg := nonneg32;
  f_nonneg_zero := I;
  f_gt_nonneg := SFltb_nonneg;
  f_add_nonneg := SFadd_nonneg;
  f_add_le := SFadd_le;
  f_le_refl := SFleb_refl;
  f_nonneg_le := SFleb_zero
|}.
End Binary32Laws.

(** * The rounding error of binary32 *)

Module Binary32Error.
Import Binary32 Binary32Order Binary32Laws Binary32Value.
Local Open Scope Z_scope.

(** a rounding that has nothing to shift out returns its argument *)
Lemma binary_round_aux_exact mz ez :
  0 <= mz -> fexp prec emax (Zdigits2 mz + ez) = ez ->
  binary_round_aux prec emax false mz ez loc_Exact = finish mz ez.
Proof.
  intros Hmz Hf. unfold binary_round_aux, shr_fexp. rewrite Hf, Z.sub_diag.
  cbn [shr shr_record_of_loc shr_m loc_of_shr_record round_nearest_even].
  rewrite Hf, Z.sub_diag. cbn [shr shr_record_of_loc shr_m].
  by destruct mz.
Qed.

(** The result of a rounding lies between the argument cut at the target
    exponent [f] and the next multiple of [2^f]. *)
Lemma binary_round_aux_enclosure mz ez l :
  0 <= mz ->
  ez <= fexp prec emax (Zdigits2 mz + ez) ->
  exists m2 e2,
    binary_round_aux prec emax false mz ez l = finish m2 e2 /\
    0 <= m2 /\
    ((e2 = fexp prec emax (Zdigits2 mz + ez) /\
      mz / 2 ^ (fexp prec emax (Zdigits2 mz + ez) - ez) <= m2
      <= mz / 2 ^ (fexp prec emax (Zdigits2 mz + ez) - ez) + 1) \/
     (e2 = fexp prec emax (Zdigits2 mz + ez) + 1 /\
      2 * m2 = mz / 2 ^ (fexp prec emax (Zdigits2 mz + ez) - ez) + 1)).
Proof.
  intros Hmz Hez.
  set (dz := Zdigits2 mz) in *.
  set (f := fexp prec emax (dz + ez)) in *.
  set (m1 := mz / 2 ^ (f - ez)).
  assert (Hf : f = Z.max (dz + ez - 24) (-149)) by apply fexp_eq.
  assert (Hdz : 0 <= dz) by (unfold dz; destruct mz; simpl; lia).
  assert (Hp1 : 0 < 2 ^ (f - ez)) by (apply Z.pow_pos_nonneg; lia).
  assert (Hm1 : 0 <= m1) by (apply Z.div_pos; lia).
  unfold binary_round_aux, shr_fexp. fold dz. fold f.
  destruct (shr_m_max (shr_record_of_loc mz l) ez (f - ez)) as [Hs1 He1];
    [rewrite shr_record_of_loc_m; lia |].
  destruct (shr (shr_record_of_loc mz l) ez (f - ez)) as [mrs1 e1].
  cbn [fst snd] in Hs1, He1. rewrite Z.max_l in Hs1, He1 by lia.
  rewrite shr_record_of_loc_m in Hs1. fold m1 in Hs1.
  replace (ez + (f - ez)) with f in He1 by lia. subst e1.
  pose proof (round_nearest_even_bounds (shr_m mrs1) (loc_of_shr_record mrs1)) as Hr.
  set (m' := round_nearest_even (shr_m mrs1) (loc_of_shr_record mrs1)) in *.
  rewrite Hs1 in Hr.
  set (n2 := fexp prec emax (Zdigits2 m' + f) - f).
  assert (Hn2 : n2 = Z.max (Zdigits2 m' + f - 24) (-149) - f) by (unfold n2; by rewrite fexp_eq).
  destruct (shr_m_max (shr_record_of_loc m' loc_Exact) f n2) as [Hs2 He2];
    [rewrite shr_record_of_loc_m; lia |].
  destruct (shr (shr_record_of_loc m' loc_Exact) f n2) as [mrs2 e2].
  cbn [fst snd] in Hs2, He2. rewrite shr_record_of_loc_m in Hs2.
  exists (shr_m mrs2), e2. split; [reflexivity |].
  assert (Hd1 : m1 = 0 /\ f = -149 \/ 0 < m1 /\ Zdigits2 m1 = dz + ez - f).
  { destruct (Z.eq_dec mz 0) as [Ez | Hnz].
    { left. assert (Edz : dz = 0) by (unfold dz; by rewrite Ez).
      split; [| lia]. unfold m1. rewrite Ez. apply Z.div_0_l. lia. }
    destruct (Zdigits2_bounds mz) as [Hzlo Hzhi]; [lia |]. fold dz in Hzlo, Hzhi.
    destruct (Z.le_gt_cases dz (f - ez)) as [Hbig | Hsmall].
    - left. split; [| lia]. apply Z.div_small. split; [lia |].
      eapply Z.lt_le_trans; [exact Hzhi |]. apply Z.pow_le_mono_r; lia.
    - right.
      assert (Hle : 2 ^ (f - ez) <= mz).
      { etrans; [| exact Hzlo]. apply Z.pow_le_mono_r; lia. }
      split.
      + apply Z.div_str_pos. lia.
      + unfold m1. rewrite Zdigits2_div_pow2 by lia. fold dz. lia. }
  destruct (Z.eq_dec m' 0) as [Hz | Hnz].
  - rewrite Hz in *. cbn [Zdigits2] in Hn2.
    rewrite Z.max_r in Hs2, He2 by lia. rewrite Z.pow_0_r, Z.div_1_r in Hs2.
    rewrite Hs2. split; [lia |]. left. lia.
  - assert (Hm' : 0 < m') by lia.
    destruct (Zdigits2_bounds m' Hm') as [Hlo' Hhi'].
    pose proof (Zdigits2_pos m' Hm') as Hd'.
    destruct Hd1 as [[Hm10 Hfmin] | [Hm1pos Hdig1]].
    + assert (Em' : m' = 1) by lia. rewrite Em' in *. cbn [Zdigits2 digits2_pos] in Hn2.
      rewrite Z.max_r in Hs2, He2 by lia. rewrite Z.pow_0_r, Z.div_1_r in Hs2.
      rewrite Hs2. split; [lia |]. left. lia.
    + destruct (Zdigits2_bounds m1 Hm1pos) as [Hlo1 Hhi1]. rewrite Hdig1 in Hlo1, Hhi1.
      assert (Hd1pos : 0 < dz + ez - f) by (rewrite <- Hdig1; by apply Zdigits2_pos).
      destruct (Z.lt_ge_cases m' (2 ^ (dz + ez - f))) as [Hsame | Hcarry].
      * assert (Ed' : Zdigits2 m' = dz + ez - f).
        { apply Zdigits2_unique; [| lia]. split; [lia | done]. }
        rewrite Ed' in Hn2.
        rewrite Z.max_r in Hs2, He2 by lia. rewrite Z.pow_0_r, Z.div_1_r in Hs2.
        rewrite Hs2. split; [lia |]. left. lia.
      * assert (Em' : m' = 2 ^ (dz + ez - f)) by lia.
        assert (Ed' : Zdigits2 m' = dz + ez - f + 1).
        { apply Zdigits2_unique; [| lia]. rewrite Em'. split.
          - apply Z.pow_le_mono_r; lia.
          - apply Z.pow_lt_mono_r; lia. }
        rewrite Ed' in Hn2.
        destruct (Z.le_gt_cases n2 0) as [Hn0 | Hn1].
        -- rewrite Z.max_r in Hs2, He2 by lia. rewrite Z.pow_0_r, Z.div_1_r in Hs2.
           rewrite Hs2. split; [lia |]. left. lia.
        -- assert (En2 : n2 = 1) by lia.
           rewrite En2 in Hs2, He2. rewrite Z.max_l in Hs2, He2 by lia.
           assert (Em2 : shr_m mrs2 = 2 ^ (dz + ez - f - 1)).
           { rewrite Hs2, Em'. rewrite Z.pow_1_r.
             replace (dz + ez - f) with (Z.succ (dz + ez - f - 1)) at 1 by lia.
             rewrite Z.pow_succ_r by lia. rewrite Z.mul_comm, Z.div_mul by lia. done. }
           assert (Hpos2 : 0 < shr_m mrs2) by (rewrite Em2; apply Z.pow_pos_nonneg; lia).
           split; [lia |]. right. split; [lia |].
           rewrite Em2. replace (dz + ez - f) with (Z.succ (dz + ez - f - 1)) in Em' by lia.
           rewrite Z.pow_succ_r in Em' by lia. lia.
Qed.

(** the scaled value of what a rounding returns *)
Lemma scaled_finish m e :
  0 <= m -> finite32 (finish m e) -> scaled (finish m e) = m * 2 ^ (e + 149).
Proof.
  intros Hm Hfin. destruct m as [| q | q]; [done | | lia]. cbn [finish] in *.
  by destruct (e <=? emax - prec).
Qed.

Lemma finite_finish m e : 0 <= m -> e <= emax - prec -> finite32 (finish m e).
Proof.
  intros Hm He. destruct m as [| q | q]; [done | | lia]. cbn [finish].
  by rewrite (proj2 (Z.leb_le _ _) He).
Qed.

Lemma finish_finite_exponent m e : 0 < m -> finite32 (finish m e) -> e <= emax - prec.
Proof.
  intros Hm. destruct m as [| q | q]; [lia | | lia]. cbn [finish].
  destruct (e <=? emax - prec) eqn:He; [intros _; by apply Z.leb_le | done].
Qed.

(** a well-formed number that is not negative *)
Lemma nonneg_finite_inv x :
  nonneg32 x -> finite32 x ->
  x = S754_zero false \/ x = S754_zero true \/
  exists m e, x = S754_finite false m e /\
              fexp prec emax (Zdigits2 (Zpos m) + e) = e /\ -149 <= e <= emax - prec.
Proof.
  destruct x as [[] | | | s m e]; cbn [nonneg32 finite32]; try done; intros Hn _.
  - by right; left.
  - by left.
  - destruct Hn as [-> Hb]. apply bounded_iff in Hb as [Hcan He].
    right; right. exists m, e. split; [done |]. split; [done |].
    rewrite fexp_eq in Hcan. lia.
Qed.

Lemma scaled_nonneg x : nonneg32 x -> 0 <= scaled x.
Proof.
  destruct x as [| | | s m e]; cbn [nonneg32 scaled]; try done.
  intros [-> _]. cbn [cond_Zopp]. apply Z.mul_nonneg_nonneg; [lia |]. apply Z.pow_nonneg. lia.
Qed.

Lemma scaled_pos x : nonneg32 x -> finite32 x -> nonzero32 x -> 0 < scaled x.
Proof.
  intros Hn Hf Hz. destruct (nonneg_finite_inv x Hn Hf) as [-> | [-> | (m & e & -> & _ & He)]];
    [done | done |].
  cbn [scaled cond_Zopp]. apply Z.mul_pos_pos; [lia |]. apply Z.pow_pos_nonneg; lia.
Qed.

(** The rounding of [q * 2^e0]: the error is at most the result divided
    by [2^23]. *)
Lemma binary_round_error q e0 :
  -149 <= e0 ->
  exists m2 e2,
    binary_round prec emax false q e0 = finish m2 e2 /\ 0 <= m2 /\ -149 <= e2 /\
    Z.abs (m2 * 2 ^ (e2 + 149) - Zpos q * 2 ^ (e0 + 149)) * 2 ^ 23 <= m2 * 2 ^ (e2 + 149).
Proof.
  intros He0. unfold binary_round.
  pose proof (shl_align_spec q e0 (fexp prec emax (Zpos (digits2_pos q) + e0))) as Hal.
  destruct (shl_align q e0 (fexp prec emax (Zpos (digits2_pos q) + e0))) as [mz ez].
  destruct Hal as [Eez Emz].
  change (Zpos (digits2_pos q)) with (Zdigits2 (Zpos q)) in *.
  set (dq := Zdigits2 (Zpos q)) in *.
  assert (Hdq : 0 < dq) by (apply Zdigits2_pos; lia).
  assert (Edz : Zdigits2 (Zpos mz) = dq + (e0 - ez)).
  { rewrite Emz. apply Zdigits2_mul_pow2; lia. }
  assert (ED : Zdigits2 (Zpos mz) + ez = dq + e0) by lia.
  set (f := fexp prec emax (dq + e0)) in *.
  assert (Hf : f = Z.max (dq + e0 - 24) (-149)) by apply fexp_eq.
  destruct (Z.le_gt_cases f e0) as [Hexact | Hshift].
  - (* the exponent is already the target: nothing is lost *)
    assert (Ez : ez = f) by lia.
    rewrite binary_round_aux_exact; [| lia | by rewrite ED; fold f].
    exists (Zpos mz), ez. split; [done |]. split; [lia |]. split; [lia |].
    rewrite Emz. rewrite <- Z.mul_assoc, <- Z.pow_add_r by lia.
    replace (e0 - ez + (ez + 149)) with (e0 + 149) by lia.
    rewrite Z.sub_diag. cbn [Z.abs]. rewrite Z.mul_0_l.
    apply Z.mul_nonneg_nonneg; [lia |]. apply Z.pow_nonneg. lia.
  - assert (Ez : ez = e0) by lia. clear Eez. subst ez.
    rewrite Z.sub_diag, Z.pow_0_r, Z.mul_1_r in Emz.
    destruct (binary_round_aux_enclosure (Zpos mz) e0 loc_Exact)
      as (m2 & e2 & Hres & Hm2 & Hcase); [lia | rewrite ED; fold f; lia |].
    rewrite ED in Hcase. fold f in Hcase. rewrite Emz in Hcase.
    exists m2, e2. split; [exact Hres |]. split; [done |].
    set (k := f - e0) in *.
    assert (Hk : 0 < k) by (unfold k; lia).
    assert (Hpk : 0 < 2 ^ k) by (apply Z.pow_pos_nonneg; lia).
    set (m1 := Zpos q / 2 ^ k) in *.
    assert (Hdiv : m1 * 2 ^ k <= Zpos q < (m1 + 1) * 2 ^ k).
    { unfold m1. pose proof (Z.div_mod (Zpos q) (2 ^ k) ltac:(lia)) as Hdm.
      pose proof (Z.mod_pos_bound (Zpos q) (2 ^ k) Hpk). nia. }
    assert (Hbig : 2 ^ 23 <= m1).
    { assert (Hdk : dq = k + 24) by (unfold k; lia).
      destruct (Zdigits2_bounds (Zpos q)) as [Hlo _]; [lia |]. fold dq in Hlo.
      unfold m1. apply Z.div_le_lower_bound; [done |].
      rewrite Z.mul_comm, <- Z.pow_add_r by lia.
      by replace (23 + k) with (dq - 1) by lia. }
    set (u := 2 ^ (f + 149)).
    assert (Hu : 0 < u) by (apply Z.pow_pos_nonneg; lia).
    assert (Eu : u = 2 ^ k * 2 ^ (e0 + 149)).
    { unfold u. rewrite <- Z.pow_add_r by lia. f_equal. unfold k. lia. }
    set (v := 2 ^ (e0 + 149)) in *.
    assert (Hv : 0 < v) by (apply Z.pow_pos_nonneg; lia).
    assert (HX : m1 * u <= Zpos q * v < (m1 + 1) * u).
    { rewrite Eu, !Z.mul_assoc. split.
      - apply Z.mul_le_mono_nonneg_r; lia.
      - apply Z.mul_lt_mono_pos_r; lia. }
    assert (Hend : forall W, m1 * u <= W <= (m1 + 1) * u -> 2 ^ 23 * u <= W ->
                             Z.abs (W - Zpos q * v) * 2 ^ 23 <= W).
    { intros W HW Hbig'.
      assert (Hd : Z.abs (W - Zpos q * v) <= u) by lia.
      apply (Z.mul_le_mono_nonneg_r _ _ (2 ^ 23)) in Hd; lia. }
    destruct Hcase as [[-> Hm] | [-> Hm]].
    + split; [lia |]. fold u. apply Hend.
      * split; apply Z.mul_le_mono_nonneg_r; lia.
      * apply Z.mul_le_mono_nonneg_r; lia.
    + split; [lia |].
      replace (f + 1 + 149) with (Z.succ (f + 149)) by lia.
      rewrite Z.pow_succ_r by lia. fold u.
      replace (m2 * (2 * u)) with (2 * m2 * u) by ring. rewrite Hm.
      apply Hend.
      * split; apply Z.mul_le_mono_nonneg_r; lia.
      * apply Z.mul_le_mono_nonneg_r; lia.
Qed.

(** the mantissa that the addition rounds *)
Lemma SFadd_finite_exact ma ea mb eb :
  exists q,
    SFadd prec emax (S754_finite false ma ea) (S754_finite false mb eb)
    = binary_round prec emax false q (Z.min ea eb) /\
    Zpos q = Zpos ma * 2 ^ (ea - Z.min ea eb) + Zpos mb * 2 ^ (eb - Z.min ea eb).
Proof.
  cbn [SFadd cond_Zopp].
  pose proof (shl_align_spec ma ea (Z.min ea eb)) as Ha.
  pose proof (shl_align_spec mb eb (Z.min ea eb)) as Hb.
  destruct (shl_align ma ea (Z.min ea eb)) as [ma' ea'].
  destruct (shl_align mb eb (Z.min ea eb)) as [mb' eb'].
  destruct Ha as [-> Ea], Hb as [-> Eb]. cbn [fst].
  exists (ma' + mb')%positive. split; [done |].
  replace (Z.min ea (Z.min ea eb)) with (Z.min ea eb) in Ea by lia.
  replace (Z.min eb (Z.min ea eb)) with (Z.min ea eb) in Eb by lia.
  rewrite <- Ea, <- Eb. lia.
Qed.

(** The error of an addition of two numbers that are not negative is at
    most the result divided by [2^23]. *)
Lemma SFadd_error a b :
  nonneg32 a -> nonneg32 b -> finite32 a -> finite32 b ->
  finite32 (SFadd prec emax a b) ->
  Z.abs (scaled (SFadd prec emax a b) - (scaled a + scaled b)) * 2 ^ 23
  <= scaled (SFadd prec emax a b).
Proof.
  intros Ha Hb Hfa Hfb.
  destruct (nonneg_finite_inv a Ha Hfa) as [-> | [-> | (ma & ea & -> & Hca & Hea)]];
    destruct (nonneg_finite_inv b Hb Hfb) as [-> | [-> | (mb & eb & -> & Hcb & Heb)]];
    try (intros _; cbn [SFadd scaled cond_Zopp];
         rewrite ?Z.add_0_l, ?Z.add_0_r, ?Z.sub_diag; cbn [Z.abs];
         first [lia | apply Z.mul_nonneg_nonneg; [lia | apply Z.pow_nonneg; lia]]).
  destruct (SFadd_finite_exact ma ea mb eb) as (q & -> & Eq).
  destruct (binary_round_error q (Z.min ea eb)) as (m2 & e2 & -> & Hm2 & He2 & Herr); [lia |].
  intros Hfin. rewrite scaled_finish by done. cbn [scaled cond_Zopp].
  replace (Zpos ma * 2 ^ (ea + 149) + Zpos mb * 2 ^ (eb + 149))
    with (Zpos q * 2 ^ (Z.min ea eb + 149)); [exact Herr |].
  rewrite Eq, Z.mul_add_distr_r, <- !Z.mul_assoc, <- !Z.pow_add_r by lia.
  f_equal; f_equal; f_equal; lia.
Qed.

(** the order of two numbers that are not negative is that of their
    values *)
Lemma SFleb_scaled a b :
  nonneg32 a -> nonneg32 b -> finite32 b -> SFleb a b = true ->
  finite32 a /\ scaled a <= scaled b.
Proof.
  destruct a as [sa | sa | | sa ma ea], b as [sb | sb | | sb mb eb];
    cbn [nonneg32 finite32]; intros Ha Hb Hfb Hle; try done.
  - destruct Hb as [-> _]. split; [done |]. cbn [scaled cond_Zopp].
    apply Z.mul_nonneg_nonneg; [lia | apply Z.pow_nonneg; lia].
  - subst sa. unfold SFleb in Hle. cbn [SFcompare] in Hle. done.
  - subst sa. destruct Hb as [-> _]. unfold SFleb in Hle. cbn [SFcompare] in Hle. done.
  - destruct Ha as [-> _]. unfold SFleb in Hle. cbn [SFcompare] in Hle. done.
  - destruct Ha as [-> Ha], Hb as [-> Hb]. unfold SFleb in Hle. cbn [SFcompare] in Hle.
    apply bounded_iff in Ha as [Hca Hea], Hb as [Hcb Heb]. rewrite fexp_eq in Hca, Hcb.
    split; [done |]. cbn [scaled cond_Zopp].
    destruct (Zdigits2_bounds (Zpos ma)) as [Halo Hahi]; [lia |].
    destruct (Zdigits2_bounds (Zpos mb)) as [Hblo Hbhi]; [lia |].
    pose proof (Zdigits2_pos (Zpos ma) ltac:(lia)) as Hda.
    pose proof (Zdigits2_pos (Zpos mb) ltac:(lia)) as Hdb.
    destruct (Z.compare_spec ea eb) as [-> | Hlt | Hgt]; [| | done].
    + rewrite Pos.compare_cont_spec in Hle. cbn [Pos.switch_Eq] in Hle.
      destruct (Pos.compare_spec ma mb) as [-> | Hm | Hm]; [lia | | done].
      apply Z.mul_le_mono_nonneg_r; [apply Z.pow_nonneg; lia | lia].
    + (* a smaller exponent: [b] is normal and [a] has at most 24 digits *)
      assert (Hdb24 : Zdigits2 (Zpos mb) = 24) by lia.
      assert (Hda24 : Zdigits2 (Zpos ma) <= 24) by lia.
      rewrite Hdb24 in Hblo.
      assert (Hama : Zpos ma < 2 ^ 24).
      { eapply Z.lt_le_trans; [exact Hahi |]. apply Z.pow_le_mono_r; lia. }
      replace (eb + 149) with ((eb - ea) + (ea + 149)) by lia.
      rewrite (Z.pow_add_r 2 (eb - ea) (ea + 149)) by lia.
      assert (Hp : 0 < 2 ^ (ea + 149)) by (apply Z.pow_pos_nonneg; lia).
      assert (H2 : 2 <= 2 ^ (eb - ea)).
      { change 2 with (2 ^ 1) at 1. apply Z.pow_le_mono_r; lia. }
      change (2 ^ (24 - 1)) with 8388608 in Hblo. change (2 ^ 24) with 16777216 in Hama.
      set (P := 2 ^ (ea + 149)) in *. set (p2 := 2 ^ (eb - ea)) in *.
      assert (H3 : Zpos ma * P <= 16777216 * P) by nia.
      assert (H4 : 16777216 * P <= Zpos mb * (2 * P)) by nia.
      assert (H5 : Zpos mb * (2 * P) <= Zpos mb * (p2 * P)).
      { apply Z.mul_le_mono_nonneg_l; [lia |]. apply Z.mul_le_mono_nonneg_r; lia. }
      lia.
Qed.

(** the quotient that the division rounds *)
Lemma SFdiv_core_value m1 e1 m2 e2 :
  let '(q, e', l) := SFdiv_core_binary prec emax (Zpos m1) e1 (Zpos m2) e2 in
  exists s, 0 <= s /\ e' = e1 - e2 - s /\ q = Zpos m1 * 2 ^ s / Zpos m2.
Proof.
  unfold SFdiv_core_binary.
  set (d1 := Zdigits2 (Zpos m1)). set (d2 := Zdigits2 (Zpos m2)).
  set (e' := Z.min (fexp prec emax (d1 + e1 - (d2 + e2))) (e1 - e2)).
  set (s := e1 - e2 - e').
  assert (Hs : 0 <= s) by (unfold s, e'; lia).
  set (m' := match s with Zpos _ => Z.shiftl (Zpos m1) s | 0 => Zpos m1 | Zneg _ => 0 end).
  assert (Em' : m' = Zpos m1 * 2 ^ s).
  { unfold m'. destruct s as [| p | p]; [lia | | lia]. by rewrite Z.shiftl_mul_pow2. }
  assert (Hq : fst (Z.div_eucl m' (Zpos m2)) = m' / Zpos m2) by reflexivity.
  destruct (Z.div_eucl m' (Zpos m2)) as [q r]. cbn [fst] in Hq. subst q.
  exists s. split; [done |]. split; [unfold s; lia |]. by rewrite Em'.
Qed.

(** The error of a quotient of two numbers that are not negative, the
    first at most the second: at most the result divided by [2^23], or
    one unit of [2^-149] for a result that is subnormal. *)
Lemma SFdiv_error a b :
  nonneg32 a -> nonneg32 b -> finite32 a -> finite32 b -> nonzero32 b ->
  scaled a <= scaled b ->
  finite32 (SFdiv prec emax a b) /\
  Z.abs (scaled (SFdiv prec emax a b) * scaled b - 2 ^ 149 * scaled a) * 2 ^ 23
  <= scaled b * (scaled (SFdiv prec emax a b) + 2 ^ 23).
Proof.
  intros Ha Hb Hfa Hfb Hnz Hle.
  pose proof (scaled_pos b Hb Hfb Hnz) as HB.
  destruct (nonneg_finite_inv b Hb Hfb) as [-> | [-> | (mb & eb & -> & Hcb & Heb)]];
    [done | done |].
  destruct (nonneg_finite_inv a Ha Hfa) as [-> | [-> | (ma & ea & -> & Hca & Hea)]].
  - cbn [SFdiv xorb scaled]. split; [done |]. cbn [scaled] in HB. lia.
  - cbn [SFdiv xorb scaled]. split; [done |]. cbn [scaled] in HB. lia.
  - cbn [SFdiv xorb]. cbn [scaled cond_Zopp] in *.
    pose proof (SFdiv_core_spec ma ea mb eb) as Hcore.
    pose proof (SFdiv_core_value ma ea mb eb) as Hval.
    destruct (SFdiv_core_binary prec emax (Zpos ma) ea (Zpos mb) eb) as [[q e'] l].
    destruct Hcore as [Hq He']. destruct Hval as (s & Hs & Ee' & Eq).
    destruct (binary_round_aux_enclosure q e' l Hq He') as (m2 & e2 & -> & Hm2 & Hcase).
    set (f := fexp prec emax (Zdigits2 q + e')) in *.
    assert (Hf : f = Z.max (Zdigits2 q + e' - 24) (-149)) by apply fexp_eq.
    set (k := f - e') in *.
    assert (Hk : 0 <= k) by (unfold k; lia).
    assert (Hpk : 0 < 2 ^ k) by (apply Z.pow_pos_nonneg; lia).
    set (m1 := q / 2 ^ k) in *.
    assert (Hm1 : 0 <= m1) by (apply Z.div_pos; lia).
    assert (Hdiv : m1 * 2 ^ k <= q < (m1 + 1) * 2 ^ k).
    { unfold m1. pose proof (Z.div_mod q (2 ^ k) ltac:(lia)) as Hdm.
      pose proof (Z.mod_pos_bound q (2 ^ k) Hpk). nia. }
    set (S := 2 ^ s) in *.
    assert (HS : 0 < S) by (apply Z.pow_pos_nonneg; lia).
    assert (Hquo : q * Zpos mb <= Zpos ma * S < (q + 1) * Zpos mb).
    { rewrite Eq. pose proof (Z.div_mod (Zpos ma * S) (Zpos mb) ltac:(lia)) as Hdm.
      pose proof (Z.mod_pos_bound (Zpos ma * S) (Zpos mb) ltac:(lia)). nia. }
    (* the cut quotient and its successor enclose the quotient *)
    assert (Hlo : m1 * 2 ^ k * Zpos mb <= Zpos ma * S) by nia.
    assert (Hhi : Zpos ma * S <= (m1 + 1) * 2 ^ k * Zpos mb) by nia.
    set (u := 2 ^ (f + 149)) in *.
    assert (Hu : 0 < u) by (apply Z.pow_pos_nonneg; lia).
    set (B' := 2 ^ (eb + 149)) in *.
    assert (HB' : 0 < B') by (apply Z.pow_pos_nonneg; lia).
    set (P := 2 ^ (ea + 298)).
    assert (HP : 0 < P) by (apply Z.pow_pos_nonneg; lia).
    assert (EQ : u * B' * S = 2 ^ k * P).
    { unfold u, B', S, P. rewrite <- !Z.pow_add_r by lia. f_equal. unfold k. lia. }
    assert (EA : 2 ^ 149 * (Zpos ma * 2 ^ (ea + 149)) * S = Zpos ma * S * P).
    { unfold P. replace (ea + 298) with (149 + (ea + 149)) by lia.
      rewrite (Z.pow_add_r 2 149 (ea + 149)) by lia. ring. }
    set (A := Zpos ma * 2 ^ (ea + 149)) in *.
    set (L := m1 * u).
    assert (HL : L * (Zpos mb * B') <= 2 ^ 149 * A).
    { apply (Z.mul_le_mono_pos_r _ _ S HS). rewrite EA.
      replace (L * (Zpos mb * B') * S) with (m1 * Zpos mb * (u * B' * S)) by (unfold L; ring).
      rewrite EQ. replace (m1 * Zpos mb * (2 ^ k * P)) with (m1 * 2 ^ k * Zpos mb * P) by ring.
      apply Z.mul_le_mono_nonneg_r; lia. }
    assert (HH : 2 ^ 149 * A <= (L + u) * (Zpos mb * B')).
    { apply (Z.mul_le_mono_pos_r _ _ S HS). rewrite EA.
      replace ((L + u) * (Zpos mb * B') * S) with ((m1 + 1) * Zpos mb * (u * B' * S))
        by (unfold L; ring).
      rewrite EQ.
      replace ((m1 + 1) * Zpos mb * (2 ^ k * P)) with ((m1 + 1) * 2 ^ k * Zpos mb * P) by ring.
      apply Z.mul_le_mono_nonneg_r; lia. }
    (* a result above the subnormal range has 24 digits *)
    assert (Hnormal : -149 < f -> 2 ^ 23 <= m1).
    { intros Hfn. assert (Ek : k = Zdigits2 q - 24) by (unfold k; lia).
      assert (Hqpos : 0 < q).
      { destruct q as [| qq | qq]; [cbn [Zdigits2] in Ek; lia | lia | lia]. }
      destruct (Zdigits2_bounds q Hqpos) as [Hqlo _].
      unfold m1. apply Z.div_le_lower_bound; [done |].
      rewrite Z.mul_comm, <- Z.pow_add_r by lia.
      by replace (23 + k) with (Zdigits2 q - 1) by lia. }
    assert (HuW : forall W, L <= W -> u * 2 ^ 23 <= W + 2 ^ 23).
    { intros W HW. destruct (Z.eq_dec f (-149)) as [Ef | Hfn].
      - unfold u. rewrite Ef. change (2 ^ (-149 + 149)) with 1. unfold L in HW. nia.
      - specialize (Hnormal ltac:(lia)). unfold L in HW. nia. }
    (* the quotient is at most 1, so the result is finite *)
    assert (HLU : L <= 2 ^ 149).
    { apply (Z.mul_le_mono_pos_r _ _ (Zpos mb * B')); [lia |].
      etrans; [exact HL |]. apply Z.mul_le_mono_nonneg_l; [lia |]. exact Hle. }
    assert (Hfsmall : f <= 0).
    { destruct (Z.eq_dec f (-149)) as [Ef | Hfn]; [lia |].
      specialize (Hnormal ltac:(lia)).
      assert (H1 : 2 ^ (f + 149) <= 2 ^ 149) by (unfold L, u in HLU; nia).
      apply Z.pow_le_mono_r_iff in H1; lia. }
    assert (He2 : e2 <= emax - prec).
    { change (emax - prec) with 104. destruct Hcase as [[-> _] | [-> _]]; lia. }
    pose proof (finite_finish m2 e2 Hm2 He2) as Hfin.
    split; [exact Hfin |].
    rewrite scaled_finish by done.
    set (W := m2 * 2 ^ (e2 + 149)).
    assert (HW : L <= W <= L + u).
    { unfold W, L. destruct Hcase as [[-> Hm] | [-> Hm]].
      - fold u. split; [apply Z.mul_le_mono_nonneg_r; lia |].
        replace (m1 * u + u) with ((m1 + 1) * u) by ring.
        apply Z.mul_le_mono_nonneg_r; lia.
      - replace (f + 1 + 149) with (Z.succ (f + 149)) by lia.
        rewrite Z.pow_succ_r by lia. fold u.
        replace (m2 * (2 * u)) with (2 * m2 * u) by ring. rewrite Hm.
        split; [apply Z.mul_le_mono_nonneg_r; lia |].
        replace (m1 * u + u) with ((m1 + 1) * u) by ring. lia. }
    set (B := Zpos mb * B') in *.
    assert (HB0 : 0 <= B) by (unfold B; lia).
    assert (Herr : Z.abs (W * B - 2 ^ 149 * A) <= u * B).
    { assert (H1 : L * B <= W * B) by (apply Z.mul_le_mono_nonneg_r; lia).
      assert (H2 : W * B <= (L + u) * B) by (apply Z.mul_le_mono_nonneg_r; lia).
      clear - HL HH H1 H2. lia. }
    specialize (HuW W ltac:(lia)).
    assert (Z.abs (W * B - 2 ^ 149 * A) * 2 ^ 23 <= u * B * 2 ^ 23).
    { apply Z.mul_le_mono_nonneg_r; [lia | done]. }
    assert (u * B * 2 ^ 23 <= B * (W + 2 ^ 23)).
    { replace (u * B * 2 ^ 23) with (B * (u * 2 ^ 23)) by ring.
      apply Z.mul_le_mono_nonneg_l; [exact HB0 | exact HuW]. }
    lia.
Qed.

(** ** Sums and normalised weights *)

Lemma sum_scaled_snoc (w : nat -> spec_float) l p :
  sum_scaled w (l ++ [p]) = sum_scaled w l + scaled (w p).
Proof.
  induction l as [| x l IH]; cbn [sum_scaled fold_right app]; [lia |].
  fold (sum_scaled w (l ++ [p])). fold (sum_scaled w l). lia.
Qed.

Lemma running_sum_nonneg (raw : nat -> spec_float) l :
  (forall p, p ∈ l -> nonneg32 (raw p)) -> nonneg32 (cumulative_sum raw l).
Proof.
  induction l as [| p l IH] using rev_ind; intros Hraw; [exact I |].
  rewrite cumulative_sum_snoc. apply SFadd_nonneg.
  - apply IH. intros q Hq. apply Hraw. set_solver.
  - apply Hraw. set_solver.
Qed.

(** The float sum of numbers that are not negative, when it is finite:
    no term exceeds it, and it differs from the exact sum by at most
    itself times the number of terms over [2^23]. *)
Lemma running_sum_error (raw : nat -> spec_float) l :
  (forall p, p ∈ l -> nonneg32 (raw p) /\ finite32 (raw p)) ->
  finite32 (cumulative_sum raw l) ->
  (forall p, p ∈ l -> scaled (raw p) <= scaled (cumulative_sum raw l)) /\
  Z.abs (scaled (cumulative_sum raw l) - sum_scaled raw l) * 2 ^ 23
  <= Z.of_nat (length l) * scaled (cumulative_sum raw l).
Proof.
  induction l as [| p l IH] using rev_ind; intros Hraw Hfin.
  - split; [intros p Hp; by apply elem_of_nil in Hp |]. cbn. lia.
  - rewrite cumulative_sum_snoc in *.
    assert (Hl : forall q, q ∈ l -> nonneg32 (raw q) /\ finite32 (raw q)).
    { intros q Hq. apply Hraw. set_solver. }
    destruct (Hraw p ltac:(set_solver)) as [Hnp Hfp].
    pose proof (running_sum_nonneg raw l (fun q Hq => proj1 (Hl q Hq))) as HnS.
    set (S := cumulative_sum raw l) in *.
    change (f_add S (raw p)) with (SFadd prec emax S (raw p)) in *.
    pose proof (SFadd_nonneg S (raw p) HnS Hnp) as HnS'.
    destruct (SFleb_scaled S _ HnS HnS' Hfin (SFadd_le S (raw p) HnS Hnp)) as [HfS HleS].
    destruct (SFleb_scaled (raw p) _ Hnp HnS' Hfin (SFadd_le_r S (raw p) HnS Hnp))
      as [_ Hlep].
    destruct (IH Hl HfS) as [IHle IHerr].
    pose proof (SFadd_error S (raw p) HnS Hnp HfS Hfp Hfin) as Herr.
    pose proof (scaled_nonneg _ HnS) as H0S.
    split.
    + intros q Hq. apply elem_of_app in Hq as [Hq | Hq%list_elem_of_singleton].
      * etrans; [by apply IHle | done].
      * by subst q.
    + rewrite sum_scaled_snoc, length_app. cbn [length].
      rewrite Nat2Z.inj_add. change (Z.of_nat 1) with 1.
      set (S' := scaled (SFadd prec emax S (raw p))) in *.
      set (n := Z.of_nat (length l)) in *.
      assert (Hn : 0 <= n) by (unfold n; lia).
      assert (H1 : n * scaled S <= n * S') by (apply Z.mul_le_mono_nonneg_l; lia).
      lia.
Qed.

(** the errors of the quotients by [t], added up *)
Lemma quotients_error (raw : nat -> spec_float) (t : spec_float) l :
  nonneg32 t -> finite32 t -> nonzero32 t ->
  (forall p, p ∈ l -> nonneg32 (raw p) /\ finite32 (raw p) /\ scaled (raw p) <= scaled t) ->
  (forall p, p ∈ l -> finite32 (SFdiv prec emax (raw p) t) /\
                      nonneg32 (SFdiv prec emax (raw p) t)) /\
  0 <= sum_scaled (fun p => SFdiv prec emax (raw p) t) l /\
  Z.abs (sum_scaled (fun p => SFdiv prec emax (raw p) t) l * scaled t
         - 2 ^ 149 * sum_scaled raw l) * 2 ^ 23
  <= scaled t * (sum_scaled (fun p => SFdiv prec emax (raw p) t) l
                 + Z.of_nat (length l) * 2 ^ 23).
Proof.
  intros Hnt Hft Hzt. pose proof (scaled_pos t Hnt Hft Hzt) as HT.
  induction l as [| p l IH]; intros Hraw.
  - split; [intros p Hp; by apply elem_of_nil in Hp |]. cbn. lia.
  - destruct (Hraw p ltac:(set_solver)) as (Hnp & Hfp & Hlep).
    destruct IH as (IHfin & IH0 & IHerr); [intros q Hq; apply Hraw; set_solver |].
    destruct (SFdiv_error (raw p) t Hnp Hnt Hfp Hft Hzt Hlep) as [Hfw Herr].
    pose proof (SFdiv_nonneg (raw p) t Hnp Hnt Hfp Hzt) as Hnw.
    pose proof (scaled_nonneg _ Hnw) as H0w.
    split; [| split].
    + intros q Hq. apply elem_of_cons in Hq as [-> | Hq]; [done | by apply IHfin].
    + cbn [sum_scaled fold_right]. fold (sum_scaled (fun p => SFdiv prec emax (raw p) t) l).
      lia.
    + cbn [sum_scaled fold_right length].
      fold (sum_scaled (fun p => SFdiv prec emax (raw p) t) l). fold (sum_scaled raw l).
      rewrite Nat2Z.inj_succ.
      set (W := scaled (SFdiv prec emax (raw p) t)) in *.
      set (X := sum_scaled (fun p => SFdiv prec emax (raw p) t) l) in *.
      set (Y := sum_scaled raw l) in *.
      set (R := scaled (raw p)) in *. set (T := scaled t) in *.
      set (n := Z.of_nat (length l)) in *.
      set (U := 2 ^ 149) in *. set (E := 2 ^ 23) in *.
      replace ((W + X) * T - U * (R + Y)) with ((W * T - U * R) + (X * T - U * Y)) by ring.
      replace (T * (W + X + Z.succ n * E)) with (T * (W + E) + T * (X + n * E)) by ring.
      assert (E0 : 0 <= E) by (unfold E; lia).
      pose proof (Z.abs_triangle (W * T - U * R) (X * T - U * Y)) as Htri.
      nia.
Qed.

(** The normalised weights of raw lengths that are not negative, with a
    float sum that is finite and not zero, add up to [1] within
    [n / 2^21], [n] the number of positions: in units of [2^-149], to
    [2^149] within [n * 2^128]. *)
Lemma weights_sum_error (raw : nat -> spec_float) l :
  (forall p, p ∈ l -> nonneg32 (raw p) /\ finite32 (raw p)) ->
  finite32 (cumulative_sum raw l) -> nonzero32 (cumulative_sum raw l) ->
  (forall p, p ∈ l ->
     finite32 (SFdiv prec emax (raw p) (cumulative_sum raw l)) /\
     nonneg32 (SFdiv prec emax (raw p) (cumulative_sum raw l))) /\
  Z.abs (sum_scaled (fun p => SFdiv prec emax (raw p) (cumulative_sum raw l)) l - 2 ^ 149)
  <= Z.of_nat (length l) * 2 ^ 128.
Proof.
  intros Hraw Hfin Hnz.
  set (t := cumulative_sum raw l) in *.
  pose proof (running_sum_nonneg raw l (fun q Hq => proj1 (Hraw q Hq))) as Hnt. fold t in Hnt.
  destruct (running_sum_error raw l Hraw Hfin) as [Hle Hsum]. fold t in Hle, Hsum.
  destruct (quotients_error raw t l Hnt Hfin Hnz) as (Hw & H0 & Hquo).
  { intros p Hp. destruct (Hraw p Hp). split; [done |]. split; [done |]. by apply Hle. }
  split; [exact Hw |].
  pose proof (scaled_pos t Hnt Hfin Hnz) as HT.
  assert (Hlen : 1 <= Z.of_nat (length l)).
  { destruct l; [| cbn [length]; lia]. done. }
  set (X := sum_scaled (fun p => SFdiv prec emax (raw p) t) l) in *.
  set (Y := sum_scaled raw l) in *. set (T := scaled t) in *.
  set (n := Z.of_nat (length l)) in *.
  (* dividing by [T] *)
  assert (Hup : 8388608 * (X - 2 ^ 149) * T <= (X + n * 8388608 + n * 2 ^ 149) * T).
  { change (2 ^ 23) with 8388608 in *.
    set (p := X * T) in *. set (r := n * T) in *.
    replace (8388608 * (X - 2 ^ 149) * T) with (8388608 * p - 8388608 * 2 ^ 149 * T)
      by (unfold p; ring).
    replace ((X + n * 8388608 + n * 2 ^ 149) * T) with (p + 8388608 * r + 2 ^ 149 * r)
      by (unfold p, r; ring).
    replace (T * (X + n * 8388608)) with (p + 8388608 * r) in Hquo by (unfold p, r; ring).
    change (2 ^ 149) with 713623846352979940529142984724747568191373312 in *. lia. }
  assert (Hdn : - ((X + n * 8388608 + n * 2 ^ 149) * T) <= 8388608 * (X - 2 ^ 149) * T).
  { change (2 ^ 23) with 8388608 in *.
    set (p := X * T) in *. set (r := n * T) in *.
    replace (8388608 * (X - 2 ^ 149) * T) with (8388608 * p - 8388608 * 2 ^ 149 * T)
      by (unfold p; ring).
    replace ((X + n * 8388608 + n * 2 ^ 149) * T) with (p + 8388608 * r + 2 ^ 149 * r)
      by (unfold p, r; ring).
    replace (T * (X + n * 8388608)) with (p + 8388608 * r) in Hquo by (unfold p, r; ring).
    change (2 ^ 149) with 713623846352979940529142984724747568191373312 in *. lia. }
  apply Z.mul_le_mono_pos_r in Hup; [| done].
  rewrite <- Z.mul_opp_l in Hdn. apply Z.mul_le_mono_pos_r in Hdn; [| done].
  change (2 ^ 149) with 713623846352979940529142984724747568191373312 in *.
  change (2 ^ 128) with 340282366920938463463374607431768211456. lia.
Qed.

(** ** Values as rationals *)

Lemma value32_scaled x :
  nonneg32 x -> finite32 x ->
  (value32 x * inject_Z (2 ^ 149) == inject_Z (scaled x))%Q.
Proof.
  intros Hn Hf.
  destruct (nonneg_finite_inv x Hn Hf) as [-> | [-> | (m & e & -> & _ & He)]];
    [reflexivity | reflexivity |].
  cbn [value32 scaled cond_Zopp].
  rewrite inject_Z_mult.
  rewrite (Zpower_Qpower 2 149) by lia. rewrite (Zpower_Qpower 2 (e + 149)) by lia.
  change (inject_Z 2) with (2 # 1)%Q.
  rewrite (Qpower_plus (2 # 1) e 149) by done.
  by rewrite Qmult_assoc.
Qed.

Lemma sum_values_scaled (w : nat -> spec_float) l :
  (forall p, p ∈ l -> finite32 (w p) /\ nonneg32 (w p)) ->
  (sum_values w l * inject_Z (2 ^ 149) == inject_Z (sum_scaled w l))%Q.
Proof.
  induction l as [| p l IH]; intros Hw; [reflexivity |].
  cbn [sum_values sum_scaled fold_right].
  fold (sum_values w l). fold (sum_scaled w l).
  rewrite inject_Z_plus, Qmult_plus_distr_l.
  rewrite IH by (intros q Hq; apply Hw; set_solver).
  destruct (Hw p ltac:(set_solver)) as [Hf Hn].
  by rewrite value32_scaled.
Qed.

(** from units of [2^-149] to rationals *)
Lemma sum_values_within (w : nat -> spec_float) l n :
  (forall p, p ∈ l -> finite32 (w p) /\ nonneg32 (w p)) ->
  Z.abs (sum_scaled w l - 2 ^ 149) <= n * 2 ^ 128 ->
  (1 - (n # 2097152) <= sum_values w l <= 1 + (n # 2097152))%Q.
Proof.
  intros Hw Hz. pose proof (sum_values_scaled w l Hw) as Hs.
  assert (HU : (0 < inject_Z (2 ^ 149))%Q) by reflexivity.
  assert (Elo : ((1 - (n # 2097152)) * inject_Z (2 ^ 149) == inject_Z (2 ^ 149 - n * 2 ^ 128))%Q).
  { unfold Qeq, Qminus, Qplus, Qopp, Qmult, inject_Z. cbn [Qnum Qden].
    change (2 ^ 149) with 713623846352979940529142984724747568191373312.
    change (2 ^ 128) with 340282366920938463463374607431768211456.
    rewrite !Pos2Z.inj_mul. lia. }
  assert (Ehi : ((1 + (n # 2097152)) * inject_Z (2 ^ 149) == inject_Z (2 ^ 149 + n * 2 ^ 128))%Q).
  { unfold Qeq, Qplus, Qmult, inject_Z. cbn [Qnum Qden].
    change (2 ^ 149) with 713623846352979940529142984724747568191373312.
    change (2 ^ 128) with 340282366920938463463374607431768211456.
    rewrite !Pos2Z.inj_mul. lia. }
  split.
  - apply (Qmult_le_r _ _ _ HU). rewrite Elo, Hs. rewrite <- Zle_Qle. lia.
  - apply (Qmult_le_r _ _ _ HU). rewrite Ehi, Hs. rewrite <- Zle_Qle. lia.
Qed.
End Binary32Error.

Section DestroyTheorem.
Context {F : Type} `{FloatOps F}.
Variable cfg : Config F.

(** Destroy on a complete buffer.  On a buffer whose populated members point at live,
    distinct blocks, with the score table of its mode in the slot that
    Destroy reads, Destroy returns and releases exactly the blocks
    reachable from the buffer: the score table, the four flat arrays, the
    three ragged tables row by row and then their spines, and the
    struct; nothing else changes.  On a null pointer it does nothing. *)
Theorem destroy_releases_every_owned_block (s : state F) (data : pointer) (l : list nat) :
  footprint cfg s data = Some l ->
  NoDup l ->
  Forall (fun x => is_Some (heap s !! x)) l ->
  (forall d, data_at s data = Some d -> ssv_scores d = score_table d) ->
  (exists s',
     p7_hmm_ScoreDataDestroy cfg data s = Done tt s' /\
     (forall x, heap s' !! x = if decide (x ∈ l) then None else heap s !! x) /\
     allocs s' = allocs s /\ alloc_ok s' = alloc_ok s) /\
  p7_hmm_ScoreDataDestroy cfg Null s = Done tt s.
Proof.
  intros Hfp Hnd Hlive Hslot. split; [| done].
  destruct (destroy_footprint_runs cfg s data l Hfp Hnd) as ([] & s' & Hrun & Hrel);
    [by apply Forall_forall | done |].
  by exists s'.
Qed.
End DestroyTheorem.

(** * Failing allocations *)

Section Throws.
Context {F : Type}.

Lemma bind_runs_eq {A B} (m : M F A) (k : A -> M F B) s (R : res F B) :
  runs m s (fun r s' => k r s' = R) -> (m ≫= k) s = R.
Proof.
  intros (r & s' & Hm & Hk). unfold mbind, M_bind, bind. by rewrite Hm.
Qed.

Lemma bind_Error {A B} (m : M F A) (k : A -> M F B) s e s' :
  m s = Error e s' -> (m ≫= k) s = Error e s'.
Proof. intros Hm. unfold mbind, M_bind, bind. by rewrite Hm. Qed.

Lemma on_ERROR_caught {A} (m : M F A) h s e s1 (R : res F A) :
  m s = Error e s1 -> h e s1 = R -> on_ERROR m h s = R.
Proof. intros Hm Hh. unfold on_ERROR. by rewrite Hm. Qed.

Lemma on_ERROR_passes {A} (m : M F A) h s (a : A) s1 :
  m s = Done a s1 -> on_ERROR m h s = Done a s1.
Proof. intros Hm. unfold on_ERROR. by rewrite Hm. Qed.

Lemma ESL_ALLOC_fails (assign : pointer -> M F unit) (b : block F) s s' :
  alloc_ok s (allocs s) = false ->
  assign Null (Build_state (heap s) (S (allocs s)) (alloc_ok s)) = Done tt s' ->
  ESL_ALLOC assign b s = Error eslEMEM s'.
Proof.
  intros Hok Hassign. unfold ESL_ALLOC, malloc.
  unfold mbind, M_bind, bind. rewrite Hok. by rewrite Hassign.
Qed.
End Throws.

Section CreateFailure.
Context {F : Type} `{FloatOps F}.
Variable cfg : Config F.
Variable layout : table_layout.
Variable om : P7_OPROFILE F.

(** Claim C7, evaluated where it fails.  When the allocation of the
    struct succeeds and the next one, made inside
    scoredata_GetSSVScoreArrays, fails, that function returns [eslEMEM]
    and Create drops the status: it returns the pointer to the
    half-built buffer, whose table pointer is null, and not [NULL]. *)
Theorem create_returns_partial_buffer (s : state F) :
  alloc_ok s (allocs s) = true ->
  alloc_ok s (S (allocs s)) = false ->
  exists s' d,
    p7_hmm_ScoreDataCreate cfg layout om None s = Done (Ptr (allocs s)) s' /\
    data_at s' (Ptr (allocs s)) = Some d /\
    ssv_scores d = Null /\
    scoredata_GetSSVScoreArrays cfg layout om None (Ptr (allocs s))
      (Build_state
         (<[allocs s := Struct (Build_P7_SCOREDATA None None Null Null Null Null
                                  Null Null Null Null)]> (heap s))
         (S (allocs s)) (alloc_ok s))
    = Done eslEMEM s'.
Proof.
  intros Hok0 Hok1.
  set (d0 := Build_P7_SCOREDATA None None Null Null Null Null Null Null Null Null).
  set (d1 := Build_P7_SCOREDATA (Some p7_sd_std) (Some (om_M om)) Null
               (match layout with OneSlot => Null | TwoSlots => Null end)
               Null Null Null Null Null Null).
  set (s1 := Build_state (<[allocs s := Struct d0]> (heap s)) (S (allocs s)) (alloc_ok s)).
  set (s2 := Build_state (<[allocs s := Struct d1]> (heap s)) (S (S (allocs s)))
               (alloc_ok s)).
  assert (Hget : scoredata_GetSSVScoreArrays cfg layout om None (Ptr (allocs s)) s1
                 = Done eslEMEM s2).
  { unfold scoredata_GetSSVScoreArrays.
    apply (on_ERROR_caught _ _ _ eslEMEM s2); [| done].
    unfold s1.
    apply bind_runs_eq. run_step.
    apply bind_Error. apply bind_runs_eq. run_step.
    apply bind_Error. apply ESL_ALLOC_fails; [done |].
    unfold assign_data, load_data, get_block, put_block. sd_simpl.
    unfold mbind, M_bind, bind, mret, M_ret, ret. sd_simpl.
    rewrite lookup_insert_eq. sd_simpl. rewrite lookup_insert_eq.
    unfold s2, d1, d0. sd_simpl. rewrite !insert_insert_eq. by destruct layout. }
  exists s2, d1. split; [| split; [| split]].
  - unfold p7_hmm_ScoreDataCreate.
    apply on_ERROR_passes.
    apply bind_runs_eq. run_step. run_step.
    repeat (apply bind_runs_eq; run_step).
    apply bind_runs_eq.
    replace (set_fwd_transitions _ _) with d0 by (unfold d0; by destruct layout).
    sd_simpl. rewrite !insert_insert_eq. fold s1. by exists eslEMEM, s2.
  - unfold data_at, block_at, s2. cbn [heap]. by rewrite lookup_insert_eq.
  - done.
  - exact Hget.
Qed.
End CreateFailure.

(** * Buffers that the file builds, and their release *)

Lemma owned_rows_from_spine base Mlen n : forall i,
  1 <= i -> i + n <= Mlen ->
  owned_rows_from (spine_upto base Mlen Mlen) n i
  = Some (map (fun t => base + 2 * t) (seq i n)).
Proof.
  induction n as [| n IH]; intros i Hi Hn; [done |].
  cbn [owned_rows_from seq map].
  rewrite spine_upto_lookup by lia. rewrite decide_True by lia.
  cbn [mbind option_bind owned_block]. rewrite IH by lia. done.
Qed.

Lemma owned_rows_from_trans_spine base NT n : forall i,
  i + n <= NT ->
  owned_rows_from (trans_spine_upto base NT NT) n i
  = Some (map (fun t => base + t) (seq i n)).
Proof.
  induction n as [| n IH]; intros i Hn; [done |].
  cbn [owned_rows_from seq map].
  rewrite trans_spine_upto_lookup by lia. rewrite decide_True by lia.
  cbn [mbind option_bind owned_block]. rewrite IH by lia. done.
Qed.

Lemma elem_of_fm_blocks x c Mlen :
  x ∈ fm_blocks c Mlen <->
  x = c \/ x = c + 1 \/ x = c + 3 \/ x = c + 4 \/
  exists t, 1 <= t < Mlen /\ (x = c + 3 + 2 * t \/ x = c + 4 + 2 * t).
Proof.
  unfold fm_blocks.
  rewrite !elem_of_app, !list_elem_of_singleton.
  change (map ?f ?l) with (f <$> l).
  rewrite !list_elem_of_fmap. setoid_rewrite elem_of_seq.
  split.
  - intros [-> | [[(t & -> & Ht) | ->] | [[(t & -> & Ht) | ->] | ->]]]; eauto 6.
    + do 4 right. exists t. split; [lia | by left].
    + do 4 right. exists t. split; [lia | by right].
  - intros [-> | [-> | [-> | [-> | (t & Ht & [-> | ->])]]]]; eauto 6.
    + right. left. left. exists t. split; [done | lia].
    + right. right. left. left. exists t. split; [done | lia].
Qed.

Lemma elem_of_fm_blocks_range x c Mlen :
  c <= x < c + 3 + 2 * Mlen -> x <> c + 2 -> x ∈ fm_blocks c Mlen.
Proof.
  intros Hx Hne. apply elem_of_fm_blocks.
  destruct (decide (x = c)); [by left |].
  destruct (decide (x = c + 1)); [right; by left |].
  destruct (decide (x = c + 3)); [do 2 right; by left |].
  destruct (decide (x = c + 4)); [do 3 right; by left |].
  do 4 right.
  pose proof (Nat.div_mod_eq (x - c - 3) 2) as Hdm.
  pose proof (Nat.mod_upper_bound (x - c - 3) 2 ltac:(lia)) as Hmod.
  exists ((x - c - 3) / 2). split; [lia |].
  destruct (decide ((x - c - 3) mod 2 = 0)); [left | right]; lia.
Qed.

Lemma NoDup_fm_blocks c Mlen : NoDup (fm_blocks c Mlen).
Proof.
  unfold fm_blocks. change (map ?f ?l) with (f <$> l).
  assert (Hin : forall (g : nat -> nat) y (l : list nat),
            y ∈ g <$> l -> exists t, y = g t /\ t ∈ l).
  { intros g y l. apply list_elem_of_fmap. }
  repeat (apply NoDup_app; split; [| split]);
    try apply NoDup_singleton;
    try (apply NoDup_fmap_2_strong; [intros ???; lia | apply NoDup_seq]);
    intros y Hy;
    rewrite ?elem_of_app, ?list_elem_of_singleton in *;
    intros Hy';
    repeat match goal with
    | H : _ \/ _ |- _ => destruct H
    | H : _ ∈ _ <$> _ |- _ => apply Hin in H as (? & ? & ?%elem_of_seq)
    end; lia.
Qed.

Lemma elem_of_rest_blocks x b NT : x ∈ rest_blocks b NT <-> b <= x < b + 4 + NT.
Proof.
  unfold rest_blocks.
  rewrite !elem_of_app, !list_elem_of_singleton.
  change (map ?f ?l) with (f <$> l).
  rewrite !list_elem_of_fmap. setoid_rewrite elem_of_seq.
  split.
  - intros [-> | [-> | [-> | [(t & -> & Ht) | ->]]]]; lia.
  - intros Hx.
    destruct (decide (x = b + 2 + NT)); [by left |].
    destruct (decide (x = b + 3 + NT)); [right; by left |].
    destruct (decide (x = b)); [do 2 right; by left |].
    destruct (decide (x = b + 1)); [do 4 right; done |].
    do 3 right. left. exists (x - b - 2). lia.
Qed.

Lemma NoDup_rest_blocks b NT : NoDup (rest_blocks b NT).
Proof.
  unfold rest_blocks. change (map ?f ?l) with (f <$> l).
  assert (Hin : forall (g : nat -> nat) y (l : list nat),
            y ∈ g <$> l -> exists t, y = g t /\ t ∈ l).
  { intros g y l. apply list_elem_of_fmap. }
  repeat (apply NoDup_app; split; [| split]);
    try apply NoDup_singleton;
    try (apply NoDup_fmap_2_strong; [intros ???; lia | apply NoDup_seq]);
    intros y Hy;
    rewrite ?elem_of_app, ?list_elem_of_singleton in *;
    intros Hy';
    repeat match goal with
    | H : _ \/ _ |- _ => destruct H
    | H : _ ∈ _ <$> _ |- _ => apply Hin in H as (? & ? & ?%elem_of_seq)
    end; lia.
Qed.

Section Built.
Context {F : Type} `{FloatOps F}.
Variable cfg : Config F.
Variable om : P7_OPROFILE F.

Local Abbreviation Mlen := (om_M om).
Local Abbreviation NT := (p7O_NTRANS cfg).

(** Destroy gives back every block of a built buffer *)
Lemma destroy_built (s0 s : state F) data l :
  built cfg s0 s data l ->
  runs (p7_hmm_ScoreDataDestroy cfg data) s
    (fun _ s' => forall x, heap s' !! x = heap s0 !! x).
Proof.
  intros [Hfp Hnd Hslot Hlive Hrest].
  eapply runs_mono; [apply (destroy_footprint_runs cfg s data l Hfp Hnd) |].
  - intros x Hx. by apply Hlive.
  - exact Hslot.
  - intros [] s' (Hh & _) x. rewrite Hh.
    destruct (decide (x ∈ l)) as [Hin | Hout].
    + symmetry. by apply Hlive.
    + by apply Hrest.
Qed.

(** the buffer Create returns in standard mode *)
Lemma create_std_built (s : state F) :
  fresh_above s -> never_fails s ->
  runs (p7_hmm_ScoreDataCreate cfg OneSlot om None) s (fun r s' =>
    r = Ptr (allocs s) /\
    built cfg s s' r [allocs s + 1; allocs s] /\
    data_at s' r = Some (std_data OneSlot (allocs s) Mlen) /\
    never_fails s' /\ fresh_above s').
Proof.
  intros Hfresh Hnever.
  eapply runs_mono; [apply create_std_runs; apply Hnever; lia |].
  intros r s1 (-> & Ha & Hok & tbl & Hfill & Hheap).
  assert (Hc : heap s1 !! allocs s = Some (Struct (std_data OneSlot (allocs s) Mlen))).
  { rewrite Hheap. by rewrite decide_True. }
  assert (Ht : heap s1 !! (allocs s + 1) = Some (Bytes tbl)).
  { rewrite Hheap. rewrite decide_False by lia. by rewrite decide_True. }
  assert (Hd : data_at s1 (Ptr (allocs s)) = Some (std_data OneSlot (allocs s) Mlen)).
  { unfold data_at, block_at. by rewrite Hc. }
  split; [done |]. split; [| split; [done | split]].
  - split.
    + unfold footprint. rewrite Hd. reflexivity.
    + apply NoDup_cons. split; [| apply NoDup_singleton].
      rewrite list_elem_of_singleton. lia.
    + intros d Hd'. rewrite Hd in Hd'. injection Hd' as <-. reflexivity.
    + intros x Hx. apply elem_of_cons in Hx as [-> | ->%list_elem_of_singleton].
      * rewrite Ht. split; [done |]. split; [apply Hfresh |]; lia.
      * rewrite Hc. split; [done |]. split; [apply Hfresh |]; lia.
    + intros x Hx. rewrite Hheap.
      rewrite decide_False by (intros ->; apply Hx; set_solver).
      rewrite decide_False by (intros ->; apply Hx; set_solver). done.
  - intros n Hn. rewrite Hok. apply Hnever. lia.
  - intros x Hx. rewrite Hheap. rewrite !decide_False by lia. apply Hfresh. lia.
Qed.

(** the buffer Create returns in float mode *)
Lemma create_fm_built (gm : P7_PROFILE F) (s : state F) :
  1 <= Mlen -> fresh_above s -> never_fails s ->
  runs (p7_hmm_ScoreDataCreate cfg OneSlot om (Some gm)) s (fun r s' =>
    r = Ptr (allocs s) /\
    built cfg s s' r (fm_blocks (allocs s) Mlen) /\
    data_at s' r = Some (fm_data OneSlot (allocs s) Mlen) /\
    never_fails s' /\ fresh_above s').
Proof.
  intros HM Hfresh Hnever.
  eapply runs_mono; [by apply create_fm_runs |].
  intros r s1 (-> & tbl & maxs & _ & Hshape).
  destruct Hshape as [Hbelow Hstruct Htable Hmaxs Hsf Hsr Hrf Hrr Habove Hallocs Hok].
  assert (Hd : data_at s1 (Ptr (allocs s)) = Some (fm_data OneSlot (allocs s) Mlen)).
  { unfold data_at, block_at. by rewrite Hstruct. }
  split; [done |]. split; [| split; [done | split]].
  - split.
    + unfold footprint. rewrite Hd.
      cbn [mbind option_bind fm_data sd_M score_table sd_type
        ssv_scores_f prefix_lengths suffix_lengths fwd_scores fwd_transitions opt_ext_fwd
        opt_ext_rev owned_block owned_rows].
      unfold pointers_at, block_at. rewrite Hsf, Hsr. cbn [mbind option_bind].
      rewrite !owned_rows_from_spine by lia. reflexivity.
    + apply NoDup_fm_blocks.
    + intros d Hd'. rewrite Hd in Hd'. injection Hd' as <-. reflexivity.
    + intros x Hx.
      assert (Hge : allocs s <= x < allocs s1).
      { apply elem_of_fm_blocks in Hx
          as [-> | [-> | [-> | [-> | (t & Ht & [-> | ->])]]]]; lia. }
      split; [| split; [apply Hfresh |]; lia].
      apply elem_of_fm_blocks in Hx as [-> | [-> | [-> | [-> | (t & Ht & [-> | ->])]]]].
      * by rewrite Hstruct.
      * by rewrite Htable.
      * by rewrite Hsf.
      * by rewrite Hsr.
      * by rewrite Hrf.
      * by rewrite Hrr.
    + intros x Hx.
      destruct (decide (x < allocs s)) as [Hlow | Hge]; [by apply Hbelow |].
      destruct (decide (allocs s + 3 + 2 * Mlen <= x)) as [Hhigh | Hmid];
        [by apply Habove |].
      destruct (decide (x = allocs s + 2)) as [-> | Hne].
      * rewrite Hmaxs. symmetry. apply Hfresh. lia.
      * exfalso. apply Hx. apply elem_of_fm_blocks_range; [lia | done].
  - intros n Hn. rewrite Hok. apply Hnever. lia.
  - intros x Hx. rewrite Habove by lia. apply Hfresh. lia.
Qed.
End Built.

Section BuiltRest.
Context {F : Type} `{FloatOps F}.
Variable cfg : Config F.
Variable om : P7_OPROFILE F.

Local Abbreviation Mlen := (om_M om).
Local Abbreviation NT := (p7O_NTRANS cfg).

Lemma owned_rows_same (s s' : state F) p lo hi :
  (forall q, p = Ptr q -> heap s' !! q = heap s !! q) ->
  owned_rows s' p lo hi = owned_rows s p lo hi.
Proof.
  intros Hsame. destruct p as [| | q]; [done | done |].
  unfold owned_rows, pointers_at, block_at. by rewrite Hsame.
Qed.

Lemma owned_rows_spine (s : state F) q lo hi l :
  owned_rows s (Ptr q) lo hi = Some l -> q ∈ l.
Proof.
  unfold owned_rows. intros Hl.
  destruct (pointers_at s (Ptr q)) as [spine |]; [| done]. cbn [mbind option_bind] in Hl.
  destruct (owned_rows_from spine (hi - lo) lo) as [rows |]; [| done].
  cbn [mbind option_bind] in Hl. injection Hl as <-.
  apply elem_of_app. right. by apply list_elem_of_singleton.
Qed.

(** ComputeRest on a built buffer whose four members are still null *)
Lemma rest_built (s0 s1 : state F) a d l0 :
  built cfg s0 s1 (Ptr a) l0 ->
  data_at s1 (Ptr a) = Some d ->
  prefix_lengths d = Null -> suffix_lengths d = Null ->
  fwd_scores d = Null -> fwd_transitions d = Null ->
  never_fails s1 -> fresh_above s1 ->
  1 <= Mlen -> p7O_MI cfg < NT -> p7O_II cfg < NT ->
  runs (p7_hmm_ScoreDataComputeRest cfg om (Ptr a)) s1 (fun r s2 =>
    r = eslOK /\
    exists l1, built cfg s0 s2 (Ptr a) l1 /\ never_fails s2 /\ fresh_above s2).
Proof.
  intros [Hfp Hnd Hslot Hlive Hrest] Hd Epl Esl Efs Eft Hnever Hfresh HM HMI HII.
  (* the blocks of the buffer before the call *)
  unfold footprint in Hfp. rewrite Hd in Hfp. cbn [mbind option_bind] in Hfp.
  destruct (sd_M d) as [M' |] eqn:EM; [| done]. cbn [mbind option_bind] in Hfp.
  destruct (owned_block (score_table d)) as [t |] eqn:Et; [| done].
  rewrite Epl, Esl, Efs, Eft in Hfp.
  cbn [mbind option_bind owned_block owned_rows] in Hfp.
  destruct (owned_rows s1 (opt_ext_fwd d) 1 M') as [lf |] eqn:Elf; [| done].
  cbn [mbind option_bind] in Hfp.
  destruct (owned_rows s1 (opt_ext_rev d) 1 M') as [lr |] eqn:Elr; [| done].
  cbn [mbind option_bind] in Hfp. injection Hfp as El0. cbn [app] in El0.
  assert (Hain : a ∈ l0).
  { rewrite <- El0. rewrite !elem_of_app, list_elem_of_singleton. auto. }
  assert (Ha : a < allocs s1) by (by apply Hlive).
  assert (Hbelow : forall x, x ∈ l0 -> x < allocs s1) by (intros x Hx; by apply Hlive).
  assert (Hanot : a ∉ t ++ lf ++ lr).
  { rewrite <- El0 in Hnd. rewrite !(assoc (++)) in Hnd.
    apply NoDup_app in Hnd as (_ & Hdisj & _). intros Hin.
    apply (Hdisj a); [by rewrite <- !(assoc (++)) | by apply list_elem_of_singleton]. }
  assert (Hha : heap s1 !! a = Some (Struct d)).
  { unfold data_at, block_at in Hd.
    destruct (heap s1 !! a) as [[| | | d'] |]; try done. by injection Hd as ->. }
  eapply runs_mono; [by apply compute_rest_runs |].
  intros r s2 (-> & cw & sw & _ & _ & _ & Hshape). split; [done |].
  pose proof (rest_data_at cfg om s1 s2 a d cw sw Hshape) as Hd2.
  destruct Hshape as [Rbelow Rstruct Rfs Rspine Rrows Rtail Rabove Rallocs Rok].
  cbn [length] in Rtail, Rabove, Rallocs.
  set (b := allocs s1) in *.
  exists (t ++ rest_blocks b NT ++ lf ++ lr ++ [a]).
  assert (Hperm : t ++ rest_blocks b NT ++ lf ++ lr ++ [a] ≡ₚ rest_blocks b NT ++ l0).
  { rewrite <- El0. rewrite !(assoc (++) t). rewrite (Permutation_app_comm t).
    by rewrite <- !(assoc (++)). }
  assert (Hmem : forall x, x ∈ t ++ rest_blocks b NT ++ lf ++ lr ++ [a]
                  <-> b <= x < b + 4 + NT \/ x ∈ l0).
  { intros x. rewrite Hperm, elem_of_app, elem_of_rest_blocks. done. }
  assert (Hold : forall q, q ∈ lf ++ lr -> heap s2 !! q = heap s1 !! q).
  { intros q Hq. apply Rbelow.
    - apply Hbelow. rewrite <- El0. rewrite !elem_of_app in *. tauto.
    - intros ->. apply Hanot. rewrite !elem_of_app in *. tauto. }
  split; [| split].
  - split.
    + (* the blocks after the call *)
      unfold footprint. rewrite Hd2. cbn [mbind option_bind].
      destruct d as [ty m sv sf pl sl fs ft ef er].
      cbn [sd_M prefix_lengths suffix_lengths fwd_scores fwd_transitions opt_ext_fwd
           opt_ext_rev] in *.
      subst pl sl fs ft m.
      unfold rest_data.
      cbn [set_suffix_lengths set_prefix_lengths set_fwd_transitions set_fwd_scores
           sd_M prefix_lengths suffix_lengths fwd_scores fwd_transitions opt_ext_fwd
           opt_ext_rev mbind option_bind owned_block].
      fold b.
      change (score_table (Build_P7_SCOREDATA ty (Some M') sv sf _ _ _ _ ef er))
        with (score_table (Build_P7_SCOREDATA ty (Some M') sv sf Null Null Null Null ef er)).
      rewrite Et. cbn [mbind option_bind].
      assert (Eft' : owned_rows s2 (Ptr (b + 1)) 0 NT
                     = Some (map (fun t => b + 2 + t) (seq 0 NT) ++ [b + 1])).
      { unfold owned_rows, pointers_at, block_at. rewrite Rspine. cbn [mbind option_bind].
        rewrite Nat.sub_0_r. rewrite owned_rows_from_trans_spine by lia. done. }
      rewrite Eft'. cbn [mbind option_bind].
      rewrite (owned_rows_same s1 s2 ef), Elf.
      2:{ intros q ->. apply Hold. apply elem_of_app. left.
          by apply (owned_rows_spine s1 q 1 M'). }
      cbn [mbind option_bind].
      rewrite (owned_rows_same s1 s2 er), Elr.
      2:{ intros q ->. apply Hold. apply elem_of_app. right.
          by apply (owned_rows_spine s1 q 1 M'). }
      cbn [mbind option_bind]. unfold rest_blocks. fold b.
      by rewrite <- !(assoc (++)).
    + rewrite Hperm. apply NoDup_app. split; [apply NoDup_rest_blocks |].
      split; [| done].
      intros x Hx%elem_of_rest_blocks Hx'. apply Hbelow in Hx'. lia.
    + intros d' Hd'. rewrite Hd2 in Hd'. injection Hd' as <-.
      pose proof (Hslot d Hd) as Hs. destruct d. exact Hs.
    + intros x Hx. apply Hmem in Hx as [Hnew | Hx].
      * split; [| split; [| lia]].
        -- destruct (decide (x = b)) as [-> | ?]; [by rewrite Rfs |].
           destruct (decide (x = b + 1)) as [-> | ?]; [by rewrite Rspine |].
           destruct (decide (x < b + 2 + NT)) as [Hrow | Htail].
           { replace x with (b + 2 + (x - b - 2)) by lia. by rewrite Rrows by lia. }
           destruct (decide (x = b + 2 + NT)) as [-> | ?].
           { replace (b + 2 + NT) with (b + 2 + NT + 0) by lia. by rewrite Rtail by lia. }
           replace x with (b + 2 + NT + 1) by lia. by rewrite Rtail by lia.
        -- rewrite <- Hrest; [apply Hfresh; lia |].
           intros Hx'. apply Hbelow in Hx'. lia.
      * destruct (Hlive x Hx) as (Hsome & Hnone & Hlt).
        split; [| split; [done | lia]].
        destruct (decide (x = a)) as [-> | Hne]; [by rewrite Rstruct |].
        by rewrite Rbelow.
    + intros x Hx. rewrite Hmem in Hx.
      assert (Hx0 : x ∉ l0) by tauto.
      destruct (decide (x < b)) as [Hlow | Hge].
      * rewrite Rbelow; [by apply Hrest | done | by intros ->].
      * rewrite Rabove by lia. by apply Hrest.
  - intros n Hn. rewrite Rok. apply Hnever. lia.
  - intros x Hx. rewrite Rabove by lia. apply Hfresh. lia.
Qed.

(** Create in either mode, then Destroy: every block is given back *)
Lemma create_destroy_restores (gm : option (P7_PROFILE F)) (s : state F) :
  1 <= Mlen -> fresh_above s -> never_fails s ->
  runs (create_destroy cfg OneSlot om gm) s
    (fun _ s' => forall x, heap s' !! x = heap s !! x).
Proof.
  intros HM Hfresh Hnever. unfold create_destroy. apply runs_bind.
  destruct gm as [gm |].
  - eapply runs_mono; [by apply create_fm_built |].
    intros r s1 (-> & Hbuilt & _). by eapply destroy_built.
  - eapply runs_mono; [by apply create_std_built |].
    intros r s1 (-> & Hbuilt & _). by eapply destroy_built.
Qed.

(** Create in either mode, the window weights, then Destroy: every block
    is given back *)
Lemma windowed_destroy_restores (gm : option (P7_PROFILE F)) (s : state F) :
  1 <= Mlen -> p7O_MI cfg < NT -> p7O_II cfg < NT ->
  fresh_above s -> never_fails s ->
  runs (data ← create_windowed cfg OneSlot om gm; p7_hmm_ScoreDataDestroy cfg data) s
    (fun _ s' => forall x, heap s' !! x = heap s !! x).
Proof.
  intros HM HMI HII Hfresh Hnever. apply runs_bind. unfold create_windowed.
  apply runs_bind.
  assert (Hcreate : runs (p7_hmm_ScoreDataCreate cfg OneSlot om gm) s (fun r s1 =>
            exists l d, r = Ptr (allocs s) /\ built cfg s s1 r l /\
              data_at s1 r = Some d /\
              prefix_lengths d = Null /\ suffix_lengths d = Null /\
              fwd_scores d = Null /\ fwd_transitions d = Null /\
              never_fails s1 /\ fresh_above s1)).
  { destruct gm as [gm |].
    - eapply runs_mono; [by apply create_fm_built |].
      intros r s1 (-> & Hbuilt & Hd & Hn & Hf). by eexists _, _.
    - eapply runs_mono; [by apply create_std_built |].
      intros r s1 (-> & Hbuilt & Hd & Hn & Hf). by eexists _, _. }
  eapply runs_mono; [exact Hcreate |].
  intros r s1 (l & d & -> & Hbuilt & Hd & Epl & Esl & Efs & Eft & Hn & Hf).
  apply runs_bind.
  eapply runs_mono; [by eapply rest_built |].
  intros r s2 (-> & l1 & Hbuilt2 & _). apply runs_ret.
  by eapply destroy_built.
Qed.
End BuiltRest.

(** * The window weights in binary32 *)

Section Binary32Weights.
Import Binary32 Binary32Order Binary32Laws.
Variable cfg : Config spec_float.
Variable om : P7_OPROFILE spec_float.

Local Abbreviation Mlen := (om_M om).
Local Abbreviation mi := (om_fwd_trans om (p7O_MI cfg)).
Local Abbreviation ii := (om_fwd_trans om (p7O_II cfg)).
Local Abbreviation raw := (raw_of cfg mi ii).
Local Abbreviation total := (raw_total cfg Mlen mi ii).
Local Abbreviation w := (weight_of cfg Mlen mi ii).

Hypothesis raw_ok : forall i, 1 <= i < Mlen -> nonneg32 (raw i) /\ finite32 (raw i).
Hypothesis total_nonzero : nonzero32 total.

Lemma raw_sum_nonneg32 l :
  (forall p, p ∈ l -> 1 <= p < Mlen) -> nonneg32 (cumulative_sum raw l).
Proof.
  induction l as [| p l IH] using rev_ind; intros Hl; [exact I |].
  rewrite cumulative_sum_snoc. apply SFadd_nonneg.
  - apply IH. intros q Hq. apply Hl, elem_of_app. by left.
  - apply raw_ok, Hl, elem_of_app. right. by apply list_elem_of_singleton.
Qed.

Lemma weight_nonneg32 i : nonneg32 (w i).
Proof.
  unfold weight_of. case_decide as Hi; [| exact I].
  destruct (raw_ok i Hi) as [Hnn Hfin].
  apply SFdiv_nonneg; [done | | done | done].
  apply raw_sum_nonneg32. intros p Hp%elem_of_seq. lia.
Qed.

Lemma cumulated_nonneg32 i : nonneg32 (cumulated cfg Mlen mi ii i).
Proof.
  induction i as [| i IH]; cbn [cumulated]; [apply weight_nonneg32 |].
  case_decide; [| apply weight_nonneg32].
  apply SFadd_nonneg; [apply weight_nonneg32 | done].
Qed.

Lemma cumulated_mono32 i :
  2 <= i < Mlen ->
  SFleb (cumulated cfg Mlen mi ii (i - 1)) (cumulated cfg Mlen mi ii i) = true.
Proof.
  intros Hi. destruct i as [| i]; [lia |].
  replace (S i - 1) with i by lia.
  cbn [cumulated]. rewrite decide_True by lia.
  apply SFadd_le_r; [apply weight_nonneg32 | apply cumulated_nonneg32].
Qed.

(** In binary32, when the raw lengths are finite and not negative and do
    not add up to zero, the cumulated prefix weights are non-decreasing
    over [i = 2..M-1], and both ends are [0]. *)
Lemma window_weights_monotone_binary32 (s : state spec_float) (a : nat)
    (d : P7_SCOREDATA) :
  heap s !! a = Some (Struct d) -> a < allocs s -> never_fails s ->
  1 <= Mlen -> p7O_MI cfg < p7O_NTRANS cfg -> p7O_II cfg < p7O_NTRANS cfg ->
  exists s',
    p7_hmm_ScoreDataComputeRest cfg om (Ptr a) s = Done eslOK s' /\
    float_cell s' (Ptr a) prefix_lengths 0 = Some (S754_zero false) /\
    float_cell s' (Ptr a) prefix_lengths Mlen = Some (S754_zero false) /\
    forall i, 2 <= i < Mlen ->
      exists x y,
        float_cell s' (Ptr a) prefix_lengths (i - 1) = Some x /\
        float_cell s' (Ptr a) prefix_lengths i = Some y /\
        f_le x y = true.
Proof.
  intros Hd Ha Hnever HM HMI HII.
  destruct (compute_rest_reads cfg om s a d Hd Ha Hnever HM HMI HII) as
    (s' & pw & cw & sw & Hrun & _ & _ & _ & Hpre & _ & _ & Hcw & _).
  exists s'. split; [done |].
  unfold float_cell. rewrite Hpre. cbn [mbind option_bind].
  split; [| split].
  - rewrite Hcw by lia. done.
  - rewrite Hcw by lia. f_equal.
    destruct Mlen as [|m] eqn:Em; [lia |]. cbn [cumulated].
    rewrite decide_False by lia. unfold weight_of. by rewrite decide_False by lia.
  - intros i Hi. eexists _, _. split; [apply Hcw; lia |]. split; [apply Hcw; lia |].
    by apply cumulated_mono32.
Qed.
End Binary32Weights.

Section Binary32Normalized.
Import Binary32 Binary32Order Binary32Laws Binary32Value Binary32Error.
Variable cfg : Config spec_float.
Variable om : P7_OPROFILE spec_float.

Local Abbreviation Mlen := (om_M om).
Local Abbreviation t_mis := (filled_row Mlen (om_fwd_trans om (p7O_MI cfg))).
Local Abbreviation t_iis := (filled_row Mlen (om_fwd_trans om (p7O_II cfg))).
Local Abbreviation raw :=
  (raw_of cfg (om_fwd_trans om (p7O_MI cfg)) (om_fwd_trans om (p7O_II cfg))).
Local Abbreviation total :=
  (raw_total cfg Mlen (om_fwd_trans om (p7O_MI cfg)) (om_fwd_trans om (p7O_II cfg))).
Local Abbreviation w :=
  (weight_of cfg Mlen (om_fwd_trans om (p7O_MI cfg)) (om_fwd_trans om (p7O_II cfg))).

Lemma sum_values_ext (u v : nat -> spec_float) l :
  (forall p, p ∈ l -> u p = v p) -> sum_values u l = sum_values v l.
Proof.
  induction l as [| p l IH]; intros Huv; [done |]. cbn [sum_values fold_right].
  fold (sum_values u l). fold (sum_values v l).
  rewrite IH by (intros q Hq; apply Huv; set_solver).
  by rewrite Huv by set_solver.
Qed.

(** the weights before the cumulation add up to [1] within
    [(M - 1) / 2^21] *)
Lemma weights_sum_within :
  (forall i, 1 <= i < Mlen -> nonneg32 (raw i) /\ finite32 (raw i)) ->
  finite32 total -> nonzero32 total ->
  (forall i, 1 <= i < Mlen -> finite32 (w i) /\ nonneg32 (w i)) /\
  (1 - (Z.of_nat (Mlen - 1) # 2097152) <= sum_values w (seq 1 (Mlen - 1))
   <= 1 + (Z.of_nat (Mlen - 1) # 2097152))%Q.
Proof.
  intros Hraw Hfin Hnz.
  destruct (weights_sum_error raw (seq 1 (Mlen - 1))) as [Hw Hsum].
  { intros p Hp%elem_of_seq. apply Hraw. lia. }
  { exact Hfin. }
  { exact Hnz. }
  assert (Ew : forall p, p ∈ seq 1 (Mlen - 1) -> w p = SFdiv prec emax (raw p) total).
  { intros p Hp%elem_of_seq. unfold weight_of. by rewrite decide_True by lia. }
  split.
  - intros i Hi. rewrite Ew by (apply elem_of_seq; lia). apply Hw, elem_of_seq. lia.
  - rewrite (sum_values_ext w (fun p => SFdiv prec emax (raw p) total)) by exact Ew.
    apply sum_values_within; [exact Hw |].
    by rewrite length_seq in Hsum.
Qed.

(** Claim C4, as amended.  In binary32, for a model of length [M >= 1]:
    after ComputeRest [prefix_lengths[0]] and [prefix_lengths[M]] are
    [0], and [suffix_lengths[M]] is the weight of position [M-1] before
    the cumulation.  When the raw window lengths of positions [1..M-1]
    are finite and not negative, and their float sum is finite and not
    [0]: the weights before the cumulation are finite, their exact sum
    over these positions is [1] within [(M - 1) / 2^21], and the
    cumulated [prefix_lengths] is non-decreasing over [i = 2..M-1]. *)
Theorem window_weights_normalized_binary32 (s : state spec_float) (a : nat)
    (d : P7_SCOREDATA) :
  heap s !! a = Some (Struct d) -> a < allocs s -> never_fails s ->
  1 <= Mlen -> p7O_MI cfg < p7O_NTRANS cfg -> p7O_II cfg < p7O_NTRANS cfg ->
  exists s' pw,
    p7_hmm_ScoreDataComputeRest cfg om (Ptr a) s = Done eslOK s' /\
    normalized_weights cfg Mlen t_mis t_iis (replicate (Mlen + 1) None) = Some pw /\
    float_cell s' (Ptr a) prefix_lengths 0 = Some (S754_zero false) /\
    float_cell s' (Ptr a) prefix_lengths Mlen = Some (S754_zero false) /\
    (exists wlast, aget pw (Mlen - 1) = Some wlast /\
                   float_cell s' (Ptr a) suffix_lengths Mlen = Some wlast) /\
    ((forall i, 1 <= i < Mlen -> nonneg32 (raw i) /\ finite32 (raw i)) ->
     finite32 total -> nonzero32 total ->
     (exists wt : nat -> spec_float,
        (forall i, i <= Mlen -> aget pw i = Some (wt i)) /\
        (forall i, 1 <= i < Mlen -> finite32 (wt i)) /\
        (1 - (Z.of_nat (Mlen - 1) # 2097152) <= sum_values wt (seq 1 (Mlen - 1))
         <= 1 + (Z.of_nat (Mlen - 1) # 2097152))%Q) /\
     (forall i, 2 <= i < Mlen ->
        exists x y,
          float_cell s' (Ptr a) prefix_lengths (i - 1) = Some x /\
          float_cell s' (Ptr a) prefix_lengths i = Some y /\
          f_le x y = true)).
Proof.
  intros Hd Ha Hnever HM HMI HII.
  destruct (compute_rest_reads cfg om s a d Hd Ha Hnever) as
    (s' & pw & cw & sw & Hrun & Hnorm & Hsuf & Hcum & Hpre & Hsufa & Hpw & Hcw & Hsw);
    [lia | done | done |].
  exists s', pw. split; [done |]. split; [done |].
  unfold float_cell. rewrite Hpre, Hsufa. cbn [mbind option_bind].
  split; [| split; [| split]].
  - rewrite Hcw by lia. done.
  - rewrite Hcw by lia. f_equal.
    destruct Mlen as [|m] eqn:Em; [lia |]. cbn [cumulated].
    rewrite decide_False by lia. unfold weight_of. by rewrite decide_False by lia.
  - eexists. split; [apply Hpw; lia |].
    rewrite Hsw by lia. by replace (Mlen - Mlen) with 0 by lia.
  - intros Hraw Hfin Hnz. split.
    + destruct (weights_sum_within Hraw Hfin Hnz) as [Hw Hsum].
      exists w. split; [exact Hpw |]. split; [| exact Hsum].
      intros i Hi. by apply Hw.
    + intros i Hi. eexists _, _.
      split; [apply Hcw; lia |]. split; [apply Hcw; lia |].
      by apply cumulated_mono32.
Qed.
End Binary32Normalized.

(** * Allocation failures in Create *)

Section ErrorPaths.
Context {F : Type}.

Lemma on_ERROR_bind {A B} (m : M F A) (k : A -> M F B) h s (R : res F B) :
  runs m s (fun r s1 => on_ERROR (k r) h s1 = R) -> on_ERROR (m ≫= k) h s = R.
Proof.
  intros (r & s1 & Hm & Hk). unfold on_ERROR, mbind, M_bind, bind in *.
  by rewrite Hm.
Qed.

Lemma on_ERROR_bind_post {A B} (m : M F A) (k : A -> M F B) h s (P : res F B -> Prop) :
  runs m s (fun r s1 => P (on_ERROR (k r) h s1)) -> P (on_ERROR (m ≫= k) h s).
Proof.
  intros (r & s1 & Hm & Hk). unfold on_ERROR, mbind, M_bind, bind in *.
  by rewrite Hm.
Qed.

Lemma on_ERROR_assoc_post {A B C} (m : M F A) (k1 : A -> M F B) (k2 : B -> M F C) h s
    (P : res F C -> Prop) :
  P (on_ERROR (m ≫= fun r => k1 r ≫= k2) h s) -> P (on_ERROR ((m ≫= k1) ≫= k2) h s).
Proof.
  unfold on_ERROR, mbind, M_bind, bind. by destruct (m s) as [r s1 | e s1 |].
Qed.

Lemma on_ERROR_Error_post {A B} (m : M F A) (k : A -> M F B) h s e s' (P : res F B -> Prop) :
  m s = Error e s' -> P (h e s') -> P (on_ERROR (m ≫= k) h s).
Proof.
  intros Hm HP. unfold on_ERROR, mbind, M_bind, bind. by rewrite Hm.
Qed.

Lemma on_ERROR_returns {A} (m : M F A) (x : A) s e s' :
  on_ERROR m (fun _ => mret x) s <> Error e s'.
Proof. unfold on_ERROR. by destruct (m s). Qed.
End ErrorPaths.

Ltac err_assoc :=
  repeat lazymatch goal with
  | |- _ (on_ERROR ((_ ≫= _) ≫= _) _ _) => apply on_ERROR_assoc_post
  end.
Ltac err_step := err_assoc; apply on_ERROR_bind_post.

Section CreateNull.
Context {F : Type} `{FloatOps F}.
Variable cfg : Config F.
Variable layout : table_layout.
Variable om : P7_OPROFILE F.
Variable gm : option (P7_PROFILE F).

(** X1.  Create returns [NULL] exactly when the allocation of the struct
    itself fails, and then the heap is as it was; whenever that
    allocation succeeds, whatever happens to the later ones, the result
    is the address of the new struct. *)
Theorem create_null_only_when_struct_allocation_fails (s s' : state F) (r : pointer) :
  p7_hmm_ScoreDataCreate cfg layout om gm s = Done r s' ->
  (r = Null <-> alloc_ok s (allocs s) = false) /\
  (r = Null -> heap s' = heap s) /\
  (r <> Null -> r = Ptr (allocs s)).
Proof.
  intros Hrun.
  destruct (alloc_ok s (allocs s)) eqn:Hok.
  - assert (Hr : r = Ptr (allocs s)).
    { revert Hrun. unfold p7_hmm_ScoreDataCreate.
      set (h := fun _ : status => p7_hmm_ScoreDataDestroy cfg Null;; mret Null).
      match goal with |- ?lhs = _ -> _ =>
        assert (Hred : exists s9, lhs =
          on_ERROR (_ ← scoredata_GetSSVScoreArrays cfg layout om gm (Ptr (allocs s));
                    mret (Ptr (allocs s))) h s9) end.
      { eexists. apply on_ERROR_bind. run_step. run_step.
        repeat (apply on_ERROR_bind; run_step).
        reflexivity. }
      destruct Hred as (s9 & ->).
      unfold on_ERROR at 1. unfold mbind at 1, M_bind at 1, bind at 1.
      destruct (scoredata_GetSSVScoreArrays cfg layout om gm (Ptr (allocs s)) s9)
        as [st s1 | e s1 |] eqn:HG.
      - intros [= <- <-]. reflexivity.
      - exfalso. revert HG. apply on_ERROR_returns.
      - discriminate. }
    subst r. split; [split; [done | done] |]. split; [done | done].
  - assert (Hnull : p7_hmm_ScoreDataCreate cfg layout om gm s
                    = Done Null (Build_state (heap s) (S (allocs s)) (alloc_ok s))).
    { unfold p7_hmm_ScoreDataCreate.
      eapply on_ERROR_caught; [| reflexivity].
      apply bind_Error. by apply ESL_ALLOC_fails. }
    rewrite Hnull in Hrun. injection Hrun as <- <-.
    split; [done |]. split; [done | done].
Qed.
End CreateNull.

(** * What ComputeRest changes, and what it leaves *)

Section RestFrame.
Context {F : Type} `{FloatOps F}.
Variable cfg : Config F.
Variable om : P7_OPROFILE F.

Local Abbreviation Kp := (abc_Kp (om_abc om)).
Local Abbreviation Mlen := (om_M om).
Local Abbreviation NT := (p7O_NTRANS cfg).

Lemma rest_fwd_scores_at (s0 s : state F) a d cw sw :
  rest_shape cfg om s0 a (rest_data cfg s0 d) NT [Some cw; Some sw] s ->
  float_array s (Ptr a) fwd_scores = Some (filled_table Mlen Kp (om_fwd_score om)).
Proof.
  intros shape. unfold float_array. rewrite (rest_data_at cfg om s0 s a d cw sw shape).
  cbn [mbind option_bind].
  replace (fwd_scores (rest_data cfg s0 d)) with (Ptr (allocs s0))
    by (destruct d; reflexivity).
  unfold floats_at, block_at. by rewrite (rs_fwd_scores _ _ _ _ _ _ _ _ shape).
Qed.

Lemma rest_transition_row_at (s0 s : state F) a d cw sw t :
  rest_shape cfg om s0 a (rest_data cfg s0 d) NT [Some cw; Some sw] s ->
  t < NT ->
  float_row s (Ptr a) fwd_transitions t = Some (filled_row Mlen (om_fwd_trans om t)).
Proof.
  intros shape Ht. unfold float_row. rewrite (rest_data_at cfg om s0 s a d cw sw shape).
  cbn [mbind option_bind].
  replace (fwd_transitions (rest_data cfg s0 d)) with (Ptr (allocs s0 + 1))
    by (destruct d; reflexivity).
  unfold pointers_at, block_at at 1. rewrite (rs_spine _ _ _ _ _ _ _ _ shape).
  cbn [mbind option_bind].
  rewrite trans_spine_upto_lookup by done. rewrite decide_True by done.
  cbn [mbind option_bind]. unfold floats_at, block_at.
  by rewrite (rs_rows _ _ _ _ _ _ _ _ shape t Ht).
Qed.

(** X5.  ComputeRest assigns the four members [fwd_scores], [fwd_transitions],
    [prefix_lengths] and [suffix_lengths], each to blocks allocated during
    the call, and changes nothing else: the type, the length, the score
    table pointers and the two extension tables of the struct are as
    before, and so is every other block that was live.  [fwd_scores] has
    [Kp * (M + 1)] cells, and [fwd_transitions] has [p7O_NTRANS] rows of
    [M + 1] cells. *)
Theorem compute_rest_assigns_four_members (s : state F) (a : nat) (d : P7_SCOREDATA) :
  heap s !! a = Some (Struct d) -> a < allocs s -> never_fails s ->
  1 <= Mlen -> p7O_MI cfg < NT -> p7O_II cfg < NT ->
  exists s' d',
    p7_hmm_ScoreDataComputeRest cfg om (Ptr a) s = Done eslOK s' /\
    data_at s' (Ptr a) = Some d' /\
    (sd_type d' = sd_type d /\ sd_M d' = sd_M d /\
     ssv_scores d' = ssv_scores d /\ ssv_scores_f d' = ssv_scores_f d /\
     opt_ext_fwd d' = opt_ext_fwd d /\ opt_ext_rev d' = opt_ext_rev d) /\
    (fwd_scores d' = Ptr (allocs s) /\ fwd_transitions d' = Ptr (allocs s + 1) /\
     prefix_lengths d' = Ptr (allocs s + 2 + NT) /\
     suffix_lengths d' = Ptr (allocs s + 3 + NT)) /\
    (forall x, x < allocs s -> x <> a -> heap s' !! x = heap s !! x) /\
    (exists tbl, float_array s' (Ptr a) fwd_scores = Some tbl /\
                 length tbl = Kp * (Mlen + 1)) /\
    (forall t, t < NT ->
       exists row, float_row s' (Ptr a) fwd_transitions t = Some row /\
                   length row = Mlen + 1).
Proof.
  intros Hd Ha Hnever HM HMI HII.
  destruct (compute_rest_runs cfg om s a Hnever Ha d Hd HM HMI HII)
    as (r & s' & Hrun & -> & cw & sw & _ & _ & _ & Hshape).
  exists s', (rest_data cfg s d).
  split; [exact Hrun |].
  split; [exact (rest_data_at cfg om s s' a d cw sw Hshape) |].
  split; [by destruct d |].
  split; [by destruct d |].
  split; [exact (rs_below _ _ _ _ _ _ _ _ Hshape) |].
  split.
  - eexists. split; [by eapply rest_fwd_scores_at |].
    unfold filled_table. by rewrite length_imap, length_replicate.
  - intros t Ht. eexists. split; [by eapply rest_transition_row_at |].
    unfold filled_row. by rewrite length_imap, length_replicate.
Qed.

(** X6.  ComputeRest writes every cell [0..M] of [prefix_lengths] and the
    cells [1..M] of [suffix_lengths]; cell [0] of [suffix_lengths] is
    never written and stays as [malloc] left it. *)
Theorem suffix_lengths_first_cell_never_written (s : state F) (a : nat)
    (d : P7_SCOREDATA) :
  heap s !! a = Some (Struct d) -> a < allocs s -> never_fails s ->
  1 <= Mlen -> p7O_MI cfg < NT -> p7O_II cfg < NT ->
  exists s' pl sl,
    p7_hmm_ScoreDataComputeRest cfg om (Ptr a) s = Done eslOK s' /\
    float_array s' (Ptr a) prefix_lengths = Some pl /\ length pl = Mlen + 1 /\
    float_array s' (Ptr a) suffix_lengths = Some sl /\ length sl = Mlen + 1 /\
    (forall i, i <= Mlen -> is_Some (aget pl i)) /\
    (forall i, 1 <= i <= Mlen -> is_Some (aget sl i)) /\
    sl !! 0 = Some None.
Proof.
  intros Hd Ha Hnever HM HMI HII.
  destruct (compute_rest_runs cfg om s a Hnever Ha d Hd HM HMI HII)
    as (r & s' & Hrun & -> & cw & sw & Hww & _ & _ & Hshape).
  pose proof (filled_row_written om (om_fwd_trans om (p7O_MI cfg))) as Hmi.
  pose proof (filled_row_written om (om_fwd_trans om (p7O_II cfg))) as Hii.
  destruct (window_weights_spec cfg Mlen _ _ _ _ HM Hmi Hii
              (replicate (Mlen + 1) None) (replicate (Mlen + 1) None))
    as (cw' & sw' & Hww' & Lc & Ls & Hc & Hs & Hs0);
    [by rewrite length_replicate | by rewrite length_replicate |].
  rewrite Hww in Hww'. injection Hww' as <- <-.
  exists s', cw, sw.
  split; [exact Hrun |].
  split; [exact (rest_prefix_at cfg om s s' a d cw sw Hshape) |].
  split; [exact Lc |].
  split; [exact (rest_suffix_at cfg om s s' a d cw sw Hshape) |].
  split; [exact Ls |].
  split; [intros i Hi; rewrite Hc by done; by eexists |].
  split; [intros i Hi; rewrite Hs by done; by eexists |].
  rewrite Hs0. apply lookup_replicate_2. lia.
Qed.
End RestFrame.

(** * The cells Create never writes in float mode *)

Section FloatBorders.
Context {F : Type} `{FloatOps F}.
Variable cfg : Config F.
Variable layout : table_layout.
Variable om : P7_OPROFILE F.
Variable gm : P7_PROFILE F.

Local Abbreviation Kp := (abc_Kp (om_abc om)).
Local Abbreviation Mlen := (om_M om).

(** X2.  In float mode Create leaves row [0] of the score table unwritten,
    and allocates a row of each extension table for the interior
    positions [1..M-1] only: the cells [0] and [M] of both spines are
    never assigned. *)
Theorem float_mode_borders_never_written (s : state F) :
  1 <= Mlen -> never_fails s ->
  exists data s' tbl,
    p7_hmm_ScoreDataCreate cfg layout om (Some gm) s = Done data s' /\
    float_array s' data ssv_scores_f = Some tbl /\
    (forall j, j < Kp -> tbl !! j = Some None) /\
    (forall i, 1 <= i < Mlen ->
       (exists q, row_pointer s' data opt_ext_fwd i = Some (Ptr q)) /\
       (exists q, row_pointer s' data opt_ext_rev i = Some (Ptr q))) /\
    (forall i, i = 0 \/ i = Mlen ->
       row_pointer s' data opt_ext_fwd i = Some Indet /\
       row_pointer s' data opt_ext_rev i = Some Indet).
Proof.
  intros HM Hnever.
  destruct (create_fm_runs cfg layout om gm s HM Hnever)
    as (data & s' & Hrun & -> & tbl & maxs & Hscan & Hshape).
  destruct (emission_scan_spec cfg om gm (replicate ((Mlen + 1) * Kp) None)
              (replicate (Mlen + 1) None))
    as (st' & Hscan' & _ & _ & _ & Hrest & _);
    [by rewrite length_replicate | by rewrite length_replicate |].
  rewrite Hscan in Hscan'. injection Hscan' as <-. cbn [fst snd] in Hrest.
  assert (Hd : data_at s' (Ptr (allocs s)) = Some (fm_data layout (allocs s) Mlen))
    by (eapply fm_data_at, Hshape).
  assert (Hf : forall i, row_pointer s' (Ptr (allocs s)) opt_ext_fwd i
               = spine_upto (allocs s + 3) Mlen Mlen !! i).
  { intros i. unfold row_pointer. rewrite Hd. read_simpl.
    unfold pointers_at, block_at.
    by rewrite (fm_spine_f _ _ _ _ _ _ _ _ _ _ Hshape). }
  assert (Hr : forall i, row_pointer s' (Ptr (allocs s)) opt_ext_rev i
               = spine_upto (allocs s + 4) Mlen Mlen !! i).
  { intros i. unfold row_pointer. rewrite Hd. read_simpl.
    unfold pointers_at, block_at.
    by rewrite (fm_spine_r _ _ _ _ _ _ _ _ _ _ Hshape). }
  exists (Ptr (allocs s)), s', tbl.
  split; [exact Hrun |].
  split; [eapply fm_table_at, Hshape |].
  split; [| split].
  - intros j Hj. rewrite Hrest by (left; exact Hj).
    apply lookup_replicate_2. nia.
  - intros i Hi. rewrite Hf, Hr, !spine_upto_lookup by lia.
    rewrite !decide_True by lia. split; by eexists.
  - intros i Hi. rewrite Hf, Hr, !spine_upto_lookup by lia.
    by rewrite !decide_False by lia.
Qed.
End FloatBorders.

(** * The suffix weights in binary32 *)

Section Binary32Suffix.
Import Binary32 Binary32Order Binary32Laws.
Variable cfg : Config spec_float.
Variable om : P7_OPROFILE spec_float.

Local Abbreviation Mlen := (om_M om).
Local Abbreviation mi := (om_fwd_trans om (p7O_MI cfg)).
Local Abbreviation ii := (om_fwd_trans om (p7O_II cfg)).
Local Abbreviation raw := (raw_of cfg mi ii).
Local Abbreviation total := (raw_total cfg Mlen mi ii).

Lemma suffix_back_nonneg32 n :
  (forall i, 1 <= i < Mlen -> nonneg32 (raw i) /\ finite32 (raw i)) ->
  nonzero32 total ->
  nonneg32 (suffix_back cfg Mlen mi ii n).
Proof.
  intros raw_ok total_nonzero.
  induction n as [| n IH]; cbn [suffix_back].
  - by apply weight_nonneg32.
  - apply SFadd_nonneg; [exact IH | by apply weight_nonneg32].
Qed.

(** X7.  In binary32, when the raw lengths are finite and not negative and do
    not add up to zero, [suffix_lengths] is non-increasing over
    [i = 1..M], and none of its entries is below [0]. *)
Theorem suffix_weights_nonincreasing_binary32 (s : state spec_float) (a : nat)
    (d : P7_SCOREDATA) :
  (forall i, 1 <= i < Mlen -> nonneg32 (raw i) /\ finite32 (raw i)) ->
  nonzero32 total ->
  heap s !! a = Some (Struct d) -> a < allocs s -> never_fails s ->
  1 <= Mlen -> p7O_MI cfg < p7O_NTRANS cfg -> p7O_II cfg < p7O_NTRANS cfg ->
  exists s',
    p7_hmm_ScoreDataComputeRest cfg om (Ptr a) s = Done eslOK s' /\
    (forall i, 1 <= i <= Mlen ->
       exists x, float_cell s' (Ptr a) suffix_lengths i = Some x /\
                 f_le f_zero x = true) /\
    (forall i, 1 <= i < Mlen ->
       exists x y,
         float_cell s' (Ptr a) suffix_lengths i = Some x /\
         float_cell s' (Ptr a) suffix_lengths (i + 1) = Some y /\
         f_le y x = true).
Proof.
  intros raw_ok total_nonzero Hd Ha Hnever HM HMI HII.
  destruct (compute_rest_reads cfg om s a d Hd Ha Hnever HM HMI HII) as
    (s' & pw & cw & sw & Hrun & _ & _ & _ & _ & Hsuf & _ & _ & Hsw).
  exists s'. split; [exact Hrun |].
  unfold float_cell. rewrite Hsuf. cbn [mbind option_bind].
  split.
  - intros i Hi. eexists. split; [by apply Hsw |].
    apply SFleb_zero. by apply suffix_back_nonneg32.
  - intros i Hi. eexists _, _.
    split; [apply Hsw; lia |]. split; [apply Hsw; lia |].
    replace (Mlen - i) with (S (Mlen - (i + 1))) by lia.
    cbn [suffix_back].
    apply SFadd_le; [by apply suffix_back_nonneg32 | by apply weight_nonneg32].
Qed.
End Binary32Suffix.

(** * ComputeRest on an empty model *)

Section Crashes.
Context {F : Type}.

Lemma on_ERROR_Undef {A} (m : M F A) h s : m s = Undef -> on_ERROR m h s = Undef.
Proof. intros Hm. unfold on_ERROR. by rewrite Hm. Qed.

Lemma bind_Undef {A B} (m : M F A) (k : A -> M F B) s :
  m s = Undef -> (m ≫= k) s = Undef.
Proof. intros Hm. unfold mbind, M_bind, bind. by rewrite Hm. Qed.

Lemma with_floats2_None a1 a2 (l1 l2 : list (option F)) f s :
  a1 <> a2 ->
  heap s !! a1 = Some (Floats l1) -> heap s !! a2 = Some (Floats l2) ->
  f (l1, l2) = None ->
  with_floats2 (Ptr a1) (Ptr a2) f s = Undef.
Proof.
  intros Hne H1 H2 Hf. unfold with_floats2.
  rewrite decide_False by congruence.
  apply bind_runs_eq. eapply runs_load_floats; [done |].
  apply bind_runs_eq. eapply runs_load_floats; [done |].
  by rewrite Hf.
Qed.
End Crashes.

Ltac crash_step := apply bind_runs_eq; run_step.

Section EmptyModel.
Context {F : Type} `{FloatOps F}.
Variable cfg : Config F.
Variable om : P7_OPROFILE F.

Local Abbreviation Kp := (abc_Kp (om_abc om)).
Local Abbreviation Mlen := (om_M om).
Local Abbreviation NT := (p7O_NTRANS cfg).

Lemma window_weights_empty (mis iis : list (option F)) p0 s0 :
  window_weights cfg 0 mis iis (p0, s0) = None.
Proof.
  unfold window_weights, normalized_weights, suffix_weights.
  rewrite !for_range_empty by lia. cbn [mbind option_bind].
  destruct (aset p0 0 f_zero) as [p1 |]; [| done]. cbn [mbind option_bind].
  destruct (aget p1 0) as [v |]; [| done]. cbn [mbind option_bind].
  destruct (aset p1 0 v) as [p2 |]; [| done]. cbn [mbind option_bind].
  done.
Qed.

(** X8.  For a model of length [0] ComputeRest reads [prefix_lengths[-1]]:
    its behaviour is undefined. *)
Theorem compute_rest_undefined_on_empty_model (s : state F) (a : nat) (d : P7_SCOREDATA) :
  Mlen = 0 ->
  heap s !! a = Some (Struct d) -> a < allocs s -> never_fails s ->
  p7O_MI cfg < NT -> p7O_II cfg < NT ->
  p7_hmm_ScoreDataComputeRest cfg om (Ptr a) s = Undef.
Proof.
  intros HM0 Hd Ha Hnever HMI HII. unfold p7_hmm_ScoreDataComputeRest.
  apply on_ERROR_Undef.
  set (b := allocs s).
  crash_step. run_step.
  apply bind_runs_eq.
  eapply GetFwdEmission_runs; [heap_lookup | apply fill_table_fresh |].
  crash_step. run_step.
  apply bind_runs_eq.
  fold b. replace (S b) with (b + 1) by lia.
  eapply runs_mono.
  { apply (alloc_transitions_runs cfg om s a Hnever Ha
             (set_fwd_transitions (Ptr (b + 1)) (set_fwd_scores (Ptr b) d)));
      [by destruct d |].
    split; sd_simpl; rewrite ?trans_spine_upto_first; fold b.
    - intros x Hx Hxa. heap_lookup.
    - heap_lookup.
    - heap_lookup.
    - heap_lookup.
    - intros t Ht. lia.
    - intros k Hk. simpl in Hk. lia.
    - intros x Hx. simpl in Hx. heap_lookup.
    - simpl. lia.
    - done. }
  intros [] [h n ok] [Hbelow Hstruct Hfs Hspine Hrows Htail Habove Hallocs Hok]. cbv beta.
  cbn [heap allocs alloc_ok length] in *. subst n ok. fold b in Hfs, Hspine, Hrows, Habove |- *.
  replace (b + 2 + NT + 0) with (b + 2 + NT) in * by lia.
  crash_step.
  replace (fwd_transitions _) with (Ptr (b + 1)) by (by destruct d).
  apply bind_runs_eq.
  eapply runs_load_ptr; [heap_lookup | by apply trans_spine_upto_lookup |].
  rewrite decide_True by done.
  apply bind_runs_eq.
  eapply runs_load_ptr; [heap_lookup | by apply trans_spine_upto_lookup |].
  rewrite decide_True by done.
  crash_step. run_step. crash_step. run_step.
  apply bind_runs_eq.
  eapply runs_load_floats;
    [sd_simpl; rewrite !lookup_insert_ne by lia; by apply Hrows |].
  apply bind_runs_eq.
  eapply runs_load_floats;
    [sd_simpl; rewrite !lookup_insert_ne by lia; by apply Hrows |].
  crash_step. crash_step.
  apply bind_Undef.
  replace (prefix_lengths _) with (Ptr (b + 2 + NT)) by (by destruct d).
  replace (suffix_lengths _) with (Ptr (S (b + 2 + NT))) by (by destruct d).
  eapply with_floats2_None; [lia | heap_lookup | heap_lookup |].
  rewrite HM0. apply window_weights_empty.
Qed.
End EmptyModel.

(** * Allocation failures in ComputeRest *)

Section RestFailure.
Context {F : Type} `{FloatOps F}.
Variable cfg : Config F.
Variable om : P7_OPROFILE F.

Local Abbreviation Kp := (abc_Kp (om_abc om)).
Local Abbreviation Mlen := (om_M om).
Local Abbreviation NT := (p7O_NTRANS cfg).

Lemma footprint_struct (s : state F) a l : footprint cfg s (Ptr a) = Some l -> a ∈ l.
Proof.
  unfold footprint. intros Hl.
  repeat match type of Hl with
  | (?o ≫= _) = Some _ =>
      destruct o; cbn [mbind option_bind] in Hl; [| discriminate Hl]
  end.
  injection Hl as <-. rewrite !elem_of_app. do 7 right. by apply list_elem_of_singleton.
Qed.

(** X9.  When the first allocation of ComputeRest fails, on a buffer that was
    built and has no [fwd_scores] yet, the error path destroys the whole
    buffer before [eslEMEM] is returned: every block of the buffer is
    released, the struct included, and the pointer the caller holds is
    left dangling. *)
Theorem compute_rest_failure_destroys_buffer (s0 s : state F) (a : nat)
    (d : P7_SCOREDATA) (l : list nat) :
  built cfg s0 s (Ptr a) l ->
  data_at s (Ptr a) = Some d ->
  fwd_scores d = Null ->
  alloc_ok s (allocs s) = false ->
  exists s',
    p7_hmm_ScoreDataComputeRest cfg om (Ptr a) s = Done eslEMEM s' /\
    (forall x, heap s' !! x = heap s0 !! x) /\
    heap s' !! a = None.
Proof.
  intros Hbuilt Hd Hfs Hok.
  assert (Hheap : heap s !! a = Some (Struct d)).
  { unfold data_at, block_at in Hd. destruct (heap s !! a) as [[| | |]|]; by simplify_eq. }
  set (s1 := Build_state (heap s) (S (allocs s)) (alloc_ok s)).
  assert (Hbuilt1 : built cfg s0 s1 (Ptr a) l).
  { destruct Hbuilt as [Hfp Hnd Hslot Hlive Hrest]. split; try done.
    intros x Hx. destruct (Hlive x Hx) as (? & ? & ?). cbn [allocs s1]. auto with lia. }
  destruct (destroy_built cfg s0 s1 (Ptr a) l Hbuilt1) as ([] & s' & Hrun & Hs').
  exists s'. split; [| split; [exact Hs' |]].
  - unfold p7_hmm_ScoreDataComputeRest.
    eapply (on_ERROR_caught _ _ _ eslEMEM s1).
    + apply bind_Error. apply ESL_ALLOC_fails; [exact Hok |].
      unfold assign_data, load_data, get_block, put_block.
      unfold mbind, M_bind, bind, mret, M_ret, ret. cbn [heap].
      rewrite Hheap. cbn [heap]. rewrite Hheap. unfold s1, with_heap. cbn [heap allocs alloc_ok].
      do 2 f_equal. apply insert_id. rewrite Hheap. do 2 f_equal.
      destruct d. cbn in Hfs |- *. by subst.
    + unfold mbind, M_bind, bind. by rewrite Hrun.
  - rewrite Hs'. destruct Hbuilt as [Hfp _ _ Hlive _].
    by apply Hlive, (footprint_struct s).
Qed.
End RestFailure.

(** * A failed row allocation in ComputeRest *)

Section ReachesLemmas.
Context {F : Type}.
Implicit Types (s : state F) (p : pointer).

Lemma reaches_Undef {A B} (m : M F A) (k : A -> M F B) s (Q : A -> state F -> Prop) :
  reaches m s Q -> (forall r s', Q r s' -> k r s' = Undef) -> (m ≫= k) s = Undef.
Proof.
  unfold reaches, mbind, M_bind, bind. intros Hm Hk.
  destruct (m s) as [r s' | e s' |]; [by apply Hk | done | done].
Qed.

Lemma bind_runs_post {A B} (m : M F A) (k : A -> M F B) s (P : res F B -> Prop) :
  runs m s (fun r s' => P (k r s')) -> P ((m ≫= k) s).
Proof.
  intros (r & s' & Hm & Hk). unfold mbind, M_bind, bind. by rewrite Hm.
Qed.

Lemma reaches_bind {A B} (m : M F A) (k : A -> M F B) s (Q : B -> state F -> Prop) :
  reaches m s (fun r s' => reaches (k r) s' Q) -> reaches (m ≫= k) s Q.
Proof.
  unfold reaches, mbind, M_bind, bind. by destruct (m s) as [r s' | e s' |].
Qed.

Lemma shrinks_refl s : shrinks s s.
Proof. intros x. by right. Qed.

Lemma shrinks_trans s1 s2 s3 : shrinks s1 s2 -> shrinks s2 s3 -> shrinks s1 s3.
Proof.
  intros H12 H23 x. destruct (H23 x) as [-> | ->]; [by left | apply H12].
Qed.

Lemma reaches_free p s0 s :
  shrinks s0 s -> reaches (free p) s (fun _ s' => shrinks s0 s').
Proof.
  intros Hs. destruct p as [| | a]; [done | done |].
  unfold reaches. cbn [free]. destruct (heap s !! a) as [b |]; [| done].
  intros x. cbn [heap with_heap].
  destruct (decide (x = a)) as [-> | Hne].
  - left. apply lookup_delete_eq.
  - rewrite lookup_delete_ne by done. apply Hs.
Qed.

Lemma reaches_unless_null_free p s0 s :
  shrinks s0 s -> reaches (unless_null p (free p)) s (fun _ s' => shrinks s0 s').
Proof.
  intros Hs. destruct p as [| | a]; [done | done |].
  by apply (reaches_free (Ptr a)).
Qed.

(** [free(rows[t])] for any row *)
Lemma reaches_free_row rows t s0 s :
  shrinks s0 s ->
  reaches (p ← load_ptr rows t; free p) s (fun _ s' => shrinks s0 s').
Proof.
  intros Hs. apply reaches_bind. unfold load_ptr.
  apply reaches_bind. destruct rows as [| | a]; [done | done |].
  unfold reaches at 1. cbn [get_block]. destruct (heap s !! a) as [[| | l |] |]; try done.
  unfold reaches at 1. destruct (l !! t) as [q |]; [| done]. cbn.
  by apply reaches_free.
Qed.

(** a loop whose pass [j] has undefined behaviour *)
Lemma for_each_crash (Inv : state F -> Prop) (body : nat -> M F unit) j :
  (forall s, Inv s -> body j s = Undef) ->
  (forall t s, t < j -> Inv s -> reaches (body t) s (fun _ s' => Inv s')) ->
  forall n lo s, lo <= j < lo + n -> Inv s -> for_each n lo body s = Undef.
Proof.
  intros Hj Hbefore. induction n as [| n IH]; intros lo s Hlo Hinv; [lia |].
  cbn [for_each]. destruct (decide (lo = j)) as [-> | Hne].
  - apply bind_Undef. by apply Hj.
  - eapply reaches_Undef; [apply Hbefore; [lia | exact Hinv] |].
    intros [] s' Hs'. apply IH; [lia | exact Hs'].
Qed.

Lemma for_each_split (body : nat -> M F unit) n1 n2 : forall lo s,
  for_each (n1 + n2) lo body s
  = (for_each n1 lo body ≫= fun _ => for_each n2 (lo + n1) body) s.
Proof.
  induction n1 as [| n1 IH]; intros lo s.
  - cbn. by rewrite Nat.add_0_r.
  - cbn [for_each Nat.add]. unfold mbind, M_bind, bind.
    destruct (body lo s) as [[] s1 | e s1 |]; [| done | done].
    rewrite IH. unfold mbind, M_bind, bind. by replace (S lo + n1) with (lo + S n1) by lia.
Qed.

Lemma for_each_post {B} (body : nat -> M F unit) n1 n2 lo (k : unit -> M F B) s
    (P : res F B -> Prop) :
  runs (for_each n1 lo body) s
    (fun _ s' => P ((for_each n2 (lo + n1) body ≫= k) s')) ->
  P ((for_each (n1 + n2) lo body ≫= k) s).
Proof.
  intros ([] & s' & Hm & HP). unfold mbind, M_bind, bind in *.
  rewrite for_each_split. unfold mbind, M_bind, bind. by rewrite Hm.
Qed.
End ReachesLemmas.

Section RowFailure.
Context {F : Type} `{FloatOps F}.
Variable cfg : Config F.
Variable om : P7_OPROFILE F.

Local Abbreviation Kp := (abc_Kp (om_abc om)).
Local Abbreviation Mlen := (om_M om).
Local Abbreviation NT := (p7O_NTRANS cfg).

(** the rows [0..i-1] of the transition table, when the allocations up
    to them succeed *)
Lemma alloc_transitions_upto (s0 : state F) a d i s :
  a < allocs s0 ->
  (forall n, allocs s0 <= n < allocs s0 + 2 + i -> alloc_ok s0 n = true) ->
  i <= NT ->
  fwd_transitions d = Ptr (allocs s0 + 1) ->
  rest_shape cfg om s0 a d 0 [] s ->
  runs (for_each i 0 (fun i =>
          ft ← member (Ptr a) fwd_transitions;
          row ← ESL_ALLOC (store_ptr ft i) (Floats (replicate (Mlen + 1) None));
          p7_oprofile_GetFwdTransitionArray om i row)) s
    (fun _ s' => rest_shape cfg om s0 a d i [] s').
Proof.
  intros Ha Hall Hi Hft Hshape. set (b := allocs s0) in *.
  apply (runs_for_each (fun t s' => rest_shape cfg om s0 a d t [] s')); [done |].
  intros t [h n ok] Ht [Hbelow Hstruct Hfs Hspine Hrows Htail Habove Hallocs Hok].
  cbn [heap allocs alloc_ok length] in *. subst n ok. fold b in Hfs, Hspine, Hrows, Habove |- *.
  replace (b + 2 + t + 0) with (b + 2 + t) in * by lia.
  run_step. run_step. rewrite Hft.
  apply runs_bind. apply runs_ESL_ALLOC; [cbn [heap with_heap allocs alloc_ok]; apply Hall; lia |].
  cbn [heap with_heap allocs alloc_ok].
  eapply runs_store_ptr; [heap_lookup | rewrite trans_spine_upto_length; lia |].
  rewrite (trans_spine_upto_insert (b + 2) NT t) by lia.
  cbv beta. sd_simpl.
  eapply GetFwdTransition_runs; [heap_lookup | apply fill_row_fresh |].
  split; sd_simpl; fold b.
  - intros x Hx Hxa. rewrite !lookup_insert_ne by lia. by apply Hbelow.
  - by rewrite !lookup_insert_ne by lia.
  - by rewrite !lookup_insert_ne by lia.
  - rewrite !lookup_insert_ne by lia. by rewrite lookup_insert_eq.
  - intros t' Ht'. destruct (decide (t' = t)) as [-> | Hne].
    + by rewrite lookup_insert_eq.
    + rewrite !lookup_insert_ne by lia. apply Hrows. lia.
  - intros k Hk. simpl in Hk. lia.
  - intros x Hx. simpl in Hx. rewrite !lookup_insert_ne by lia. apply Habove. lia.
  - simpl. lia.
  - done.
Qed.

(** Destroy on a buffer whose transition spine has an unassigned cell *)
Lemma destroy_unassigned_row (s : state F) a d q spine j :
  heap s !! a = Some (Struct d) ->
  fwd_transitions d = Ptr q ->
  heap s !! q = Some (Pointers spine) ->
  spine !! j = Some Indet -> j < NT ->
  p7_hmm_ScoreDataDestroy cfg (Ptr a) s = Undef.
Proof.
  intros Hd Hft Hq Hj HjNT. unfold p7_hmm_ScoreDataDestroy.
  change (unless_null (Ptr a) ?body s) with (body s).
  apply bind_runs_eq. eapply runs_load_data; [exact Hd |].
  eapply reaches_Undef; [apply reaches_unless_null_free, shrinks_refl |].
  intros [] s1 H1. cbv beta.
  eapply reaches_Undef; [by apply reaches_unless_null_free |].
  intros [] s2 H2. cbv beta.
  eapply reaches_Undef; [by apply reaches_unless_null_free |].
  intros [] s3 H3. cbv beta.
  eapply reaches_Undef; [by apply reaches_unless_null_free |].
  intros [] s4 H4. cbv beta.
  apply bind_Undef. rewrite Hft.
  change (unless_null (Ptr q) ?body s4) with (body s4).
  apply bind_Undef. unfold free_rows, for_loop.
  apply (for_each_crash (fun s' => shrinks s s') _ j); [| | lia | exact H4].
  - intros s' Hs'. unfold load_ptr.
    unfold mbind, M_bind, bind. cbn [get_block].
    destruct (Hs' q) as [-> | ->]; [done |]. rewrite Hq. by rewrite Hj.
  - intros t s' _ Hs'. by apply reaches_free_row.
Qed.

(** X10.  When the allocation of transition row [i] fails and [i] is not the
    last row, the error path of ComputeRest calls Destroy on a spine whose
    cells past [i] were never assigned, and Destroy frees what cell
    [i + 1] holds: the behaviour is undefined. *)
Theorem compute_rest_row_failure_is_undefined (s : state F) (a : nat)
    (d : P7_SCOREDATA) (i : nat) :
  heap s !! a = Some (Struct d) -> a < allocs s ->
  (forall n, allocs s <= n < allocs s + 2 + i -> alloc_ok s n = true) ->
  alloc_ok s (allocs s + 2 + i) = false ->
  i + 1 < NT ->
  p7_hmm_ScoreDataComputeRest cfg om (Ptr a) s = Undef.
Proof.
  intros Hd Ha Hall Hfail Hi. unfold p7_hmm_ScoreDataComputeRest.
  set (b := allocs s) in *.
  set (d1 := set_fwd_transitions (Ptr (b + 1)) (set_fwd_scores (Ptr b) d)).
  set (h := fun _ : status => _).
  set (P := fun R : res F status => exists s1 spine,
      R = Error eslEMEM s1 /\
      heap s1 !! a = Some (Struct d1) /\
      heap s1 !! (b + 1) = Some (Pointers spine) /\
      spine !! (i + 1) = Some Indet).
  match goal with |- on_ERROR ?body h s = _ => assert (Hbody : P (body s)) end.
  { apply bind_runs_post.
    apply runs_ESL_ALLOC; [apply Hall; lia |]. cbn [heap with_heap allocs alloc_ok]. fold b.
    run_step.
    apply bind_runs_post.
    eapply GetFwdEmission_runs; [heap_lookup | apply fill_table_fresh |].
    apply bind_runs_post.
    apply runs_ESL_ALLOC; [cbn [heap with_heap allocs alloc_ok]; apply Hall; lia |].
    cbn [heap with_heap allocs alloc_ok]. fold b.
    run_step.
    unfold for_loop. replace (NT - 0) with (i + (NT - i)) by lia.
    apply for_each_post.
    replace (S b) with (b + 1) by lia.
    eapply runs_mono.
    { apply (alloc_transitions_upto s a d1 i); [done | done | lia | by destruct d |].
      split; sd_simpl; rewrite ?trans_spine_upto_first; fold b.
      - intros x Hx Hxa. heap_lookup.
      - heap_lookup.
      - heap_lookup.
      - heap_lookup.
      - intros t Ht. lia.
      - intros k Hk. simpl in Hk. lia.
      - intros x Hx. simpl in Hx. heap_lookup.
      - simpl. lia.
      - done. }
    intros [] [h0 n ok] [Hbelow Hstruct Hfs Hspine Hrows Htail Habove Hallocs Hok]. cbv beta.
    cbn [heap allocs alloc_ok length] in *. subst n ok.
    fold b in Hfs, Hspine, Hrows, Habove |- *.
    replace (b + 2 + i + 0) with (b + 2 + i) in * by lia.
    destruct (NT - i) as [| k] eqn:Ek; [lia |]. cbn [for_each].
    eexists _, _. split; [| split; [| split]].
    - apply bind_Error. apply bind_Error. apply bind_runs_eq.
      eapply runs_member; [cbn [heap]; exact Hstruct |].
      replace (fwd_transitions d1) with (Ptr (b + 1)) by (by destruct d).
      apply bind_Error. apply ESL_ALLOC_fails; [cbn [heap with_heap allocs alloc_ok]; exact Hfail |].
      unfold store_ptr, get_block, put_block.
      unfold mbind, M_bind, bind. cbn [heap allocs alloc_ok]. rewrite Hspine.
      rewrite decide_True by (rewrite trans_spine_upto_length; lia).
      cbn [heap]. rewrite Hspine. reflexivity.
    - cbn [heap with_heap]. rewrite lookup_insert_ne by lia. exact Hstruct.
    - cbn [heap with_heap]. by rewrite lookup_insert_eq.
    - rewrite list_lookup_insert_ne by lia.
      rewrite trans_spine_upto_lookup by lia. by rewrite decide_False by lia. }
  destruct Hbody as (s1 & spine & Hrun & Hs1 & Hsp & Hcell).
  eapply on_ERROR_caught; [exact Hrun |].
  unfold h. apply bind_Undef.
  eapply (destroy_unassigned_row s1 a d1 (b + 1) spine (i + 1)); try done.
  by destruct d.
Qed.
End RowFailure.

(** * Allocation failures in the float-mode extraction *)

Section CreateUnfold.
Context {F : Type} `{FloatOps F}.
Variable cfg : Config F.
Variable layout : table_layout.
Variable om : P7_OPROFILE F.
Variable gm : option (P7_PROFILE F).

(** Create, once the struct is allocated: the members are set to null,
    and the result is that of the extraction, whose status is dropped *)
Lemma create_after_struct (s : state F) st s' :
  alloc_ok s (allocs s) = true ->
  scoredata_GetSSVScoreArrays cfg layout om gm (Ptr (allocs s))
    (Build_state
       (<[allocs s := Struct (Build_P7_SCOREDATA None None Null Null Null Null
                                Null Null Null Null)]> (heap s))
       (S (allocs s)) (alloc_ok s))
  = Done st s' ->
  p7_hmm_ScoreDataCreate cfg layout om gm s = Done (Ptr (allocs s)) s'.
Proof.
  intros Hok HG. unfold p7_hmm_ScoreDataCreate.
  apply on_ERROR_passes.
  apply bind_runs_eq. run_step. run_step.
  repeat (apply bind_runs_eq; run_step).
  apply bind_runs_eq.
  replace (set_fwd_transitions _ _)
    with (Build_P7_SCOREDATA None None Null Null Null Null Null Null Null Null)
    by (by destruct layout).
  sd_simpl. rewrite !insert_insert_eq. by exists st, s'.
Qed.
End CreateUnfold.

Section SpineFailure.
Context {F : Type} `{FloatOps F}.
Variable cfg : Config F.
Variable layout : table_layout.
Variable om : P7_OPROFILE F.
Variable gm : P7_PROFILE F.

Local Abbreviation K := (abc_Kp (om_abc om)).
Local Abbreviation Mlen := (om_M om).

(** The extraction in float mode when the allocation of a spine fails:
    of [opt_ext_fwd] ([second = false]), or of [opt_ext_rev] after that of
    [opt_ext_fwd] succeeded ([second = true]). *)
Lemma get_fm_spine_failure (s : state F) (a : nat) (d : P7_SCOREDATA) (second : bool) :
  heap s !! a = Some (Struct d) -> a < allocs s ->
  alloc_ok s (allocs s) = true -> alloc_ok s (allocs s + 1) = true ->
  (if second
   then alloc_ok s (allocs s + 2) = true /\ alloc_ok s (allocs s + 3) = false
   else alloc_ok s (allocs s + 2) = false) ->
  exists tbl maxs s',
    scoredata_GetSSVScoreArrays cfg layout om (Some gm) (Ptr a) s = Done eslEMEM s' /\
    length tbl = (Mlen + 1) * K /\ length maxs = Mlen + 1 /\
    (forall x, heap s' !! x =
       if decide (x = a) then
         Some (Struct
                 ((if second
                   then fun d => set_opt_ext_rev Null (set_opt_ext_fwd (Ptr (allocs s + 2)) d)
                   else set_opt_ext_fwd Null)
                    (set_ssv_scores_f layout (Ptr (allocs s))
                       (set_type p7_sd_fm (set_M Mlen d)))))
       else if decide (x = allocs s) then Some (Floats tbl)
       else if decide (x = allocs s + 1) then Some (Floats maxs)
       else if decide (x = allocs s + 2)
            then (if second then Some (Pointers (replicate (Mlen + 1) Indet))
                  else heap s !! x)
       else heap s !! x).
Proof.
  intros Hd Ha Hok0 Hok1 Hok2. set (n := allocs s) in *.
  destruct (emission_scan_spec cfg om gm (replicate ((Mlen + 1) * K) None)
              (replicate (Mlen + 1) None))
    as ([tbl maxs] & Hscan & Ltbl & Lmaxs & _);
    [by rewrite length_replicate | by rewrite length_replicate |].
  cbn [fst snd] in Ltbl, Lmaxs. rewrite length_replicate in Ltbl, Lmaxs.
  exists tbl, maxs.
  set (P := fun R : res F status => exists s',
    R = Done eslEMEM s' /\ length tbl = (Mlen + 1) * K /\ length maxs = Mlen + 1 /\
    forall x, heap s' !! x =
       if decide (x = a) then
         Some (Struct
                 ((if second
                   then fun d => set_opt_ext_rev Null (set_opt_ext_fwd (Ptr (n + 2)) d)
                   else set_opt_ext_fwd Null)
                    (set_ssv_scores_f layout (Ptr n)
                       (set_type p7_sd_fm (set_M Mlen d)))))
       else if decide (x = n) then Some (Floats tbl)
       else if decide (x = n + 1) then Some (Floats maxs)
       else if decide (x = n + 2)
            then (if second then Some (Pointers (replicate (Mlen + 1) Indet))
                  else heap s !! x)
       else heap s !! x).
  change (P (scoredata_GetSSVScoreArrays cfg layout om (Some gm) (Ptr a) s)).
  unfold scoredata_GetSSVScoreArrays.
  err_step. run_step.
  err_step. run_step.
  err_step.
  apply runs_ESL_ALLOC; [exact Hok0 |]. cbn [heap with_heap allocs alloc_ok]. fold n.
  run_step.
  err_step.
  apply runs_ESL_ALLOC;
    [cbn [heap with_heap allocs alloc_ok]; by replace (S n) with (n + 1) by lia |].
  cbn [heap with_heap allocs alloc_ok].
  run_step.
  err_step. run_step.
  err_step.
  replace (ssv_scores_f _) with (Ptr n) by (by destruct d, layout).
  eapply runs_with_floats2;
    [| heap_lookup | heap_lookup | exact Hscan | by rewrite length_replicate
     | by rewrite length_replicate |]; [lia |].
  cbn [heap with_heap allocs alloc_ok]. rewrite ?insert_insert_eq.
  set (d1 := set_ssv_scores_f layout (Ptr n) (set_type p7_sd_fm (set_M Mlen d))).
  destruct second.
  - destruct Hok2 as [Hok2 Hok3].
    err_step.
    apply runs_ESL_ALLOC;
      [cbn [heap with_heap allocs alloc_ok]; by replace (S (S n)) with (n + 2) by lia |].
    cbn [heap with_heap allocs alloc_ok].
    run_step.
    err_assoc. eapply on_ERROR_Error_post.
    { apply ESL_ALLOC_fails;
        [cbn [heap with_heap allocs alloc_ok]; by replace (S (S (S n))) with (n + 3) by lia |].
      cbn [heap with_heap allocs alloc_ok].
      unfold assign_data, load_data, get_block, put_block.
      unfold mbind, M_bind, bind, mret, M_ret, ret. cbn [heap with_heap allocs alloc_ok].
      rewrite lookup_insert_eq. cbn [heap]. rewrite lookup_insert_eq. reflexivity. }
    eexists. split; [reflexivity |]. split; [exact Ltbl |]. split; [exact Lmaxs |].
    intros x. cbn [heap with_heap allocs alloc_ok]. rewrite !insert_insert_eq.
    replace (S (S n)) with (n + 2) by lia. replace (S n) with (n + 1) by lia.
    repeat case_decide; subst; try lia;
      repeat first [rewrite lookup_insert_eq | rewrite lookup_insert_ne by lia]; done.
  - err_assoc. eapply on_ERROR_Error_post.
    { apply ESL_ALLOC_fails;
        [cbn [heap with_heap allocs alloc_ok]; by replace (S (S n)) with (n + 2) by lia |].
      cbn [heap with_heap allocs alloc_ok].
      unfold assign_data, load_data, get_block, put_block.
      unfold mbind, M_bind, bind, mret, M_ret, ret. cbn [heap with_heap allocs alloc_ok].
      rewrite ?lookup_insert_ne by lia. rewrite lookup_insert_eq. cbn [heap].
      rewrite ?lookup_insert_ne by lia. rewrite lookup_insert_eq. reflexivity. }
    eexists. split; [reflexivity |]. split; [exact Ltbl |]. split; [exact Lmaxs |].
    intros x. cbn [heap with_heap allocs alloc_ok].
    replace (S n) with (n + 1) by lia.
    repeat case_decide; subst; try lia;
      repeat first [rewrite lookup_insert_eq | rewrite lookup_insert_ne by lia]; done.
Qed.

(** Destroy on a buffer whose forward extension table has an unassigned
    row *)
Lemma destroy_unassigned_ext_row (s : state F) a d q spine j Mlen' :
  heap s !! a = Some (Struct d) ->
  sd_M d = Some Mlen' ->
  fwd_transitions d = Null ->
  opt_ext_fwd d = Ptr q ->
  heap s !! q = Some (Pointers spine) ->
  spine !! j = Some Indet -> 1 <= j < Mlen' ->
  p7_hmm_ScoreDataDestroy cfg (Ptr a) s = Undef.
Proof.
  intros Hd HM Hft Hef Hq Hj HjM. unfold p7_hmm_ScoreDataDestroy.
  change (unless_null (Ptr a) ?body s) with (body s).
  apply bind_runs_eq. eapply runs_load_data; [exact Hd |].
  eapply reaches_Undef; [apply reaches_unless_null_free, shrinks_refl |].
  intros [] s1 H1. cbv beta.
  eapply reaches_Undef; [by apply reaches_unless_null_free |].
  intros [] s2 H2. cbv beta.
  eapply reaches_Undef; [by apply reaches_unless_null_free |].
  intros [] s3 H3. cbv beta.
  eapply reaches_Undef; [by apply reaches_unless_null_free |].
  intros [] s4 H4. cbv beta.
  rewrite Hft.
  change ((unless_null Null ?body ≫= ?k) s4) with (k tt s4). cbv beta.
  apply bind_Undef. rewrite Hef.
  change (unless_null (Ptr q) ?body s4) with (body s4).
  unfold int_member, load_data.
  unfold mbind at 1, M_bind at 1, bind at 1.
  unfold mbind at 1, M_bind at 1, bind at 1.
  unfold mbind at 1, M_bind at 1, bind at 1.
  cbn [get_block].
  destruct (H4 a) as [-> | ->]; [done |]. rewrite Hd. cbn. rewrite HM. cbn.
  apply bind_Undef. unfold free_rows, for_loop.
  apply (for_each_crash (fun s' => shrinks s s') _ j); [| | lia | exact H4].
  - intros s' Hs'. unfold load_ptr.
    unfold mbind, M_bind, bind. cbn [get_block].
    destruct (Hs' q) as [-> | ->]; [done |]. rewrite Hq. by rewrite Hj.
  - intros t s' _ Hs'. by apply reaches_free_row.
Qed.

(** X4.  In float mode, for a model of length [M >= 2], when the allocation
    of [opt_ext_rev] fails after that of [opt_ext_fwd] succeeded, Create
    still returns the buffer, and Destroy on that buffer frees the rows of
    [opt_ext_fwd], none of which was ever assigned: the behaviour is
    undefined. *)
Theorem create_partial_buffer_cannot_be_destroyed (s : state F) :
  2 <= Mlen ->
  (forall n, allocs s <= n < allocs s + 4 -> alloc_ok s n = true) ->
  alloc_ok s (allocs s + 4) = false ->
  exists s',
    p7_hmm_ScoreDataCreate cfg layout om (Some gm) s = Done (Ptr (allocs s)) s' /\
    (exists d, data_at s' (Ptr (allocs s)) = Some d /\
               opt_ext_fwd d = Ptr (allocs s + 3) /\ opt_ext_rev d = Null) /\
    p7_hmm_ScoreDataDestroy cfg (Ptr (allocs s)) s' = Undef.
Proof.
  intros HM Hall Hfail. set (c := allocs s) in *.
  set (d0 := Build_P7_SCOREDATA None None Null Null Null Null Null Null Null Null).
  set (s9 := Build_state (<[c := Struct d0]> (heap s)) (S c) (alloc_ok s)).
  destruct (get_fm_spine_failure s9 c d0 true) as (tbl & maxs & s' & HG & _ & _ & Hheap).
  - unfold s9. cbn [heap]. by rewrite lookup_insert_eq.
  - unfold s9. cbn [allocs]. lia.
  - unfold s9. cbn [allocs alloc_ok]. apply Hall. lia.
  - unfold s9. cbn [allocs alloc_ok]. apply Hall. lia.
  - unfold s9. cbn [allocs alloc_ok]. split; [apply Hall; lia |].
    by replace (S c + 3) with (c + 4) by lia.
  - unfold s9 in Hheap. cbn [allocs] in Hheap.
    exists s'. split; [| split].
    + eapply create_after_struct; [apply Hall; lia | exact HG].
    + eexists. unfold data_at, block_at. rewrite Hheap. rewrite decide_True by done.
      split; [reflexivity |]. cbn. split; [f_equal; lia | done].
    + eapply (destroy_unassigned_ext_row s' c _ (S c + 2) _ 1 Mlen).
      * rewrite Hheap. by rewrite decide_True.
      * by destruct layout.
      * by destruct layout.
      * by destruct layout.
      * rewrite Hheap. rewrite decide_False by lia. rewrite decide_False by lia.
        rewrite decide_False by lia. by rewrite decide_True.
      * apply lookup_replicate_2. lia.
      * lia.
Qed.
End SpineFailure.

Section ScratchLeak.
Context {F : Type} `{FloatOps F}.
Variable cfg : Config F.
Variable om : P7_OPROFILE F.
Variable gm : P7_PROFILE F.

Local Abbreviation Mlen := (om_M om).

(** X3.  In float mode, when the allocation of [opt_ext_fwd] fails, the
    scratch array of per-position maxima is never freed: Create returns
    the buffer with both extension tables null, and after Destroy of that
    buffer the scratch array is the one block left over. *)
Theorem create_failure_leaks_scratch_maxima (s : state F) :
  fresh_above s ->
  (forall n, allocs s <= n < allocs s + 3 -> alloc_ok s n = true) ->
  alloc_ok s (allocs s + 3) = false ->
  exists s1 s2 maxs,
    p7_hmm_ScoreDataCreate cfg OneSlot om (Some gm) s = Done (Ptr (allocs s)) s1 /\
    p7_hmm_ScoreDataDestroy cfg (Ptr (allocs s)) s1 = Done tt s2 /\
    heap s2 !! (allocs s + 2) = Some (Floats maxs) /\ length maxs = Mlen + 1 /\
    forall x, x <> allocs s + 2 -> heap s2 !! x = heap s !! x.
Proof.
  intros Hfresh Hall Hfail. set (c := allocs s) in *.
  set (d0 := Build_P7_SCOREDATA None None Null Null Null Null Null Null Null Null).
  set (s9 := Build_state (<[c := Struct d0]> (heap s)) (S c) (alloc_ok s)).
  destruct (get_fm_spine_failure cfg OneSlot om gm s9 c d0 false)
    as (tbl & maxs & s1 & HG & _ & Lmaxs & Hheap).
  - unfold s9. cbn [heap]. by rewrite lookup_insert_eq.
  - unfold s9. cbn [allocs]. lia.
  - unfold s9. cbn [allocs alloc_ok]. apply Hall. lia.
  - unfold s9. cbn [allocs alloc_ok]. apply Hall. lia.
  - unfold s9. cbn [allocs alloc_ok]. by replace (S c + 2) with (c + 3) by lia.
  - unfold s9 in Hheap. cbn [allocs heap] in Hheap.
    assert (Hd : data_at s1 (Ptr c)
                 = Some (set_opt_ext_fwd Null
                           (set_ssv_scores_f OneSlot (Ptr (S c))
                              (set_type p7_sd_fm (set_M Mlen d0))))).
    { unfold data_at, block_at. rewrite Hheap. by rewrite decide_True. }
    assert (Hfp : footprint cfg s1 (Ptr c) = Some [S c; c]).
    { unfold footprint. rewrite Hd. reflexivity. }
    destruct (destroy_footprint_runs cfg s1 (Ptr c) [S c; c] Hfp)
      as ([] & s2 & Hrun & Hrel & _).
    + apply NoDup_cons. split; [| apply NoDup_singleton].
      rewrite list_elem_of_singleton. lia.
    + intros x Hx. rewrite Hheap.
      apply elem_of_cons in Hx as [-> | Hx%list_elem_of_singleton].
      * rewrite decide_False by lia. rewrite decide_True by done. by eexists.
      * subst x. rewrite decide_True by done. by eexists.
    + intros d Hd'. rewrite Hd in Hd'. by injection Hd' as <-.
    + exists s1, s2, maxs.
      split; [eapply create_after_struct; [apply Hall; lia | exact HG] |].
      split; [exact Hrun |].
      assert (Hin : forall x, x ∈ [S c; c] <-> x = S c \/ x = c).
      { intros x. rewrite elem_of_cons, list_elem_of_singleton. done. }
      split; [| split; [exact Lmaxs |]].
      * rewrite Hrel. rewrite decide_False by (rewrite Hin; lia).
        rewrite Hheap. rewrite decide_False by lia. rewrite decide_False by lia.
        rewrite decide_True by lia. done.
      * intros x Hx. rewrite Hrel. case_decide as Hl.
        { symmetry. apply Hfresh. apply Hin in Hl. lia. }
        rewrite Hheap. rewrite Hin in Hl.
        rewrite decide_False by lia. rewrite decide_False by lia.
        rewrite decide_False by lia.
        case_decide; cbn [heap]; by rewrite lookup_insert_ne by lia.
Qed.
End ScratchLeak.

(** * Clone releases nothing *)

Section NeverFrees.
Context {F : Type}.
Implicit Types (s : state F) (p : pointer).

Lemma retains_refl s : retains s s.
Proof. split; [done |]. split; [done |]. split; [done |]. intros x Hx. lia. Qed.

Lemma retains_trans s1 s2 s3 : retains s1 s2 -> retains s2 s3 -> retains s1 s3.
Proof.
  intros (Ha & Hok & Hold & Hnew) (Ha' & Hok' & Hold' & Hnew').
  split; [lia |]. split; [congruence |]. split; [auto |].
  intros x Hx Hxok. destruct (decide (x < allocs s2)).
  - apply Hold', Hnew; [lia | done].
  - apply Hnew'; [lia | by rewrite Hok].
Qed.

Lemma nf_ret {A} (a : A) : never_frees (mret a : M F A).
Proof. intros s. apply retains_refl. Qed.

Lemma nf_undef {A} : never_frees (undef : M F A).
Proof. by intros s. Qed.

Lemma nf_goto {A} e : never_frees (goto_ERROR e : M F A).
Proof. intros s. apply retains_refl. Qed.

Lemma nf_bind {A B} (m : M F A) (k : A -> M F B) :
  never_frees m -> (forall a, never_frees (k a)) -> never_frees (m ≫= k).
Proof.
  intros Hm Hk s. specialize (Hm s). unfold mbind, M_bind, bind.
  destruct (m s) as [a s1 | e s1 |]; [| done | done].
  specialize (Hk a s1). destruct (k a s1) as [b s2 | e s2 |]; [| | done];
    by eapply retains_trans.
Qed.

Lemma nf_on_ERROR {A} (m : M F A) h :
  never_frees m -> (forall e, never_frees (h e)) -> never_frees (on_ERROR m h).
Proof.
  intros Hm Hh s. specialize (Hm s). unfold on_ERROR.
  destruct (m s) as [a s1 | e s1 |]; [done | | done].
  specialize (Hh e s1). destruct (h e s1) as [b s2 | e' s2 |]; [| | done];
    by eapply retains_trans.
Qed.

Lemma nf_of_option {A} (o : option A) : never_frees (of_option o : M F A).
Proof. destruct o; [apply nf_ret | apply nf_undef]. Qed.

Lemma nf_malloc (b : block F) : never_frees (malloc b).
Proof.
  intros s. unfold malloc. cbv zeta.
  destruct (alloc_ok s (allocs s)) eqn:Hok; unfold retains; cbn [heap allocs alloc_ok].
  - split; [lia |]. split; [done |]. split.
    + intros x Hx. destruct (decide (x = allocs s)) as [-> | Hne].
      * rewrite lookup_insert_eq. by eexists.
      * by rewrite lookup_insert_ne.
    + intros x Hx _. replace x with (allocs s) by lia. rewrite lookup_insert_eq. by eexists.
  - split; [lia |]. split; [done |]. split; [done |].
    intros x Hx Hxok. replace x with (allocs s) in Hxok by lia. congruence.
Qed.

Lemma nf_get_block p : never_frees (get_block (F := F) p).
Proof.
  intros s. destruct p as [| | a]; [done | done |]. cbn.
  destruct (heap s !! a); [apply retains_refl | done].
Qed.

Lemma nf_put_block p (b : block F) : never_frees (put_block p b).
Proof.
  intros s. destruct p as [| | a]; [done | done |]. cbn.
  destruct (heap s !! a) as [b0 |] eqn:Hb; [| done].
  split; [done |]. split; [done |]. split.
  - intros x Hx. cbn. destruct (decide (x = a)) as [-> | Hne].
    + rewrite lookup_insert_eq. by eexists.
    + by rewrite lookup_insert_ne.
  - intros x Hx. cbn in Hx. lia.
Qed.

Lemma nf_is_null p : never_frees (is_null (F := F) p).
Proof. destruct p; [apply nf_undef | apply nf_ret | apply nf_ret]. Qed.

Lemma nf_load_data p : never_frees (load_data (F := F) p).
Proof.
  apply nf_bind; [apply nf_get_block |]. intros [| | |]; first [apply nf_ret | apply nf_undef].
Qed.

Lemma nf_assign_data p set : never_frees (assign_data (F := F) p set).
Proof. apply nf_bind; [apply nf_load_data |]. intros d. apply nf_put_block. Qed.

Lemma nf_member {A} p (f : P7_SCOREDATA -> A) : never_frees (member (F := F) p f).
Proof. apply nf_bind; [apply nf_load_data |]. intros d. apply nf_ret. Qed.

Lemma nf_int_member p f : never_frees (int_member (F := F) p f).
Proof. apply nf_bind; [apply nf_load_data |]. intros d. apply nf_of_option. Qed.

Lemma nf_load_ptr p i : never_frees (load_ptr (F := F) p i).
Proof.
  apply nf_bind; [apply nf_get_block |].
  intros [| | l |]; first [apply nf_of_option | apply nf_undef].
Qed.

Lemma nf_store_ptr p i q : never_frees (store_ptr (F := F) p i q).
Proof.
  apply nf_bind; [apply nf_get_block |].
  intros [| | l |]; try apply nf_undef.
  case_decide; [apply nf_put_block | apply nf_undef].
Qed.

Lemma nf_memcpy dst src n : never_frees (memcpy (F := F) dst src n).
Proof.
  unfold memcpy. case_decide; [apply nf_undef |].
  apply nf_bind; [apply nf_get_block |]. intros bs.
  apply nf_bind; [apply nf_get_block |]. intros bd.
  destruct bs, bd; try apply nf_undef;
    (apply nf_bind; [apply nf_of_option | intros l'; apply nf_put_block]).
Qed.

Lemma nf_ESL_ALLOC assign (b : block F) :
  (forall p, never_frees (assign p)) -> never_frees (ESL_ALLOC assign b).
Proof.
  intros Hassign. apply nf_bind; [apply nf_malloc |]. intros p.
  apply nf_bind; [apply Hassign |]. intros _.
  destruct p; first [apply nf_ret | apply nf_goto].
Qed.

Lemma nf_for_each (body : nat -> M F unit) n : forall lo,
  (forall i, never_frees (body i)) -> never_frees (for_each n lo body).
Proof.
  induction n as [| n IH]; intros lo Hbody; cbn [for_each]; [apply nf_ret |].
  apply nf_bind; [apply Hbody |]. intros _. by apply IH.
Qed.

Lemma nf_unless_null p (body : M F unit) : never_frees body -> never_frees (unless_null p body).
Proof.
  intros Hbody. apply nf_bind; [apply nf_is_null |].
  intros [|]; [apply nf_ret | exact Hbody].
Qed.

End NeverFrees.

Ltac nf_step :=
  lazymatch goal with
  | |- never_frees (_ ≫= _) => apply nf_bind; [| intros ?]
  | |- never_frees (on_ERROR _ _) => apply nf_on_ERROR; [| intros ?]
  | |- never_frees (mret _) => apply nf_ret
  | |- never_frees (ESL_ALLOC _ _) => apply nf_ESL_ALLOC; intros ?
  | |- never_frees (assign_data _ _) => apply nf_assign_data
  | |- never_frees (member _ _) => apply nf_member
  | |- never_frees (int_member _ _) => apply nf_int_member
  | |- never_frees (of_option _) => apply nf_of_option
  | |- never_frees (is_null _) => apply nf_is_null
  | |- never_frees (load_ptr _ _) => apply nf_load_ptr
  | |- never_frees (store_ptr _ _ _) => apply nf_store_ptr
  | |- never_frees (memcpy _ _ _) => apply nf_memcpy
  | |- never_frees (for_loop _ _ _) => apply nf_for_each; intros ?
  | |- never_frees (unless_null _ _) => apply nf_unless_null
  | |- never_frees (match ?x with _ => _ end) => destruct x
  end.

Section CloneKeeps.
Context {F : Type} `{FloatOps F}.
Variable cfg : Config F.
Variable layout : table_layout.

Lemma nf_clone_floats src new f set n : never_frees (clone_floats (F := F) src new f set n).
Proof. unfold clone_floats. repeat nf_step. Qed.

Lemma nf_clone_rows src new f set len lo hi n :
  never_frees (clone_rows (F := F) src new f set len lo hi n).
Proof. unfold clone_rows. repeat nf_step. Qed.

Lemma nf_clone src Kp : never_frees (p7_hmm_ScoreDataClone cfg layout src Kp).
Proof.
  unfold p7_hmm_ScoreDataClone.
  repeat first [apply nf_clone_floats | apply nf_clone_rows | nf_step].
Qed.
End CloneKeeps.

Section JumpsOnFailure.
Context {F : Type}.
Implicit Types (s : state F) (p : pointer).

Lemma jf_ret {A} (a : A) : jumps_on_failure (mret a : M F A).
Proof. by intros s. Qed.

Lemma jf_undef {A} : jumps_on_failure (undef : M F A).
Proof. by intros s. Qed.

Lemma jf_of_option {A} (o : option A) : jumps_on_failure (of_option o : M F A).
Proof. destruct o; [apply jf_ret | apply jf_undef]. Qed.

Lemma jf_bind {A B} (m : M F A) (k : A -> M F B) :
  never_frees m -> jumps_on_failure m -> (forall a, jumps_on_failure (k a)) ->
  jumps_on_failure (m ≫= k).
Proof.
  intros Hnf Hm Hk s. specialize (Hnf s). specialize (Hm s).
  unfold mbind, M_bind, bind.
  destruct (m s) as [a s1 | e s1 |]; [| done | done].
  specialize (Hk a s1). destruct (k a s1) as [b s2 | e s2 |]; [done | | done].
  destruct Hnf as (Hal & Hok & _). destruct Hk as (n & Hn & Hfail).
  exists n. split; [lia | by rewrite <- Hok].
Qed.

Lemma jf_malloc (b : block F) : jumps_on_failure (malloc b).
Proof. intros s. unfold malloc. cbv zeta. by destruct (alloc_ok s (allocs s)). Qed.

Lemma jf_get_block p : jumps_on_failure (get_block (F := F) p).
Proof.
  intros s. destruct p as [| | a]; [done | done |]. cbn. by destruct (heap s !! a).
Qed.

Lemma jf_put_block p (b : block F) : jumps_on_failure (put_block p b).
Proof.
  intros s. destruct p as [| | a]; [done | done |]. cbn. by destruct (heap s !! a).
Qed.

Lemma jf_is_null p : jumps_on_failure (is_null (F := F) p).
Proof. destruct p; [apply jf_undef | apply jf_ret | apply jf_ret]. Qed.

Lemma jf_load_data p : jumps_on_failure (load_data (F := F) p).
Proof.
  apply jf_bind; [apply nf_get_block | apply jf_get_block |].
  intros [| | |]; first [apply jf_ret | apply jf_undef].
Qed.

Lemma jf_assign_data p set : jumps_on_failure (assign_data (F := F) p set).
Proof.
  apply jf_bind; [apply nf_load_data | apply jf_load_data |]. intros d. apply jf_put_block.
Qed.

Lemma jf_member {A} p (f : P7_SCOREDATA -> A) : jumps_on_failure (member (F := F) p f).
Proof. apply jf_bind; [apply nf_load_data | apply jf_load_data |]. intros d. apply jf_ret. Qed.

Lemma jf_int_member p f : jumps_on_failure (int_member (F := F) p f).
Proof.
  apply jf_bind; [apply nf_load_data | apply jf_load_data |]. intros d. apply jf_of_option.
Qed.

Lemma jf_load_ptr p i : jumps_on_failure (load_ptr (F := F) p i).
Proof.
  apply jf_bind; [apply nf_get_block | apply jf_get_block |].
  intros [| | l |]; first [apply jf_of_option | apply jf_undef].
Qed.

Lemma jf_store_ptr p i q : jumps_on_failure (store_ptr (F := F) p i q).
Proof.
  apply jf_bind; [apply nf_get_block | apply jf_get_block |].
  intros [| | l |]; try apply jf_undef.
  case_decide; [apply jf_put_block | apply jf_undef].
Qed.

Lemma jf_memcpy dst src n : jumps_on_failure (memcpy (F := F) dst src n).
Proof.
  unfold memcpy. case_decide; [apply jf_undef |].
  apply jf_bind; [apply nf_get_block | apply jf_get_block |]. intros bs.
  apply jf_bind; [apply nf_get_block | apply jf_get_block |]. intros bd.
  destruct bs, bd; try apply jf_undef;
    (apply jf_bind; [apply nf_of_option | apply jf_of_option | intros l'; apply jf_put_block]).
Qed.

(** the one place that jumps: [ESL_ALLOC], when its [malloc] returned
    [NULL] *)
Lemma jf_ESL_ALLOC assign (b : block F) :
  (forall p, never_frees (assign p)) -> (forall p, jumps_on_failure (assign p)) ->
  jumps_on_failure (ESL_ALLOC assign b).
Proof.
  intros Hnf Hjf s. unfold ESL_ALLOC, mbind, M_bind, bind, malloc. cbv zeta.
  destruct (alloc_ok s (allocs s)) eqn:Hok.
  - specialize (Hnf (Ptr (allocs s))
      (Build_state (<[allocs s := b]> (heap s)) (S (allocs s)) (alloc_ok s))).
    specialize (Hjf (Ptr (allocs s))
      (Build_state (<[allocs s := b]> (heap s)) (S (allocs s)) (alloc_ok s))).
    destruct (assign (Ptr (allocs s)) _) as [[] s1 | e s1 |]; [done | | done].
    destruct Hjf as (n & Hn & Hfail). cbn [allocs alloc_ok] in *.
    exists n. split; [lia | done].
  - specialize (Hnf Null (Build_state (heap s) (S (allocs s)) (alloc_ok s))).
    specialize (Hjf Null (Build_state (heap s) (S (allocs s)) (alloc_ok s))).
    destruct (assign Null _) as [[] s1 | e s1 |]; [| | done].
    + destruct Hnf as (Hal & _). cbn [allocs] in Hal.
      exists (allocs s). split; [cbn [goto_ERROR]; lia | done].
    + destruct Hjf as (n & Hn & Hfail). cbn [allocs alloc_ok] in *.
      exists n. split; [lia | done].
Qed.

Lemma jf_for_each (body : nat -> M F unit) n : forall lo,
  (forall i, never_frees (body i)) -> (forall i, jumps_on_failure (body i)) ->
  jumps_on_failure (for_each n lo body).
Proof.
  induction n as [| n IH]; intros lo Hnf Hjf; cbn [for_each]; [apply jf_ret |].
  apply jf_bind; [apply Hnf | apply Hjf |]. intros _. by apply IH.
Qed.

Lemma jf_unless_null p (body : M F unit) :
  jumps_on_failure body -> jumps_on_failure (unless_null p body).
Proof.
  intros Hbody. apply jf_bind; [apply nf_is_null | apply jf_is_null |].
  intros [|]; [apply jf_ret | exact Hbody].
Qed.

Lemma returns_ret {A} (P : A -> Prop) (a : A) : P a -> returns P (mret a : M F A).
Proof. intros Ha s r s' [= <- _]. exact Ha. Qed.

Lemma returns_bind {A B} (P : B -> Prop) (m : M F A) (k : A -> M F B) :
  (forall a, returns P (k a)) -> returns P (m ≫= k).
Proof.
  intros Hk s r s'. unfold mbind, M_bind, bind.
  destruct (m s) as [a s1 | e s1 |]; [| done | done]. apply Hk.
Qed.

Lemma returns_bind_dep {A B} (Q : A -> Prop) (P : B -> Prop) (m : M F A) (k : A -> M F B) :
  returns Q m -> (forall a, Q a -> returns P (k a)) -> returns P (m ≫= k).
Proof.
  intros Hm Hk s r s'. specialize (Hm s). unfold mbind, M_bind, bind.
  destruct (m s) as [a s1 | e s1 |]; [| done | done]. apply Hk. by eapply Hm.
Qed.

Lemma returns_ESL_ALLOC assign (b : block F) :
  returns (fun p => p <> Null) (ESL_ALLOC assign b).
Proof.
  intros s r s'. unfold ESL_ALLOC, mbind, M_bind, bind.
  destruct (malloc b s) as [p s1 | e s1 |]; [| done | done].
  destruct (assign p s1) as [[] s2 | e s2 |]; [| done | done].
  destruct p; [done | done |]. by intros [= <- _].
Qed.
(** a function that returns what it allocated, and [NULL] from its
    [ERROR] label, returns [NULL] only after a failed [malloc] *)
Lemma on_ERROR_returns_Null (m : M F pointer) s s' :
  jumps_on_failure m -> returns (fun p => p <> Null) m ->
  on_ERROR m (fun _ => mret Null) s = Done Null s' ->
  exists n, allocs s <= n < allocs s' /\ alloc_ok s n = false.
Proof.
  intros Hjf Hret. specialize (Hjf s). specialize (Hret s). unfold on_ERROR.
  destruct (m s) as [r s1 | e s1 |]; [| | done].
  - intros [= -> _]. by destruct (Hret Null s1 eq_refl).
  - intros [= <-]. exact Hjf.
Qed.
End JumpsOnFailure.

Ltac jf_step :=
  lazymatch goal with
  | |- jumps_on_failure (_ ≫= _) => apply jf_bind; [| | intros ?]
  | |- jumps_on_failure (mret _) => apply jf_ret
  | |- jumps_on_failure (ESL_ALLOC _ _) => apply jf_ESL_ALLOC; intros ?
  | |- jumps_on_failure (assign_data _ _) => apply jf_assign_data
  | |- jumps_on_failure (member _ _) => apply jf_member
  | |- jumps_on_failure (int_member _ _) => apply jf_int_member
  | |- jumps_on_failure (of_option _) => apply jf_of_option
  | |- jumps_on_failure (is_null _) => apply jf_is_null
  | |- jumps_on_failure (load_ptr _ _) => apply jf_load_ptr
  | |- jumps_on_failure (store_ptr _ _ _) => apply jf_store_ptr
  | |- jumps_on_failure (memcpy _ _ _) => apply jf_memcpy
  | |- jumps_on_failure (for_loop _ _ _) => apply jf_for_each; intros ?
  | |- jumps_on_failure (unless_null _ _) => apply jf_unless_null
  | |- jumps_on_failure (match ?x with _ => _ end) => destruct x
  end.

Section CloneJumps.
Context {F : Type} `{FloatOps F}.
Variable cfg : Config F.
Variable layout : table_layout.

Lemma jf_clone_floats src new f set n :
  jumps_on_failure (clone_floats (F := F) src new f set n).
Proof. unfold clone_floats. repeat first [jf_step | nf_step]. Qed.

Lemma jf_clone_rows src new f set len lo hi n :
  jumps_on_failure (clone_rows (F := F) src new f set len lo hi n).
Proof. unfold clone_rows. repeat first [jf_step | nf_step]. Qed.

(** X15.  Clone releases nothing.  When it returns [NULL] for a source
    that is not null, an allocation of the call failed; the blocks that
    were live before the call are still live, and so is every block that
    the call allocated before that failure: the ERROR path returns
    without freeing them, and nothing points at them any more. *)
Theorem clone_failure_leaks (s s' : state F) (a Kp : nat) :
  p7_hmm_ScoreDataClone cfg layout (Ptr a) Kp s = Done Null s' ->
  (exists n, allocs s <= n < allocs s' /\ alloc_ok s n = false) /\
  (forall x, is_Some (heap s !! x) -> is_Some (heap s' !! x)) /\
  (forall x, allocs s <= x < allocs s' -> alloc_ok s x = true -> is_Some (heap s' !! x)).
Proof.
  intros Hrun.
  pose proof (nf_clone cfg layout (Ptr a) Kp s) as Hnf. rewrite Hrun in Hnf.
  destruct Hnf as (_ & _ & Hold & Hnew).
  split; [| split; [exact Hold | exact Hnew]].
  revert Hrun. unfold p7_hmm_ScoreDataClone.
  change ((is_null (Ptr a) ≫= ?k) s) with (k false s). cbv beta iota.
  intros Hrun.
  match type of Hrun with on_ERROR ?m ?h s = _ =>
    assert (Hjf : jumps_on_failure m);
    [| assert (Hret : returns (fun p => p <> Null) m) ] end.
  { apply jf_bind; [apply nf_ESL_ALLOC; intros p; apply nf_ret
                   | apply jf_ESL_ALLOC; intros p; [apply nf_ret | apply jf_ret] |].
    intros new.
    repeat first [apply jf_clone_floats | apply jf_clone_rows
                 | apply nf_clone_floats | apply nf_clone_rows | jf_step | nf_step]. }
  { apply returns_bind_dep with (Q := fun p => p <> Null); [apply returns_ESL_ALLOC |].
    intros new Hnn. repeat (apply returns_bind; intros ?). by apply returns_ret. }
  by eapply on_ERROR_returns_Null.
Qed.
End CloneJumps.

(** * Clone *)

Section Memcpy.
Context {F : Type}.
Implicit Types (s : state F).

Lemma copy_cells_fresh {A} n (l : list (option A)) :
  n <= length l -> copy_cells n l (replicate n None) = Some (take n l).
Proof.
  intros Hn. unfold copy_cells. rewrite decide_True by (by rewrite length_replicate).
  rewrite drop_ge by (by rewrite length_replicate). by rewrite app_nil_r.
Qed.

Lemma runs_memcpy_floats dst src n (ls : list (option F)) s (Q : unit -> state F -> Prop) :
  dst <> src ->
  heap s !! src = Some (Floats ls) ->
  heap s !! dst = Some (Floats (replicate n None)) ->
  n <= length ls ->
  Q tt (with_heap (<[dst := Floats (take n ls)]> (heap s)) s) ->
  runs (memcpy (Ptr dst) (Ptr src) n) s Q.
Proof.
  intros Hne Hs Hd Hn HQ. unfold memcpy. rewrite decide_False by congruence.
  eapply runs_bind, runs_get_block; [exact Hs |].
  eapply runs_bind, runs_get_block; [exact Hd |]. cbv beta iota.
  eapply runs_bind, runs_of_option; [by apply copy_cells_fresh |].
  apply runs_put_block; [by eexists | done].
Qed.

Lemma runs_memcpy_bytes dst src n (ls : list (option Byte.byte)) s
    (Q : unit -> state F -> Prop) :
  dst <> src ->
  heap s !! src = Some (Bytes ls) ->
  heap s !! dst = Some (Bytes (replicate n None)) ->
  n <= length ls ->
  Q tt (with_heap (<[dst := Bytes (take n ls)]> (heap s)) s) ->
  runs (memcpy (Ptr dst) (Ptr src) n) s Q.
Proof.
  intros Hne Hs Hd Hn HQ. unfold memcpy. rewrite decide_False by congruence.
  eapply runs_bind, runs_get_block; [exact Hs |].
  eapply runs_bind, runs_get_block; [exact Hd |]. cbv beta iota.
  eapply runs_bind, runs_of_option; [by apply copy_cells_fresh |].
  apply runs_put_block; [by eexists | done].
Qed.

Lemma floats_ok_spec s p n :
  floats_ok s p n = true ->
  exists x l, p = Ptr x /\ heap s !! x = Some (Floats l) /\ n <= length l.
Proof.
  unfold floats_ok, floats_at, block_at.
  destruct p as [| | x]; cbn; [done | done |].
  destruct (heap s !! x) as [[| l | |] |] eqn:Hx; try done. intros Hok.
  exists x, l. split; [done |]. split; [done |]. exact (bool_decide_eq_true_1 _ Hok).
Qed.

Lemma flat_ok_spec s p n :
  flat_ok s p n = true ->
  p = Null \/ exists x l, p = Ptr x /\ heap s !! x = Some (Floats l) /\ n <= length l.
Proof.
  destruct p as [| | x]; [intros Hok | by left | intros Hok]; right;
    by apply floats_ok_spec.
Qed.

Lemma ragged_ok_spec s p lo hi n :
  ragged_ok s p lo hi n = true ->
  p = Null \/
  exists x sp, p = Ptr x /\ heap s !! x = Some (Pointers sp) /\
    forall i, lo <= i < hi ->
      exists y l, sp !! i = Some (Ptr y) /\ heap s !! y = Some (Floats l) /\ n <= length l.
Proof.
  unfold ragged_ok, pointers_at, block_at.
  destruct p as [| | x]; cbn; [done | by left |].
  destruct (heap s !! x) as [[| | sp |] |] eqn:Hx; try done. intros Hok. right.
  exists x, sp. split; [done |]. split; [done |].
  intros i Hi. rewrite forallb_forall in Hok.
  assert (Hin : In i (seq lo (hi - lo))) by (apply list_elem_of_In, elem_of_seq; lia).
  specialize (Hok i Hin). cbv beta in Hok.
  destruct (sp !! i) as [q |]; [| done].
  apply floats_ok_spec in Hok as (y & l & -> & Hy & Hl). by exists y, l.
Qed.
End Memcpy.

Section ClonePhases.
Context {F : Type} `{FloatOps F}.
Variable s0 : state F.
Variable a : nat.
Variable d : P7_SCOREDATA.
Hypothesis Hsrc : heap s0 !! a = Some (Struct d).
Hypothesis Hfresh0 : fresh_above s0.
Hypothesis Hnever0 : never_fails s0.

Local Abbreviation n0 := (allocs s0).

Lemma live_below x b : heap s0 !! x = Some b -> x < n0.
Proof.
  intros Hx. destruct (decide (x < n0)) as [| Hge]; [done |].
  rewrite Hfresh0 in Hx by lia. done.
Qed.

Lemma cloning_alloc_ok s dn x : cloning s0 s dn -> allocs s <= x -> alloc_ok s x = true.
Proof.
  intros Hcl Hx. rewrite (cl_ok _ _ _ Hcl). apply Hnever0.
  pose proof (cl_allocs _ _ _ Hcl). lia.
Qed.

Lemma cloning_never_fails s dn : cloning s0 s dn -> never_fails s.
Proof. intros Hcl x Hx. by eapply cloning_alloc_ok. Qed.

Lemma cloning_src s dn : cloning s0 s dn -> heap s !! a = Some (Struct d).
Proof. intros Hcl. rewrite (cl_old _ _ _ Hcl); [done | by eapply live_below]. Qed.

(** [if (src->f != NULL) { ESL_ALLOC(new->f, ...); memcpy(...); }] for a
    flat member *)
Lemma clone_floats_phase s dn f set n :
  cloning s0 s dn ->
  flat_ok s0 (f d) n = true ->
  set Null dn = dn ->
  runs (clone_floats (Ptr a) (Ptr n0) f set n) s (fun _ s' =>
    cloning s0 s' (set (cloned (f d) (allocs s)) dn) /\
    (forall x, x < allocs s -> x <> n0 -> heap s' !! x = heap s !! x) /\
    allocs s' = allocs s + flat_blocks (f d) /\
    floats_at s' (cloned (f d) (allocs s)) = take n <$> floats_at s0 (f d)).
Proof.
  intros Hcl Hok Hset. unfold clone_floats.
  eapply runs_bind, runs_member; [by eapply cloning_src |].
  destruct (flat_ok_spec s0 (f d) n Hok) as [-> | (x & l & -> & Hx & Hn)].
  - apply runs_unless_null_Null. cbn [cloned flat_blocks]. rewrite Hset.
    split; [done |]. split; [done |]. split; [lia | done].
  - apply runs_unless_null_Ptr. cbn [cloned flat_blocks].
    pose proof (live_below _ _ Hx) as Hxlt.
    destruct Hcl as [Hold Hstruct Hallocs Hlive Hfresh Hok'].
    destruct s as [h q ok]. cbn [heap with_heap allocs alloc_ok] in *. subst ok.
    apply runs_bind. apply runs_ESL_ALLOC; [cbn [allocs alloc_ok]; apply Hnever0; lia |].
    cbn [heap with_heap allocs alloc_ok].
    eapply runs_assign_data; [cbn [heap with_heap]; by rewrite lookup_insert_ne by lia |].
    cbn [heap with_heap allocs alloc_ok].
    eapply runs_memcpy_floats; [lia | | | exact Hn |].
    { cbn [heap with_heap]. rewrite !lookup_insert_ne by lia. by rewrite Hold. }
    { cbn [heap with_heap]. rewrite lookup_insert_ne by lia. by rewrite lookup_insert_eq. }
    cbn [heap with_heap allocs alloc_ok].
    split; [split |]; cbn [heap with_heap allocs alloc_ok].
    + intros y Hy. rewrite !lookup_insert_ne by lia. by apply Hold.
    + rewrite lookup_insert_ne by lia. by rewrite lookup_insert_eq.
    + lia.
    + intros y Hy. destruct (decide (y = q)) as [-> | Hne].
      { rewrite lookup_insert_eq. by eexists. }
      rewrite lookup_insert_ne by done.
      destruct (decide (y = n0)) as [-> | Hne'].
      { rewrite lookup_insert_eq. by eexists. }
      rewrite !lookup_insert_ne by done. apply Hlive. lia.
    + intros y Hy. cbn [heap with_heap allocs] in *. rewrite !lookup_insert_ne by lia.
      apply Hfresh. cbn [allocs]. lia.
    + done.
    + split; [| split; [lia |]].
      * intros y Hy Hyn. by rewrite !lookup_insert_ne by lia.
      * unfold floats_at, block_at. cbn [heap with_heap]. rewrite lookup_insert_eq.
        by rewrite Hx.
Qed.

(** the same for a ragged member: the spine, then the rows [lo..hi-1] *)
Lemma clone_rows_phase s dn f set len lo hi n :
  cloning s0 s dn ->
  ragged_ok s0 (f d) lo hi n = true ->
  lo <= hi -> hi <= len ->
  set Null dn = dn ->
  runs (clone_rows (Ptr a) (Ptr n0) f set len lo hi n) s (fun _ s' =>
    cloning s0 s' (set (cloned (f d) (allocs s)) dn) /\
    (forall x, x < allocs s -> x <> n0 -> heap s' !! x = heap s !! x) /\
    allocs s' = allocs s + ragged_blocks (f d) (hi - lo) /\
    rows_copied s0 s' (f d) (allocs s) lo hi n).
Proof.
  intros Hcl Hok Hlo Hhi Hset. unfold clone_rows.
  eapply runs_bind, runs_member; [by eapply cloning_src |].
  destruct (ragged_ok_spec s0 (f d) lo hi n Hok) as [-> | (x & sp & -> & Hx & Hrows)].
  - apply runs_unless_null_Null. cbn [cloned ragged_blocks rows_copied]. rewrite Hset.
    split; [done |]. split; [done |]. split; [lia | done].
  - apply runs_unless_null_Ptr. cbn [cloned ragged_blocks rows_copied].
    pose proof (live_below _ _ Hx) as Hxlt.
    destruct Hcl as [Hold Hstruct Hallocs Hlive Hfresh Hok'].
    destruct s as [h q ok]. cbn [heap with_heap allocs alloc_ok] in *. subst ok.
    apply runs_bind. apply runs_ESL_ALLOC; [cbn [allocs alloc_ok]; apply Hnever0; lia |].
    cbn [heap with_heap allocs alloc_ok].
    eapply runs_assign_data; [cbn [heap with_heap]; by rewrite lookup_insert_ne by lia |].
    cbn [heap with_heap allocs alloc_ok].
    set (dn' := set (Ptr q) dn).
    apply (runs_for_loop (fun i s' =>
      (forall y, y < q -> y <> n0 -> heap s' !! y = h !! y) /\
      heap s' !! n0 = Some (Struct dn') /\
      (exists spi, heap s' !! q = Some (Pointers spi) /\ length spi = len /\
         forall t, lo <= t < i ->
           spi !! t = Some (Ptr (q + 1 + (t - lo))) /\
           floats_at s' (Ptr (q + 1 + (t - lo))) = take n <$> row_at s0 (Ptr x) t) /\
      allocs s' = q + 1 + (i - lo) /\ alloc_ok s' = alloc_ok s0 /\
      (forall y, q + 1 + (i - lo) <= y -> heap s' !! y = None) /\
      (forall y, q < y < q + 1 + (i - lo) -> is_Some (heap s' !! y)))); [done | | |].
    + cbn [heap with_heap allocs alloc_ok].
      split; [intros y Hy Hyn; by rewrite !lookup_insert_ne by lia |].
      split; [by rewrite lookup_insert_eq |].
      split.
      { exists (replicate len Indet). rewrite lookup_insert_ne by lia. rewrite lookup_insert_eq.
        split; [done |]. split; [by rewrite length_replicate |]. intros t Ht. lia. }
      split; [lia |]. split; [done |].
      split; [| intros y Hy; lia].
      intros y Hy. rewrite !lookup_insert_ne by lia. apply Hfresh. cbn [allocs]. lia.
    + intros i [hi' qi oki] Hi (Hbelow & Hst & (spi & Hspi & Lspi & Hdone) & Hal & Hoki & Habove & Hlv).
      cbn [heap with_heap allocs alloc_ok] in *. subst qi oki.
      destruct (Hrows i Hi) as (y & l & Hspy & Hy & Hl).
      pose proof (live_below _ _ Hy) as Hylt.
      set (r := q + 1 + (i - lo)).
      apply runs_bind. apply runs_ESL_ALLOC; [cbn [allocs alloc_ok]; apply Hnever0; lia |].
      cbn [heap with_heap allocs alloc_ok]. fold r.
      eapply runs_store_ptr; [cbn [heap with_heap]; by rewrite lookup_insert_ne by lia | lia |].
      cbn [heap with_heap allocs alloc_ok].
      apply runs_bind.
      eapply runs_load_ptr; [| exact Hspy |].
      { cbn [heap with_heap]. rewrite !lookup_insert_ne by lia. rewrite Hbelow by lia. by rewrite Hold. }
      eapply runs_memcpy_floats; [lia | | | exact Hl |].
      { cbn [heap with_heap]. rewrite !lookup_insert_ne by lia. rewrite Hbelow by lia. by rewrite Hold. }
      { cbn [heap with_heap]. rewrite lookup_insert_ne by lia. by rewrite lookup_insert_eq. }
      cbn [heap with_heap allocs alloc_ok].
      split; [intros z Hz Hzn; rewrite !lookup_insert_ne by lia; by apply Hbelow |].
      split; [by rewrite !lookup_insert_ne by lia |].
      split.
      { exists (<[i := Ptr r]> spi). rewrite lookup_insert_ne by lia. rewrite lookup_insert_eq.
        split; [done |]. split; [by rewrite length_insert |].
        intros t Ht. destruct (decide (t = i)) as [-> | Hne].
        - rewrite list_lookup_insert_eq by lia. split; [done |].
          unfold floats_at, block_at. cbn [heap with_heap]. fold r. rewrite lookup_insert_eq.
          unfold row_at, pointers_at, block_at. rewrite Hx. cbn [mbind option_bind].
          rewrite Hspy. cbn [mbind option_bind]. unfold floats_at, block_at. by rewrite Hy.
        - rewrite list_lookup_insert_ne by done.
          destruct (Hdone t) as [Ht1 Ht2]; [lia |]. split; [done |].
          unfold floats_at, block_at in Ht2 |- *. cbn [heap with_heap].
          rewrite !lookup_insert_ne by (unfold r; lia). exact Ht2. }
      split; [unfold r; lia |]. split; [done |].
      split.
      { intros z Hz. rewrite !lookup_insert_ne by (unfold r; lia). apply Habove. lia. }
      intros z Hz. destruct (decide (z = r)) as [-> | Hne].
      { rewrite lookup_insert_eq. by eexists. }
      rewrite !lookup_insert_ne by lia. apply Hlv. unfold r in Hne. lia.
    + intros [h' q' ok'] (Hbelow & Hst & (spi & Hspi & Lspi & Hdone) & Hal & Hoki & Habove & Hlv).
      cbn [heap with_heap allocs alloc_ok] in *. subst q' ok'.
      split; [split |]; cbn [heap with_heap allocs alloc_ok].
      * intros y Hy. rewrite Hbelow by lia. by apply Hold.
      * exact Hst.
      * lia.
      * intros y Hy. destruct (decide (y = n0)) as [-> | Hn0]; [by rewrite Hst |].
        destruct (decide (y < q)) as [Hlt | Hge].
        { rewrite Hbelow by lia. apply Hlive. lia. }
        destruct (decide (y = q)) as [-> | Hq]; [by rewrite Hspi |].
        apply Hlv. lia.
      * intros y Hy. cbn [heap with_heap allocs] in *. apply Habove. lia.
      * done.
      * split; [| split; [lia |]].
        { intros y Hy Hyn. by apply Hbelow. }
        exists spi. split; [done |]. intros i Hi. by apply Hdone.
Qed.
End ClonePhases.

Section CloneRuns.
Context {F : Type} `{FloatOps F}.
Variable cfg : Config F.
Variable layout : table_layout.

Local Abbreviation NT := (p7O_NTRANS cfg).

Lemma floats_at_agree (s s' : state F) p :
  (forall x, p = Ptr x -> heap s' !! x = heap s !! x) -> floats_at s' p = floats_at s p.
Proof.
  intros Hag. destruct p as [| | x]; [done | done |].
  unfold floats_at, block_at. by rewrite Hag.
Qed.

Lemma floats_at_cloned_agree (s s' : state F) p q :
  (forall x, q <= x < q + flat_blocks p -> heap s' !! x = heap s !! x) ->
  floats_at s' (cloned p q) = floats_at s (cloned p q).
Proof.
  intros Hag. apply floats_at_agree. intros x Hx.
  destruct p; cbn in *; try done; injection Hx as <-; apply Hag; lia.
Qed.

Lemma rows_copied_agree (s0 s s' : state F) p q lo hi n :
  (forall x, q <= x < q + ragged_blocks p (hi - lo) -> heap s' !! x = heap s !! x) ->
  rows_copied s0 s p q lo hi n -> rows_copied s0 s' p q lo hi n.
Proof.
  intros Hag. unfold rows_copied. destruct p as [| | x]; [| done |]; cbn in Hag.
  all: intros (sp & Hsp & Hrows); exists sp; (split; [by rewrite Hag by lia |]).
  all: intros i Hi; destruct (Hrows i Hi) as [Hi1 Hi2]; (split; [done |]).
  all: rewrite <- Hi2; apply floats_at_agree; intros y [= <-]; apply Hag; lia.
Qed.

Lemma clone_runs (s : state F) (a : nat) (d : P7_SCOREDATA) (t : p7_scoredatatype_e)
    (Mlen Kp : nat) :
  heap s !! a = Some (Struct d) ->
  sd_M d = Some Mlen -> sd_type d = Some t ->
  1 <= Mlen ->
  clone_source cfg s d Kp = true ->
  never_fails s -> fresh_above s ->
  runs (p7_hmm_ScoreDataClone cfg layout (Ptr a) Kp) s (fun r s' =>
    r = Ptr (allocs s) /\ clone_shape cfg layout s s' d t Mlen Kp).
Proof.
  intros Hsrc HM Ht HMpos Hok Hnever Hfresh.
  assert (Ha : a < allocs s) by (by eapply live_below).
  unfold clone_source in Hok. rewrite HM in Hok.
  repeat (apply andb_prop in Hok as [Hok ?]).
  unfold p7_hmm_ScoreDataClone.
  apply runs_bind. apply (runs_ret false). cbv beta iota.
  run_step. run_step. run_step. run_step. run_step.
  eapply runs_int_member; [heap_lookup | exact HM |].
  run_step. run_step. run_step. run_step. rewrite Ht.
  run_step. apply runs_of_option with (r := t); [done |].
  repeat run_step.
  cbn [heap with_heap allocs alloc_ok].
  set (c := allocs s) in *.
  set (d1 := Build_P7_SCOREDATA (Some t) (Some Mlen) Null _ Null Null Null Null Null Null).
  set (d2 := Build_P7_SCOREDATA (Some t) (Some Mlen)
               (clone_table_slots layout t (c + 1)).1 (clone_table_slots layout t (c + 1)).2
               Null Null Null Null Null Null).
  (* the score table *)
  assert (Htable : runs
    match t with
    | p7_sd_std =>
        to ← ESL_ALLOC (fun p => assign_data (Ptr c) (set_ssv_scores layout p))
                       (Bytes (replicate ((Mlen + 1) * Kp) None));
        from ← member (Ptr a) ssv_scores;
        memcpy to from ((Mlen + 1) * Kp)
    | p7_sd_fm =>
        to ← ESL_ALLOC (fun p => assign_data (Ptr c) (set_ssv_scores_f layout p))
                       (Floats (replicate ((Mlen + 1) * Kp) None));
        from ← member (Ptr a) ssv_scores_f;
        memcpy to from ((Mlen + 1) * Kp)
    end
    (Build_state (<[c := Struct d1]> (heap s)) (S c) (alloc_ok s))
    (fun _ s2 =>
       cloning s s2 d2 /\ allocs s2 = c + 2 /\
       match t with
       | p7_sd_std =>
           bytes_at s2 (Ptr (c + 1))
           = take ((Mlen + 1) * Kp) <$> bytes_at s (ssv_scores d)
       | p7_sd_fm =>
           floats_at s2 (Ptr (c + 1))
           = take ((Mlen + 1) * Kp) <$> floats_at s (ssv_scores_f d)
       end)).
  { unfold table_ok in Hok. rewrite Ht in Hok. destruct t.
    - destruct (bytes_at s (ssv_scores d)) as [l |] eqn:Hl; [| done].
      apply bool_decide_eq_true_1 in Hok.
      unfold bytes_at, block_at in Hl.
      destruct (ssv_scores d) as [| | x] eqn:Hx; [done | done |].
      destruct (heap s !! x) as [[l' | | |] |] eqn:Hhx; try done. injection Hl as ->.
      assert (Hxlt : x < c) by (by eapply live_below).
      run_step. run_step. run_step. run_step. run_step. rewrite Hx.
      eapply runs_memcpy_bytes; [lia | heap_lookup | heap_lookup | exact Hok |].
      cbn [heap with_heap allocs alloc_ok].
      split; [split |]; cbn [heap with_heap allocs alloc_ok].
      + intros y Hy. by rewrite !lookup_insert_ne by lia.
      + rewrite lookup_insert_ne by lia. rewrite lookup_insert_eq.
        unfold d2. replace (S c) with (c + 1) by lia. by destruct layout.
      + lia.
      + intros y Hy. destruct (decide (y = c)) as [-> | Hne].
        * rewrite lookup_insert_ne by lia. rewrite lookup_insert_eq. by eexists.
        * replace y with (S c) by lia. rewrite lookup_insert_eq. by eexists.
      + intros y Hy. cbn [heap with_heap allocs alloc_ok] in Hy |- *.
        rewrite !lookup_insert_ne by lia. apply Hfresh. lia.
      + done.
      + split; [lia |]. unfold bytes_at, block_at. cbn [heap with_heap].
        replace (c + 1) with (S c) by lia. by rewrite lookup_insert_eq.
    - apply floats_ok_spec in Hok as (x & l & Hx & Hhx & Hok).
      assert (Hxlt : x < c) by (by eapply live_below).
      run_step. run_step. run_step. run_step. run_step. rewrite Hx.
      eapply runs_memcpy_floats; [lia | heap_lookup | heap_lookup | exact Hok |].
      cbn [heap with_heap allocs alloc_ok].
      split; [split |]; cbn [heap with_heap allocs alloc_ok].
      + intros y Hy. by rewrite !lookup_insert_ne by lia.
      + rewrite lookup_insert_ne by lia. rewrite lookup_insert_eq.
        unfold d2. replace (S c) with (c + 1) by lia. by destruct layout.
      + lia.
      + intros y Hy. destruct (decide (y = c)) as [-> | Hne].
        * rewrite lookup_insert_ne by lia. rewrite lookup_insert_eq. by eexists.
        * replace y with (S c) by lia. rewrite lookup_insert_eq. by eexists.
      + intros y Hy. cbn [heap with_heap allocs alloc_ok] in Hy |- *.
        rewrite !lookup_insert_ne by lia. apply Hfresh. lia.
      + done.
      + split; [lia |]. unfold floats_at, block_at. cbn [heap with_heap].
        replace (c + 1) with (S c) by lia. rewrite lookup_insert_eq. by rewrite ?Hx, ?Hhx. }
  eapply runs_mono; [exact Htable |]. clear Htable.
  intros [] s2 (Hcl2 & Hal2 & Htbl). cbv beta.
  (* the three flat members *)
  apply runs_bind. eapply runs_mono.
  { apply (clone_floats_phase s a d Hsrc Hfresh Hnever s2 d2 prefix_lengths
             set_prefix_lengths (Mlen + 1) Hcl2); [done | done]. }
  intros [] s3 (Hcl3 & Hfr3 & Hal3 & Hv3). cbv beta.
  apply runs_bind. eapply runs_mono.
  { apply (clone_floats_phase s a d Hsrc Hfresh Hnever s3 _ suffix_lengths
             set_suffix_lengths (Mlen + 1) Hcl3); [done | done]. }
  intros [] s4 (Hcl4 & Hfr4 & Hal4 & Hv4). cbv beta.
  apply runs_bind. eapply runs_mono.
  { apply (clone_floats_phase s a d Hsrc Hfresh Hnever s4 _ fwd_scores
             set_fwd_scores (Mlen + 1) Hcl4); [done | done]. }
  intros [] s5 (Hcl5 & Hfr5 & Hal5 & Hv5). cbv beta.
  (* the three ragged members *)
  apply runs_bind. eapply runs_mono.
  { apply (clone_rows_phase s a d Hsrc Hfresh Hnever s5 _ opt_ext_fwd
             set_opt_ext_fwd (Mlen + 1) 1 Mlen 10 Hcl5); [done | lia | lia | done]. }
  intros [] s6 (Hcl6 & Hfr6 & Hal6 & Hv6). cbv beta.
  apply runs_bind. eapply runs_mono.
  { apply (clone_rows_phase s a d Hsrc Hfresh Hnever s6 _ opt_ext_rev
             set_opt_ext_rev (Mlen + 1) 1 Mlen 10 Hcl6); [done | lia | lia | done]. }
  intros [] s7 (Hcl7 & Hfr7 & Hal7 & Hv7). cbv beta.
  apply runs_bind. eapply runs_mono.
  { apply (clone_rows_phase s a d Hsrc Hfresh Hnever s7 _ fwd_transitions
             set_fwd_transitions NT 0 NT (Mlen + 1) Hcl7); [done | lia | lia | done]. }
  intros [] s8 (Hcl8 & Hfr8 & Hal8 & Hv8). cbv beta.
  apply runs_ret. split; [done |].
  (* the addresses *)
  set (w := clone_addresses cfg d Mlen c).
  assert (E3 : allocs s2 = at_prefix w) by (unfold w; cbn; lia).
  assert (E4 : allocs s3 = at_suffix w) by (unfold w; cbn; lia).
  assert (E5 : allocs s4 = at_fwd_scores w) by (unfold w; cbn; lia).
  assert (E6 : allocs s5 = at_ext_fwd w) by (unfold w; cbn; lia).
  assert (E7 : allocs s6 = at_ext_rev w) by (unfold w; cbn; lia).
  assert (E8 : allocs s7 = at_transitions w) by (unfold w; cbn; lia).
  assert (E9 : allocs s8 = at_end w).
  { unfold w. cbn. rewrite Nat.sub_0_r in Hal8. lia. }
  assert (Hord : at_prefix w = c + 2 /\
                 at_suffix w = at_prefix w + flat_blocks (prefix_lengths d) /\
                 at_fwd_scores w = at_suffix w + flat_blocks (suffix_lengths d) /\
                 at_ext_fwd w = at_fwd_scores w + flat_blocks (fwd_scores d) /\
                 at_ext_rev w = at_ext_fwd w + ragged_blocks (opt_ext_fwd d) (Mlen - 1) /\
                 at_transitions w
                 = at_ext_rev w + ragged_blocks (opt_ext_rev d) (Mlen - 1)).
  { unfold w. cbn. lia. }
  destruct Hord as (O2 & O3 & O4 & O5 & O6 & O7).
  rewrite E3 in *. rewrite E4 in *. rewrite E5 in *. rewrite E6 in *.
  rewrite E7 in *. rewrite E8 in *.
  (* what the later phases leave of the earlier ones *)
  assert (K7 : forall x, x < at_transitions w -> x <> c -> heap s8 !! x = heap s7 !! x)
    by exact Hfr8.
  assert (K6 : forall x, x < at_ext_rev w -> x <> c -> heap s8 !! x = heap s6 !! x).
  { intros x Hx Hxc. rewrite K7 by lia. by apply Hfr7. }
  assert (K5 : forall x, x < at_ext_fwd w -> x <> c -> heap s8 !! x = heap s5 !! x).
  { intros x Hx Hxc. rewrite K6 by lia. by apply Hfr6. }
  assert (K4 : forall x, x < at_fwd_scores w -> x <> c -> heap s8 !! x = heap s4 !! x).
  { intros x Hx Hxc. rewrite K5 by lia. by apply Hfr5. }
  assert (K3 : forall x, x < at_suffix w -> x <> c -> heap s8 !! x = heap s3 !! x).
  { intros x Hx Hxc. rewrite K4 by lia. by apply Hfr4. }
  assert (K2 : forall x, x < at_prefix w -> x <> c -> heap s8 !! x = heap s2 !! x).
  { intros x Hx Hxc. rewrite K3 by lia. by apply Hfr3. }
  split; fold c; fold w.
  - exact Hcl8.
  - exact E9.
  - destruct t.
    + rewrite <- Htbl. unfold bytes_at, block_at. by rewrite K2 by lia.
    + rewrite <- Htbl. unfold floats_at, block_at. by rewrite K2 by lia.
  - rewrite <- Hv3. apply floats_at_cloned_agree. intros x Hx. apply K3; lia.
  - rewrite <- Hv4. apply floats_at_cloned_agree. intros x Hx. apply K4; lia.
  - rewrite <- Hv5. apply floats_at_cloned_agree. intros x Hx. apply K5; lia.
  - eapply rows_copied_agree; [| exact Hv6]. intros x Hx. apply K6; lia.
  - eapply rows_copied_agree; [| exact Hv7]. intros x Hx. apply K7; lia.
  - exact Hv8.
Qed.
End CloneRuns.

Section CloneFootprint.
Context {F : Type} `{FloatOps F}.
Variable cfg : Config F.
Variable layout : table_layout.

Local Abbreviation NT := (p7O_NTRANS cfg).

Lemma elem_of_flat_list p q x : x ∈ flat_list p q <-> q <= x < q + flat_blocks p.
Proof.
  destruct p; cbn; rewrite ?list_elem_of_singleton, ?elem_of_nil; lia.
Qed.

Lemma NoDup_flat_list p q : NoDup (flat_list p q).
Proof. destruct p; cbn; first [apply NoDup_nil_2 | apply NoDup_singleton]. Qed.

Lemma elem_of_ragged_list p q rows x :
  x ∈ ragged_list p q rows <-> q <= x < q + ragged_blocks p rows.
Proof.
  destruct p; cbn; rewrite ?elem_of_app, ?elem_of_seq, ?list_elem_of_singleton, ?elem_of_nil;
    lia.
Qed.

Lemma NoDup_ragged_list p q rows : NoDup (ragged_list p q rows).
Proof.
  destruct p; cbn; [| apply NoDup_nil_2 |].
  all: apply NoDup_app; split; [apply NoDup_seq |]; split; [| apply NoDup_singleton].
  all: intros x Hx%elem_of_seq Hx'%list_elem_of_singleton; lia.
Qed.

Lemma owned_block_cloned p q : owned_block (cloned p q) = Some (flat_list p q).
Proof. by destruct p. Qed.

Lemma owned_rows_from_copied (sp : list pointer) q lo n : forall i,
  (forall t, i <= t < i + n -> sp !! t = Some (Ptr (q + 1 + (t - lo)))) ->
  lo <= i ->
  owned_rows_from sp n i = Some (seq (q + 1 + (i - lo)) n).
Proof.
  induction n as [| n IH]; intros i Hsp Hi; [done |].
  cbn [owned_rows_from seq]. rewrite Hsp by lia. cbn [mbind option_bind owned_block].
  rewrite IH; [| intros t Ht; apply Hsp; lia | lia].
  cbn [mbind option_bind app]. do 3 f_equal. lia.
Qed.

Lemma owned_rows_cloned (s0 s : state F) p q lo hi n :
  rows_copied s0 s p q lo hi n ->
  owned_rows s (cloned p q) lo hi = Some (ragged_list p q (hi - lo)).
Proof.
  unfold rows_copied. destruct p as [| | x]; [| done |]; cbn [cloned ragged_list].
  all: intros (sp & Hsp & Hrows); unfold owned_rows, pointers_at, block_at; rewrite Hsp.
  all: cbn [mbind option_bind].
  all: rewrite (owned_rows_from_copied sp q lo (hi - lo) lo);
    [| intros t Ht; apply Hrows; lia | lia].
  all: cbn [mbind option_bind]; by replace (q + 1 + (lo - lo)) with (q + 1) by lia.
Qed.

Lemma row_at_cloned (s0 s : state F) p q lo hi n i :
  rows_copied s0 s p q lo hi n -> lo <= i < hi ->
  row_at s (cloned p q) i = take n <$> row_at s0 p i.
Proof.
  unfold rows_copied. intros Hc Hi. destruct p as [| | x]; [| done |]; cbn [cloned].
  all: destruct Hc as (sp & Hsp & Hrows); destruct (Hrows i Hi) as [Hi1 Hi2].
  all: unfold row_at at 1, pointers_at, block_at; rewrite Hsp; cbn [mbind option_bind].
  all: rewrite Hi1; cbn [mbind option_bind]; exact Hi2.
Qed.

Lemma clone_data_at (s s' : state F) d t Mlen Kp :
  clone_shape cfg layout s s' d t Mlen Kp ->
  data_at s' (Ptr (allocs s)) = Some (clone_data cfg layout d t Mlen (allocs s)).
Proof.
  intros Hsh. unfold data_at, block_at.
  by rewrite (cl_struct _ _ _ (cs_cloning _ _ _ _ _ _ _ _ Hsh)).
Qed.

Lemma elem_of_clone_blocks d Mlen c x :
  x ∈ clone_blocks cfg d Mlen c <-> c <= x < at_end (clone_addresses cfg d Mlen c).
Proof.
  unfold clone_blocks. rewrite !elem_of_app, !elem_of_flat_list, !elem_of_ragged_list.
  rewrite !list_elem_of_singleton. cbn. lia.
Qed.

Lemma NoDup_clone_blocks d Mlen c : NoDup (clone_blocks cfg d Mlen c).
Proof.
  unfold clone_blocks.
  repeat (apply NoDup_app; split; [first [apply NoDup_singleton | apply NoDup_flat_list
                                         | apply NoDup_ragged_list] |];
          split; [intros x;
                  rewrite ?elem_of_app, ?elem_of_flat_list, ?elem_of_ragged_list,
                    ?list_elem_of_singleton; cbn; lia |]).
  apply NoDup_singleton.
Qed.

Lemma clone_footprint (s s' : state F) d t Mlen Kp :
  clone_shape cfg layout s s' d t Mlen Kp ->
  footprint cfg s' (Ptr (allocs s)) = Some (clone_blocks cfg d Mlen (allocs s)).
Proof.
  intros Hsh. unfold footprint. rewrite (clone_data_at _ _ _ _ _ _ Hsh).
  cbn [mbind option_bind clone_data sd_M prefix_lengths suffix_lengths fwd_scores
       fwd_transitions opt_ext_fwd opt_ext_rev].
  replace (score_table _) with (Ptr (allocs s + 1)) by (by destruct layout, t).
  cbn [owned_block mbind option_bind]. rewrite !owned_block_cloned.
  cbn [mbind option_bind].
  rewrite (owned_rows_cloned s s' _ _ 0 NT (Mlen + 1) (cs_transitions _ _ _ _ _ _ _ _ Hsh)).
  cbn [mbind option_bind].
  rewrite (owned_rows_cloned s s' _ _ 1 Mlen 10 (cs_ext_fwd _ _ _ _ _ _ _ _ Hsh)).
  cbn [mbind option_bind].
  rewrite (owned_rows_cloned s s' _ _ 1 Mlen 10 (cs_ext_rev _ _ _ _ _ _ _ _ Hsh)).
  cbn [mbind option_bind]. unfold clone_blocks. by rewrite Nat.sub_0_r.
Qed.
End CloneFootprint.

Section CloneTheorems.
Context {F : Type} `{FloatOps F}.
Variable cfg : Config F.
Variable layout : table_layout.

Local Abbreviation NT := (p7O_NTRANS cfg).

Lemma float_array_cloned (s s' : state F) a d t Mlen Kp (f : P7_SCOREDATA -> pointer) q n :
  heap s !! a = Some (Struct d) ->
  clone_shape cfg layout s s' d t Mlen Kp ->
  f (clone_data cfg layout d t Mlen (allocs s)) = cloned (f d) q ->
  floats_at s' (cloned (f d) q) = take n <$> floats_at s (f d) ->
  float_array s' (Ptr (allocs s)) f = take n <$> float_array s (Ptr a) f.
Proof.
  intros Hsrc Hsh Hf Hv. unfold float_array.
  rewrite (clone_data_at cfg layout _ _ _ _ _ _ Hsh). unfold data_at, block_at.
  rewrite Hsrc. cbn [mbind option_bind]. by rewrite Hf.
Qed.

Lemma float_row_cloned (s s' : state F) a d t Mlen Kp (f : P7_SCOREDATA -> pointer)
    q lo hi n i :
  heap s !! a = Some (Struct d) ->
  clone_shape cfg layout s s' d t Mlen Kp ->
  f (clone_data cfg layout d t Mlen (allocs s)) = cloned (f d) q ->
  rows_copied s s' (f d) q lo hi n -> lo <= i < hi ->
  float_row s' (Ptr (allocs s)) f i = take n <$> float_row s (Ptr a) f i.
Proof.
  intros Hsrc Hsh Hf Hv Hi.
  change (float_row s' (Ptr (allocs s)) f i)
    with (data_at s' (Ptr (allocs s)) ≫= fun d' => row_at s' (f d') i).
  change (float_row s (Ptr a) f i) with (data_at s (Ptr a) ≫= fun d' => row_at s (f d') i).
  rewrite (clone_data_at cfg layout _ _ _ _ _ _ Hsh). unfold data_at at 1, block_at.
  rewrite Hsrc. cbn [mbind option_bind]. rewrite Hf. by eapply row_at_cloned.
Qed.

(** X12.  Clone of a buffer whose populated members are arrays of at least the
    sizes Clone copies returns a new buffer of the same type and length,
    in which the score table of the buffer's mode, [prefix_lengths],
    [suffix_lengths], the rows [1..M-1] of both extension tables and the
    [p7O_NTRANS] rows of [fwd_transitions] hold the cells of the source,
    as many as Clone copies of each; a member that is null in the source
    is null in the clone. *)
Theorem clone_copies_populated_members (s : state F) (a : nat) (d : P7_SCOREDATA)
    (t : p7_scoredatatype_e) (Mlen Kp : nat) :
  heap s !! a = Some (Struct d) ->
  sd_M d = Some Mlen -> sd_type d = Some t -> 1 <= Mlen ->
  clone_source cfg s d Kp = true ->
  never_fails s -> fresh_above s ->
  exists new s',
    p7_hmm_ScoreDataClone cfg layout (Ptr a) Kp s = Done new s' /\
    (exists d', data_at s' new = Some d' /\ sd_M d' = Some Mlen /\ sd_type d' = Some t /\
       (prefix_lengths d' = Null <-> prefix_lengths d = Null) /\
       (suffix_lengths d' = Null <-> suffix_lengths d = Null) /\
       (fwd_scores d' = Null <-> fwd_scores d = Null) /\
       (opt_ext_fwd d' = Null <-> opt_ext_fwd d = Null) /\
       (opt_ext_rev d' = Null <-> opt_ext_rev d = Null) /\
       (fwd_transitions d' = Null <-> fwd_transitions d = Null)) /\
    match t with
    | p7_sd_std =>
        byte_array s' new ssv_scores
        = take ((Mlen + 1) * Kp) <$> byte_array s (Ptr a) ssv_scores
    | p7_sd_fm =>
        float_array s' new ssv_scores_f
        = take ((Mlen + 1) * Kp) <$> float_array s (Ptr a) ssv_scores_f
    end /\
    float_array s' new prefix_lengths
    = take (Mlen + 1) <$> float_array s (Ptr a) prefix_lengths /\
    float_array s' new suffix_lengths
    = take (Mlen + 1) <$> float_array s (Ptr a) suffix_lengths /\
    (forall i, 1 <= i < Mlen ->
       float_row s' new opt_ext_fwd i = take 10 <$> float_row s (Ptr a) opt_ext_fwd i) /\
    (forall i, 1 <= i < Mlen ->
       float_row s' new opt_ext_rev i = take 10 <$> float_row s (Ptr a) opt_ext_rev i) /\
    (forall i, i < NT ->
       float_row s' new fwd_transitions i
       = take (Mlen + 1) <$> float_row s (Ptr a) fwd_transitions i).
Proof.
  intros Hsrc HM Ht HMpos Hok Hnever Hfresh.
  destruct (clone_runs cfg layout s a d t Mlen Kp Hsrc HM Ht HMpos Hok Hnever Hfresh)
    as (new & s' & Hrun & -> & Hsh).
  exists (Ptr (allocs s)), s'. split; [exact Hrun |].
  split; [| split; [| split; [| split; [| split; [| split]]]]].
  - exists (clone_data cfg layout d t Mlen (allocs s)).
    split; [by eapply clone_data_at |]. split; [done |]. split; [done |].
    cbn [clone_data prefix_lengths suffix_lengths fwd_scores fwd_transitions
         opt_ext_fwd opt_ext_rev].
    repeat split;
      match goal with |- context [cloned ?p _] => by destruct p end.
  - destruct t.
    + unfold byte_array. rewrite (clone_data_at cfg layout _ _ _ _ _ _ Hsh).
      unfold data_at, block_at. rewrite Hsrc. cbn [mbind option_bind].
      replace (ssv_scores (clone_data _ _ _ _ _ _)) with (Ptr (allocs s + 1))
        by (by destruct layout).
      exact (cs_table _ _ _ _ _ _ _ _ Hsh).
    + unfold float_array. rewrite (clone_data_at cfg layout _ _ _ _ _ _ Hsh).
      unfold data_at, block_at. rewrite Hsrc. cbn [mbind option_bind].
      replace (ssv_scores_f (clone_data _ _ _ _ _ _)) with (Ptr (allocs s + 1))
        by (by destruct layout).
      exact (cs_table _ _ _ _ _ _ _ _ Hsh).
  - eapply float_array_cloned; [done | done | done |].
    exact (cs_prefix _ _ _ _ _ _ _ _ Hsh).
  - eapply float_array_cloned; [done | done | done |].
    exact (cs_suffix _ _ _ _ _ _ _ _ Hsh).
  - intros i Hi. eapply float_row_cloned; [done | done | done | | done].
    exact (cs_ext_fwd _ _ _ _ _ _ _ _ Hsh).
  - intros i Hi. eapply float_row_cloned; [done | done | done | | done].
    exact (cs_ext_rev _ _ _ _ _ _ _ _ Hsh).
  - intros i Hi.
    eapply float_row_cloned;
      [done | done | done | exact (cs_transitions _ _ _ _ _ _ _ _ Hsh) | lia].
Qed.

(** X13.  Of [fwd_scores] Clone copies the first [M + 1] cells only: the copy is
    the source cut at [M + 1] cells, shorter than a source of
    [Kp * (M + 1)] cells for any alphabet of two symbols or more. *)
Theorem clone_copies_first_cells_of_fwd_scores (s : state F) (a : nat)
    (d : P7_SCOREDATA) (t : p7_scoredatatype_e) (Mlen Kp : nat) :
  heap s !! a = Some (Struct d) ->
  sd_M d = Some Mlen -> sd_type d = Some t -> 1 <= Mlen ->
  clone_source cfg s d Kp = true ->
  never_fails s -> fresh_above s ->
  exists new s',
    p7_hmm_ScoreDataClone cfg layout (Ptr a) Kp s = Done new s' /\
    float_array s' new fwd_scores = take (Mlen + 1) <$> float_array s (Ptr a) fwd_scores /\
    forall l, float_array s (Ptr a) fwd_scores = Some l ->
      length l = Kp * (Mlen + 1) -> 2 <= Kp ->
      exists l', float_array s' new fwd_scores = Some l' /\ length l' = Mlen + 1 /\
                 length l' < length l.
Proof.
  intros Hsrc HM Ht HMpos Hok Hnever Hfresh.
  destruct (clone_runs cfg layout s a d t Mlen Kp Hsrc HM Ht HMpos Hok Hnever Hfresh)
    as (new & s' & Hrun & -> & Hsh).
  exists (Ptr (allocs s)), s'. split; [exact Hrun |].
  assert (Hv : float_array s' (Ptr (allocs s)) fwd_scores
               = take (Mlen + 1) <$> float_array s (Ptr a) fwd_scores).
  { eapply float_array_cloned; [done | done | done |].
    exact (cs_fwd_scores _ _ _ _ _ _ _ _ Hsh). }
  split; [exact Hv |].
  intros l Hl Ll HKp. rewrite Hv, Hl. cbn [fmap option_fmap option_map].
  eexists. split; [reflexivity |]. rewrite length_take. nia.
Qed.

(** X14.  The blocks of the clone are the blocks the call allocated, each one
    once, and no other: the clone shares no block with the source, and
    every block that was live before the call, those of the source among
    them, is as it was. *)
Theorem clone_shares_no_block (s : state F) (a : nat) (d : P7_SCOREDATA)
    (t : p7_scoredatatype_e) (Mlen Kp : nat) :
  heap s !! a = Some (Struct d) ->
  sd_M d = Some Mlen -> sd_type d = Some t -> 1 <= Mlen ->
  clone_source cfg s d Kp = true ->
  never_fails s -> fresh_above s ->
  exists new s' l,
    p7_hmm_ScoreDataClone cfg layout (Ptr a) Kp s = Done new s' /\
    footprint cfg s' new = Some l /\ NoDup l /\
    (forall x, x ∈ l <-> allocs s <= x < allocs s') /\
    (forall x, x ∈ l -> is_Some (heap s' !! x)) /\
    (forall x, x < allocs s -> heap s' !! x = heap s !! x).
Proof.
  intros Hsrc HM Ht HMpos Hok Hnever Hfresh.
  destruct (clone_runs cfg layout s a d t Mlen Kp Hsrc HM Ht HMpos Hok Hnever Hfresh)
    as (new & s' & Hrun & -> & Hsh).
  exists (Ptr (allocs s)), s', (clone_blocks cfg d Mlen (allocs s)).
  split; [exact Hrun |].
  split; [by eapply clone_footprint |].
  split; [apply NoDup_clone_blocks |].
  pose proof (cs_cloning _ _ _ _ _ _ _ _ Hsh) as Hcl.
  split; [| split].
  - intros x. rewrite elem_of_clone_blocks. by rewrite (cs_allocs _ _ _ _ _ _ _ _ Hsh).
  - intros x Hx%elem_of_clone_blocks. apply (cl_live _ _ _ Hcl).
    by rewrite (cs_allocs _ _ _ _ _ _ _ _ Hsh).
  - exact (cl_old _ _ _ Hcl).
Qed.
End CloneTheorems.

Section CloneDestroy.
Context {F : Type} `{FloatOps F}.
Variable cfg : Config F.

(** the clone is a buffer built from the state before the call *)
Lemma clone_built (s s' : state F) d t Mlen Kp :
  fresh_above s ->
  clone_shape cfg OneSlot s s' d t Mlen Kp ->
  built cfg s s' (Ptr (allocs s)) (clone_blocks cfg d Mlen (allocs s)).
Proof.
  intros Hfresh Hsh. pose proof (cs_cloning _ _ _ _ _ _ _ _ Hsh) as Hcl.
  pose proof (cs_allocs _ _ _ _ _ _ _ _ Hsh) as Hal.
  split.
  - by eapply clone_footprint.
  - apply NoDup_clone_blocks.
  - intros d' Hd'. rewrite (clone_data_at cfg OneSlot _ _ _ _ _ _ Hsh) in Hd'.
    injection Hd' as <-. by destruct t.
  - intros x Hx%elem_of_clone_blocks. rewrite <- Hal in Hx.
    split; [by apply (cl_live _ _ _ Hcl) |]. split; [apply Hfresh; lia | lia].
  - intros x Hx. rewrite elem_of_clone_blocks, <- Hal in Hx.
    destruct (decide (x < allocs s)) as [Hlt | Hge].
    + by apply (cl_old _ _ _ Hcl).
    + rewrite (cl_fresh _ _ _ Hcl) by lia. symmetry. apply Hfresh. lia.
Qed.

(** X17.  Clone, then Destroy of the clone: every block the clone took is given
    back, and the heap is as it was before Clone, the source included. *)
Theorem clone_then_destroy_restores (s : state F) (a : nat) (d : P7_SCOREDATA)
    (t : p7_scoredatatype_e) (Mlen Kp : nat) :
  heap s !! a = Some (Struct d) ->
  sd_M d = Some Mlen -> sd_type d = Some t -> 1 <= Mlen ->
  clone_source cfg s d Kp = true ->
  never_fails s -> fresh_above s ->
  runs (new ← p7_hmm_ScoreDataClone cfg OneSlot (Ptr a) Kp;
        p7_hmm_ScoreDataDestroy cfg new) s
    (fun _ s' => forall x, heap s' !! x = heap s !! x).
Proof.
  intros Hsrc HM Ht HMpos Hok Hnever Hfresh.
  apply runs_bind. eapply runs_mono; [by eapply clone_runs |].
  intros new s' (-> & Hsh). eapply destroy_built. by eapply clone_built.
Qed.
End CloneDestroy.

(** * Clone with an alphabet size that is too large, and Destroy twice *)

Section CloneBounds.
Context {F : Type} `{FloatOps F}.
Variable cfg : Config F.
Variable layout : table_layout.

Lemma memcpy_short dst src n (s : state F) bs bd :
  dst <> src ->
  heap s !! src = Some bs -> heap s !! dst = Some bd ->
  match bs, bd with
  | Bytes ls, Bytes _ => length ls < n
  | Floats ls, Floats _ => length ls < n
  | _, _ => True
  end ->
  memcpy (Ptr dst) (Ptr src) n s = Undef.
Proof.
  intros Hne Hs Hd Hshort. unfold memcpy. rewrite decide_False by congruence.
  apply bind_runs_eq. eapply runs_get_block; [exact Hs |].
  apply bind_runs_eq. eapply runs_get_block; [exact Hd |].
  destruct bs as [ls | ls | |], bd as [ld | ld | |]; try done.
  all: unfold copy_cells; by rewrite decide_False by lia.
Qed.

(** X16.  Clone takes the alphabet size from its caller.  When [Kp] is larger
    than the one the buffer was built with, so that the score table of
    the source has fewer than [(M + 1) * Kp] cells, the copy of the table
    reads past its end: the behaviour is undefined. *)
Theorem clone_with_larger_alphabet_is_undefined (s : state F) (a : nat)
    (d : P7_SCOREDATA) (Mlen Kp len : nat) :
  heap s !! a = Some (Struct d) -> a < allocs s ->
  sd_M d = Some Mlen ->
  table_length s d = Some len -> len < (Mlen + 1) * Kp ->
  fresh_above s ->
  alloc_ok s (allocs s) = true -> alloc_ok s (S (allocs s)) = true ->
  p7_hmm_ScoreDataClone cfg layout (Ptr a) Kp s = Undef.
Proof.
  intros Hsrc Ha HM Hlen Hshort Hfresh Hok0 Hok1.
  unfold table_length in Hlen.
  destruct (sd_type d) as [t |] eqn:Ht; [| done].
  unfold p7_hmm_ScoreDataClone.
  change ((is_null (Ptr a) ≫= ?k) s) with (k false s). cbv beta iota.
  apply on_ERROR_Undef.
  apply bind_runs_eq. run_step. run_step.
  apply bind_runs_eq. eapply runs_int_member; [heap_lookup | exact HM |].
  apply bind_runs_eq. run_step.
  apply bind_runs_eq. run_step. rewrite Ht.
  apply bind_runs_eq. apply runs_of_option with (r := t); [done |].
  do 8 (apply bind_runs_eq; run_step).
  apply bind_Undef.
  destruct t.
  - destruct (bytes_at s (ssv_scores d)) as [l |] eqn:Hl; [| done].
    injection Hlen as <-.
    unfold bytes_at, block_at in Hl.
    destruct (ssv_scores d) as [| | x] eqn:Hx; [done | done |].
    destruct (heap s !! x) as [[l' | | |] |] eqn:Hhx; try done. injection Hl as ->.
    assert (Hxlt : x < allocs s).
    { destruct (decide (x < allocs s)); [done |]. rewrite Hfresh in Hhx by lia. done. }
    apply bind_runs_eq. run_step. run_step.
    apply bind_runs_eq. run_step. rewrite Hx.
    eapply memcpy_short; [| heap_lookup | heap_lookup | exact Hshort]. lia.
  - destruct (floats_at s (ssv_scores_f d)) as [l |] eqn:Hl; [| done].
    injection Hlen as <-.
    unfold floats_at, block_at in Hl.
    destruct (ssv_scores_f d) as [| | x] eqn:Hx; [done | done |].
    destruct (heap s !! x) as [[| l' | |] |] eqn:Hhx; try done. injection Hl as ->.
    assert (Hxlt : x < allocs s).
    { destruct (decide (x < allocs s)); [done |]. rewrite Hfresh in Hhx by lia. done. }
    apply bind_runs_eq. run_step. run_step.
    apply bind_runs_eq. run_step. rewrite Hx.
    eapply memcpy_short; [| heap_lookup | heap_lookup | exact Hshort]. lia.
Qed.
End CloneBounds.

Section DestroyTwice.
Context {F : Type} `{FloatOps F}.
Variable cfg : Config F.

(** X18.  Destroy releases the struct and leaves the caller's pointer as it
    is: a second Destroy on the same pointer reads the released struct,
    and its behaviour is undefined. *)
Theorem destroy_twice_is_undefined (s : state F) (a : nat) (l : list nat) :
  footprint cfg s (Ptr a) = Some l ->
  NoDup l ->
  (forall x, x ∈ l -> is_Some (heap s !! x)) ->
  (forall d, data_at s (Ptr a) = Some d -> ssv_scores d = score_table d) ->
  exists s',
    p7_hmm_ScoreDataDestroy cfg (Ptr a) s = Done tt s' /\
    heap s' !! a = None /\
    p7_hmm_ScoreDataDestroy cfg (Ptr a) s' = Undef.
Proof.
  intros Hfp Hnd Hlive Hslot.
  destruct (destroy_footprint_runs cfg s (Ptr a) l Hfp Hnd Hlive Hslot)
    as ([] & s' & Hrun & Hrel & _).
  assert (Hgone : heap s' !! a = None).
  { rewrite Hrel. rewrite decide_True; [done |]. by eapply footprint_struct. }
  exists s'. split; [exact Hrun |]. split; [exact Hgone |].
  unfold p7_hmm_ScoreDataDestroy.
  change (unless_null (Ptr a) ?body s') with (body s').
  apply bind_Undef. unfold load_data. apply bind_Undef. cbn [get_block]. by rewrite Hgone.
Qed.
End DestroyTwice.

(** * The whole life of a buffer *)

Section Lifecycle.
Context {F : Type} `{FloatOps F}.
Variable cfg : Config F.
Variable om : P7_OPROFILE F.

Local Abbreviation Mlen := (om_M om).
Local Abbreviation K := (abc_Kp (om_abc om)).
Local Abbreviation NT := (p7O_NTRANS cfg).

Lemma runs_both {A} (m : M F A) (s : state F) (Q1 Q2 : A -> state F -> Prop) :
  runs m s Q1 -> runs m s Q2 -> runs m s (fun r s' => Q1 r s' /\ Q2 r s').
Proof.
  intros (r1 & s1 & E1 & H1) (r2 & s2 & E2 & H2).
  rewrite E1 in E2. injection E2 as <- <-. by exists r1, s1.
Qed.

Lemma owned_rows_local (s s' : state F) p lo hi l :
  owned_rows s p lo hi = Some l ->
  (forall x, x ∈ l -> heap s' !! x = heap s !! x) ->
  owned_rows s' p lo hi = Some l.
Proof.
  intros Hl Hag. rewrite <- Hl. apply owned_rows_same.
  intros q ->. apply Hag. by eapply owned_rows_spine.
Qed.

(** the footprint of a buffer depends on its own blocks only *)
Lemma footprint_local (s s' : state F) a l :
  footprint cfg s (Ptr a) = Some l ->
  (forall x, x ∈ l -> heap s' !! x = heap s !! x) ->
  footprint cfg s' (Ptr a) = Some l.
Proof.
  intros Hl Hag. pose proof (footprint_struct cfg s a l Hl) as Ha.
  unfold footprint in *.
  assert (Hd : data_at s' (Ptr a) = data_at s (Ptr a)).
  { unfold data_at, block_at. by rewrite Hag. }
  rewrite Hd. destruct (data_at s (Ptr a)) as [d |]; [| done].
  cbn [mbind option_bind] in *.
  destruct (sd_M d) as [M' |]; [| done]. cbn [mbind option_bind] in *.
  destruct (owned_block (score_table d)) as [t |]; [| done].
  destruct (owned_block (prefix_lengths d)) as [pl |]; [| done].
  destruct (owned_block (suffix_lengths d)) as [sl |]; [| done].
  destruct (owned_block (fwd_scores d)) as [fs |]; [| done].
  cbn [mbind option_bind] in *.
  destruct (owned_rows s (fwd_transitions d) 0 NT) as [ft |] eqn:Eft; [| done].
  cbn [mbind option_bind] in Hl.
  destruct (owned_rows s (opt_ext_fwd d) 1 M') as [ef |] eqn:Eef; [| done].
  cbn [mbind option_bind] in Hl.
  destruct (owned_rows s (opt_ext_rev d) 1 M') as [er |] eqn:Eer; [| done].
  cbn [mbind option_bind] in Hl. injection Hl as <-.
  rewrite (owned_rows_local s s' _ _ _ _ Eft) by (intros x Hx; apply Hag; set_solver).
  cbn [mbind option_bind].
  rewrite (owned_rows_local s s' _ _ _ _ Eef) by (intros x Hx; apply Hag; set_solver).
  cbn [mbind option_bind].
  rewrite (owned_rows_local s s' _ _ _ _ Eer) by (intros x Hx; apply Hag; set_solver).
  reflexivity.
Qed.

Lemma filled_table_length Kp (score : nat -> nat -> F) :
  length (filled_table Mlen Kp score) = Kp * (Mlen + 1).
Proof. unfold filled_table. by rewrite length_imap, length_replicate. Qed.

Lemma floats_ok_intro (s : state F) x l n :
  heap s !! x = Some (Floats l) -> n <= length l -> floats_ok s (Ptr x) n = true.
Proof.
  intros Hx Hn. unfold floats_ok, floats_at, block_at. rewrite Hx. cbn.
  by apply bool_decide_eq_true_2.
Qed.

Lemma ragged_ok_intro (s : state F) x sp lo hi n :
  heap s !! x = Some (Pointers sp) ->
  (forall i, lo <= i < hi ->
     exists y l, sp !! i = Some (Ptr y) /\ heap s !! y = Some (Floats l) /\ n <= length l) ->
  ragged_ok s (Ptr x) lo hi n = true.
Proof.
  intros Hx Hrows. unfold ragged_ok, pointers_at, block_at. rewrite Hx. cbn.
  apply forallb_forall. intros i Hi%list_elem_of_In%elem_of_seq.
  destruct (Hrows i) as (y & l & -> & Hy & Hl); [lia |]. by eapply floats_ok_intro.
Qed.

Lemma trans_spine_full_lookup base n t :
  t < n -> trans_spine_upto base n n !! t = Some (Ptr (base + t)).
Proof.
  intros Ht. unfold trans_spine_upto. rewrite list_lookup_fmap.
  rewrite lookup_seq_lt by lia. cbn. by rewrite decide_True by lia.
Qed.

Lemma spine_full_lookup base M' t :
  1 <= t < M' -> spine_upto base M' M' !! t = Some (Ptr (base + 2 * t)).
Proof.
  intros Ht. unfold spine_upto. rewrite list_lookup_fmap.
  rewrite lookup_seq_lt by lia. cbn. by rewrite decide_True by lia.
Qed.

(** the four members that ComputeRest adds can be cloned *)
Lemma rest_clone_source (s1 s2 : state F) a d cw sw :
  rest_shape cfg om s1 a (rest_data cfg s1 d) NT [Some cw; Some sw] s2 ->
  length cw = Mlen + 1 -> length sw = Mlen + 1 -> 1 <= K ->
  flat_ok s2 (Ptr (allocs s1 + 2 + NT)) (Mlen + 1) = true /\
  flat_ok s2 (Ptr (allocs s1 + 3 + NT)) (Mlen + 1) = true /\
  flat_ok s2 (Ptr (allocs s1)) (Mlen + 1) = true /\
  ragged_ok s2 (Ptr (allocs s1 + 1)) 0 NT (Mlen + 1) = true.
Proof.
  intros [Rbelow Rstruct Rfs Rspine Rrows Rtail Rabove Rallocs Rok] Lcw Lsw HK.
  cbn [length] in *.
  split; [| split; [| split]].
  - eapply floats_ok_intro; [| by rewrite Lcw].
    replace (allocs s1 + 2 + NT) with (allocs s1 + 2 + NT + 0) by lia.
    by rewrite Rtail by lia.
  - eapply floats_ok_intro; [| by rewrite Lsw].
    replace (allocs s1 + 3 + NT) with (allocs s1 + 2 + NT + 1) by lia.
    by rewrite Rtail by lia.
  - eapply floats_ok_intro; [exact Rfs |]. rewrite filled_table_length. nia.
  - eapply ragged_ok_intro; [exact Rspine |]. intros t Ht.
    exists (allocs s1 + 2 + t), (filled_row Mlen (om_fwd_trans om t)).
    split; [apply trans_spine_full_lookup; lia |]. split; [apply Rrows; lia |].
    unfold filled_row. by rewrite length_imap, length_replicate.
Qed.

(** A buffer that Create and ComputeRest built, in either mode, has
    everything Clone reads of it. *)
Lemma windowed_clone_source (gm : option (P7_PROFILE F)) (s : state F) :
  1 <= Mlen -> 1 <= K -> p7O_MI cfg < NT -> p7O_II cfg < NT ->
  fresh_above s -> never_fails s ->
  runs (create_windowed cfg OneSlot om gm) s (fun r s2 =>
    r = Ptr (allocs s) /\
    exists l d t, built cfg s s2 r l /\ heap s2 !! allocs s = Some (Struct d) /\
      sd_M d = Some Mlen /\ sd_type d = Some t /\
      clone_source cfg s2 d K = true /\ never_fails s2 /\ fresh_above s2).
Proof.
  intros HM HK HMI HII Hfresh Hnever. unfold create_windowed. apply runs_bind.
  destruct gm as [gm |].
  - eapply runs_mono;
      [exact (runs_both _ _ _ _ (create_fm_built cfg om gm s HM Hfresh Hnever)
                (create_fm_runs cfg OneSlot om gm s HM Hnever)) |].
    intros r s1 [(-> & Hbuilt & Hd & Hn1 & Hf1) (_ & tbl & maxs & Hscan & Hshape)].
    destruct Hshape as [Hbelow Hstruct Htable Hmaxs Hsf Hsr Hrf Hrr Habove Hallocs Hok].
    destruct (emission_scan_spec cfg om gm (replicate ((Mlen + 1) * K) None)
                (replicate (Mlen + 1) None)) as (st' & Hst' & Hinv);
      [by rewrite length_replicate | by rewrite length_replicate |].
    rewrite Hscan in Hst'. injection Hst' as <-.
    assert (Ltbl : length tbl = (Mlen + 1) * K).
    { destruct Hinv as (Hl & _). cbn [fst] in Hl. by rewrite Hl, length_replicate. }
    assert (Ha1 : allocs s < allocs s1) by lia.
    apply runs_bind. eapply runs_mono.
    { apply runs_both;
        [eapply rest_built; try eassumption; reflexivity
        | apply (compute_rest_runs cfg om s1 (allocs s) Hn1 Ha1 _ Hstruct HM HMI HII)]. }
    intros r s2 [(-> & l1 & Hbuilt2 & Hn2 & Hf2) (_ & cw & sw & _ & Lcw & Lsw & Hrest)].
    apply runs_ret. split; [done |].
    destruct (rest_clone_source _ _ _ _ _ _ Hrest Lcw Lsw HK) as (Hp & Hs & Hfs & Hft).
    destruct Hrest as [Rbelow Rstruct _ _ _ _ _ _ _].
    eexists l1, _, p7_sd_fm. split; [done |]. split; [exact Rstruct |].
    split; [done |]. split; [done |]. split; [| done].
    unfold clone_source. cbn [rest_data fm_data sd_M set_suffix_lengths set_prefix_lengths
      set_fwd_transitions set_fwd_scores prefix_lengths suffix_lengths fwd_scores
      fwd_transitions opt_ext_fwd opt_ext_rev].
    rewrite Hp, Hs, Hfs, Hft. rewrite !andb_true_r.
    apply andb_true_intro; split; [apply andb_true_intro; split |].
    + unfold table_ok. cbn. eapply floats_ok_intro; [| by rewrite Ltbl].
      rewrite Rbelow by lia. exact Htable.
    + eapply ragged_ok_intro; [rewrite Rbelow by lia; exact Hsf |].
      intros t Ht. eexists _, _. split; [by apply spine_full_lookup |].
      split; [rewrite Rbelow by lia; by apply Hrf |]. by rewrite fwd_row_length.
    + eapply ragged_ok_intro; [rewrite Rbelow by lia; exact Hsr |].
      intros t Ht. eexists _, _. split; [by apply spine_full_lookup |].
      split; [rewrite Rbelow by lia; by apply Hrr |]. by rewrite rev_row_length.
  - assert (Hok0 : alloc_ok s (allocs s) = true) by (apply Hnever; lia).
    assert (Hok1 : alloc_ok s (S (allocs s)) = true) by (apply Hnever; lia).
    eapply runs_mono;
      [exact (runs_both _ _ _ _ (create_std_built cfg om s Hfresh Hnever)
                (create_std_runs cfg OneSlot om s Hok0 Hok1)) |].
    intros r s1 [(-> & Hbuilt & Hd & Hn1 & Hf1) (_ & Hallocs & Hok & tbl & Hfill & Hheap)].
    destruct (fill_table_spec Mlen K (om_ssv_score om) (replicate ((Mlen + 1) * K) None))
      as (tbl' & Htbl' & Ltbl & _); [by rewrite length_replicate |].
    rewrite Hfill in Htbl'. injection Htbl' as <-. rewrite length_replicate in Ltbl.
    assert (Hstruct : heap s1 !! allocs s = Some (Struct (std_data OneSlot (allocs s) Mlen))).
    { rewrite Hheap. by rewrite decide_True. }
    assert (Ha1 : allocs s < allocs s1) by lia.
    apply runs_bind. eapply runs_mono.
    { apply runs_both;
        [eapply rest_built; try eassumption; reflexivity
        | apply (compute_rest_runs cfg om s1 (allocs s) Hn1 Ha1 _ Hstruct HM HMI HII)]. }
    intros r s2 [(-> & l1 & Hbuilt2 & Hn2 & Hf2) (_ & cw & sw & _ & Lcw & Lsw & Hrest)].
    apply runs_ret. split; [done |].
    destruct (rest_clone_source _ _ _ _ _ _ Hrest Lcw Lsw HK) as (Hp & Hs & Hfs & Hft).
    destruct Hrest as [Rbelow Rstruct _ _ _ _ _ _ _].
    eexists l1, _, p7_sd_std. split; [done |]. split; [exact Rstruct |].
    split; [done |]. split; [done |]. split; [| done].
    unfold clone_source. cbn [rest_data std_data sd_M set_suffix_lengths set_prefix_lengths
      set_fwd_transitions set_fwd_scores prefix_lengths suffix_lengths fwd_scores
      fwd_transitions opt_ext_fwd opt_ext_rev].
    rewrite Hp, Hs, Hfs, Hft. cbn [ragged_ok]. rewrite !andb_true_r.
    unfold table_ok. cbn. unfold bytes_at, block_at.
    rewrite Rbelow by lia. rewrite Hheap.
    rewrite decide_False by lia. rewrite decide_True by done. cbn.
    apply bool_decide_eq_true_2. lia.
Qed.

(** X19.  Create, ComputeRest, Clone, then Destroy of the buffer and of its
    clone: for every model of at least one position over an alphabet of
    at least one code, in either mode, all four calls succeed when no
    allocation fails, and the heap ends as it started: no block of the
    buffer or of the clone is left allocated. *)
Theorem lifecycle_restores_heap (gm : option (P7_PROFILE F)) (s : state F) :
  1 <= Mlen -> 1 <= K -> p7O_MI cfg < NT -> p7O_II cfg < NT ->
  fresh_above s -> never_fails s ->
  runs (lifecycle cfg OneSlot om gm) s
    (fun _ s' => forall x, heap s' !! x = heap s !! x).
Proof.
  intros HM HK HMI HII Hfresh Hnever. unfold lifecycle, clone_windowed.
  apply runs_bind. apply runs_bind.
  eapply runs_mono; [by apply windowed_clone_source |].
  intros r s2 (-> & l & d & t & Hbuilt & Hsrc & HdM & Hdt & Hok & Hn2 & Hf2).
  apply runs_bind.
  eapply runs_mono; [by eapply (clone_runs cfg OneSlot s2 (allocs s) d t Mlen K) |].
  intros new s3 (-> & Hsh). apply runs_ret. cbv beta iota.
  pose proof (clone_built cfg s2 s3 d t Mlen K Hf2 Hsh) as Hnew.
  pose proof (cs_cloning _ _ _ _ _ _ _ _ Hsh) as Hcl.
  destruct Hbuilt as [Hfp Hnd Hslot Hlive Hrest].
  assert (Hold : forall x, x ∈ l -> heap s3 !! x = heap s2 !! x).
  { intros x Hx. apply (cl_old _ _ _ Hcl). by apply Hlive. }
  apply runs_bind.
  eapply runs_mono;
    [apply (destroy_footprint_runs cfg s3 (Ptr (allocs s)) l) |].
  - by eapply footprint_local.
  - exact Hnd.
  - intros x Hx. rewrite Hold by done. by apply Hlive.
  - intros d' Hd'. apply Hslot. rewrite <- Hd'. unfold data_at, block_at.
    rewrite Hold; [done |]. by eapply footprint_struct.
  - intros [] s4 (Hh4 & Ha4 & Hok4).
    destruct Hnew as [Nfp Nnd Nslot Nlive Nrest].
    assert (Hdisj : forall x, x ∈ clone_blocks cfg d Mlen (allocs s2) -> x ∉ l).
    { intros x Hx Hx'. apply Nlive in Hx as (_ & Hnone & _).
      apply Hlive in Hx' as (Hsome & _). rewrite Hnone in Hsome. by destruct Hsome. }
    assert (Hkeep : forall x, x ∈ clone_blocks cfg d Mlen (allocs s2) ->
              heap s4 !! x = heap s3 !! x).
    { intros x Hx. rewrite Hh4. rewrite decide_False; [done |]. by apply Hdisj. }
    eapply runs_mono;
      [apply (destroy_footprint_runs cfg s4 (Ptr (allocs s2))
                (clone_blocks cfg d Mlen (allocs s2))) |].
    + by eapply footprint_local.
    + exact Nnd.
    + intros x Hx. rewrite Hkeep by done. by apply Nlive.
    + intros d' Hd'. apply Nslot. rewrite <- Hd'. unfold data_at, block_at.
      rewrite Hkeep; [done |]. by eapply footprint_struct.
    + intros [] s5 (Hh5 & _) x. rewrite Hh5.
      destruct (decide (x ∈ clone_blocks cfg d Mlen (allocs s2))) as [Hin | Hout].
      * apply Nlive in Hin as (_ & Hnone & _). rewrite <- Hrest; [by rewrite Hnone |].
        intros Hx'. apply Hlive in Hx' as (Hsome & _). rewrite Hnone in Hsome.
        by destruct Hsome.
      * rewrite Hh4. destruct (decide (x ∈ l)) as [Hin' | Hout'].
        -- symmetry. by apply Hlive.
        -- rewrite Nrest by done. by apply Hrest.
Qed.
End Lifecycle.

(** * ComputeRest called twice *)

Section RestTwice.
Context {F : Type} `{FloatOps F}.
Variable cfg : Config F.
Variable om : P7_OPROFILE F.

Local Abbreviation Mlen := (om_M om).
Local Abbreviation NT := (p7O_NTRANS cfg).

Lemma rest_data_again (s1 s2 : state F) d :
  rest_data cfg s2 (rest_data cfg s1 d) = rest_data cfg s2 d.
Proof. by destruct d. Qed.

(** the state ComputeRest leaves is determined by the blocks it adds and
    by what the heap held apart from the struct *)
Lemma rest_shape_unique (sA sB s s' : state F) a dd tail :
  a < allocs sA -> allocs sA = allocs sB -> alloc_ok sA = alloc_ok sB ->
  (forall x, x <> a -> heap sA !! x = heap sB !! x) ->
  rest_shape cfg om sA a dd NT tail s -> rest_shape cfg om sB a dd NT tail s' -> s = s'.
Proof.
  intros Ha Hal Hok Hag [A1 A2 A3 A4 A5 A6 A7 A8 A9] [B1 B2 B3 B4 B5 B6 B7 B8 B9].
  assert (Hheap : heap s = heap s').
  { apply map_eq. intros x.
    destruct (decide (x = a)) as [-> | Hne]; [by rewrite A2, B2 |].
    destruct (decide (x < allocs sA)); [rewrite A1, B1 by lia; by apply Hag |].
    destruct (decide (x = allocs sA)) as [-> |]; [rewrite A3, Hal; by rewrite B3 |].
    destruct (decide (x = allocs sA + 1)) as [-> |]; [rewrite A4, Hal; by rewrite B4 |].
    destruct (decide (x < allocs sA + 2 + NT)).
    { replace x with (allocs sA + 2 + (x - allocs sA - 2)) by lia.
      rewrite A5 by lia. rewrite Hal. by rewrite B5 by lia. }
    destruct (decide (x < allocs sA + 2 + NT + length tail)).
    { replace x with (allocs sA + 2 + NT + (x - allocs sA - 2 - NT)) by lia.
      rewrite A6 by lia. rewrite Hal. by rewrite B6 by lia. }
    rewrite A7, B7 by lia. by apply Hag. }
  destruct s as [h n ok], s' as [h' n' ok']. cbn [heap allocs alloc_ok] in *.
  assert (n = n') by lia. f_equal; congruence.
Qed.

(** X11.  ComputeRest assigns its four members without a look at what they
    held.  Called a second time on the same buffer, it overwrites the
    pointers to the [4 + NTRANS] blocks of the first call: Destroy then
    releases the blocks of the second call only, and the blocks of the
    first call stay allocated. *)
Theorem compute_rest_twice_leaks (s0 s1 : state F) (a : nat) (d : P7_SCOREDATA)
    (l0 : list nat) :
  built cfg s0 s1 (Ptr a) l0 ->
  data_at s1 (Ptr a) = Some d ->
  prefix_lengths d = Null -> suffix_lengths d = Null ->
  fwd_scores d = Null -> fwd_transitions d = Null ->
  never_fails s1 -> fresh_above s1 ->
  1 <= Mlen -> p7O_MI cfg < NT -> p7O_II cfg < NT ->
  runs (p7_hmm_ScoreDataComputeRest cfg om (Ptr a);;
        p7_hmm_ScoreDataComputeRest cfg om (Ptr a);;
        p7_hmm_ScoreDataDestroy cfg (Ptr a)) s1
    (fun _ s4 =>
       (forall x, allocs s1 <= x < allocs s1 + 4 + NT -> is_Some (heap s4 !! x)) /\
       (forall x, ~ allocs s1 <= x < allocs s1 + 4 + NT -> heap s4 !! x = heap s0 !! x)).
Proof.
  intros Hbuilt Hd Epl Esl Efs Eft Hn1 Hf1 HM HMI HII.
  assert (Hstruct : heap s1 !! a = Some (Struct d)).
  { unfold data_at, block_at in Hd. by destruct (heap s1 !! a) as [[] |]; simplify_eq. }
  assert (Hain : a ∈ l0) by (eapply footprint_struct, built_footprint, Hbuilt).
  assert (Ha : a < allocs s1) by (by apply (built_live _ _ _ _ _ Hbuilt)).
  apply runs_bind. eapply runs_mono.
  { apply runs_both;
      [eapply rest_built; eassumption
      | apply (compute_rest_runs cfg om s1 a Hn1 Ha d Hstruct HM HMI HII)]. }
  intros r s2 [(-> & l1 & Hb2 & Hn2 & Hf2) (_ & cw & sw & Hww & Lcw & Lsw & Hsh)].
  pose proof (rs_allocs _ _ _ _ _ _ _ _ Hsh) as Hal2. cbn [length] in Hal2.
  (* the state the second call would start in, had the four members been reset *)
  set (s2' := with_heap (<[a := Struct d]> (heap s2)) s2).
  set (sL := with_heap (foldr delete (heap s2') l0) s2').
  assert (Hold : forall x, x ∈ l0 -> heap s2' !! x = heap s1 !! x).
  { intros x Hx. unfold s2'. cbn [heap with_heap].
    destruct (decide (x = a)) as [-> | Hne]; [by rewrite lookup_insert_eq, Hstruct |].
    rewrite lookup_insert_ne by done.
    apply (rs_below _ _ _ _ _ _ _ _ Hsh); [by apply (built_live _ _ _ _ _ Hbuilt) | done]. }
  assert (Hd' : data_at s2' (Ptr a) = Some d).
  { unfold data_at, block_at, s2'. cbn [heap with_heap]. by rewrite lookup_insert_eq. }
  assert (HbL : built cfg sL s2' (Ptr a) l0).
  { destruct Hbuilt as [Hfp Hnd Hslot Hlive Hrest]. split.
    - by apply (footprint_local cfg s1 s2' a l0 Hfp).
    - done.
    - intros d' Ed'. apply Hslot. by rewrite Hd, <- Ed', Hd'.
    - intros x Hx. split; [| split].
      + rewrite Hold by done. by apply Hlive.
      + unfold sL. cbn [heap with_heap]. by apply lookup_foldr_delete.
      + unfold s2'. cbn [allocs with_heap]. apply Hlive in Hx. lia.
    - intros x Hx. unfold sL. cbn [heap with_heap]. symmetry.
      by apply lookup_foldr_delete_not_elem_of. }
  assert (Hn2' : never_fails s2') by exact Hn2.
  assert (Hf2' : fresh_above s2').
  { intros x Hx. unfold s2' in *. cbn [heap allocs with_heap] in *.
    rewrite lookup_insert_ne by lia. by apply Hf2. }
  assert (Ha2 : a < allocs s2) by lia.
  assert (Hstruct2' : heap s2' !! a = Some (Struct d)).
  { unfold s2'. cbn [heap with_heap]. by rewrite lookup_insert_eq. }
  destruct (compute_rest_runs cfg om s2 a Hn2 Ha2 _ (rs_struct _ _ _ _ _ _ _ _ Hsh) HM HMI HII)
    as (r3 & s3 & Hrun3 & -> & cw3 & sw3 & Hww3 & _ & _ & Hsh3).
  destruct (runs_both _ _ _ _
              (rest_built cfg om sL s2' a d l0 HbL Hd' Epl Esl Efs Eft Hn2' Hf2' HM HMI HII)
              (compute_rest_runs cfg om s2' a Hn2' Ha2 d Hstruct2' HM HMI HII))
    as (r3' & s3' & Hrun3' & (-> & l3 & Hb3 & _) & (_ & cw' & sw' & Hww' & _ & _ & Hsh3')).
  rewrite Hww3 in Hww'. injection Hww' as <- <-.
  rewrite rest_data_again in Hsh3.
  change (rest_data cfg s2' d) with (rest_data cfg s2 d) in Hsh3'.
  assert (Hsame : s3 = s3').
  { eapply (rest_shape_unique s2 s2'); [exact Ha2 | done | done | | exact Hsh3 | exact Hsh3'].
    intros x Hx. unfold s2'. cbn [heap with_heap]. by rewrite lookup_insert_ne. }
  subst s3'.
  apply runs_bind. exists eslOK, s3. split; [exact Hrun3 |].
  eapply runs_mono; [by eapply destroy_built |].
  intros [] s4 Hh4. destruct Hbuilt as [Hfp Hnd Hslot Hlive Hrest].
  destruct Hsh as [Rbelow Rstruct Rfs Rspine Rrows Rtail Rabove Rallocs Rok].
  cbn [length] in *.
  assert (HL : forall x, x ∉ l0 -> heap sL !! x = heap s2 !! x).
  { intros x Hx. unfold sL, s2'. cbn [heap with_heap].
    rewrite lookup_foldr_delete_not_elem_of by done.
    rewrite lookup_insert_ne; [done |]. by intros ->. }
  split.
  - intros x Hx. rewrite Hh4. rewrite HL by (intros Hx'%Hlive; lia).
    destruct (decide (x = allocs s1)) as [-> |]; [by rewrite Rfs |].
    destruct (decide (x = allocs s1 + 1)) as [-> |]; [by rewrite Rspine |].
    destruct (decide (x < allocs s1 + 2 + NT)).
    { replace x with (allocs s1 + 2 + (x - allocs s1 - 2)) by lia. by rewrite Rrows by lia. }
    destruct (decide (x = allocs s1 + 2 + NT)) as [-> |].
    { replace (allocs s1 + 2 + NT) with (allocs s1 + 2 + NT + 0) by lia.
      by rewrite Rtail by lia. }
    replace x with (allocs s1 + 2 + NT + 1) by lia. by rewrite Rtail by lia.
  - intros x Hx. rewrite Hh4.
    destruct (decide (x ∈ l0)) as [Hin | Hout].
    + unfold sL. cbn [heap with_heap]. rewrite lookup_foldr_delete by done.
      symmetry. by apply Hlive.
    + rewrite HL by done.
      destruct (decide (x < allocs s1)) as [Hlow | Hge].
      * rewrite Rbelow; [by apply Hrest | done | by intros ->].
      * rewrite Rabove by lia. by apply Hrest.
Qed.
End RestTwice.

(** * The theorems at concrete inputs

    Each theorem with hypotheses is applied once to a small profile, which
    shows that its hypotheses can be met; the claims that fail are
    evaluated at an input where they fail. *)

Lemma initial_never_fails {F} : never_fails (@initial_state F).
Proof. intros n _. reflexivity. Qed.

Module Witnesses.
Import Binary32 Binary32Example.

(** every score of the example profile is a well-formed binary32 value *)
Lemma gm_scores_wf j n : f_wf (gm_rsc gm j n).
Proof.
  cbn [gm_rsc gm]. destruct (j =? 0); [| reflexivity].
  destruct (n / 2) as [| [| [| [| [| [| k]]]]]]; reflexivity.
Qed.

Lemma s1_never_fails : never_fails s1.
Proof. intros n _. reflexivity. Qed.

(** C1 on the example: row 1 is [0, 3, 4, 4, ..., 4] *)
Lemma extFwd_witness :
  2 <= om_M om /\ never_fails s0 /\
  exists data s',
    p7_hmm_ScoreDataCreate cfg OneSlot om (Some gm) s0 = Done data s' /\
    row_cell s' data opt_ext_fwd 1 1 = Some (of_Z 3) /\
    row_cell s' data opt_ext_fwd 1 2 = Some (of_Z 4) /\
    row_cell s' data opt_ext_fwd 1 9 = Some (of_Z 4).
Proof.
  split; [simpl; lia |]. split; [apply initial_never_fails |].
  destruct (extFwd_saturating_cumulative_sum cfg OneSlot om gm s0)
    as (data & s' & Hrun & Hrows).
  - simpl. lia.
  - apply initial_never_fails.
  - apply gm_scores_wf.
  - exists data, s'. split; [exact Hrun |].
    destruct (Hrows 1) as (_ & Hcells & _); [simpl; lia |].
    rewrite !Hcells by lia.
    split; [| split]; f_equal; vm_compute; reflexivity.
Defined.

(** C2 on the example: row [M-1] is [3, 3, 5, 5, ..., 5] *)
Lemma extRev_witness :
  2 <= om_M om /\ never_fails s0 /\
  exists data s',
    p7_hmm_ScoreDataCreate cfg OneSlot om (Some gm) s0 = Done data s' /\
    row_cell s' data opt_ext_rev (om_M om - 1) 0 = Some (of_Z 3) /\
    row_cell s' data opt_ext_rev (om_M om - 1) 2 = Some (of_Z 5) /\
    row_cell s' data opt_ext_rev (om_M om - 1) 9 = Some (of_Z 5).
Proof.
  split; [simpl; lia |]. split; [apply initial_never_fails |].
  destruct (extRev_mirrors_extFwd cfg OneSlot om gm s0)
    as (data & s' & Hrun & Hrows).
  - simpl. lia.
  - apply initial_never_fails.
  - apply gm_scores_wf.
  - exists data, s'. split; [exact Hrun |].
    destruct (Hrows 1) as (_ & Hcells & _); [simpl; lia |].
    destruct (Hcells 0) as [-> _]; [lia |].
    destruct (Hcells 2) as [-> _]; [lia |].
    destruct (Hcells 9) as [-> _]; [lia |].
    split; [| split]; f_equal; vm_compute; reflexivity.
Defined.

(** C10 on the example: position 2, where no score is above [0] *)
Lemma tracked_maximum_witness :
  1 <= om_M om /\ never_fails s0 /\
  tracked_max cfg om gm 2 = f_zero /\
  exists data s',
    p7_hmm_ScoreDataCreate cfg OneSlot om (Some gm) s0 = Done data s' /\
    exists x, row_cell s' data opt_ext_fwd 1 0 = Some x /\ f_le f_zero x = true.
Proof.
  split; [simpl; lia |]. split; [apply initial_never_fails |].
  destruct (tracked_maximum_clamped_at_zero cfg OneSlot om gm s0)
    as ((tbl & maxs & _ & Hmx) & data & s' & Hrun & Hrows).
  - simpl. lia.
  - apply initial_never_fails.
  - apply gm_scores_wf.
  - split.
    + destruct (Hmx 2) as (_ & _ & Hzero); [simpl; lia |].
      apply Hzero. intros j Hj _.
      destruct j as [| j]; reflexivity.
    + exists data, s'. split; [exact Hrun |].
      destruct (Hrows 1 0) as (x & y & Hx & Hy & Hle & Hle'); [simpl; lia | lia |].
      exists x. split; [exact Hx | exact Hle].
Defined.

(** C9 on the example: two residue cells and the degenerate one of
    position 3 *)
Lemma float_table_witness :
  1 <= om_M om /\ never_fails s0 /\
  exists data s',
    p7_hmm_ScoreDataCreate cfg OneSlot om (Some gm) s0 = Done data s' /\
    float_cell s' data ssv_scores_f (3 * 4 + 0) = Some (of_Z 3) /\
    float_cell s' data ssv_scores_f (3 * 4 + 1) = Some (of_Z (-1)) /\
    float_cell s' data ssv_scores_f (3 * 4 + 3) = None.
Proof.
  split; [simpl; lia |]. split; [apply initial_never_fails |].
  destruct (float_table_holds_match_scores cfg OneSlot om gm s0)
    as (data & s' & Hrun & _ & Hcells).
  - simpl. lia.
  - apply initial_never_fails.
  - exists data, s'. split; [exact Hrun |].
    split; [apply (Hcells 3 0) | split; [apply (Hcells 3 1) | apply (Hcells 3 3)]];
      simpl; lia.
Defined.

(** C8 on the example: two cells of position 2 *)
Lemma quantized_table_witness :
  never_fails s0 /\
  exists data s',
    p7_hmm_ScoreDataCreate cfg OneSlot om None s0 = Done data s' /\
    byte_cell s' data ssv_scores (2 * 4 + 0) = Some Byte.x0c /\
    byte_cell s' data ssv_scores (2 * 4 + 1) = Some Byte.x03.
Proof.
  split; [apply initial_never_fails |].
  destruct (quantized_table_holds_byte_scores cfg OneSlot om s0)
    as (data & s' & Hrun & _ & _ & Hcells).
  - apply initial_never_fails.
  - exists data, s'. split; [exact Hrun |].
    split; [apply (Hcells 2 0) | apply (Hcells 2 1)]; simpl; lia.
Defined.

(** C3 on the example buffer, from the state Create leaves *)
Lemma suffix_witness :
  heap s1 !! 0 = Some (Struct (std_data OneSlot 0 4)) /\
  0 < allocs s1 /\ never_fails s1 /\
  exists s' x y,
    p7_hmm_ScoreDataComputeRest cfg om (Ptr 0) s1 = Done eslOK s' /\
    float_cell s' (Ptr 0) suffix_lengths 4 = Some x /\
    float_cell s' (Ptr 0) suffix_lengths 3 = Some (f_add x y).
Proof.
  assert (H0 : heap s1 !! 0 = Some (Struct (std_data OneSlot 0 4)))
    by (vm_compute; reflexivity).
  assert (H1 : 0 < allocs s1) by (vm_compute; lia).
  split; [exact H0 |]. split; [exact H1 |]. split; [apply s1_never_fails |].
  destruct (suffix_built_from_pre_cumulation_weights cfg om s1 0 _ H0 H1 s1_never_fails)
    as (s' & pw & Hrun & _ & (wlast & _ & Hlast) & Hstep & _).
  - simpl. lia.
  - simpl. lia.
  - simpl. lia.
  - destruct (Hstep 3) as (next & wprev & Hnext & _ & Hcell); [simpl; lia |].
    exists s', wlast, wprev. split; [exact Hrun |]. split; [exact Hlast |].
    change (3 + 1) with (om_M om) in Hnext. rewrite Hlast in Hnext.
    injection Hnext as <-. exact Hcell.
Defined.

(** C4 as amended, on the example with raw lengths [2, 6, 6], whose sum
    is [14] *)
Lemma window_weights_witness :
  heap s1 !! 0 = Some (Struct (std_data OneSlot 0 4)) /\ 0 < allocs s1 /\ never_fails s1 /\
  exists s' wt x y,
    p7_hmm_ScoreDataComputeRest cfg om_pos (Ptr 0) s1 = Done eslOK s' /\
    float_cell s' (Ptr 0) prefix_lengths 0 = Some (S754_zero false) /\
    (1 - (3 # 2097152) <= Binary32Value.sum_values wt (seq 1 3) <= 1 + (3 # 2097152))%Q /\
    float_cell s' (Ptr 0) prefix_lengths 2 = Some x /\
    float_cell s' (Ptr 0) prefix_lengths 3 = Some y /\
    f_le x y = true.
Proof.
  assert (H0 : heap s1 !! 0 = Some (Struct (std_data OneSlot 0 4)))
    by (vm_compute; reflexivity).
  assert (H1 : 0 < allocs s1) by (vm_compute; lia).
  split; [exact H0 |]. split; [exact H1 |]. split; [apply s1_never_fails |].
  destruct (window_weights_normalized_binary32 cfg om_pos s1 0 _ H0 H1
              s1_never_fails)
    as (s' & pw & Hrun & _ & Hzero & _ & _ & Hrest).
  - simpl. lia.
  - simpl. lia.
  - simpl. lia.
  - destruct Hrest as [(wt & _ & _ & Hsum) Hmono].
    + intros i Hi. assert (Ei : i = 1 \/ i = 2 \/ i = 3) by (simpl in Hi; lia).
      destruct Ei as [-> | [-> | ->]]; vm_compute; auto.
    + vm_compute. exact I.
    + vm_compute. exact I.
    + destruct (Hmono 3) as (x & y & Hx & Hy & Hle); [simpl; lia |].
      exists s', wt, x, y. split; [exact Hrun |]. split; [exact Hzero |].
      split; [exact Hsum |]. split; [exact Hx |]. split; [exact Hy | exact Hle].
Defined.

(** Destroy on a float-mode buffer with every member populated *)
Lemma destroy_witness :
  let l := [1; 21; 22; 11; 13; 14; 15; 16; 17; 18; 19; 20; 12; 5; 7; 9; 3; 6; 8; 10;
            4; 0] in
  footprint cfg s2 (Ptr 0) = Some l /\
  exists s',
    p7_hmm_ScoreDataDestroy cfg (Ptr 0) s2 = Done tt s' /\
    (forall x, x ∈ l -> heap s' !! x = None) /\
    (forall x, x ∉ l -> heap s' !! x = heap s2 !! x).
Proof.
  intros l.
  assert (Hfp : footprint cfg s2 (Ptr 0) = Some l) by (vm_compute; reflexivity).
  split; [exact Hfp |].
  destruct (destroy_releases_every_owned_block cfg s2 (Ptr 0) l Hfp)
    as [(s' & Hrun & Hheap & _) _].
  - apply (bool_decide_unpack _). vm_compute. exact I.
  - apply (bool_decide_unpack _). vm_compute. exact I.
  - intros d Hd. vm_compute in Hd. injection Hd as <-. reflexivity.
  - exists s'. split; [exact Hrun |].
    split; intros x Hx; rewrite (Hheap x); destruct (decide (x ∈ l)) as [Hin | Hout];
      try reflexivity; contradiction.
Defined.

(** the binary32 weights of raw lengths [2, 6, 6] *)
Example window_weights_binary32_example :
  exists s' x y,
    p7_hmm_ScoreDataComputeRest cfg om_pos (Ptr 0) s1 = Done eslOK s' /\
    float_cell s' (Ptr 0) prefix_lengths 2 = Some x /\
    float_cell s' (Ptr 0) prefix_lengths 3 = Some y /\
    f_le x y = true.
Proof.
  assert (H0 : heap s1 !! 0 = Some (Struct (std_data OneSlot 0 4)))
    by (vm_compute; reflexivity).
  assert (H1 : 0 < allocs s1) by (vm_compute; lia).
  assert (Hraw : forall i, 1 <= i < om_M om_pos ->
            Binary32Order.nonneg32
              (raw_of cfg (om_fwd_trans om_pos (p7O_MI cfg)) (om_fwd_trans om_pos (p7O_II cfg)) i)
            /\ Binary32Order.finite32
              (raw_of cfg (om_fwd_trans om_pos (p7O_MI cfg)) (om_fwd_trans om_pos (p7O_II cfg)) i)).
  { intros i Hi. assert (Ei : i = 1 \/ i = 2 \/ i = 3) by (simpl in Hi; lia).
    destruct Ei as [-> | [-> | ->]]; vm_compute; auto. }
  assert (Htotal : Binary32Order.nonzero32
            (raw_total cfg (om_M om_pos) (om_fwd_trans om_pos (p7O_MI cfg))
               (om_fwd_trans om_pos (p7O_II cfg)))).
  { vm_compute. exact I. }
  destruct (window_weights_monotone_binary32 cfg om_pos Hraw Htotal s1 0
              (std_data OneSlot 0 4) H0 H1 s1_never_fails)
    as (s' & Hrun & _ & _ & Hmono).
  - simpl. lia.
  - simpl. lia.
  - simpl. lia.
  - destruct (Hmono 3) as (x & y & Hx & Hy & Hle); [simpl; lia |].
    exists s', x, y. split; [exact Hrun |]. split; [exact Hx |]. split; [exact Hy | exact Hle].
Qed.

(** A buffer with every member populated and its clone, both destroyed:
    no block is left. *)
Example lifecycle_releases_every_block :
  exists s', lifecycle cfg OneSlot om (Some gm) s0 = Done tt s' /\ heap s' = ∅.
Proof. eexists. split; vm_compute; reflexivity. Qed.

(** Were the two table pointers two members of the struct and not one
    union, Destroy, which reads [ssv_scores] only, would leave the float
    table allocated. *)
Example separate_members_would_leak :
  exists s' tbl,
    create_destroy cfg TwoSlots om (Some gm) s0 = Done tt s' /\
    heap s' !! 1 = Some (Floats tbl).
Proof. eexists _, _. split; vm_compute; reflexivity. Qed.
End Witnesses.

Module FailingInputs.
Import Binary32 Binary32Example Binary32Value.

(** Claim C4 as stated fails here: with raw lengths [2, 6, -4] the
    weights before the cumulation are [0.5, 1.5, -1], and the cumulated
    prefix weights go down from [2.0] at position 2 to [1.0] at
    position 3. *)
Lemma window_weights_decrease_on_negative_length :
  create_windowed cfg OneSlot om None s0 = Done (Ptr 0) s3 /\
  normalized_weights cfg 4 (filled_row 4 (om_fwd_trans om 5)) (filled_row 4 (om_fwd_trans om 6))
    (replicate 5 None)
  = Some [Some f_zero; Some (pow2 (-1)); Some (f_add (pow2 0) (pow2 (-1)));
          Some (S754_finite true 8388608 (-23)); Some f_zero] /\
  float_cell s3 (Ptr 0) prefix_lengths 2 = Some (pow2 1) /\
  float_cell s3 (Ptr 0) prefix_lengths 3 = Some (pow2 0) /\
  f_le (pow2 1) (pow2 0) = false /\
  ~ (forall i x y, 2 <= i < om_M om ->
       float_cell s3 (Ptr 0) prefix_lengths (i - 1) = Some x ->
       float_cell s3 (Ptr 0) prefix_lengths i = Some y ->
       f_le x y = true).
Proof.
  split; [vm_compute; reflexivity |].
  split; [vm_compute; reflexivity |].
  split; [vm_compute; reflexivity |].
  split; [vm_compute; reflexivity |].
  split; [vm_compute; reflexivity |].
  intros Hmono.
  specialize (Hmono 3 (pow2 1) (pow2 0)).
  assert (Hle : f_le (pow2 1) (pow2 0) = true).
  { apply Hmono; [simpl; lia | vm_compute; reflexivity | vm_compute; reflexivity]. }
  vm_compute in Hle. discriminate Hle.
Qed.

(** Claim C4 as stated fails here, in both parts.  With the raw lengths
    [10, 16772347, -16772354], whose float sum is [3], the weights
    before the cumulation are [3.33333325], [5590782.5] and
    [-5590784.5]: their exact sum is [5592405 / 4194304], about
    [1.3333], and the cumulated prefix weights go down from [5590786] at
    position 2 to [1.5] at position 3. *)
Lemma window_weights_off_on_negative_length :
  exists s',
    create_windowed Binary32Wide.cfg OneSlot Binary32Wide.om None s0 = Done (Ptr 0) s' /\
    map (raw_of Binary32Wide.cfg (om_fwd_trans Binary32Wide.om 5)
           (om_fwd_trans Binary32Wide.om 6)) [1; 2; 3]
    = [of_Z 10; of_Z 16772347; of_Z (-16772354)] /\
    raw_total Binary32Wide.cfg 4 (om_fwd_trans Binary32Wide.om 5)
      (om_fwd_trans Binary32Wide.om 6) = of_Z 3 /\
    normalized_weights Binary32Wide.cfg 4 (filled_row 4 (om_fwd_trans Binary32Wide.om 5))
      (filled_row 4 (om_fwd_trans Binary32Wide.om 6)) (replicate 5 None)
    = Some [Some f_zero; Some (S754_finite false 13981013 (-22));
            Some (S754_finite false 11181565 (-1)); Some (S754_finite true 11181569 (-1));
            Some f_zero] /\
    map (weight_of Binary32Wide.cfg 4 (om_fwd_trans Binary32Wide.om 5)
           (om_fwd_trans Binary32Wide.om 6)) [1; 2; 3]
    = [S754_finite false 13981013 (-22); S754_finite false 11181565 (-1);
       S754_finite true 11181569 (-1)] /\
    (sum_values (weight_of Binary32Wide.cfg 4 (om_fwd_trans Binary32Wide.om 5)
                   (om_fwd_trans Binary32Wide.om 6)) (seq 1 3)
     == 5592405 # 4194304)%Q /\
    ~ (sum_values (weight_of Binary32Wide.cfg 4 (om_fwd_trans Binary32Wide.om 5)
                    (om_fwd_trans Binary32Wide.om 6)) (seq 1 3)
       <= 1 + (3 # 2097152))%Q /\
    float_cell s' (Ptr 0) prefix_lengths 2 = Some (S754_finite false 11181572 (-1)) /\
    float_cell s' (Ptr 0) prefix_lengths 3 = Some (S754_finite false 12582912 (-23)) /\
    f_le (S754_finite false 11181572 (-1)) (S754_finite false 12582912 (-23)) = false.
Proof.
  eexists. split; [vm_compute; reflexivity |].
  split; [vm_compute; reflexivity |].
  split; [vm_compute; reflexivity |].
  split; [vm_compute; reflexivity |].
  split; [vm_compute; reflexivity |].
  split; [vm_compute; reflexivity |].
  split; [vm_compute; intros Hle; apply Hle; reflexivity |].
  split; [vm_compute; reflexivity |].
  split; vm_compute; reflexivity.
Qed.

(** Claim C4 as stated fails here too: with a single position there is
    no weight to sum, and the sum is [0], not [1]. *)
Lemma window_weights_empty_sum :
  exists s',
    create_windowed cfg OneSlot om1 None s0 = Done (Ptr 0) s' /\
    float_array s' (Ptr 0) prefix_lengths = Some [Some f_zero; Some f_zero] /\
    cumulative_sum (fun _ => f_zero) (seq 1 (om_M om1 - 1)) = f_zero.
Proof.
  eexists. split; [vm_compute; reflexivity |].
  split; vm_compute; reflexivity.
Qed.

(** Claim C5, evaluated where it fails: ComputeRest allocates
    [fwd_scores] with [Kp * (M + 1)] cells, Clone allocates and copies
    [M + 1]; cell 5 of the source holds a score, the clone has no
    cell 5. *)
Theorem clone_truncates_fwd_scores :
  exists s',
    clone_windowed cfg OneSlot om None s0 = Done (Ptr 0, Ptr 14) s' /\
    (length <$> float_array s' (Ptr 0) fwd_scores) = Some (4 * (4 + 1)) /\
    (length <$> float_array s' (Ptr 14) fwd_scores) = Some (4 + 1) /\
    float_cell s' (Ptr 0) fwd_scores 5 = Some (om_fwd_score om 1 1) /\
    float_cell s' (Ptr 14) fwd_scores 5 = None /\
    float_array s' (Ptr 0) fwd_scores <> float_array s' (Ptr 14) fwd_scores.
Proof.
  eexists. split; [vm_compute; reflexivity |].
  do 4 (split; [vm_compute; reflexivity |]).
  vm_compute. discriminate.
Qed.

(** Claim C6, evaluated where it fails.  Create in float mode for the
    model of length 4, when the first four allocations succeed (the
    struct, the score table, [max_scores] and the spine
    [data->opt_ext_fwd]) and the fifth (the spine [data->opt_ext_rev],
    line 90) fails: Create returns the buffer, whose [opt_ext_fwd] is a
    live spine with no row assigned yet and whose [opt_ext_rev] is
    [NULL].  Destroy on this buffer frees [opt_ext_fwd[1]], a pointer
    that was never assigned: the call has undefined behaviour instead
    of releasing the blocks of the buffer. *)
Theorem destroy_undefined_on_half_built_buffer :
  alloc_ok (starved_state (F := spec_float) 4) 3 = true /\
  alloc_ok (starved_state (F := spec_float) 4) 4 = false /\
  exists s' d,
    p7_hmm_ScoreDataCreate cfg OneSlot om (Some gm) (starved_state 4) = Done (Ptr 0) s' /\
    data_at s' (Ptr 0) = Some d /\
    opt_ext_fwd d = Ptr 3 /\ opt_ext_rev d = Null /\
    row_pointer s' (Ptr 0) opt_ext_fwd 1 = Some Indet /\
    p7_hmm_ScoreDataDestroy cfg (Ptr 0) s' = Undef.
Proof.
  split; [reflexivity |]. split; [reflexivity |].
  exists (final_state (p7_hmm_ScoreDataCreate cfg OneSlot om (Some gm)) (starved_state 4)).
  eexists. split; [vm_compute; reflexivity |].
  split; [vm_compute; reflexivity |].
  split; [reflexivity |]. split; [reflexivity |].
  split; vm_compute; reflexivity.
Qed.

(** Beside the claims: when the allocation of the second transition row
    fails, the error path of ComputeRest calls Destroy on a spine whose
    later rows were never assigned, and [free] is called on what they
    hold. *)
Example compute_rest_failure_frees_unassigned_rows :
  create_windowed cfg OneSlot om None (starved_state 5) = Undef.
Proof. vm_compute. reflexivity. Qed.

(** C7 on the example: the first allocation succeeds, the second
    fails *)
Lemma create_partial_witness :
  alloc_ok (starved_state (F := spec_float) 1) 0 = true /\
  alloc_ok (starved_state (F := spec_float) 1) 1 = false /\
  exists s' d,
    p7_hmm_ScoreDataCreate cfg OneSlot om None (starved_state 1) = Done (Ptr 0) s' /\
    data_at s' (Ptr 0) = Some d /\
    ssv_scores d = Null.
Proof.
  split; [reflexivity |]. split; [reflexivity |].
  destruct (create_returns_partial_buffer cfg OneSlot om (starved_state 1))
    as (s' & d & Hrun & Hd & Hnull & _); [reflexivity | reflexivity |].
  exists s', d. split; [exact Hrun |]. split; [exact Hd | exact Hnull].
Defined.
End FailingInputs.

(** * The theorems on buffers that fail, leak or are cloned, at the examples *)

Lemma initial_fresh_above {F} : fresh_above (@initial_state F).
Proof. intros x _. apply lookup_empty. Qed.

Lemma starved_fresh_above {F} n : fresh_above (@starved_state F n).
Proof. intros x _. apply lookup_empty. Qed.

Module Instances.
Import Binary32 Binary32Example EdgeExamples.

(** the standard-mode buffer of the example *)
Lemma s1_built :
  built cfg s0 s1 (Ptr 0) [1; 0] /\
  data_at s1 (Ptr 0) = Some (std_data OneSlot 0 4) /\ fresh_above s1.
Proof.
  destruct (create_std_built cfg om s0 initial_fresh_above initial_never_fails)
    as (r & s' & Hrun & -> & Hb & Hd & _ & Hf).
  assert (E : s1 = s') by (unfold s1, final_state; by rewrite Hrun).
  rewrite E. split; [exact Hb |]. split; [exact Hd | exact Hf].
Qed.

(** the float-mode buffer of the example, after ComputeRest *)
Lemma s2_never_fails : never_fails s2.
Proof. intros n _. reflexivity. Qed.

Lemma s2_fresh_above : fresh_above s2.
Proof.
  destruct (windowed_clone_source cfg om (Some gm) s0)
    as (r & s' & Hrun & _ & l & d & t & _ & _ & _ & _ & _ & _ & Hf);
    [simpl; lia | simpl; lia | simpl; lia | simpl; lia | apply initial_fresh_above
    | apply initial_never_fails |].
  assert (E : s2 = s') by (unfold s2, final_state; by rewrite Hrun).
  by rewrite E.
Qed.

(** the struct of that buffer *)
Lemma s2_struct :
  heap s2 !! 0 = Some (Struct (rest_data cfg
    (final_state (p7_hmm_ScoreDataCreate cfg OneSlot om (Some gm)) s0)
    (fm_data OneSlot 0 4))).
Proof. vm_compute. reflexivity. Qed.

(** Create on a heap where no allocation succeeds *)
Lemma create_null_witness :
  exists s',
    p7_hmm_ScoreDataCreate cfg OneSlot om None (starved_state 0) = Done Null s' /\
    alloc_ok (starved_state (F := spec_float) 0) 0 = false /\
    heap s' = heap (starved_state (F := spec_float) 0).
Proof.
  exists (final_state (p7_hmm_ScoreDataCreate cfg OneSlot om None) (starved_state 0)).
  assert (Hrun : p7_hmm_ScoreDataCreate cfg OneSlot om None (starved_state 0)
                 = Done Null (final_state (p7_hmm_ScoreDataCreate cfg OneSlot om None)
                                (starved_state 0)))
    by (vm_compute; reflexivity).
  split; [exact Hrun |].
  destruct (create_null_only_when_struct_allocation_fails cfg OneSlot om None _ _ _ Hrun)
    as (Hiff & Hheap & _).
  split; [by apply Hiff | by apply Hheap].
Defined.

(** ComputeRest on the standard-mode buffer: the four members are the
    blocks 2, 3, 12 and 13 *)
Lemma compute_rest_members_witness :
  heap s1 !! 0 = Some (Struct (std_data OneSlot 0 4)) /\ 0 < allocs s1 /\ never_fails s1 /\
  exists s' d',
    p7_hmm_ScoreDataComputeRest cfg om (Ptr 0) s1 = Done eslOK s' /\
    data_at s' (Ptr 0) = Some d' /\
    fwd_scores d' = Ptr 2 /\ fwd_transitions d' = Ptr 3 /\
    prefix_lengths d' = Ptr 12 /\ suffix_lengths d' = Ptr 13 /\
    heap s' !! 1 = heap s1 !! 1.
Proof.
  assert (H0 : heap s1 !! 0 = Some (Struct (std_data OneSlot 0 4)))
    by (vm_compute; reflexivity).
  assert (H1 : 0 < allocs s1) by (vm_compute; lia).
  split; [exact H0 |]. split; [exact H1 |]. split; [apply Witnesses.s1_never_fails |].
  destruct (compute_rest_assigns_four_members cfg om s1 0 _ H0 H1 Witnesses.s1_never_fails)
    as (s' & d' & Hrun & Hd' & _ & (E1 & E2 & E3 & E4) & Hframe & _).
  - simpl. lia.
  - simpl. lia.
  - simpl. lia.
  - exists s', d'. split; [exact Hrun |]. split; [exact Hd' |].
    split; [exact E1 |]. split; [exact E2 |]. split; [exact E3 |]. split; [exact E4 |].
    apply Hframe; [vm_compute; lia | lia].
Defined.

(** cell 0 of [suffix_lengths] on the example *)
Lemma suffix_first_cell_witness :
  heap s1 !! 0 = Some (Struct (std_data OneSlot 0 4)) /\ 0 < allocs s1 /\ never_fails s1 /\
  exists s' sl,
    p7_hmm_ScoreDataComputeRest cfg om (Ptr 0) s1 = Done eslOK s' /\
    float_array s' (Ptr 0) suffix_lengths = Some sl /\ length sl = 5 /\
    sl !! 0 = Some None.
Proof.
  assert (H0 : heap s1 !! 0 = Some (Struct (std_data OneSlot 0 4)))
    by (vm_compute; reflexivity).
  assert (H1 : 0 < allocs s1) by (vm_compute; lia).
  split; [exact H0 |]. split; [exact H1 |]. split; [apply Witnesses.s1_never_fails |].
  destruct (suffix_lengths_first_cell_never_written cfg om s1 0 _ H0 H1
              Witnesses.s1_never_fails)
    as (s' & pl & sl & Hrun & _ & _ & Hsl & Lsl & _ & _ & Hzero).
  - simpl. lia.
  - simpl. lia.
  - simpl. lia.
  - exists s', sl. split; [exact Hrun |]. split; [exact Hsl |]. split; [exact Lsl | exact Hzero].
Defined.

(** the borders of a float-mode buffer of four positions *)
Lemma float_borders_witness :
  1 <= om_M om /\ never_fails s0 /\
  exists data s' tbl,
    p7_hmm_ScoreDataCreate cfg OneSlot om (Some gm) s0 = Done data s' /\
    float_array s' data ssv_scores_f = Some tbl /\
    tbl !! 3 = Some None /\
    row_pointer s' data opt_ext_fwd 0 = Some Indet /\
    row_pointer s' data opt_ext_rev 4 = Some Indet.
Proof.
  split; [simpl; lia |]. split; [apply initial_never_fails |].
  destruct (float_mode_borders_never_written cfg OneSlot om gm s0)
    as (data & s' & tbl & Hrun & Htbl & Hrow0 & _ & Hborder).
  - simpl. lia.
  - apply initial_never_fails.
  - exists data, s', tbl. split; [exact Hrun |]. split; [exact Htbl |].
    split; [apply Hrow0; simpl; lia |].
    split; [apply (Hborder 0); by left | apply (Hborder 4); by right].
Defined.

(** the binary32 suffix weights of raw lengths [2, 6, 6] *)
Lemma suffix_weights_witness :
  exists s' x y,
    p7_hmm_ScoreDataComputeRest cfg om_pos (Ptr 0) s1 = Done eslOK s' /\
    float_cell s' (Ptr 0) suffix_lengths 2 = Some x /\
    float_cell s' (Ptr 0) suffix_lengths 3 = Some y /\
    f_le y x = true.
Proof.
  assert (H0 : heap s1 !! 0 = Some (Struct (std_data OneSlot 0 4)))
    by (vm_compute; reflexivity).
  assert (H1 : 0 < allocs s1) by (vm_compute; lia).
  assert (Hraw : forall i, 1 <= i < om_M om_pos ->
            Binary32Order.nonneg32
              (raw_of cfg (om_fwd_trans om_pos (p7O_MI cfg)) (om_fwd_trans om_pos (p7O_II cfg)) i)
            /\ Binary32Order.finite32
              (raw_of cfg (om_fwd_trans om_pos (p7O_MI cfg)) (om_fwd_trans om_pos (p7O_II cfg)) i)).
  { intros i Hi. assert (Ei : i = 1 \/ i = 2 \/ i = 3) by (simpl in Hi; lia).
    destruct Ei as [-> | [-> | ->]]; vm_compute; auto. }
  assert (Htotal : Binary32Order.nonzero32
            (raw_total cfg (om_M om_pos) (om_fwd_trans om_pos (p7O_MI cfg))
               (om_fwd_trans om_pos (p7O_II cfg)))).
  { vm_compute. exact I. }
  destruct (suffix_weights_nonincreasing_binary32 cfg om_pos s1 0
              (std_data OneSlot 0 4) Hraw Htotal H0 H1 Witnesses.s1_never_fails)
    as (s' & Hrun & _ & Hmono).
  - simpl. lia.
  - simpl. lia.
  - simpl. lia.
  - destruct (Hmono 2) as (x & y & Hx & Hy & Hle); [simpl; lia |].
    exists s', x, y. split; [exact Hrun |]. split; [exact Hx |]. split; [exact Hy | exact Hle].
Defined.

(** ComputeRest with a profile of no position *)
Lemma empty_model_witness :
  om_M om_empty = 0 /\
  p7_hmm_ScoreDataComputeRest cfg om_empty (Ptr 0) s1 = Undef.
Proof.
  split; [reflexivity |].
  apply (compute_rest_undefined_on_empty_model cfg om_empty s1 0 (std_data OneSlot 0 4)).
  - reflexivity.
  - vm_compute. reflexivity.
  - vm_compute. lia.
  - apply Witnesses.s1_never_fails.
  - simpl. lia.
  - simpl. lia.
Defined.

(** the buffer Create returns when two allocations succeed *)
Lemma created_std_built :
  built cfg (starved_state 2) (created_std 2) (Ptr 0) [1; 0] /\
  data_at (created_std 2) (Ptr 0) = Some (std_data OneSlot 0 4).
Proof.
  destruct (create_std_runs cfg OneSlot om (starved_state 2) eq_refl eq_refl)
    as (r & s' & Hrun & -> & Ha & Hok & tbl & _ & Hheap).
  assert (E : created_std 2 = s') by (unfold created_std, final_state; by rewrite Hrun).
  rewrite E. clear E.
  assert (Hd : data_at s' (Ptr 0) = Some (std_data OneSlot 0 4)).
  { unfold data_at, block_at. by rewrite Hheap. }
  split; [| exact Hd]. split.
  - unfold footprint. rewrite Hd. reflexivity.
  - apply (bool_decide_unpack _). vm_compute. exact I.
  - intros d Hd'. rewrite Hd in Hd'. injection Hd' as <-. reflexivity.
  - intros x Hx. apply elem_of_cons in Hx as [-> | ->%list_elem_of_singleton].
    + rewrite Hheap. split; [by eexists |]. split; [apply lookup_empty |].
      cbn in Ha. lia.
    + rewrite Hheap. split; [by eexists |]. split; [apply lookup_empty |].
      cbn in Ha. lia.
  - intros x Hx. rewrite Hheap.
    rewrite decide_False by (intros ->; apply Hx; set_solver).
    rewrite decide_False by (intros ->; apply Hx; set_solver). done.
Qed.

(** ComputeRest when its first allocation fails: the struct is gone *)
Lemma compute_rest_failure_witness :
  alloc_ok (created_std 2) (allocs (created_std 2)) = false /\
  exists s',
    p7_hmm_ScoreDataComputeRest cfg om (Ptr 0) (created_std 2) = Done eslEMEM s' /\
    heap s' !! 0 = None /\ heap s' !! 1 = None.
Proof.
  assert (Hfail : alloc_ok (created_std 2) (allocs (created_std 2)) = false)
    by (vm_compute; reflexivity).
  split; [exact Hfail |].
  destruct created_std_built as [Hb Hd].
  destruct (compute_rest_failure_destroys_buffer cfg om _ _ 0 _ _ Hb Hd eq_refl Hfail)
    as (s' & Hrun & Hheap & Hgone).
  exists s'. split; [exact Hrun |]. split; [exact Hgone |].
  rewrite Hheap. apply lookup_empty.
Defined.

(** ComputeRest when the allocation of transition row 1 fails *)
Lemma row_failure_witness :
  alloc_ok (created_std 5) 4 = true /\ alloc_ok (created_std 5) 5 = false /\
  p7_hmm_ScoreDataComputeRest cfg om (Ptr 0) (created_std 5) = Undef.
Proof.
  split; [reflexivity |]. split; [reflexivity |].
  assert (Ea : allocs (created_std 5) = 2) by (vm_compute; reflexivity).
  assert (Eok : alloc_ok (created_std 5) = fun k => k <? 5) by (vm_compute; reflexivity).
  apply (compute_rest_row_failure_is_undefined cfg om (created_std 5) 0
           (std_data OneSlot 0 4) 1).
  - vm_compute. reflexivity.
  - rewrite Ea. lia.
  - intros n Hn. rewrite Ea in Hn. rewrite Eok. apply Nat.ltb_lt. lia.
  - rewrite Ea, Eok. reflexivity.
  - simpl. lia.
Defined.

(** Create in float mode when the allocation of [opt_ext_rev] fails *)
Lemma partial_destroy_witness :
  2 <= om_M om /\ alloc_ok (starved_state (F := spec_float) 4) 4 = false /\
  exists s',
    p7_hmm_ScoreDataCreate cfg OneSlot om (Some gm) (starved_state 4) = Done (Ptr 0) s' /\
    p7_hmm_ScoreDataDestroy cfg (Ptr 0) s' = Undef.
Proof.
  split; [simpl; lia |]. split; [reflexivity |].
  destruct (create_partial_buffer_cannot_be_destroyed cfg OneSlot om gm (starved_state 4))
    as (s' & Hrun & _ & Hundef).
  - simpl. lia.
  - intros n Hn. cbn in Hn. change ((n <? 4) = true). apply Nat.ltb_lt. lia.
  - reflexivity.
  - exists s'. split; [exact Hrun | exact Hundef].
Defined.

(** Create in float mode when the allocation of [opt_ext_fwd] fails *)
Lemma scratch_leak_witness :
  alloc_ok (starved_state (F := spec_float) 3) 3 = false /\
  exists s1 s2 maxs,
    p7_hmm_ScoreDataCreate cfg OneSlot om (Some gm) (starved_state 3) = Done (Ptr 0) s1 /\
    p7_hmm_ScoreDataDestroy cfg (Ptr 0) s1 = Done tt s2 /\
    heap s2 !! 2 = Some (Floats maxs) /\ heap s2 !! 0 = None.
Proof.
  split; [reflexivity |].
  destruct (create_failure_leaks_scratch_maxima cfg om gm (starved_state 3))
    as (s1 & s2 & maxs & Hrun & Hdestroy & Hleft & _ & Hrest).
  - apply starved_fresh_above.
  - intros n Hn. cbn in Hn. change ((n <? 3) = true). apply Nat.ltb_lt. lia.
  - reflexivity.
  - exists s1, s2, maxs. split; [exact Hrun |]. split; [exact Hdestroy |].
    split; [exact Hleft |]. rewrite Hrest by (cbn; lia). apply lookup_empty.
Defined.

(** Clone when the allocation of its score table fails: an allocation of
    the call failed, and the new struct, block 2, stays allocated *)
Lemma clone_failure_witness :
  exists s',
    p7_hmm_ScoreDataClone cfg OneSlot (Ptr 0) 4 (created_std 3) = Done Null s' /\
    (exists n, allocs (created_std 3) <= n < allocs s' /\ alloc_ok (created_std 3) n = false) /\
    is_Some (heap s' !! 2) /\ is_Some (heap s' !! 0).
Proof.
  exists (final_state (p7_hmm_ScoreDataClone cfg OneSlot (Ptr 0) 4) (created_std 3)).
  assert (Hrun : p7_hmm_ScoreDataClone cfg OneSlot (Ptr 0) 4 (created_std 3)
                 = Done Null (final_state (p7_hmm_ScoreDataClone cfg OneSlot (Ptr 0) 4)
                                (created_std 3)))
    by (vm_compute; reflexivity).
  split; [exact Hrun |].
  destruct (clone_failure_leaks cfg OneSlot _ _ 0 4 Hrun) as (Hfail & Hold & Hnew).
  split; [exact Hfail |]. split.
  - apply Hnew; [vm_compute; lia | reflexivity].
  - apply Hold. vm_compute. by eexists.
Defined.

(** Clone of the float-mode buffer of the example *)
Lemma clone_members_witness :
  clone_source cfg s2 (rest_data cfg
    (final_state (p7_hmm_ScoreDataCreate cfg OneSlot om (Some gm)) s0)
    (fm_data OneSlot 0 4)) 4 = true /\
  exists new s',
    p7_hmm_ScoreDataClone cfg OneSlot (Ptr 0) 4 s2 = Done new s' /\
    float_array s' new prefix_lengths = take 5 <$> float_array s2 (Ptr 0) prefix_lengths /\
    float_array s' new suffix_lengths = take 5 <$> float_array s2 (Ptr 0) suffix_lengths.
Proof.
  assert (Hok : clone_source cfg s2 (rest_data cfg
                  (final_state (p7_hmm_ScoreDataCreate cfg OneSlot om (Some gm)) s0)
                  (fm_data OneSlot 0 4)) 4 = true) by (vm_compute; reflexivity).
  split; [exact Hok |].
  destruct (clone_copies_populated_members cfg OneSlot s2 0 _ p7_sd_fm 4 4 s2_struct
              eq_refl eq_refl ltac:(lia) Hok s2_never_fails s2_fresh_above)
    as (new & s' & Hrun & _ & _ & Hp & Hs & _).
  exists new, s'. split; [exact Hrun |]. split; [exact Hp | exact Hs].
Defined.

(** [fwd_scores] of the clone: 5 cells of the 20 *)
Lemma clone_fwd_scores_witness :
  never_fails s2 /\ fresh_above s2 /\
  exists new s' l',
    p7_hmm_ScoreDataClone cfg OneSlot (Ptr 0) 4 s2 = Done new s' /\
    float_array s' new fwd_scores = Some l' /\ length l' = 5.
Proof.
  split; [apply s2_never_fails |]. split; [apply s2_fresh_above |].
  destruct (clone_copies_first_cells_of_fwd_scores cfg OneSlot s2 0 _ p7_sd_fm 4 4 s2_struct
              eq_refl eq_refl ltac:(lia))
    as (new & s' & Hrun & _ & Hshort).
  - vm_compute. reflexivity.
  - apply s2_never_fails.
  - apply s2_fresh_above.
  - destruct (Hshort (filled_table 4 4 (om_fwd_score om)))
      as (l' & Hl' & Ll' & _); [vm_compute; reflexivity | vm_compute; reflexivity | lia |].
    exists new, s', l'. split; [exact Hrun |]. split; [exact Hl' | exact Ll'].
Defined.

(** the blocks of the clone: the 23 addresses from 23 on *)
Lemma clone_blocks_witness :
  heap s2 !! 0 = Some (Struct (rest_data cfg
    (final_state (p7_hmm_ScoreDataCreate cfg OneSlot om (Some gm)) s0)
    (fm_data OneSlot 0 4))) /\
  exists new s' l,
    p7_hmm_ScoreDataClone cfg OneSlot (Ptr 0) 4 s2 = Done new s' /\
    footprint cfg s' new = Some l /\ NoDup l /\
    heap s' !! 0 = heap s2 !! 0.
Proof.
  split; [exact s2_struct |].
  destruct (clone_shares_no_block cfg OneSlot s2 0 _ p7_sd_fm 4 4 s2_struct
              eq_refl eq_refl ltac:(lia))
    as (new & s' & l & Hrun & Hfp & Hnd & _ & _ & Hold).
  - vm_compute. reflexivity.
  - apply s2_never_fails.
  - apply s2_fresh_above.
  - exists new, s', l. split; [exact Hrun |]. split; [exact Hfp |]. split; [exact Hnd |].
    apply Hold. vm_compute. lia.
Defined.

(** Clone and Destroy of the clone, on the float-mode buffer *)
Lemma clone_destroy_witness :
  1 <= 4 /\ never_fails s2 /\ fresh_above s2 /\
  exists s',
    (new ← p7_hmm_ScoreDataClone cfg OneSlot (Ptr 0) 4; p7_hmm_ScoreDataDestroy cfg new) s2
    = Done tt s' /\
    heap s' !! 0 = heap s2 !! 0 /\ heap s' !! 23 = None.
Proof.
  split; [lia |]. split; [apply s2_never_fails |]. split; [apply s2_fresh_above |].
  destruct (clone_then_destroy_restores cfg s2 0 _ p7_sd_fm 4 4 s2_struct
              eq_refl eq_refl ltac:(lia))
    as ([] & s' & Hrun & Hheap).
  - vm_compute. reflexivity.
  - apply s2_never_fails.
  - apply s2_fresh_above.
  - exists s'. split; [exact Hrun |]. split; [apply Hheap |].
    rewrite Hheap. apply s2_fresh_above. vm_compute. lia.
Defined.

(** Clone of the standard-mode buffer with five codes in place of four *)
Lemma clone_alphabet_witness :
  table_length s1 (std_data OneSlot 0 4) = Some 20 /\
  p7_hmm_ScoreDataClone cfg OneSlot (Ptr 0) 5 s1 = Undef.
Proof.
  assert (Hlen : table_length s1 (std_data OneSlot 0 4) = Some 20)
    by (vm_compute; reflexivity).
  split; [exact Hlen |].
  apply (clone_with_larger_alphabet_is_undefined cfg OneSlot s1 0 (std_data OneSlot 0 4)
           4 5 20).
  - vm_compute. reflexivity.
  - vm_compute. lia.
  - reflexivity.
  - exact Hlen.
  - lia.
  - apply s1_built.
  - reflexivity.
  - reflexivity.
Defined.

(** Destroy twice on the float-mode buffer *)
Lemma destroy_twice_witness :
  let l := [1; 21; 22; 11; 13; 14; 15; 16; 17; 18; 19; 20; 12; 5; 7; 9; 3; 6; 8; 10;
            4; 0] in
  footprint cfg s2 (Ptr 0) = Some l /\
  exists s',
    p7_hmm_ScoreDataDestroy cfg (Ptr 0) s2 = Done tt s' /\
    p7_hmm_ScoreDataDestroy cfg (Ptr 0) s' = Undef.
Proof.
  intros l.
  assert (Hfp : footprint cfg s2 (Ptr 0) = Some l) by (vm_compute; reflexivity).
  split; [exact Hfp |].
  destruct (destroy_twice_is_undefined cfg s2 0 l Hfp) as (s' & Hrun & _ & Hundef).
  - apply (bool_decide_unpack _). vm_compute. exact I.
  - apply Forall_forall. apply (bool_decide_unpack _). vm_compute. exact I.
  - intros d Hd. vm_compute in Hd. injection Hd as <-. reflexivity.
  - exists s'. split; [exact Hrun | exact Hundef].
Defined.

(** the whole life of the example buffer, in each mode *)
Lemma lifecycle_witness :
  fresh_above s0 /\ never_fails s0 /\
  (exists s', lifecycle cfg OneSlot om (Some gm) s0 = Done tt s' /\ heap s' !! 0 = None) /\
  (exists s', lifecycle cfg OneSlot om None s0 = Done tt s' /\ heap s' !! 0 = None).
Proof.
  split; [apply initial_fresh_above |]. split; [apply initial_never_fails |].
  split.
  - destruct (lifecycle_restores_heap cfg om (Some gm) s0) as ([] & s' & Hrun & Hheap);
      [simpl; lia | simpl; lia | simpl; lia | simpl; lia | apply initial_fresh_above
      | apply initial_never_fails |].
    exists s'. split; [exact Hrun |]. rewrite Hheap. apply lookup_empty.
  - destruct (lifecycle_restores_heap cfg om None s0) as ([] & s' & Hrun & Hheap);
      [simpl; lia | simpl; lia | simpl; lia | simpl; lia | apply initial_fresh_above
      | apply initial_never_fails |].
    exists s'. split; [exact Hrun |]. rewrite Hheap. apply lookup_empty.
Defined.

(** ComputeRest twice on the standard-mode buffer: the blocks 2 to 13 of
    the first call outlive Destroy *)
Lemma rest_twice_witness :
  built cfg s0 s1 (Ptr 0) [1; 0] /\
  exists s',
    (p7_hmm_ScoreDataComputeRest cfg om (Ptr 0);;
     p7_hmm_ScoreDataComputeRest cfg om (Ptr 0);;
     p7_hmm_ScoreDataDestroy cfg (Ptr 0)) s1 = Done tt s' /\
    is_Some (heap s' !! 2) /\ is_Some (heap s' !! 13) /\ heap s' !! 0 = None.
Proof.
  destruct s1_built as (Hb & Hd & Hf).
  split; [exact Hb |].
  destruct (compute_rest_twice_leaks cfg om s0 s1 0 _ [1; 0] Hb Hd eq_refl eq_refl eq_refl
              eq_refl Witnesses.s1_never_fails Hf)
    as ([] & s' & Hrun & Hleak & Hrest).
  - simpl. lia.
  - simpl. lia.
  - simpl. lia.
  - exists s'. split; [exact Hrun |].
    split; [apply Hleak; vm_compute; lia |].
    split; [apply Hleak; vm_compute; lia |].
    rewrite Hrest; [apply lookup_empty | vm_compute; lia].
Defined.
End Instances.
